(** * ReptiAI backend and mobile auth context: a shallow embedding

    The REST backend (Fastify routes over a Postgres store accessed through
    drizzle) and the mobile client's session restoration are embedded as
    pure functions over an explicit database state.  Everything the code
    obtains from its environment (the clock, generated identifiers, bcrypt,
    the JavaScript [Date] constructor, zod's error map, the timestamps
    Postgres reads and its collation of text) is passed in explicitly. *)

From Stdlib Require Import List String Ascii ZArith Bool Lia DecimalString.
From Stdlib Require Import Permutation Sorted Floats.
Import ListNotations.
Local Open Scope string_scope.
Local Open Scope Z_scope.
Local Open Scope list_scope.

Set Implicit Arguments.

(* ================================================================= *)
(** ** JavaScript strings *)

(** Strings are sequences of code units below 256. *)
Module Js.

Definition code (c : ascii) : N := N_of_ascii c.

(** White space and line terminators removed by [String.prototype.trim]. *)
Definition is_space (c : ascii) : bool :=
  let n := code c in
  ((9 <=? n) && (n <=? 13) || (n =? 32) || (n =? 160))%N.

Fixpoint trimStart (s : string) : string :=
  match s with
  | String c s' => if is_space c then trimStart s' else s
  | EmptyString => EmptyString
  end.

(** [trimEnd] keeps a character when it is not a space or when something
    that survives follows it. *)
Fixpoint trimEnd (s : string) : string :=
  match s with
  | String c s' =>
      match trimEnd s' with
      | EmptyString => if is_space c then EmptyString else String c EmptyString
      | t => String c t
      end
  | EmptyString => EmptyString
  end.

Definition trim (s : string) : string := trimEnd (trimStart s).

Definition lower_char (c : ascii) : ascii :=
  let n := code c in
  if ((65 <=? n) && (n <=? 90))%N then ascii_of_N (n + 32)
  else if ((192 <=? n) && (n <=? 222) && negb (n =? 215))%N then ascii_of_N (n + 32)
  else c.

Fixpoint toLowerCase (s : string) : string :=
  match s with
  | String c s' => String (lower_char c) (toLowerCase s')
  | EmptyString => EmptyString
  end.

(** [s.split(sep)] for a one-character separator: never returns an empty
    list. *)
Fixpoint split (sep : ascii) (s : string) : list string :=
  match s with
  | EmptyString => [EmptyString]
  | String c s' =>
      if Ascii.eqb c sep then EmptyString :: split sep s'
      else match split sep s' with
           | w :: ws => String c w :: ws
           | [] => [String c EmptyString]
           end
  end.

Definition length (s : string) : Z := Z.of_nat (String.length s).

(** Truthiness of a string value. *)
Definition truthy (s : string) : bool := negb (s =? "")%string.

Fixpoint all_chars (p : ascii -> bool) (s : string) : bool :=
  match s with
  | String c s' => p c && all_chars p s'
  | EmptyString => true
  end.

Definition is_digit (c : ascii) : bool := ((48 <=? code c) && (code c <=? 57))%N.
Definition is_alpha (c : ascii) : bool :=
  ((65 <=? code c) && (code c <=? 90) || (97 <=? code c) && (code c <=? 122))%N.
Definition is_hex (c : ascii) : bool :=
  (is_digit c || (65 <=? code c) && (code c <=? 70) || (97 <=? code c) && (code c <=? 102))%N.

(** Numbers are IEEE 754 doubles. *)
Definition number : Set := float.

(** [parts.join(sep)] *)
Fixpoint join (sep : string) (parts : list string) : string :=
  match parts with
  | [] => EmptyString
  | [x] => x
  | x :: rest => x ++ sep ++ join sep rest
  end.

(** The double quote. *)
Definition quote : string := String (ascii_of_nat 34) EmptyString.

End Js.

(* ================================================================= *)
(** ** JSON values *)

#[warnings="-register-all"]
Inductive json : Type :=
| JNull
| JBool (b : bool)
| JNum (n : Js.number)
| JStr (s : string)
| JArr (items : list json)
| JObj (fields : list (string * json)).

Definition obj := list (string * json).

(** Property read [o[k]]; [None] is [undefined]. *)
Fixpoint get (k : string) (o : obj) : option json :=
  match o with
  | [] => None
  | (k', v) :: o' => if (k' =? k)%string then Some v else get k o'
  end.

Definition field (k : string) (j : json) : option json :=
  match j with
  | JObj o => get k o
  | _ => None
  end.

(** Does the key occur anywhere in the value, at any depth? *)
Fixpoint has_key (k : string) (j : json) : bool :=
  match j with
  | JArr items => existsb (has_key k) items
  | JObj fields => existsb (fun kv => (fst kv =? k)%string || has_key k (snd kv)) fields
  | _ => false
  end.

Definition nullable {A} (f : A -> json) (o : option A) : json :=
  match o with Some a => f a | None => JNull end.

(* ================================================================= *)
(** ** What the code takes from its environment *)

(** [getParsedType] of zod, on the values a parsed JSON body, the query
    and the path parameters can hold. *)
Module ZodParsedType.
Inductive t :=
| undefined | null | boolean | nan | number | string | array | object.
End ZodParsedType.

Definition getParsedType (v : option json) : ZodParsedType.t :=
  match v with
  | None => ZodParsedType.undefined
  | Some JNull => ZodParsedType.null
  | Some (JBool _) => ZodParsedType.boolean
  | Some (JNum n) => if PrimFloat.is_nan n then ZodParsedType.nan else ZodParsedType.number
  | Some (JStr _) => ZodParsedType.string
  | Some (JArr _) => ZodParsedType.array
  | Some (JObj _) => ZodParsedType.object
  end.

(** The code of an issue together with the fields zod attaches to an
    issue of that code, from which the error map writes the message. *)
Module ZodIssueCode.
Inductive Measured := a_string | a_number.
Inductive StringValidation := uuid | regex.
Inductive IssueCode :=
| invalid_type (expected : string) (received : ZodParsedType.t)
| invalid_enum_value (options : list string) (received : string)
| too_small (type : Measured) (minimum : Z) (inclusive : bool)
| too_big (type : Measured) (maximum : Z) (inclusive : bool)
| invalid_string (validation : StringValidation)
| invalid_date
| not_finite
| custom.
End ZodIssueCode.

(** The JavaScript runtime and the libraries' behaviour that the source
    relies on without defining it. *)
Record Runtime := {
  (** [new Date(v).getTime()], [None] for an invalid date (NaN) *)
  new_Date : json -> option Z;
  (** [Date.prototype.toISOString] *)
  toISOString : Z -> string;
  (** zod's error map: the message of an issue without a custom message *)
  errorMap : ZodIssueCode.IssueCode -> string;
  (** [bcrypt.hash(password, salt)] and [bcrypt.compare(password, hash)] *)
  bcrypt_hash : string -> string -> string;
  bcrypt_compare : string -> string -> bool;
  (** [env.SESSION_TTL_HOURS] *)
  SESSION_TTL_HOURS : Z;
  (** A time sent for a [timestamp] column travels as its [toISOString]
      text: the message of the error Postgres raises on reading it, [None]
      when it reads it. *)
  timestamp_in : Z -> option string;
  (** The collation of the database: does the first text sort at or
      before the second? *)
  collate : string -> string -> bool
}.

(** Per-request values drawn from the outside world. *)
Record Env := {
  now : Z;          (** [Date.now()] / [new Date()] in the handler *)
  db_now : Z;       (** [now()] column default at the handler's INSERT *)
  db_now_session : Z; (** [now()] column default at the INSERT of [createSession] *)
  uuid : string;    (** [gen_random_uuid()] column default *)
  token : string;   (** [randomBytes(32).toString('hex')] *)
  salt : string     (** [bcrypt.genSalt(PASSWORD_SALT_ROUNDS)] *)
}.

(* ================================================================= *)
(** ** zod schemas *)

Module Zod.
Import ZodIssueCode.

Record ZodIssue := {
  code : IssueCode;
  path : list string;
  message : option string
}.

(** Outcome of parsing one value: the issues raised and, unless parsing
    aborted, the output value.  A parse is valid when there are no issues. *)
Definition Parsed (A : Type) : Type := list ZodIssue * option A.

Definition Schema (A : Type) : Type := option json -> Parsed A.

Definition issue (c : IssueCode) (m : option string) : ZodIssue :=
  {| code := c; path := []; message := m |}.

Definition valid {A} (a : A) : Parsed A := ([], Some a).
Definition aborted {A} (c : IssueCode) : Parsed A := ([issue c None], None).

Definition pmap {A B} (f : A -> B) (p : Parsed A) : Parsed B :=
  (fst p, option_map f (snd p)).

(** A non-fatal check added to a schema: it runs on the output of the
    checks before it. *)
Definition check {A} (ok : A -> bool) (c : IssueCode) (m : option string)
    (s : Schema A) : Schema A :=
  fun v =>
    let p := s v in
    match snd p with
    | Some a => if ok a then p else (fst p ++ [issue c m], Some a)
    | None => p
    end.

Definition string_ : Schema string :=
  fun v => match v with
           | Some (JStr s) => valid s
           | _ => aborted (invalid_type "string" (getParsedType v))
           end.

Definition trim (s : Schema string) : Schema string :=
  fun v => pmap Js.trim (s v).

Definition min (n : Z) (m : option string) : Schema string -> Schema string :=
  check (fun s => n <=? Js.length s) (too_small a_string n true) m.

Definition max (n : Z) (m : option string) : Schema string -> Schema string :=
  check (fun s => Js.length s <=? n) (too_big a_string n true) m.

(** The pattern behind [.uuid()]: five groups of hexadecimal digits of
    lengths 8, 4, 4, 4 and 12 separated by dashes, in either case. *)
Definition is_uuid (s : string) : bool :=
  let groups := Js.split "-"%char s in
  forallb (Js.all_chars Js.is_hex) groups
  && match map String.length groups with
     | [8; 4; 4; 4; 12]%nat => true
     | _ => false
     end.

Definition uuid_ : Schema string -> Schema string :=
  check is_uuid (invalid_string uuid) None.

Definition regex (p : string -> bool) (m : option string)
  : Schema string -> Schema string :=
  check p (invalid_string ZodIssueCode.regex) m.

Definition boolean : Schema bool :=
  fun v => match v with
           | Some (JBool b) => valid b
           | _ => aborted (invalid_type "boolean" (getParsedType v))
           end.

(** [z.number()] refuses NaN, not the infinities. *)
Definition number : Schema Js.number :=
  fun v => match v with
           | Some (JNum n) =>
               if PrimFloat.is_nan n
               then aborted (invalid_type "number" ZodParsedType.nan)
               else valid n
           | _ => aborted (invalid_type "number" (getParsedType v))
           end.

(** [.finite()]: [Number.isFinite] *)
Definition finite : Schema Js.number -> Schema Js.number :=
  check PrimFloat.is_finite not_finite None.

(** [.positive()]: the number is too small when it is [<= 0]. *)
Definition positive : Schema Js.number -> Schema Js.number :=
  check (fun n => negb (PrimFloat.leb n 0)) (too_small a_number 0 false) None.

(** [z.coerce.date()]: the input goes through [new Date(input)]. *)
Definition coerce_date (rt : Runtime) : Schema Z :=
  fun v => match v with
           | Some j => match new_Date rt j with
                       | Some t => valid t
                       | None => aborted invalid_date
                       end
           | None => aborted invalid_date
           end.

(** [util.joinValues]: the values between single quotes, separated by
    bars. *)
Definition joinValues (values : list string) : string :=
  Js.join " | " (map (fun v => ("'" ++ v ++ "'")%string) values).

Definition enum (values : list string) : Schema string :=
  fun v => match v with
           | Some (JStr s) =>
               if existsb (String.eqb s) values then valid s
               else aborted (invalid_enum_value values s)
           | _ => aborted (invalid_type (joinValues values) (getParsedType v))
           end.

Definition optional {A} (s : Schema A) : Schema (option A) :=
  fun v => match v with
           | None => valid None
           | Some _ => pmap Some (s v)
           end.

Definition nullable {A} (s : Schema A) : Schema (option A) :=
  fun v => match v with
           | Some JNull => valid None
           | _ => pmap Some (s v)
           end.

(** Parsing the property [k] of an object: issues get [k] in front of
    their path. *)
Definition prop {A} (k : string) (s : Schema A) (o : obj) : Parsed A :=
  let p := s (get k o) in
  (map (fun i => {| code := code i; path := k :: path i; message := message i |}) (fst p),
   snd p).

(** Property results are merged left to right; the object aborts when
    one of its properties did. *)
Definition ap {A B} (f : Parsed (A -> B)) (x : Parsed A) : Parsed B :=
  (fst f ++ fst x,
   match snd f, snd x with
   | Some g, Some a => Some (g a)
   | _, _ => None
   end).

(** [z.object(shape)]: the input must be an object (not null, not an
    array); unknown keys are stripped. *)
Definition object {A} (shape : obj -> Parsed A) : Schema A :=
  fun v => match v with
           | Some (JObj o) => shape o
           | _ => aborted (invalid_type "object" (getParsedType v))
           end.

(** [.superRefine] / [.refine]: runs on the output unless the inner
    schema aborted. *)
Definition superRefine {A} (r : A -> list ZodIssue) (s : Schema A) : Schema A :=
  fun v =>
    let p := s v in
    match snd p with
    | Some a => (fst p ++ r a, Some a)
    | None => p
    end.

Inductive SafeParse (A : Type) :=
| success (data : A)
| failure (error : list ZodIssue).
Arguments success {A} data.
Arguments failure {A} error.

Definition safeParse {A} (s : Schema A) (v : option json) : SafeParse A :=
  match s v with
  | ([], Some a) => success a
  | (issues, _) => failure issues
  end.

(** The message of an issue: the one given with the check, else the
    error map's. *)
Definition render (rt : Runtime) (i : ZodIssue) : json :=
  JStr (match message i with Some m => m | None => errorMap rt (code i) end).

(** [error.flatten()] *)

Fixpoint push_field (k : string) (m : json) (acc : list (string * list json)) :=
  match acc with
  | [] => [(k, [m])]
  | (k', ms) :: acc' =>
      if (k' =? k)%string then (k', ms ++ [m]) :: acc'
      else (k', ms) :: push_field k m acc'
  end.

Definition fieldErrors (rt : Runtime) (issues : list ZodIssue) : list (string * list json) :=
  fold_left (fun acc i => match path i with
                          | k :: _ => push_field k (render rt i) acc
                          | [] => acc
                          end) issues [].

Definition formErrors (rt : Runtime) (issues : list ZodIssue) : list json :=
  map (render rt) (filter (fun i => match path i with [] => true | _ => false end) issues).

Definition flatten (rt : Runtime) (issues : list ZodIssue) : json :=
  JObj [("formErrors", JArr (formErrors rt issues));
        ("fieldErrors", JObj (map (fun km => (fst km, JArr (snd km))) (fieldErrors rt issues)))].

End Zod.

Notation "x |> f" := (f x) (at level 45, left associativity, only parsing).
Notation "f <*> x" := (Zod.ap f x) (at level 50, left associativity).

(* ================================================================= *)
(** ** The relational store *)

(** Rows of the six tables, columns named as in the drizzle schema.
    Timestamps are milliseconds since the epoch; nullable columns are
    options; uuid columns hold the canonical (lower-case) text. *)

Module User.
Record t := {
  id : string; username : string; passwordHash : string; role : string;
  isActive : bool; createdAt : Z; updatedAt : Z
}.
End User.

Module Session.
Record t := { id : string; userId : string; expiresAt : Z; createdAt : Z }.
End Session.

Module Animal.
Record t := {
  id : string; userId : string; name : string; species : option string;
  description : option string; birthDate : option Z; sex : option string;
  createdAt : Z; updatedAt : Z
}.
End Animal.

Module FeedingRecord.
Record t := {
  id : string; userId : string; animalId : option string; feedingDate : Z;
  consumed : string; foodType : option string; quantity : option string;
  notes : option string; weight : option Js.number; createdAt : Z; updatedAt : Z
}.
End FeedingRecord.

Module MeasurementLog.
Record t := {
  id : string; userId : string; animalId : option string; metricType : string;
  value : option Js.number; unit : option string; notes : option string;
  recordedAt : Z; createdAt : Z; updatedAt : Z
}.
End MeasurementLog.

Module Reminder.
Record t := {
  id : string; userId : string; animalId : option string; title : string;
  notes : option string; isReminder : bool; dueDate : option Z;
  isCompleted : bool; notificationId : option string;
  createdAt : Z; updatedAt : Z
}.
End Reminder.

Record Db := {
  user : list User.t;
  session : list Session.t;
  animal : list Animal.t;
  feedingRecord : list FeedingRecord.t;
  measurementLog : list MeasurementLog.t;
  reminder : list Reminder.t
}.

Inductive DbError :=
| unique_violation (constraint : string)
| foreign_key_violation (constraint : string)
| check_violation (constraint : string)
| invalid_parameter (message : string).

(** A statement either fails, on a value it is sent or on a constraint,
    leaving the store as it was, or returns its rows and the new store. *)
Definition Query (A : Type) : Type := Db -> DbError + (A * Db).

Module Pg.

(** Text sent for a uuid column is read case-insensitively. *)
Definition uuid_in (s : string) : string := Js.toLowerCase s.

Definition eq (a b : string) : bool := String.eqb a b.

Definition eq_opt (a : option string) (b : string) : bool :=
  match a with Some x => String.eqb x b | None => false end.

Definition has {A} (key : A -> string) (k : string) (rows : list A) : bool :=
  existsb (fun r => eq (key r) k) rows.

(** A nullable reference is satisfied by NULL. *)
Definition refers {A} (key : A -> string) (k : option string) (rows : list A) : bool :=
  match k with Some x => has key x rows | None => true end.

(** The values of a statement that Postgres may refuse when it reads
    them: text, which must not hold the character of code zero, and times
    for [timestamp] columns.  Identifiers have passed the uuid schema,
    booleans and doubles are always read, and NULL is no value. *)
Inductive Param :=
| text (s : string)
| timestamp (t : Z).

Definition null_or {A} (f : A -> Param) (o : option A) : list Param :=
  match o with Some a => [f a] | None => [] end.

Definition has_nul (s : string) : bool :=
  negb (Js.all_chars (fun c => negb (Js.code c =? 0)%N) s).

Definition nul_message : string :=
  "invalid byte sequence for encoding " ++ Js.quote ++ "UTF8" ++ Js.quote ++ ": 0x00".

Definition refused (rt : Runtime) (p : Param) : option DbError :=
  match p with
  | text s => if has_nul s then Some (invalid_parameter nul_message) else None
  | timestamp t => option_map invalid_parameter (timestamp_in rt t)
  end.

(** The error of the first value that is refused. *)
Fixpoint first_refused (rt : Runtime) (ps : list Param) : option DbError :=
  match ps with
  | [] => None
  | p :: ps' =>
      match refused rt p with
      | Some e => Some e
      | None => first_refused rt ps'
      end
  end.

(** A statement with its values: the values are read before the
    statement runs. *)
Definition bound {A} (rt : Runtime) (ps : list Param) (q : Query A) : Query A :=
  fun db => match first_refused rt ps with
            | Some e => inl e
            | None => q db
            end.

(** A SELECT with values in its WHERE clause. *)
Definition select_where {A} (rt : Runtime) (ps : list Param) (f : Db -> A) : Query A :=
  bound rt ps (fun db => inr (f db, db)).

Definition insert_user (u : User.t) : Query User.t := fun db =>
  if has User.id (User.id u) (user db) then inl (unique_violation "user_pkey")
  else if has User.username (User.username u) (user db)
  then inl (unique_violation "user_username_unique")
  else inr (u, {| user := user db ++ [u]; session := session db; animal := animal db;
                  feedingRecord := feedingRecord db;
                  measurementLog := measurementLog db; reminder := reminder db |}).

Definition insert_session (s : Session.t) : Query Session.t := fun db =>
  if has Session.id (Session.id s) (session db) then inl (unique_violation "session_pkey")
  else if negb (has User.id (Session.userId s) (user db))
  then inl (foreign_key_violation "session_user_id_user_id_fk")
  else inr (s, {| user := user db; session := session db ++ [s]; animal := animal db;
                  feedingRecord := feedingRecord db;
                  measurementLog := measurementLog db; reminder := reminder db |}).

Definition same_user_name (a b : Animal.t) : bool :=
  eq (Animal.userId a) (Animal.userId b) && eq (Animal.name a) (Animal.name b).

(** The values of an INSERT, in the order of the table's columns; the
    columns left to their defaults send none. *)
Definition animal_values (a : Animal.t) : list Param :=
  [text (Animal.name a)] ++ null_or text (Animal.species a)
  ++ null_or text (Animal.description a) ++ null_or timestamp (Animal.birthDate a)
  ++ null_or text (Animal.sex a).

Definition feedingRecord_values (r : FeedingRecord.t) : list Param :=
  [timestamp (FeedingRecord.feedingDate r); text (FeedingRecord.consumed r)]
  ++ null_or text (FeedingRecord.foodType r) ++ null_or text (FeedingRecord.quantity r)
  ++ null_or text (FeedingRecord.notes r).

Definition measurementLog_values (r : MeasurementLog.t) : list Param :=
  [text (MeasurementLog.metricType r)] ++ null_or text (MeasurementLog.unit r)
  ++ null_or text (MeasurementLog.notes r) ++ [timestamp (MeasurementLog.recordedAt r)].

Definition reminder_values (r : Reminder.t) : list Param :=
  [text (Reminder.title r)] ++ null_or text (Reminder.notes r)
  ++ null_or timestamp (Reminder.dueDate r) ++ null_or text (Reminder.notificationId r).

Definition insert_animal (rt : Runtime) (a : Animal.t) : Query Animal.t :=
  bound rt (animal_values a) (fun db =>
  if has Animal.id (Animal.id a) (animal db) then inl (unique_violation "animal_pkey")
  else if negb (has User.id (Animal.userId a) (user db))
  then inl (foreign_key_violation "animal_user_id_user_id_fk")
  else if existsb (same_user_name a) (animal db)
  then inl (unique_violation "animal_user_name_unique")
  else inr (a, {| user := user db; session := session db; animal := animal db ++ [a];
                  feedingRecord := feedingRecord db;
                  measurementLog := measurementLog db; reminder := reminder db |})).

Definition insert_feedingRecord (rt : Runtime) (r : FeedingRecord.t)
  : Query FeedingRecord.t :=
  bound rt (feedingRecord_values r) (fun db =>
  if has FeedingRecord.id (FeedingRecord.id r) (feedingRecord db)
  then inl (unique_violation "feeding_record_pkey")
  else if negb (has User.id (FeedingRecord.userId r) (user db))
  then inl (foreign_key_violation "feeding_record_user_id_user_id_fk")
  else if negb (refers Animal.id (FeedingRecord.animalId r) (animal db))
  then inl (foreign_key_violation "feeding_record_animal_id_animal_id_fk")
  else if negb (existsb (String.eqb (FeedingRecord.consumed r)) ["fully"; "partially"; "refused"])
  then inl (check_violation "consumed_check")
  else inr (r, {| user := user db; session := session db; animal := animal db;
                  feedingRecord := feedingRecord db ++ [r];
                  measurementLog := measurementLog db; reminder := reminder db |})).

Definition insert_measurementLog (rt : Runtime) (r : MeasurementLog.t)
  : Query MeasurementLog.t :=
  bound rt (measurementLog_values r) (fun db =>
  if has MeasurementLog.id (MeasurementLog.id r) (measurementLog db)
  then inl (unique_violation "measurement_log_pkey")
  else if negb (has User.id (MeasurementLog.userId r) (user db))
  then inl (foreign_key_violation "measurement_log_user_id_user_id_fk")
  else if negb (refers Animal.id (MeasurementLog.animalId r) (animal db))
  then inl (foreign_key_violation "measurement_log_animal_id_animal_id_fk")
  else inr (r, {| user := user db; session := session db; animal := animal db;
                  feedingRecord := feedingRecord db;
                  measurementLog := measurementLog db ++ [r]; reminder := reminder db |})).

Definition insert_reminder (rt : Runtime) (r : Reminder.t) : Query Reminder.t :=
  bound rt (reminder_values r) (fun db =>
  if has Reminder.id (Reminder.id r) (reminder db)
  then inl (unique_violation "reminder_pkey")
  else if negb (has User.id (Reminder.userId r) (user db))
  then inl (foreign_key_violation "reminder_user_id_user_id_fk")
  else if negb (refers Animal.id (Reminder.animalId r) (animal db))
  then inl (foreign_key_violation "reminder_animal_id_animal_id_fk")
  else inr (r, {| user := user db; session := session db; animal := animal db;
                  feedingRecord := feedingRecord db;
                  measurementLog := measurementLog db; reminder := reminder db ++ [r] |})).

(** Rows a DELETE keeps. *)
Definition keep {A} (p : A -> bool) (rows : list A) : list A :=
  filter (fun r => negb (p r)) rows.

(** Does a nullable reference point at one of the rows being deleted? *)
Definition hits {A} (key : A -> string) (gone : list A) (k : option string) : bool :=
  match k with Some x => has key x gone | None => false end.

Definition delete_session (p : Session.t -> bool) : Query (list Session.t) := fun db =>
  inr (filter p (session db),
       {| user := user db; session := keep p (session db); animal := animal db;
          feedingRecord := feedingRecord db;
          measurementLog := measurementLog db; reminder := reminder db |}).

Definition delete_feedingRecord (p : FeedingRecord.t -> bool)
  : Query (list FeedingRecord.t) := fun db =>
  inr (filter p (feedingRecord db),
       {| user := user db; session := session db; animal := animal db;
          feedingRecord := keep p (feedingRecord db);
          measurementLog := measurementLog db; reminder := reminder db |}).

Definition delete_measurementLog (p : MeasurementLog.t -> bool)
  : Query (list MeasurementLog.t) := fun db =>
  inr (filter p (measurementLog db),
       {| user := user db; session := session db; animal := animal db;
          feedingRecord := feedingRecord db;
          measurementLog := keep p (measurementLog db); reminder := reminder db |}).

Definition delete_reminder (p : Reminder.t -> bool) : Query (list Reminder.t) := fun db =>
  inr (filter p (reminder db),
       {| user := user db; session := session db; animal := animal db;
          feedingRecord := feedingRecord db;
          measurementLog := measurementLog db; reminder := keep p (reminder db) |}).

(** DELETE on [animal]: the three child tables reference [animal.id] with
    ON DELETE cascade (migration 0005). *)
Definition delete_animal (p : Animal.t -> bool) : Query (list Animal.t) := fun db =>
  let gone := filter p (animal db) in
  inr (gone,
       {| user := user db; session := session db; animal := keep p (animal db);
          feedingRecord :=
            keep (fun r => hits Animal.id gone (FeedingRecord.animalId r)) (feedingRecord db);
          measurementLog :=
            keep (fun r => hits Animal.id gone (MeasurementLog.animalId r)) (measurementLog db);
          reminder :=
            keep (fun r => hits Animal.id gone (Reminder.animalId r)) (reminder db) |}).

(** DELETE on [user]: session, animal, feeding_record, measurement_log and
    reminder reference [user.id] with ON DELETE cascade; deleting the
    user's animals cascades in turn to the rows referencing them. *)
Definition delete_user (p : User.t -> bool) : Query (list User.t) := fun db =>
  let gone := filter p (user db) in
  let owned (uid : string) := has User.id uid gone in
  let animals_gone := filter (fun a => owned (Animal.userId a)) (animal db) in
  inr (gone,
       {| user := keep p (user db);
          session := keep (fun s => owned (Session.userId s)) (session db);
          animal := keep (fun a => owned (Animal.userId a)) (animal db);
          feedingRecord :=
            keep (fun r => owned (FeedingRecord.userId r)
                           || hits Animal.id animals_gone (FeedingRecord.animalId r))
                 (feedingRecord db);
          measurementLog :=
            keep (fun r => owned (MeasurementLog.userId r)
                           || hits Animal.id animals_gone (MeasurementLog.animalId r))
                 (measurementLog db);
          reminder :=
            keep (fun r => owned (Reminder.userId r)
                           || hits Animal.id animals_gone (Reminder.animalId r))
                 (reminder db) |}).

(** UPDATE ... SET ... WHERE p RETURNING * with the values [sent] in the
    SET clause: the unique index on (user_id, name) is checked for every
    row written. *)
Definition update_animal (rt : Runtime) (sent : list Param)
    (p : Animal.t -> bool) (set : Animal.t -> Animal.t)
  : Query (list Animal.t) :=
  bound rt sent (fun db =>
  let clash (r : Animal.t) :=
    existsb (fun q => negb (eq (Animal.id q) (Animal.id r)) && same_user_name (set r) q)
            (animal db) in
  if existsb clash (filter p (animal db))
  then inl (unique_violation "animal_user_name_unique")
  else inr (map set (filter p (animal db)),
            {| user := user db; session := session db;
               animal := map (fun r => if p r then set r else r) (animal db);
               feedingRecord := feedingRecord db;
               measurementLog := measurementLog db; reminder := reminder db |})).

Definition update_reminder (rt : Runtime) (sent : list Param)
    (p : Reminder.t -> bool) (set : Reminder.t -> Reminder.t)
  : Query (list Reminder.t) :=
  bound rt sent (fun db =>
  if existsb (fun r => negb (refers Animal.id (Reminder.animalId (set r)) (animal db)))
             (filter p (reminder db))
  then inl (foreign_key_violation "reminder_animal_id_animal_id_fk")
  else inr (map set (filter p (reminder db)),
            {| user := user db; session := session db; animal := animal db;
               feedingRecord := feedingRecord db;
               measurementLog := measurementLog db;
               reminder := map (fun r => if p r then set r else r) (reminder db) |})).

(** ORDER BY: a stable insertion sort; [before a b] says that [a] may
    come before [b]. *)
Section OrderBy.
Context {A : Type} (before : A -> A -> bool).

Fixpoint place (x : A) (l : list A) : list A :=
  match l with
  | [] => [x]
  | y :: l' => if before x y then x :: l else y :: place x l'
  end.

Fixpoint orderBy (l : list A) : list A :=
  match l with
  | [] => []
  | x :: l' => place x (orderBy l')
  end.

End OrderBy.

(** [desc(c1), desc(c2)] on two timestamp columns. *)
Definition desc2 {A} (c1 c2 : A -> Z) (a b : A) : bool :=
  (c1 b <? c1 a) || ((c1 a =? c1 b) && (c2 b <=? c2 a)).

(** DESC puts NULL first. *)
Definition desc_nulls (a b : option Z) : comparison :=
  match a, b with
  | None, None => Eq
  | None, Some _ => Lt
  | Some _, None => Gt
  | Some x, Some y => y ?= x
  end.

Definition desc_null2 {A} (c1 : A -> option Z) (c2 : A -> Z) (a b : A) : bool :=
  match desc_nulls (c1 a) (c1 b) with
  | Lt => true
  | Eq => c2 b <=? c2 a
  | Gt => false
  end.

Definition limit {A} (n : nat) (rows : list A) : list A := firstn n rows.

End Pg.

(* ================================================================= *)
(** ** Requests, replies and handlers *)

Inductive Method := GET | POST | PATCH | DELETE | PUT.

(** A request as the handler sees it: [raw_url] is [request.url], [url]
    the segments of its path, [params] is filled in by the router, [query]
    is the parsed query string, [body] the parsed JSON body ([None] when
    the request has none). *)
Record Request := {
  method : Method;
  raw_url : string;
  url : list string;
  authorization : option string;
  params : obj;
  query : json;
  body : option json
}.

Record Reply := { code : Z; payload : json }.

(** A handler threads the store and may reply early; what follows an
    early reply does not run. *)
Definition Handler (A : Type) : Type := Db -> (Reply + A) * Db.

Definition ret {A} (a : A) : Handler A := fun db => (inr a, db).

Definition bind {A B} (m : Handler A) (k : A -> Handler B) : Handler B :=
  fun db => match m db with
            | (inl r, db') => (inl r, db')
            | (inr a, db') => k a db'
            end.

Notation "x <- m ;; k" := (bind m (fun x => k))
  (at level 61, m at next level, right associativity).
Notation "m ;; k" := (bind m (fun _ => k))
  (at level 61, right associativity).

(** [reply.code(c).send(payload); return] *)
Definition send {A} (c : Z) (p : json) : Handler A :=
  fun db => (inl {| code := c; payload := p |}, db).

Definition error_body (msg : string) : json := JObj [("error", JStr msg)].

Definition pg_message (e : DbError) : string :=
  match e with
  | unique_violation c => "duplicate key value violates unique constraint " ++ c
  | foreign_key_violation c => "insert or update violates foreign key constraint " ++ c
  | check_violation c => "new row violates check constraint " ++ c
  | invalid_parameter m => m
  end%string.

(** A statement that throws rejects the handler's promise; Fastify then
    answers 500. *)
Definition server_error (e : DbError) : Reply :=
  {| code := 500;
     payload := JObj [("statusCode", JNum 500%float);
                      ("error", JStr "Internal Server Error");
                      ("message", JStr (pg_message e))] |}.

Definition exec {A} (q : Query A) : Handler A :=
  fun db => match q db with
            | inl e => (inl (server_error e), db)
            | inr (a, db') => (inr a, db')
            end.

(** A SELECT. *)
Definition select {A} (f : Db -> A) : Handler A := fun db => (inr (f db), db).

(** A route handler ends by sending: it has no other way to finish. *)
Definition Sent : Type := Empty_set.

Definition run (h : Handler Sent) (db : Db) : Reply * Db :=
  match h db with
  | (inl r, db') => (r, db')
  | (inr e, _) => match e with end
  end.

Definition reply {A} (c : Z) (p : json) : Handler A := send c p.

(* ================================================================= *)
(** ** auth/index.ts and auth/session.ts *)

Definition hashPassword (rt : Runtime) (env : Env) (password : string) : string :=
  bcrypt_hash rt password (salt env).

Definition verifyPassword (rt : Runtime) (password hash : string) : bool :=
  bcrypt_compare rt password hash.

Definition normalizeUsername (username : string) : string :=
  Js.toLowerCase (Js.trim username).

Definition generateSessionToken (env : Env) : string := token env.

(** A selected [user] row as a JavaScript object; the two dates appear
    as they are serialized in a reply. *)
Definition user_object (rt : Runtime) (u : User.t) : obj :=
  [("id", JStr (User.id u));
   ("username", JStr (User.username u));
   ("passwordHash", JStr (User.passwordHash u));
   ("role", JStr (User.role u));
   ("isActive", JBool (User.isActive u));
   ("createdAt", JStr (toISOString rt (User.createdAt u)));
   ("updatedAt", JStr (toISOString rt (User.updatedAt u)))].

(** [const { passwordHash: _passwordHash, ...rest } = user; return rest] *)
Definition toPublicUser (user : obj) : obj :=
  filter (fun kv => negb (fst kv =? "passwordHash")%string) user.

Record AuthenticatedContext := {
  ctx_session : Session.t;
  ctx_user : User.t
}.

Definition extractToken (header : option string) : option string :=
  match header with
  | None => None
  | Some h =>
      if negb (Js.truthy h) then None
      else match Js.split " "%char h with
           | scheme :: rest =>
               match rest with
               | value :: _ =>
                   if negb (Js.toLowerCase scheme =? "bearer")%string
                      || negb (Js.truthy value)
                   then None
                   else Some (Js.trim value)
               | [] => None
               end
           | [] => None
           end
  end.

(** The session row with the given id joined with its user, first match. *)
Definition session_join (token : string) (db : Db) : option (Session.t * User.t) :=
  hd_error
    (flat_map (fun s =>
                 map (fun u => (s, u))
                     (filter (fun u => Pg.eq (Session.userId s) (User.id u)) (user db)))
              (filter (fun s => Pg.eq (Session.id s) token) (session db))).

Definition getActiveSessionByToken (env : Env) (token : string)
  : Handler (option AuthenticatedContext) :=
  record <- select (session_join token) ;;
  match record with
  | None => ret None
  | Some (s, u) =>
      if (Session.expiresAt s <=? now env) || negb (User.isActive u)
      then exec (Pg.delete_session (fun r => Pg.eq (Session.id r) token)) ;;
           ret None
      else ret (Some {| ctx_session := s; ctx_user := u |})
  end.

(** [!token] holds of [null] and of the empty string. *)
Definition missing (token : option string) : bool :=
  match token with
  | None => true
  | Some t => negb (Js.truthy t)
  end.

Definition authenticateRequest (env : Env) (request : Request)
  : Handler (option AuthenticatedContext) :=
  match extractToken (authorization request) with
  | None => ret None
  | Some token =>
      if missing (Some token) then ret None
      else getActiveSessionByToken env token
  end.

Definition requireAuth (env : Env) (request : Request) : Handler AuthenticatedContext :=
  context <- authenticateRequest env request ;;
  match context with
  | None => reply 401 (error_body "Unauthorized")
  | Some c => ret c
  end.

Definition ensureOwnership (resource_userId : string) (auth : AuthenticatedContext) : bool :=
  String.eqb resource_userId (User.id (ctx_user auth)).

Definition deleteUserSession (token userId : string) : Handler unit :=
  exec (Pg.delete_session (fun s => Pg.eq (Session.id s) token
                                    && Pg.eq (Session.userId s) userId)) ;;
  ret tt.

(** [ensureAnimalOwnership], defined identically in the feeding,
    measurement and reminder routes. *)
Definition ensureAnimalOwnership (userId animalId : string) : Handler (option string) :=
  select (fun db =>
    option_map Animal.id
      (hd_error (filter (fun a => Pg.eq (Animal.id a) (Pg.uuid_in animalId)
                                  && Pg.eq (Animal.userId a) userId)
                        (animal db)))).

Definition iso (rt : Runtime) (t : Z) : json := JStr (toISOString rt t).

(** The shape [{ id: z.string().uuid() }] of every params schema and
    [{ animalId: z.string().uuid() }] of every query schema. *)
Definition idShape : Zod.Schema string :=
  Zod.object (Zod.prop "id" (Zod.string_ |> Zod.uuid_)).
Definition animalIdShape : Zod.Schema string :=
  Zod.object (Zod.prop "animalId" (Zod.string_ |> Zod.uuid_)).

(** [v && v.length > 0 ? v : null] *)
Definition nonEmptyOrNull (v : option string) : option string :=
  match v with
  | Some s => if Js.truthy s && (0 <? Js.length s) then Some s else None
  | None => None
  end.

Definition count_keys (present : list bool) : Z :=
  Z.of_nat (List.length (filter (fun b => b) present)).

Definition defined {A} (o : option A) : bool :=
  match o with Some _ => true | None => false end.

(* ================================================================= *)
(** ** routes/animals.ts *)

Module Animals.

Record CreateInput := {
  name : string; species : option string; description : option string;
  birthDate : option Z; sex : option string
}.

Record UpdateInput := {
  u_name : option string; u_species : option string;
  u_description : option string; u_birthDate : option (option Z);
  u_sex : option (option string)
}.

(** A partial row: [None] means the key is absent. *)
Record Payload := {
  p_name : option string; p_species : option (option string);
  p_description : option (option string); p_birthDate : option (option Z);
  p_sex : option (option string)
}.

Definition createAnimalSchema (rt : Runtime) : Zod.Schema CreateInput :=
  Zod.object (fun o =>
    Zod.valid Build_CreateInput
    <*> Zod.prop "name"
          (Zod.string_ |> Zod.trim
             |> Zod.min 1 (Some "Name must be at least 1 character long")
             |> Zod.max 100 (Some "Name must be 100 characters or less")) o
    <*> Zod.prop "species" (Zod.optional (Zod.string_ |> Zod.trim |> Zod.max 100 None)) o
    <*> Zod.prop "description"
          (Zod.optional (Zod.string_ |> Zod.trim |> Zod.max 1000 None)) o
    <*> Zod.prop "birthDate" (Zod.optional (Zod.coerce_date rt)) o
    <*> Zod.prop "sex" (Zod.optional (Zod.string_ |> Zod.trim |> Zod.max 32 None)) o).

Definition update_keys (d : UpdateInput) : Z :=
  count_keys [defined (u_name d); defined (u_species d); defined (u_description d);
              defined (u_birthDate d); defined (u_sex d)].

Definition updateAnimalSchema (rt : Runtime) : Zod.Schema UpdateInput :=
  Zod.object (fun o =>
    Zod.valid Build_UpdateInput
    <*> Zod.prop "name"
          (Zod.optional
             (Zod.string_ |> Zod.trim
                |> Zod.min 1 (Some "Name must be at least 1 character long")
                |> Zod.max 100 (Some "Name must be 100 characters or less"))) o
    <*> Zod.prop "species" (Zod.optional (Zod.string_ |> Zod.trim |> Zod.max 100 None)) o
    <*> Zod.prop "description"
          (Zod.optional (Zod.string_ |> Zod.trim |> Zod.max 1000 None)) o
    <*> Zod.prop "birthDate" (Zod.optional (Zod.nullable (Zod.coerce_date rt))) o
    <*> Zod.prop "sex"
          (Zod.optional (Zod.nullable (Zod.string_ |> Zod.trim |> Zod.max 32 None))) o)
  |> Zod.superRefine (fun data =>
       if 0 <? update_keys data then []
       else [Zod.issue ZodIssueCode.custom (Some "No fields provided to update")]).

Definition animalParamsSchema : Zod.Schema string := idShape.

Definition toAnimalResponse (rt : Runtime) (record : Animal.t) : json :=
  JObj [("id", JStr (Animal.id record));
        ("name", JStr (Animal.name record));
        ("species", nullable JStr (Animal.species record));
        ("description", nullable JStr (Animal.description record));
        ("birthDate", nullable (iso rt) (Animal.birthDate record));
        ("sex", nullable JStr (Animal.sex record));
        ("createdAt", iso rt (Animal.createdAt record));
        ("updatedAt", iso rt (Animal.updatedAt record))].

Definition sanitizeOptionalString (value : option string) : option string :=
  match value with
  | None => None
  | Some v => let trimmed := Js.trim v in
              if 0 <? Js.length trimmed then Some trimmed else None
  end.

Definition sanitizeCreateAnimalPayload (input : CreateInput) : CreateInput :=
  {| name := Js.trim (name input);
     species := sanitizeOptionalString (species input);
     description := sanitizeOptionalString (description input);
     birthDate := birthDate input;
     sex := sanitizeOptionalString (sex input) |}.

Definition sanitizeUpdateAnimalPayload (input : UpdateInput) : Payload :=
  {| p_name := option_map Js.trim (u_name input);
     p_species := option_map (fun v => sanitizeOptionalString (Some v)) (u_species input);
     p_description :=
       option_map (fun v => sanitizeOptionalString (Some v)) (u_description input);
     p_birthDate := u_birthDate input;
     p_sex := option_map sanitizeOptionalString (u_sex input) |}.

Definition payload_keys (p : Payload) : Z :=
  count_keys [defined (p_name p); defined (p_species p); defined (p_description p);
              defined (p_birthDate p); defined (p_sex p)].

Definition or_keep {A} (new : option A) (old : A) : A :=
  match new with Some a => a | None => old end.

(** [.set({ ...updates, updatedAt: new Date() })] *)
Definition set_row (env : Env) (p : Payload) (r : Animal.t) : Animal.t :=
  {| Animal.id := Animal.id r;
     Animal.userId := Animal.userId r;
     Animal.name := or_keep (p_name p) (Animal.name r);
     Animal.species := or_keep (p_species p) (Animal.species r);
     Animal.description := or_keep (p_description p) (Animal.description r);
     Animal.birthDate := or_keep (p_birthDate p) (Animal.birthDate r);
     Animal.sex := or_keep (p_sex p) (Animal.sex r);
     Animal.createdAt := Animal.createdAt r;
     Animal.updatedAt := now env |}.

(** The values of the SET clause, in the order of the table's columns:
    a key set to [null] sends no value. *)
Definition set_values (env : Env) (p : Payload) : list Pg.Param :=
  Pg.null_or Pg.text (p_name p)
  ++ match p_species p with Some v => Pg.null_or Pg.text v | None => [] end
  ++ match p_description p with Some v => Pg.null_or Pg.text v | None => [] end
  ++ match p_birthDate p with Some v => Pg.null_or Pg.timestamp v | None => [] end
  ++ match p_sex p with Some v => Pg.null_or Pg.text v | None => [] end
  ++ [Pg.timestamp (now env)].

Definition by_user_name (userId name : string) (a : Animal.t) : bool :=
  Pg.eq (Animal.userId a) userId && Pg.eq (Animal.name a) name.

Definition by_id_user (id userId : string) (a : Animal.t) : bool :=
  Pg.eq (Animal.id a) (Pg.uuid_in id) && Pg.eq (Animal.userId a) userId.

(** The row of [.values({ userId, ...payload })], with the defaults of
    the columns that are not given. *)
Definition values (env : Env) (userId : string) (payload : CreateInput) : Animal.t :=
  {| Animal.id := uuid env;
     Animal.userId := userId;
     Animal.name := name payload;
     Animal.species := species payload;
     Animal.description := description payload;
     Animal.birthDate := birthDate payload;
     Animal.sex := sex payload;
     Animal.createdAt := db_now env;
     Animal.updatedAt := db_now env |}.

(** [asc(animal.name)]: text is ordered by the collation of the
    database. *)
Definition by_name (rt : Runtime) (a b : Animal.t) : bool :=
  collate rt (Animal.name a) (Animal.name b).

Definition get_animals (rt : Runtime) (env : Env) (request : Request) : Handler Sent :=
  auth <- requireAuth env request ;;
  records <- select (fun db =>
    Pg.orderBy (by_name rt)
      (filter (fun a => Pg.eq (Animal.userId a) (User.id (ctx_user auth))) (animal db))) ;;
  reply 200 (JArr (map (toAnimalResponse rt) records)).

Definition post_animals (rt : Runtime) (env : Env) (request : Request) : Handler Sent :=
  auth <- requireAuth env request ;;
  match Zod.safeParse (createAnimalSchema rt) (body request) with
  | Zod.failure error =>
      reply 400 (JObj [("error", JStr "Invalid animal payload");
                       ("details", Zod.flatten rt error)])
  | Zod.success data =>
      let payload := sanitizeCreateAnimalPayload data in
      existing <- exec (Pg.select_where rt [Pg.text (name payload)] (fun db =>
        Pg.limit 1 (filter (by_user_name (User.id (ctx_user auth)) (name payload))
                           (animal db)))) ;;
      if 0 <? Z.of_nat (List.length existing)
      then reply 409 (error_body "An animal with this name already exists")
      else
        record <- exec (Pg.insert_animal rt
                          (values env (User.id (ctx_user auth)) payload)) ;;
        reply 201 (toAnimalResponse rt record)
  end.

Definition patch_animal (rt : Runtime) (env : Env) (request : Request) : Handler Sent :=
  auth <- requireAuth env request ;;
  match Zod.safeParse animalParamsSchema (Some (JObj (params request))) with
  | Zod.failure _ => reply 400 (error_body "Invalid animal identifier")
  | Zod.success id =>
      match Zod.safeParse (updateAnimalSchema rt) (body request) with
      | Zod.failure error =>
          reply 400 (JObj [("error", JStr "Invalid animal update payload");
                           ("details", Zod.flatten rt error)])
      | Zod.success data =>
          let updates := sanitizeUpdateAnimalPayload data in
          if payload_keys updates =? 0
          then reply 400 (error_body "No fields provided to update")
          else
            (match p_name updates with
             | Some n =>
                 if Js.truthy n then
                   duplicate <- exec (Pg.select_where rt [Pg.text n] (fun db =>
                     Pg.limit 1 (filter (by_user_name (User.id (ctx_user auth)) n)
                                        (animal db)))) ;;
                   match duplicate with
                   | d :: _ =>
                       if negb (String.eqb (Animal.id d) id)
                       then reply 409 (error_body "An animal with this name already exists")
                       else ret tt
                   | [] => ret tt
                   end
                 else ret tt
             | None => ret tt
             end) ;;
            updated <- exec (Pg.update_animal rt (set_values env updates)
                                              (by_id_user id (User.id (ctx_user auth)))
                                              (set_row env updates)) ;;
            match updated with
            | [] => reply 404 (error_body "Animal not found")
            | u :: _ => reply 200 (toAnimalResponse rt u)
            end
      end
  end.

Definition delete_animal (env : Env) (request : Request) : Handler Sent :=
  auth <- requireAuth env request ;;
  match Zod.safeParse animalParamsSchema (Some (JObj (params request))) with
  | Zod.failure _ => reply 400 (error_body "Invalid animal identifier")
  | Zod.success id =>
      deleted <- exec (Pg.delete_animal (by_id_user id (User.id (ctx_user auth)))) ;;
      match deleted with
      | [] => reply 404 (error_body "Animal not found")
      | _ :: _ => reply 200 (JObj [("success", JBool true)])
      end
  end.

End Animals.

(* ================================================================= *)
(** ** routes/feedings.ts *)

Module Feedings.

Record Input := {
  animalId : string; feedingDate : option Z; consumed : option string;
  foodType : string; quantity : string; notes : option string;
  weight : option Js.number
}.

Definition feedingInputSchema (rt : Runtime) : Zod.Schema Input :=
  Zod.object (fun o =>
    Zod.valid Build_Input
    <*> Zod.prop "animalId" (Zod.string_ |> Zod.uuid_) o
    <*> Zod.prop "feedingDate" (Zod.optional (Zod.coerce_date rt)) o
    <*> Zod.prop "consumed" (Zod.optional (Zod.enum ["fully"; "partially"; "refused"])) o
    <*> Zod.prop "foodType"
          (Zod.string_ |> Zod.trim
             |> Zod.min 1 (Some "Food type is required")
             |> Zod.max 255 (Some "Food type must be 255 characters or less")) o
    <*> Zod.prop "quantity"
          (Zod.string_ |> Zod.trim
             |> Zod.min 1 (Some "Quantity is required")
             |> Zod.max 255 (Some "Quantity must be 255 characters or less")) o
    <*> Zod.prop "notes" (Zod.optional (Zod.string_ |> Zod.trim |> Zod.max 1000 None)) o
    <*> Zod.prop "weight" (Zod.optional (Zod.number |> Zod.positive)) o).

Definition deleteParamsSchema : Zod.Schema string := idShape.
Definition feedingQuerySchema : Zod.Schema string := animalIdShape.

Definition toFeedingResponse (rt : Runtime) (record : FeedingRecord.t) : json :=
  JObj [("id", JStr (FeedingRecord.id record));
        ("feedingDate", iso rt (FeedingRecord.feedingDate record));
        ("consumed", JStr (FeedingRecord.consumed record));
        ("foodType", nullable JStr (FeedingRecord.foodType record));
        ("quantity", nullable JStr (FeedingRecord.quantity record));
        ("notes", nullable JStr (FeedingRecord.notes record));
        ("weight", nullable JNum (FeedingRecord.weight record));
        ("animalId", nullable JStr (FeedingRecord.animalId record));
        ("createdAt", iso rt (FeedingRecord.createdAt record));
        ("updatedAt", iso rt (FeedingRecord.updatedAt record))].

(** The WHERE clause and ORDER BY / LIMIT of GET /feedings. *)
Definition matches (userId animalId : string) (r : FeedingRecord.t) : bool :=
  Pg.eq (FeedingRecord.userId r) userId
  && Pg.eq_opt (FeedingRecord.animalId r) (Pg.uuid_in animalId).

Definition newest_first : FeedingRecord.t -> FeedingRecord.t -> bool :=
  Pg.desc2 FeedingRecord.feedingDate FeedingRecord.createdAt.

Definition list_query (userId animalId : string) (db : Db) : list FeedingRecord.t :=
  Pg.limit 200 (Pg.orderBy newest_first (filter (matches userId animalId) (feedingRecord db))).

(** The row of [.values({ ... })], with the defaults of the columns that
    are not given. *)
Definition values (env : Env) (userId : string) (data : Input) : FeedingRecord.t :=
  let sanitizedFoodType := Js.trim (foodType data) in
  let sanitizedQuantity := Js.trim (quantity data) in
  let sanitizedNotes := nonEmptyOrNull (notes data) in
  {| FeedingRecord.id := uuid env;
     FeedingRecord.userId := userId;
     FeedingRecord.animalId := Some (Pg.uuid_in (animalId data));
     FeedingRecord.feedingDate :=
       match feedingDate data with Some d => d | None => now env end;
     FeedingRecord.consumed :=
       match consumed data with Some c => c | None => "fully" end;
     FeedingRecord.foodType := Some sanitizedFoodType;
     FeedingRecord.quantity := Some sanitizedQuantity;
     FeedingRecord.notes := sanitizedNotes;
     FeedingRecord.weight := weight data;
     FeedingRecord.createdAt := db_now env;
     FeedingRecord.updatedAt := db_now env |}.

Definition post_feedings (rt : Runtime) (env : Env) (request : Request) : Handler Sent :=
  auth <- requireAuth env request ;;
  match Zod.safeParse (feedingInputSchema rt) (body request) with
  | Zod.failure error =>
      reply 400 (JObj [("error", JStr "Invalid feeding payload");
                       ("details", Zod.flatten rt error)])
  | Zod.success data =>
      ownedAnimal <- ensureAnimalOwnership (User.id (ctx_user auth)) (animalId data) ;;
      match ownedAnimal with
      | None => reply 404 (error_body "Animal not found")
      | Some _ =>
          record <- exec (Pg.insert_feedingRecord rt
                            (values env (User.id (ctx_user auth)) data)) ;;
          reply 201 (toFeedingResponse rt record)
      end
  end.

Definition get_feedings (rt : Runtime) (env : Env) (request : Request) : Handler Sent :=
  auth <- requireAuth env request ;;
  match Zod.safeParse feedingQuerySchema (Some (query request)) with
  | Zod.failure _ => reply 400 (error_body "Invalid feedings query parameters")
  | Zod.success animalId =>
      ownedAnimal <- ensureAnimalOwnership (User.id (ctx_user auth)) animalId ;;
      match ownedAnimal with
      | None => reply 404 (error_body "Animal not found")
      | Some _ =>
          records <- select (list_query (User.id (ctx_user auth)) animalId) ;;
          reply 200 (JArr (map (toFeedingResponse rt) records))
      end
  end.

Definition by_id_user (id userId : string) (r : FeedingRecord.t) : bool :=
  Pg.eq (FeedingRecord.id r) (Pg.uuid_in id) && Pg.eq (FeedingRecord.userId r) userId.

Definition delete_feeding (env : Env) (request : Request) : Handler Sent :=
  auth <- requireAuth env request ;;
  match Zod.safeParse deleteParamsSchema (Some (JObj (params request))) with
  | Zod.failure _ => reply 400 (error_body "Invalid feeding identifier")
  | Zod.success id =>
      deleted <- exec (Pg.delete_feedingRecord (by_id_user id (User.id (ctx_user auth)))) ;;
      match deleted with
      | [] => reply 404 (error_body "Feeding record not found")
      | _ :: _ => reply 200 (JObj [("success", JBool true)])
      end
  end.

End Feedings.

(* ================================================================= *)
(** ** routes/measurements.ts *)

Module Measurements.

Definition MEASUREMENT_LIMIT : nat := 200.

Record Input := {
  animalId : string; metricType : string; value : option Js.number;
  unit : option string; notes : option string; recordedAt : option Z
}.

Definition measurementInputSchema (rt : Runtime) : Zod.Schema Input :=
  Zod.object (fun o =>
    Zod.valid Build_Input
    <*> Zod.prop "animalId" (Zod.string_ |> Zod.uuid_) o
    <*> Zod.prop "metricType"
          (Zod.string_ |> Zod.trim
             |> Zod.min 1 (Some "Metric type is required")
             |> Zod.max 64 (Some "Metric type must be at most 64 characters")) o
    <*> Zod.prop "value" (Zod.optional (Zod.number |> Zod.finite)) o
    <*> Zod.prop "unit" (Zod.optional (Zod.string_ |> Zod.trim |> Zod.max 32 None)) o
    <*> Zod.prop "notes" (Zod.optional (Zod.string_ |> Zod.trim |> Zod.max 1000 None)) o
    <*> Zod.prop "recordedAt" (Zod.optional (Zod.coerce_date rt)) o)
  |> Zod.superRefine (fun data =>
       if negb (Js.toLowerCase (metricType data) =? "note")%string
          && negb (defined (value data))
       then [{| Zod.code := ZodIssueCode.custom;
                Zod.path := ["value"];
                Zod.message := Some "Value is required for this measurement type" |}]
       else []).

Definition measurementParamsSchema : Zod.Schema string := idShape.
Definition measurementQuerySchema : Zod.Schema string := animalIdShape.

Definition toMeasurementResponse (rt : Runtime) (record : MeasurementLog.t) : json :=
  JObj [("id", JStr (MeasurementLog.id record));
        ("metricType", JStr (MeasurementLog.metricType record));
        ("value", nullable JNum (MeasurementLog.value record));
        ("unit", nullable JStr (MeasurementLog.unit record));
        ("notes", nullable JStr (MeasurementLog.notes record));
        ("recordedAt", iso rt (MeasurementLog.recordedAt record));
        ("animalId", nullable JStr (MeasurementLog.animalId record));
        ("createdAt", iso rt (MeasurementLog.createdAt record));
        ("updatedAt", iso rt (MeasurementLog.updatedAt record))].

Definition matches (userId animalId : string) (r : MeasurementLog.t) : bool :=
  Pg.eq (MeasurementLog.userId r) userId
  && Pg.eq_opt (MeasurementLog.animalId r) (Pg.uuid_in animalId).

Definition newest_first : MeasurementLog.t -> MeasurementLog.t -> bool :=
  Pg.desc2 MeasurementLog.recordedAt MeasurementLog.createdAt.

Definition list_query (userId animalId : string) (db : Db) : list MeasurementLog.t :=
  Pg.limit MEASUREMENT_LIMIT
    (Pg.orderBy newest_first (filter (matches userId animalId) (measurementLog db))).

(** The row of [.values({ ... })], with the defaults of the columns that
    are not given. *)
Definition values (env : Env) (userId : string) (data : Input) : MeasurementLog.t :=
  {| MeasurementLog.id := uuid env;
     MeasurementLog.userId := userId;
     MeasurementLog.animalId := Some (Pg.uuid_in (animalId data));
     MeasurementLog.metricType := metricType data;
     MeasurementLog.value := value data;
     MeasurementLog.unit := nonEmptyOrNull (unit data);
     MeasurementLog.notes := nonEmptyOrNull (notes data);
     MeasurementLog.recordedAt :=
       match recordedAt data with Some d => d | None => now env end;
     MeasurementLog.createdAt := db_now env;
     MeasurementLog.updatedAt := db_now env |}.

Definition post_measurements (rt : Runtime) (env : Env) (request : Request)
  : Handler Sent :=
  auth <- requireAuth env request ;;
  match Zod.safeParse (measurementInputSchema rt) (body request) with
  | Zod.failure error =>
      reply 400 (JObj [("error", JStr "Invalid measurement payload");
                       ("details", Zod.flatten rt error)])
  | Zod.success data =>
      ownedAnimal <- ensureAnimalOwnership (User.id (ctx_user auth)) (animalId data) ;;
      match ownedAnimal with
      | None => reply 404 (error_body "Animal not found")
      | Some _ =>
          record <- exec (Pg.insert_measurementLog rt
                            (values env (User.id (ctx_user auth)) data)) ;;
          reply 201 (toMeasurementResponse rt record)
      end
  end.

Definition get_measurements (rt : Runtime) (env : Env) (request : Request)
  : Handler Sent :=
  auth <- requireAuth env request ;;
  match Zod.safeParse measurementQuerySchema (Some (query request)) with
  | Zod.failure _ => reply 400 (error_body "Invalid measurements query parameters")
  | Zod.success animalId =>
      ownedAnimal <- ensureAnimalOwnership (User.id (ctx_user auth)) animalId ;;
      match ownedAnimal with
      | None => reply 404 (error_body "Animal not found")
      | Some _ =>
          records <- select (list_query (User.id (ctx_user auth)) animalId) ;;
          reply 200 (JArr (map (toMeasurementResponse rt) records))
      end
  end.

Definition by_id_user (id userId : string) (r : MeasurementLog.t) : bool :=
  Pg.eq (MeasurementLog.id r) (Pg.uuid_in id) && Pg.eq (MeasurementLog.userId r) userId.

Definition delete_measurement (env : Env) (request : Request) : Handler Sent :=
  auth <- requireAuth env request ;;
  match Zod.safeParse measurementParamsSchema (Some (JObj (params request))) with
  | Zod.failure _ => reply 400 (error_body "Invalid measurement identifier")
  | Zod.success id =>
      deleted <- exec (Pg.delete_measurementLog (by_id_user id (User.id (ctx_user auth)))) ;;
      match deleted with
      | [] => reply 404 (error_body "Measurement not found")
      | _ :: _ => reply 200 (JObj [("success", JBool true)])
      end
  end.

End Measurements.

(* ================================================================= *)
(** ** routes/reminders.ts *)

Module Reminders.

Record CreateInput := {
  animalId : string; title : string; notes : option string;
  isReminder : option bool; dueDate : option Z; notificationId : option string
}.

Record UpdateInput := {
  u_title : option string; u_notes : option string; u_isReminder : option bool;
  u_dueDate : option (option Z); u_isCompleted : option bool;
  u_notificationId : option (option string); u_animalId : option string
}.

(** [updatePayload]: [None] means the key is absent; [updatedAt] is
    always set. *)
Record Payload := {
  p_title : option string; p_notes : option (option string);
  p_isReminder : option bool; p_dueDate : option (option Z);
  p_isCompleted : option bool; p_notificationId : option (option string);
  p_animalId : option string; p_updatedAt : Z
}.

Definition createReminderSchema (rt : Runtime) : Zod.Schema CreateInput :=
  Zod.object (fun o =>
    Zod.valid Build_CreateInput
    <*> Zod.prop "animalId" (Zod.string_ |> Zod.uuid_) o
    <*> Zod.prop "title"
          (Zod.string_ |> Zod.trim
             |> Zod.min 1 (Some "Title must be at least 1 character long")
             |> Zod.max 255 (Some "Title must be 255 characters or less")) o
    <*> Zod.prop "notes" (Zod.optional (Zod.string_ |> Zod.trim |> Zod.max 2000 None)) o
    <*> Zod.prop "isReminder" (Zod.optional Zod.boolean) o
    <*> Zod.prop "dueDate" (Zod.optional (Zod.coerce_date rt)) o
    <*> Zod.prop "notificationId"
          (Zod.optional (Zod.string_ |> Zod.trim |> Zod.max 255 None)) o).

Definition updateReminderSchema (rt : Runtime) : Zod.Schema UpdateInput :=
  Zod.object (fun o =>
    Zod.valid Build_UpdateInput
    <*> Zod.prop "title"
          (Zod.optional (Zod.string_ |> Zod.trim |> Zod.min 1 None |> Zod.max 255 None)) o
    <*> Zod.prop "notes" (Zod.optional (Zod.string_ |> Zod.trim |> Zod.max 2000 None)) o
    <*> Zod.prop "isReminder" (Zod.optional Zod.boolean) o
    <*> Zod.prop "dueDate" (Zod.optional (Zod.nullable (Zod.coerce_date rt))) o
    <*> Zod.prop "isCompleted" (Zod.optional Zod.boolean) o
    <*> Zod.prop "notificationId"
          (Zod.optional (Zod.nullable (Zod.string_ |> Zod.trim |> Zod.max 255 None))) o
    <*> Zod.prop "animalId" (Zod.optional (Zod.string_ |> Zod.uuid_)) o).

Definition reminderParamsSchema : Zod.Schema string := idShape.
Definition reminderQuerySchema : Zod.Schema string := animalIdShape.

Definition toReminderResponse (rt : Runtime) (record : Reminder.t) : json :=
  JObj [("id", JStr (Reminder.id record));
        ("title", JStr (Reminder.title record));
        ("notes", nullable JStr (Reminder.notes record));
        ("isReminder", JBool (Reminder.isReminder record));
        ("dueDate", nullable (iso rt) (Reminder.dueDate record));
        ("isCompleted", JBool (Reminder.isCompleted record));
        ("notificationId", nullable JStr (Reminder.notificationId record));
        ("animalId", nullable JStr (Reminder.animalId record));
        ("createdAt", iso rt (Reminder.createdAt record));
        ("updatedAt", iso rt (Reminder.updatedAt record))].

(** [Object.keys(updates).length] *)
Definition update_keys (d : UpdateInput) : Z :=
  count_keys [defined (u_title d); defined (u_notes d); defined (u_isReminder d);
              defined (u_dueDate d); defined (u_isCompleted d);
              defined (u_notificationId d); defined (u_animalId d)].

Definition or_keep {A} (new : option A) (old : A) : A :=
  match new with Some a => a | None => old end.

Definition set_row (p : Payload) (r : Reminder.t) : Reminder.t :=
  {| Reminder.id := Reminder.id r;
     Reminder.userId := Reminder.userId r;
     Reminder.animalId :=
       match p_animalId p with
       | Some a => Some (Pg.uuid_in a)
       | None => Reminder.animalId r
       end;
     Reminder.title := or_keep (p_title p) (Reminder.title r);
     Reminder.notes := or_keep (p_notes p) (Reminder.notes r);
     Reminder.isReminder := or_keep (p_isReminder p) (Reminder.isReminder r);
     Reminder.dueDate := or_keep (p_dueDate p) (Reminder.dueDate r);
     Reminder.isCompleted := or_keep (p_isCompleted p) (Reminder.isCompleted r);
     Reminder.notificationId := or_keep (p_notificationId p) (Reminder.notificationId r);
     Reminder.createdAt := Reminder.createdAt r;
     Reminder.updatedAt := p_updatedAt p |}.

Definition matches (userId animalId : string) (r : Reminder.t) : bool :=
  Pg.eq (Reminder.userId r) userId
  && Pg.eq_opt (Reminder.animalId r) (Pg.uuid_in animalId).

Definition newest_first : Reminder.t -> Reminder.t -> bool :=
  Pg.desc_null2 Reminder.dueDate Reminder.createdAt.

Definition list_query (userId animalId : string) (db : Db) : list Reminder.t :=
  Pg.orderBy newest_first (filter (matches userId animalId) (reminder db)).

Definition by_id_user (id userId : string) (r : Reminder.t) : bool :=
  Pg.eq (Reminder.id r) (Pg.uuid_in id) && Pg.eq (Reminder.userId r) userId.

(** The object built up in [updatePayload] before the UPDATE. *)
Definition updatePayload (env : Env) (updates : UpdateInput) : Payload :=
  {| p_updatedAt := now env;
     p_title := u_title updates;
     p_notes := option_map (fun n => nonEmptyOrNull (Some n)) (u_notes updates);
     p_isReminder := u_isReminder updates;
     p_dueDate := u_dueDate updates;
     p_isCompleted := u_isCompleted updates;
     p_notificationId := option_map nonEmptyOrNull (u_notificationId updates);
     p_animalId := u_animalId updates |}.

(** The values of the SET clause, in the order of the table's columns:
    a key set to [null] sends no value. *)
Definition set_values (p : Payload) : list Pg.Param :=
  Pg.null_or Pg.text (p_title p)
  ++ match p_notes p with Some v => Pg.null_or Pg.text v | None => [] end
  ++ match p_dueDate p with Some v => Pg.null_or Pg.timestamp v | None => [] end
  ++ match p_notificationId p with Some v => Pg.null_or Pg.text v | None => [] end
  ++ [Pg.timestamp (p_updatedAt p)].

(** The row of [.values({ ... })], with the defaults of the columns that
    are not given. *)
Definition values (env : Env) (userId : string) (data : CreateInput) : Reminder.t :=
  let sanitizedNotes := nonEmptyOrNull (notes data) in
  let sanitizedNotificationId := nonEmptyOrNull (notificationId data) in
  {| Reminder.id := uuid env;
     Reminder.userId := userId;
     Reminder.animalId := Some (Pg.uuid_in (animalId data));
     Reminder.title := title data;
     Reminder.notes := sanitizedNotes;
     Reminder.isReminder :=
       match isReminder data with Some b => b | None => false end;
     Reminder.dueDate := dueDate data;
     Reminder.isCompleted := false;
     Reminder.notificationId := sanitizedNotificationId;
     Reminder.createdAt := db_now env;
     Reminder.updatedAt := db_now env |}.

Definition post_reminders (rt : Runtime) (env : Env) (request : Request) : Handler Sent :=
  auth <- requireAuth env request ;;
  match Zod.safeParse (createReminderSchema rt) (body request) with
  | Zod.failure error =>
      reply 400 (JObj [("error", JStr "Invalid reminder payload");
                       ("details", Zod.flatten rt error)])
  | Zod.success data =>
      ownedAnimal <- ensureAnimalOwnership (User.id (ctx_user auth)) (animalId data) ;;
      match ownedAnimal with
      | None => reply 404 (error_body "Animal not found")
      | Some _ =>
          record <- exec (Pg.insert_reminder rt
                            (values env (User.id (ctx_user auth)) data)) ;;
          reply 201 (toReminderResponse rt record)
      end
  end.

Definition get_reminders (rt : Runtime) (env : Env) (request : Request) : Handler Sent :=
  auth <- requireAuth env request ;;
  match Zod.safeParse reminderQuerySchema (Some (query request)) with
  | Zod.failure _ => reply 400 (error_body "Invalid reminders query parameters")
  | Zod.success animalId =>
      ownedAnimal <- ensureAnimalOwnership (User.id (ctx_user auth)) animalId ;;
      match ownedAnimal with
      | None => reply 404 (error_body "Animal not found")
      | Some _ =>
          records <- select (list_query (User.id (ctx_user auth)) animalId) ;;
          reply 200 (JArr (map (toReminderResponse rt) records))
      end
  end.

Definition patch_reminder (rt : Runtime) (env : Env) (request : Request) : Handler Sent :=
  auth <- requireAuth env request ;;
  match Zod.safeParse reminderParamsSchema (Some (JObj (params request))) with
  | Zod.failure _ => reply 400 (error_body "Invalid reminder identifier")
  | Zod.success id =>
      match Zod.safeParse (updateReminderSchema rt) (body request) with
      | Zod.failure error =>
          reply 400 (JObj [("error", JStr "Invalid reminder update payload");
                           ("details", Zod.flatten rt error)])
      | Zod.success updates =>
          if update_keys updates =? 0
          then reply 400 (error_body "No fields provided to update")
          else
            (match u_animalId updates with
             | Some a =>
                 ownedAnimal <- ensureAnimalOwnership (User.id (ctx_user auth)) a ;;
                 match ownedAnimal with
                 | None => reply 404 (error_body "Animal not found")
                 | Some _ => ret tt
                 end
             | None => ret tt
             end) ;;
            updated <- exec (Pg.update_reminder rt (set_values (updatePayload env updates))
                                                (by_id_user id (User.id (ctx_user auth)))
                                                (set_row (updatePayload env updates))) ;;
            match updated with
            | [] => reply 404 (error_body "Reminder not found")
            | u :: _ => reply 200 (toReminderResponse rt u)
            end
      end
  end.

Definition delete_reminder (env : Env) (request : Request) : Handler Sent :=
  auth <- requireAuth env request ;;
  match Zod.safeParse reminderParamsSchema (Some (JObj (params request))) with
  | Zod.failure _ => reply 400 (error_body "Invalid reminder identifier")
  | Zod.success id =>
      deleted <- exec (Pg.delete_reminder (by_id_user id (User.id (ctx_user auth)))) ;;
      match deleted with
      | [] => reply 404 (error_body "Reminder not found")
      | _ :: _ => reply 200 (JObj [("success", JBool true)])
      end
  end.

End Reminders.

(* ================================================================= *)
(** ** routes/auth.ts *)

Module Auth.

Record CredentialsInput := { username : string; password : string }.

(** [/^[a-zA-Z0-9._-]+$/] *)
Definition username_pattern (s : string) : bool :=
  negb (s =? "")%string
  && Js.all_chars (fun c => Js.is_alpha c || Js.is_digit c
                            || Ascii.eqb c "."%char || Ascii.eqb c "_"%char
                            || Ascii.eqb c "-"%char) s.

Definition credentialsSchema : Zod.Schema CredentialsInput :=
  Zod.object (fun o =>
    Zod.valid Build_CredentialsInput
    <*> Zod.prop "username"
          (Zod.string_
             |> Zod.min 3 (Some "Username must be at least 3 characters long")
             |> Zod.max 32 (Some "Username must be at most 32 characters long")
             |> Zod.regex username_pattern
                  (Some "Username can only include letters, numbers, dots, underscores, or dashes")) o
    <*> Zod.prop "password"
          (Zod.string_
             |> Zod.min 8 (Some "Password must be at least 8 characters long")
             |> Zod.max 72 (Some "Password must be at most 72 characters long")) o).

Definition findUserByUsername (username : string) : Handler (option User.t) :=
  select (fun db => hd_error (filter (fun u => Pg.eq (User.username u) username) (user db))).

(** The returned [SessionPayload] as [(token, expiresAt)]. *)
Definition createSession (rt : Runtime) (env : Env) (userId : string)
  : Handler (string * Z) :=
  let token := generateSessionToken env in
  let expiresAt := now env + SESSION_TTL_HOURS rt * 60 * 60 * 1000 in
  newSession <- exec (Pg.insert_session
    {| Session.id := token; Session.userId := userId;
       Session.expiresAt := expiresAt; Session.createdAt := db_now_session env |}) ;;
  ret (Session.id newSession, Session.expiresAt newSession).

Definition auth_response (rt : Runtime) (u : obj) (token : string) (expiresAt : Z) : json :=
  JObj [("user", JObj u);
        ("session", JObj [("token", JStr token); ("expiresAt", iso rt expiresAt)])].

Definition post_register (rt : Runtime) (env : Env) (request : Request) : Handler Sent :=
  match Zod.safeParse credentialsSchema (body request) with
  | Zod.failure error =>
      reply 400 (JObj [("error", JStr "Invalid credentials payload");
                       ("details", Zod.flatten rt error)])
  | Zod.success data =>
      let normalizedUsername := normalizeUsername (username data) in
      existingUser <- findUserByUsername normalizedUsername ;;
      match existingUser with
      | Some _ => reply 409 (error_body "Username is already taken")
      | None =>
          let passwordHash := hashPassword rt env (password data) in
          createdUser <- exec (Pg.insert_user
            {| User.id := uuid env; User.username := normalizedUsername;
               User.passwordHash := passwordHash; User.role := "user";
               User.isActive := true;
               User.createdAt := db_now env; User.updatedAt := db_now env |}) ;;
          sessionPayload <- createSession rt env (User.id createdUser) ;;
          reply 201 (auth_response rt (toPublicUser (user_object rt createdUser))
                                   (fst sessionPayload) (snd sessionPayload))
      end
  end.

Definition post_login (rt : Runtime) (env : Env) (request : Request) : Handler Sent :=
  match Zod.safeParse credentialsSchema (body request) with
  | Zod.failure error =>
      reply 400 (JObj [("error", JStr "Invalid credentials payload");
                       ("details", Zod.flatten rt error)])
  | Zod.success data =>
      let normalizedUsername := normalizeUsername (username data) in
      existingUser <- findUserByUsername normalizedUsername ;;
      match existingUser with
      | None => reply 401 (error_body "Invalid username or password")
      | Some u =>
          if negb (User.isActive u)
          then reply 403 (error_body "Account is inactive. Contact an administrator.")
          else if negb (verifyPassword rt (password data) (User.passwordHash u))
          then reply 401 (error_body "Invalid username or password")
          else
            sessionPayload <- createSession rt env (User.id u) ;;
            reply 200 (auth_response rt (toPublicUser (user_object rt u))
                                     (fst sessionPayload) (snd sessionPayload))
      end
  end.

Definition get_me (rt : Runtime) (env : Env) (request : Request) : Handler Sent :=
  match extractToken (authorization request) with
  | None => reply 401 (error_body "Missing authorization token")
  | Some token =>
      if missing (Some token)
      then reply 401 (error_body "Missing authorization token")
      else
        sessionData <- getActiveSessionByToken env token ;;
        match sessionData with
        | None => reply 401 (error_body "Session not found or expired")
        | Some c =>
            reply 200 (auth_response rt (toPublicUser (user_object rt (ctx_user c)))
                                     (Session.id (ctx_session c))
                                     (Session.expiresAt (ctx_session c)))
        end
  end.

Definition post_logout (env : Env) (request : Request) : Handler Sent :=
  match extractToken (authorization request) with
  | Some token =>
      if missing (Some token)
      then reply 200 (JObj [("success", JBool true)])
      else
        exec (Pg.delete_session (fun s => Pg.eq (Session.id s) token)) ;;
        reply 200 (JObj [("success", JBool true)])
  | None => reply 200 (JObj [("success", JBool true)])
  end.

End Auth.

(* ================================================================= *)
(** ** index.ts: route registration and dispatch *)

Inductive Segment := Lit (s : string) | Param (name : string).

Record Route := {
  route_method : Method;
  route_url : list Segment;
  route_handler : Runtime -> Env -> Request -> Handler Sent
}.

Definition method_eqb (a b : Method) : bool :=
  match a, b with
  | GET, GET | POST, POST | PATCH, PATCH | DELETE, DELETE | PUT, PUT => true
  | _, _ => false
  end.

(** Matching a path against a pattern yields the [params] object. *)
Fixpoint match_url (pattern : list Segment) (path : list string) : option obj :=
  match pattern, path with
  | [], [] => Some []
  | Lit s :: pattern', x :: path' =>
      if (s =? x)%string then match_url pattern' path' else None
  | Param name :: pattern', x :: path' =>
      option_map (cons (name, JStr x)) (match_url pattern' path')
  | _, _ => None
  end.

Definition registerAnimalRoutes : list Route :=
  [ {| route_method := GET; route_url := [Lit "animals"];
       route_handler := Animals.get_animals |};
    {| route_method := POST; route_url := [Lit "animals"];
       route_handler := Animals.post_animals |};
    {| route_method := PATCH; route_url := [Lit "animals"; Param "id"];
       route_handler := Animals.patch_animal |};
    {| route_method := DELETE; route_url := [Lit "animals"; Param "id"];
       route_handler := fun _ => Animals.delete_animal |} ].

Definition registerFeedingRoutes : list Route :=
  [ {| route_method := POST; route_url := [Lit "feedings"];
       route_handler := Feedings.post_feedings |};
    {| route_method := GET; route_url := [Lit "feedings"];
       route_handler := Feedings.get_feedings |};
    {| route_method := DELETE; route_url := [Lit "feedings"; Param "id"];
       route_handler := fun _ => Feedings.delete_feeding |} ].

Definition registerMeasurementRoutes : list Route :=
  [ {| route_method := POST; route_url := [Lit "measurements"];
       route_handler := Measurements.post_measurements |};
    {| route_method := GET; route_url := [Lit "measurements"];
       route_handler := Measurements.get_measurements |};
    {| route_method := DELETE; route_url := [Lit "measurements"; Param "id"];
       route_handler := fun _ => Measurements.delete_measurement |} ].

Definition registerReminderRoutes : list Route :=
  [ {| route_method := POST; route_url := [Lit "reminders"];
       route_handler := Reminders.post_reminders |};
    {| route_method := GET; route_url := [Lit "reminders"];
       route_handler := Reminders.get_reminders |};
    {| route_method := PATCH; route_url := [Lit "reminders"; Param "id"];
       route_handler := Reminders.patch_reminder |};
    {| route_method := DELETE; route_url := [Lit "reminders"; Param "id"];
       route_handler := fun _ => Reminders.delete_reminder |} ].

Definition registerAuthRoutes : list Route :=
  [ {| route_method := POST; route_url := [Lit "auth"; Lit "register"];
       route_handler := Auth.post_register |};
    {| route_method := POST; route_url := [Lit "auth"; Lit "login"];
       route_handler := Auth.post_login |};
    {| route_method := GET; route_url := [Lit "auth"; Lit "me"];
       route_handler := Auth.get_me |};
    {| route_method := POST; route_url := [Lit "auth"; Lit "logout"];
       route_handler := fun _ => Auth.post_logout |} ].

Definition health : Route :=
  {| route_method := GET; route_url := [Lit "health"];
     route_handler := fun _ _ _ => reply 200 (JObj [("status", JStr "ok")]) |}.

(** The routes [createServer] registers, in its order. *)
Definition createServer : list Route :=
  health :: registerAuthRoutes ++ registerFeedingRoutes
         ++ registerMeasurementRoutes ++ registerReminderRoutes.

(** An application on which [registerAnimalRoutes] of routes/animals.ts,
    whose animals the other resources refer to, is registered as well. *)
Definition api : list Route := createServer ++ registerAnimalRoutes.

(** The routes whose handler starts with [requireAuth]. *)
Definition protected : list Route :=
  registerFeedingRoutes ++ registerMeasurementRoutes
  ++ registerReminderRoutes ++ registerAnimalRoutes.

Fixpoint find_route (routes : list Route) (m : Method) (path : list string)
  : option (Route * obj) :=
  match routes with
  | [] => None
  | r :: routes' =>
      if method_eqb (route_method r) m
      then match match_url (route_url r) path with
           | Some ps => Some (r, ps)
           | None => find_route routes' m path
           end
      else find_route routes' m path
  end.

Definition method_name (m : Method) : string :=
  match m with
  | GET => "GET" | POST => "POST" | PATCH => "PATCH" | DELETE => "DELETE" | PUT => "PUT"
  end.

(** Fastify's reply to a request that matches no route. *)
Definition route_not_found (request : Request) : json :=
  JObj [("message", JStr ("Route " ++ method_name (method request) ++ ":"
                            ++ raw_url request ++ " not found"));
        ("error", JStr "Not Found");
        ("statusCode", JNum 404%float)].

(** One request against an application with these routes. *)
Definition serve (routes : list Route) (rt : Runtime) (env : Env) (request : Request)
    (db : Db) : Reply * Db :=
  match find_route routes (method request) (url request) with
  | Some (r, ps) =>
      run (route_handler r rt env
             {| method := method request; raw_url := raw_url request;
                url := url request;
                authorization := authorization request; params := ps;
                query := query request; body := body request |}) db
  | None => ({| code := 404; payload := route_not_found request |}, db)
  end.

Definition handle : Runtime -> Env -> Request -> Db -> Reply * Db := serve api.

(* ================================================================= *)
(** ** mobile/contexts/AuthContext.tsx *)

Module AuthContext.

Record AuthUser := {
  id : string; username : string; role : string;
  createdAt : string; updatedAt : string
}.

Record AuthSession := { token : string; expiresAt : string }.

Record StoredAuthState := { user : AuthUser; session : AuthSession }.

(** The provider's [user] and [session] state and the item stored under
    [AUTH_STORAGE_KEY], which only [persistAuthState] writes. *)
Record State := {
  st_user : option AuthUser;
  st_session : option AuthSession;
  storage : option StoredAuthState
}.

(** How [apiRequest] settles: it resolves with the payload, throws an
    [ApiError] carrying the HTTP status, or [fetch] itself rejects. *)
Inductive ApiOutcome :=
| Resolved (payload : StoredAuthState)
| ApiError (status : Z) (message : string)
| FetchRejected.

(** A computation that either finishes or awaits one [/auth/me] call. *)
Inductive Effect :=
| Done (s : State)
| Request_auth_me (token : string) (k : ApiOutcome -> State).

Definition isSessionExpired (rt : Runtime) (now : Z) (session : option AuthSession) : bool :=
  match session with
  | None => true
  | Some s =>
      match new_Date rt (JStr (expiresAt s)) with
      | Some t => t <=? now
      | None => false
      end
  end.

Definition persistAuthState (nextUser : option AuthUser) (nextSession : option AuthSession)
    (s : State) : State :=
  match nextUser, nextSession with
  | Some u, Some ss =>
      {| st_user := st_user s; st_session := st_session s;
         storage := Some {| user := u; session := ss |} |}
  | _, _ => {| st_user := st_user s; st_session := st_session s; storage := None |}
  end.

Definition applyAuthState (nextUser : option AuthUser) (nextSession : option AuthSession)
    (s : State) : State :=
  persistAuthState nextUser nextSession
    {| st_user := nextUser; st_session := nextSession; storage := storage s |}.

Definition error_status (o : ApiOutcome) : option Z :=
  match o with
  | ApiError status _ => Some status
  | _ => None
  end.

Definition restoreSession (rt : Runtime) (now : Z) (s : State) : Effect :=
  match storage s with
  | None => Done s
  | Some parsed =>
      if isSessionExpired rt now (Some (session parsed))
      then Done {| st_user := st_user s; st_session := st_session s; storage := None |}
      else
        Request_auth_me (token (session parsed)) (fun outcome =>
          match outcome with
          | Resolved refreshed =>
              applyAuthState (Some (user refreshed)) (Some (session refreshed)) s
          | _ =>
              match error_status outcome with
              | Some 401 | Some 403 => applyAuthState None None s
              | _ =>
                  {| st_user := Some (user parsed);
                     st_session := Some (session parsed);
                     storage := storage s |}
              end
          end)
  end.

End AuthContext.

(* ================================================================= *)
(** ** Invariants of the store *)

(** Every foreign key of the schema references an existing parent row. *)
Record foreign_keys (db : Db) : Prop := {
  fk_session_user :
    Forall (fun s => Pg.has User.id (Session.userId s) (user db) = true) (session db);
  fk_animal_user :
    Forall (fun a => Pg.has User.id (Animal.userId a) (user db) = true) (animal db);
  fk_feeding_user :
    Forall (fun r => Pg.has User.id (FeedingRecord.userId r) (user db) = true)
           (feedingRecord db);
  fk_feeding_animal :
    Forall (fun r => Pg.refers Animal.id (FeedingRecord.animalId r) (animal db) = true)
           (feedingRecord db);
  fk_measurement_user :
    Forall (fun r => Pg.has User.id (MeasurementLog.userId r) (user db) = true)
           (measurementLog db);
  fk_measurement_animal :
    Forall (fun r => Pg.refers Animal.id (MeasurementLog.animalId r) (animal db) = true)
           (measurementLog db);
  fk_reminder_user :
    Forall (fun r => Pg.has User.id (Reminder.userId r) (user db) = true) (reminder db);
  fk_reminder_animal :
    Forall (fun r => Pg.refers Animal.id (Reminder.animalId r) (animal db) = true)
           (reminder db)
}.

(** No row of a child table references the user id. *)
Definition no_user_ref (uid : string) (db : Db) : Prop :=
  Forall (fun s => Session.userId s <> uid) (session db)
  /\ Forall (fun a => Animal.userId a <> uid) (animal db)
  /\ Forall (fun r => FeedingRecord.userId r <> uid) (feedingRecord db)
  /\ Forall (fun r => MeasurementLog.userId r <> uid) (measurementLog db)
  /\ Forall (fun r => Reminder.userId r <> uid) (reminder db).

(** No row of a child table references the animal id. *)
Definition no_animal_ref (aid : string) (db : Db) : Prop :=
  Forall (fun r => FeedingRecord.animalId r <> Some aid) (feedingRecord db)
  /\ Forall (fun r => MeasurementLog.animalId r <> Some aid) (measurementLog db)
  /\ Forall (fun r => Reminder.animalId r <> Some aid) (reminder db).

(** Everything but the session table. *)
Definition same_resources (db db' : Db) : Prop :=
  user db' = user db /\ animal db' = animal db
  /\ feedingRecord db' = feedingRecord db
  /\ measurementLog db' = measurementLog db
  /\ reminder db' = reminder db.

(** A handler specification: [I] relates the store before and after,
    [P] holds of the reply sent. *)
Definition triple (I : Db -> Db -> Prop) (P : Reply -> Prop) {A} (h : Handler A) : Prop :=
  forall db, match h db with
             | (inl r, db') => I db db' /\ P r
             | (inr _, db') => I db db'
             end.

Definition keeps_fk (db db' : Db) : Prop := foreign_keys db -> foreign_keys db'.

(** What a request that passed [requireAuth] is known to carry. *)
Record authentic (env : Env) (db : Db) (auth : AuthenticatedContext) : Prop := {
  auth_user : In (ctx_user auth) (user db);
  auth_session : In (ctx_session auth) (session db);
  auth_owner : Session.userId (ctx_session auth) = User.id (ctx_user auth);
  auth_fresh : now env < Session.expiresAt (ctx_session auth);
  auth_active : User.isActive (ctx_user auth) = true
}.

Definition unauthorized : Reply :=
  {| code := 401; payload := error_body "Unauthorized" |}.


(** The user owns an animal with this id. *)
Definition owns (db : Db) (userId animalId : string) : Prop :=
  exists a, In a (animal db)
            /\ Animal.id a = Pg.uuid_in animalId /\ Animal.userId a = userId.

(** The order requested by [desc(date), desc(createdAt)]: [a] is newer
    than [b], or as new and created no earlier. *)
Definition newer_or_same {A} (date created : A -> Z) (a b : A) : Prop :=
  date b < date a \/ (date a = date b /\ created b <= created a).


(** Rows of one user and one animal, and their order in a list: [a] is
    not older than [b]. *)
Section Listing.
Context {Row : Type} (userId : Row -> string) (animalId : Row -> option string)
        (date created : Row -> Z).

Definition of_user_animal (u a : string) (x : Row) : bool :=
  String.eqb (userId x) u
  && match animalId x with Some i => String.eqb i a | None => false end.



(** [records] are the [n] newest rows of the user and animal: the first
    [n] of an arrangement of all those rows, each once, in which no row is
    older than a row after it. *)
Definition newest_of (n : nat) (u a : string) (rows records : list Row) : Prop :=
  exists sorted,
    Permutation sorted (filter (of_user_animal u a) rows)
    /\ StronglySorted (newer_or_same date created) sorted
    /\ records = firstn n sorted.

End Listing.

(** Visibility of a stored row [r] of the user [owner] through a list
    endpoint [list] over the table [table]. *)
Section Visibility.
Context {Row : Type} (table : Db -> list Row) (id userId : Row -> string)
        (animalId : Row -> option string) (toResponse : Row -> json)
        (list : Env -> Request -> Handler Sent).



End Visibility.

(** A reply is free of the key when it is an error or its payload does
    not mention the key at any depth. *)
Definition success_without (k : string) (r : Reply) : Prop :=
  code r < 400 -> has_key k (payload r) = false.

(** The user a successful auth reply exposes, if any, is the public
    projection of a user row. *)
Definition exposes_public_user (rt : Runtime) (r : Reply) : Prop :=
  code r < 400 ->
  field "user" (payload r) = None
  \/ exists u, field "user" (payload r) = Some (JObj (toPublicUser (user_object rt u))).

Definition any_change (db db' : Db) : Prop := True.

(** The unique index [animal_user_name_unique] on (user_id, name). *)
Definition animal_user_name_unique (db : Db) : Prop :=
  forall a b, In a (animal db) -> In b (animal db) ->
              Animal.userId a = Animal.userId b -> Animal.name a = Animal.name b ->
              a = b.

(** Identifiers in [animal.id] are canonical uuid text. *)
Definition canonical_ids (db : Db) : Prop :=
  Forall (fun a => Pg.uuid_in (Animal.id a) = Animal.id a) (animal db).

Definition conflict : Reply :=
  {| code := 409; payload := error_body "An animal with this name already exists" |}.

(** No row with this id belongs to the user. *)
Definition none_owned {Row} (id userId : Row -> string) (rows : list Row)
    (i u : string) : Prop :=
  forall r, In r rows -> id r = Pg.uuid_in i -> userId r <> u.

Definition not_found (message : string) : Reply :=
  {| code := 404; payload := error_body message |}.

(** The two shapes of a 400 reply: with the flattened zod error under
    [details], and with an error message only. *)
Definition invalid (rt : Runtime) (message : string) (issues : list Zod.ZodIssue) : Reply :=
  {| code := 400;
     payload := JObj [("error", JStr message); ("details", Zod.flatten rt issues)] |}.

Definition bad_request (message : string) : Reply :=
  {| code := 400; payload := error_body message |}.

(** The flattened error names the issue: under [formErrors] when its path
    is empty, else under [fieldErrors] at the first element of its path. *)
Definition named_in (rt : Runtime) (details : json) (i : Zod.ZodIssue) : Prop :=
  match Zod.path i with
  | [] => exists msgs, field "formErrors" details = Some (JArr msgs)
                       /\ In (Zod.render rt i) msgs
  | k :: _ => exists errors msgs,
                field "fieldErrors" details = Some (JObj errors)
                /\ get k errors = Some (JArr msgs)
                /\ In (Zod.render rt i) msgs
  end.

(** A parse that aborts raises at least one issue. *)
Definition sound {A} (p : Zod.Parsed A) : Prop := snd p = None -> fst p <> [].

(** A handler that rejects a body failing [schema]: it answers 400 with
    the flattened error, which holds at least one issue, and leaves the
    store as it was. *)
Definition rejects_body {A} (rt : Runtime) (schema : Zod.Schema A)
    (h : Handler Sent) (request : Request) (db : Db) (message : string) : Prop :=
  forall issues,
    Zod.safeParse schema (body request) = Zod.failure issues ->
    issues <> [] /\ run h db = (invalid rt message issues, db).



Definition deleted : Reply :=
  {| code := 200; payload := JObj [("success", JBool true)] |}.



(** A handler whose statements send the values [sent] to the database:
    [P] holds when the database accepts them all; when it refuses one, the
    handler answers the 500 of the refusal and leaves the store as it
    was. *)
Definition unless_refused (rt : Runtime) (sent : list Pg.Param)
    (h : Handler Sent) (db : Db) (P : Prop) : Prop :=
  (Pg.first_refused rt sent = None -> P)
  /\ (forall e, Pg.first_refused rt sent = Some e -> run h db = (server_error e, db)).

(** The three steps in the life of a row, as seen on its table [table]:
    a POST answers 201 with the new row [r], which is appended; a PATCH
    answers 200 with the row as changed by [set], applied to the rows
    selected by [p]; a DELETE answers success and the rows selected by [p]
    are gone. *)
Definition created {Row} (table : Db -> list Row) (toResponse : Row -> json)
    (r : Row) (h : Handler Sent) (db : Db) : Prop :=
  exists db',
    run h db = ({| code := 201; payload := toResponse r |}, db')
    /\ table db' = table db ++ [r].

Definition updated {Row} (table : Db -> list Row) (p : Row -> bool) (set : Row -> Row)
    (toResponse : Row -> json) (r : Row) (h : Handler Sent) (db : Db) : Prop :=
  exists r0 db',
    In r0 (table db) /\ p r0 = true
    /\ run h db = ({| code := 200; payload := toResponse (set r0) |}, db')
    /\ table db' = map (fun x => if p x then set x else x) (table db)
    /\ In (set r) (table db').


(** A string that does not start with white space. *)
Definition no_lead (s : string) : Prop :=
  match s with
  | String c _ => Js.is_space c = false
  | EmptyString => True
  end.

(* ================================================================= *)
(** ** Sample data *)

(** A small runtime and store on which the handlers can be run.  Dates
    are written as decimal millisecond counts. *)
Module Sample.

(** The integer part of a finite double. *)
Definition truncate (n : Js.number) : option Z :=
  match Prim2SF n with
  | S754_zero _ => Some 0
  | S754_finite sign m e =>
      let v := if 0 <=? e then Zpos m * 2 ^ e else Z.quot (Zpos m) (2 ^ (- e)) in
      Some (if sign then - v else v)
  | _ => None
  end.

Definition decimal (z : Z) : string := NilZero.string_of_int (Z.to_int z).

Definition type_name (t : ZodParsedType.t) : string :=
  match t with
  | ZodParsedType.undefined => "undefined"
  | ZodParsedType.null => "null"
  | ZodParsedType.boolean => "boolean"
  | ZodParsedType.nan => "nan"
  | ZodParsedType.number => "number"
  | ZodParsedType.string => "string"
  | ZodParsedType.array => "array"
  | ZodParsedType.object => "object"
  end.

(** The messages of zod's English error map. *)
Definition defaultErrorMap (c : ZodIssueCode.IssueCode) : string :=
  match c with
  | ZodIssueCode.invalid_type expected received =>
      match received with
      | ZodParsedType.undefined => "Required"
      | _ => "Expected " ++ expected ++ ", received " ++ type_name received
      end
  | ZodIssueCode.invalid_enum_value options received =>
      "Invalid enum value. Expected " ++ Zod.joinValues options
        ++ ", received '" ++ received ++ "'"
  | ZodIssueCode.too_small ZodIssueCode.a_string minimum inclusive =>
      "String must contain " ++ (if inclusive then "at least" else "over") ++ " "
        ++ decimal minimum ++ " character(s)"
  | ZodIssueCode.too_small ZodIssueCode.a_number minimum inclusive =>
      "Number must be " ++ (if inclusive then "greater than or equal to "
                            else "greater than ") ++ decimal minimum
  | ZodIssueCode.too_big ZodIssueCode.a_string maximum inclusive =>
      "String must contain " ++ (if inclusive then "at most" else "under") ++ " "
        ++ decimal maximum ++ " character(s)"
  | ZodIssueCode.too_big ZodIssueCode.a_number maximum inclusive =>
      "Number must be " ++ (if inclusive then "less than or equal to "
                            else "less than ") ++ decimal maximum
  | ZodIssueCode.invalid_string ZodIssueCode.uuid => "Invalid uuid"
  | ZodIssueCode.invalid_string ZodIssueCode.regex => "Invalid"
  | ZodIssueCode.invalid_date => "Invalid date"
  | ZodIssueCode.not_finite => "Number must be finite"
  | ZodIssueCode.custom => "Invalid input"
  end%string.

(** A collation that looks at the letters before their case and puts the
    small letter first. *)
Definition collation (a b : string) : bool :=
  if (Js.toLowerCase a =? Js.toLowerCase b)%string then String.leb b a
  else String.leb (Js.toLowerCase a) (Js.toLowerCase b).

(** The first and the last millisecond of the years 1 to 9999. *)
Definition first_time : Z := -62135596800000.
Definition last_time : Z := 253402300799999.

Definition runtime : Runtime := {|
  new_Date := fun j =>
    match j with
    | JNull => Some 0
    | JBool b => Some (if b then 1 else 0)
    | JNum n =>
        match truncate n with
        | Some t => if Z.abs t <=? 8640000000000000 then Some t else None
        | None => None
        end
    | JStr s => option_map Z.of_int (NilZero.int_of_string s)
    | _ => None
    end;
  toISOString := decimal;
  errorMap := defaultErrorMap;
  bcrypt_hash := fun password salt => ("$2a$12$" ++ password)%string;
  bcrypt_compare := fun password hash => String.eqb hash ("$2a$12$" ++ password);
  SESSION_TTL_HOURS := 24;
  timestamp_in := fun t =>
    if (first_time <=? t) && (t <=? last_time) then None
    else Some ("date/time field value out of range: " ++ decimal t)%string;
  collate := collation
|}.

Definition alice_id := "11111111-1111-4111-8111-111111111111".
Definition bob_id := "22222222-2222-4222-8222-222222222222".
Definition rex_id := "aaaaaaaa-aaaa-4aaa-8aaa-aaaaaaaaaaaa".
Definition max_id := "bbbbbbbb-bbbb-4bbb-8bbb-bbbbbbbbbbbb".
Definition fresh_id := "cccccccc-cccc-4ccc-8ccc-cccccccccccc".
Definition other_id := "dddddddd-dddd-4ddd-8ddd-dddddddddddd".

Definition alice : User.t :=
  {| User.id := alice_id; User.username := "alice";
     User.passwordHash := "$2a$12$correct horse"; User.role := "user";
     User.isActive := true; User.createdAt := 1; User.updatedAt := 1 |}.

Definition bob : User.t :=
  {| User.id := bob_id; User.username := "bob";
     User.passwordHash := "$2a$12$battery staple"; User.role := "user";
     User.isActive := true; User.createdAt := 2; User.updatedAt := 2 |}.

Definition alice_session : Session.t :=
  {| Session.id := "tok-alice"; Session.userId := alice_id;
     Session.expiresAt := 1000000; Session.createdAt := 5 |}.

Definition bob_session : Session.t :=
  {| Session.id := "tok-bob"; Session.userId := bob_id;
     Session.expiresAt := 1000000; Session.createdAt := 6 |}.

Definition stale_session : Session.t :=
  {| Session.id := "tok-stale"; Session.userId := alice_id;
     Session.expiresAt := 50; Session.createdAt := 3 |}.

(** Alice's animal Rex and Bob's animal, also called Rex. *)
Definition rex : Animal.t :=
  {| Animal.id := rex_id; Animal.userId := alice_id; Animal.name := "Rex";
     Animal.species := Some "Tiliqua scincoides"; Animal.description := None;
     Animal.birthDate := None; Animal.sex := None;
     Animal.createdAt := 10; Animal.updatedAt := 10 |}.

Definition bobs_rex : Animal.t :=
  {| Animal.id := max_id; Animal.userId := bob_id; Animal.name := "Rex";
     Animal.species := None; Animal.description := None;
     Animal.birthDate := None; Animal.sex := None;
     Animal.createdAt := 11; Animal.updatedAt := 11 |}.

Definition spike_id := "eeeeeeee-eeee-4eee-8eee-eeeeeeeeeeee".

(** Bob's second animal; Alice has none of that name. *)
Definition spike : Animal.t :=
  {| Animal.id := spike_id; Animal.userId := bob_id; Animal.name := "Spike";
     Animal.species := None; Animal.description := None;
     Animal.birthDate := None; Animal.sex := None;
     Animal.createdAt := 12; Animal.updatedAt := 12 |}.

Definition feeding (id : string) (date : Z) : FeedingRecord.t :=
  {| FeedingRecord.id := id; FeedingRecord.userId := alice_id;
     FeedingRecord.animalId := Some rex_id; FeedingRecord.feedingDate := date;
     FeedingRecord.consumed := "fully"; FeedingRecord.foodType := Some "cricket";
     FeedingRecord.quantity := Some "3"; FeedingRecord.notes := None;
     FeedingRecord.weight := None;
     FeedingRecord.createdAt := date; FeedingRecord.updatedAt := date |}.

Definition measurement (id : string) (date : Z) : MeasurementLog.t :=
  {| MeasurementLog.id := id; MeasurementLog.userId := alice_id;
     MeasurementLog.animalId := Some rex_id; MeasurementLog.metricType := "weight";
     MeasurementLog.value := Some 420%float; MeasurementLog.unit := Some "g";
     MeasurementLog.notes := None; MeasurementLog.recordedAt := date;
     MeasurementLog.createdAt := date; MeasurementLog.updatedAt := date |}.

Definition task (id : string) : Reminder.t :=
  {| Reminder.id := id; Reminder.userId := alice_id; Reminder.animalId := Some rex_id;
     Reminder.title := "Clean enclosure"; Reminder.notes := None;
     Reminder.isReminder := false; Reminder.dueDate := None;
     Reminder.isCompleted := false; Reminder.notificationId := None;
     Reminder.createdAt := 20; Reminder.updatedAt := 20 |}.

Definition feeding_id := "f0000000-0000-4000-8000-000000000001".
Definition measurement_id := "e0000000-0000-4000-8000-000000000001".
Definition task_id := "d0000000-0000-4000-8000-000000000001".

Definition db : Db :=
  {| user := [alice; bob];
     session := [alice_session; bob_session; stale_session];
     animal := [rex; bobs_rex; spike];
     feedingRecord := [feeding feeding_id 30];
     measurementLog := [measurement measurement_id 31];
     reminder := [task task_id] |}.

Definition env : Env :=
  {| now := 100; db_now := 100; db_now_session := 101; uuid := fresh_id;
     token := "tok-new"; salt := "salt" |}.

(** The text of a URL with these path segments and this query. *)
Definition search (q : obj) : string :=
  match q with
  | [] => ""
  | _ => "?" ++ Js.join "&" (map (fun kv => (fst kv ++ "="
                                   ++ match snd kv with JStr v => v | _ => "" end)%string) q)
  end%string.

Definition href (path : list string) (q : obj) : string :=
  ("/" ++ Js.join "/" path ++ search q)%string.

Definition request (m : Method) (path : list string) (bearer : string)
    (q : obj) (b : option json) : Request :=
  {| method := m; raw_url := href path q; url := path;
     authorization := Some ("Bearer " ++ bearer)%string;
     params := []; query := JObj q; body := b |}.

Definition alice_auth : AuthenticatedContext :=
  {| ctx_session := alice_session; ctx_user := alice |}.

Definition bob_auth : AuthenticatedContext :=
  {| ctx_session := bob_session; ctx_user := bob |}.

(** GET /feedings?animalId=<rex> (also used for /measurements and
    /reminders) as Alice and as Bob. *)
Definition list_rex : Request :=
  request GET ["feedings"] "tok-alice" [("animalId", JStr rex_id)] None.

Definition bob_lists_rex : Request :=
  request GET ["feedings"] "tok-bob" [("animalId", JStr rex_id)] None.

(** The identifier of the [n]-th generated row, [n < 1000]. *)
Definition nth_id (n : nat) : string :=
  let d := NilZero.string_of_int (Z.to_int (Z.of_nat n)) in
  ("f0000000-0000-4000-8000-000000000"
     ++ (if Nat.ltb n 10 then "00" else if Nat.ltb n 100 then "0" else "") ++ d)%string.


(** A store in which Alice has logged 201 feedings and 201 measurements
    for Rex, the [n]-th dated [n]. *)
Definition crowded_db : Db :=
  {| user := [alice; bob];
     session := [alice_session; bob_session];
     animal := [rex; bobs_rex];
     feedingRecord := map (fun n => feeding (nth_id n) (Z.of_nat n)) (seq 0 201);
     measurementLog := map (fun n => measurement (nth_id n) (Z.of_nat n)) (seq 0 201);
     reminder := [] |}.








(** POST /auth/login with Alice's credentials. *)
Definition login : Request :=
  {| method := POST;
     raw_url := href ["auth"; "login"] [];
     url := ["auth"; "login"];
     authorization := None;
     params := []; query := JObj [];
     body := Some (JObj [("username", JStr "alice");
                         ("password", JStr "correct horse")]) |}.

(** POST /auth/register without an Authorization header, the username too
    short and the password missing. *)
Definition register_short : Request :=
  {| method := POST;
     raw_url := href ["auth"; "register"] [];
     url := ["auth"; "register"];
     authorization := None;
     params := []; query := JObj [];
     body := Some (JObj [("username", JStr "ab")]) |}.

(** What the mobile client cached after Alice signed in. *)
Definition cached : AuthContext.StoredAuthState :=
  {| AuthContext.user :=
       {| AuthContext.id := alice_id; AuthContext.username := "alice";
          AuthContext.role := "user"; AuthContext.createdAt := "1";
          AuthContext.updatedAt := "1" |};
     AuthContext.session :=
       {| AuthContext.token := "tok-alice"; AuthContext.expiresAt := "1000000" |} |}.

Definition app_start : AuthContext.State :=
  {| AuthContext.st_user := None; AuthContext.st_session := None;
     AuthContext.storage := Some cached |}.

(** A name that holds the character of code zero. *)
Definition with_nul : string := String "R" (String Ascii.zero "x").

(** POST /animals as Alice with the given name. *)
Definition post_animal (name : string) : Request :=
  request POST ["animals"] "tok-alice" [] (Some (JObj [("name", JStr name)])).

(** PATCH /animals/:id as Bob, renaming his animal Spike to the given
    name; [params] as the router fills it. *)
Definition rename_spike (name : string) : Request :=
  {| method := PATCH;
     raw_url := href ["animals"; spike_id] [];
     url := ["animals"; spike_id];
     authorization := Some "Bearer tok-bob";
     params := [("id", JStr spike_id)]; query := JObj [];
     body := Some (JObj [("name", JStr name)]) |}.

(** DELETE /measurements/:id as Alice for an id no row has. *)
Definition delete_missing : Request :=
  {| method := DELETE;
     raw_url := href ["measurements"; other_id] [];
     url := ["measurements"; other_id];
     authorization := Some "Bearer tok-alice";
     params := [("id", JStr other_id)]; query := JObj []; body := None |}.

(** PATCH /animals/:id as Alice for an id no animal has, renaming to the
    given name. *)
Definition rename_missing_to (name : string) : Request :=
  {| method := PATCH;
     raw_url := href ["animals"; other_id] [];
     url := ["animals"; other_id];
     authorization := Some "Bearer tok-alice";
     params := [("id", JStr other_id)]; query := JObj [];
     body := Some (JObj [("name", JStr name)]) |}.

(** The same, renaming to the name of her animal Rex. *)
Definition rename_missing : Request := rename_missing_to "Rex".

(** DELETE /measurements/nope as Alice: the path parameter is no uuid. *)
Definition delete_nope : Request :=
  {| method := DELETE;
     raw_url := href ["measurements"; "nope"] [];
     url := ["measurements"; "nope"];
     authorization := Some "Bearer tok-alice";
     params := [("id", JStr "nope")]; query := JObj []; body := None |}.

(** PATCH /reminders/:id as Alice with an empty object as body. *)
Definition patch_nothing : Request :=
  {| method := PATCH;
     raw_url := href ["reminders"; task_id] [];
     url := ["reminders"; task_id];
     authorization := Some "Bearer tok-alice";
     params := [("id", JStr task_id)]; query := JObj [];
     body := Some (JObj []) |}.



(** DELETE /feedings/:id as Alice for her feeding. *)
Definition remove_feeding : Request :=
  {| method := DELETE;
     raw_url := href ["feedings"; feeding_id] [];
     url := ["feedings"; feeding_id];
     authorization := Some "Bearer tok-alice";
     params := [("id", JStr feeding_id)]; query := JObj []; body := None |}.

End Sample.

(* ================================================================= *)
(** ** Further notions used in the statements *)

(** A string without white space, and one without the character [sep]. *)
Definition no_space (s : string) : bool :=
  Js.all_chars (fun c => negb (Js.is_space c)) s.

Definition free_of (sep : ascii) (s : string) : bool :=
  Js.all_chars (fun c => negb (Ascii.eqb c sep)) s.

(** The primary keys of [user] and [session] and the unique constraint
    [user_username_unique]. *)
Definition user_pkey (db : Db) : Prop :=
  forall a b, In a (user db) -> In b (user db) -> User.id a = User.id b -> a = b.

Definition session_pkey (db : Db) : Prop :=
  forall a b, In a (session db) -> In b (session db) ->
              Session.id a = Session.id b -> a = b.

Definition user_username_unique (db : Db) : Prop :=
  forall a b, In a (user db) -> In b (user db) ->
              User.username a = User.username b -> a = b.

(** The rows a registration and a login are expected to store. *)
Definition registered_user (rt : Runtime) (env : Env) (data : Auth.CredentialsInput)
  : User.t :=
  {| User.id := uuid env;
     User.username := Js.toLowerCase (Js.trim (Auth.username data));
     User.passwordHash := bcrypt_hash rt (Auth.password data) (salt env);
     User.role := "user"; User.isActive := true;
     User.createdAt := db_now env; User.updatedAt := db_now env |}.

Definition issued_session (rt : Runtime) (env : Env) (userId : string) : Session.t :=
  {| Session.id := token env; Session.userId := userId;
     Session.expiresAt := now env + SESSION_TTL_HOURS rt * 3600000;
     Session.createdAt := db_now_session env |}.

(** The store with one more session, and with one more user. *)
Definition with_session (s : Session.t) (db : Db) : Db :=
  {| user := user db; session := session db ++ [s]; animal := animal db;
     feedingRecord := feedingRecord db; measurementLog := measurementLog db;
     reminder := reminder db |}.

Definition with_user (u : User.t) (db : Db) : Db :=
  {| user := user db ++ [u]; session := session db; animal := animal db;
     feedingRecord := feedingRecord db; measurementLog := measurementLog db;
     reminder := reminder db |}.

(** The body of a successful authentication reply. *)
Definition signed_in (rt : Runtime) (u : User.t) (s : Session.t) : json :=
  JObj [("user", JObj (toPublicUser (user_object rt u)));
        ("session", JObj [("token", JStr (Session.id s));
                          ("expiresAt", JStr (toISOString rt (Session.expiresAt s)))])].

Definition invalid_login : Reply :=
  {| code := 401; payload := error_body "Invalid username or password" |}.

(** A text that is not empty and has no white space around it; an
    optional text that is absent or such a text. *)
Definition clean_text (s : string) : Prop := s <> "" /\ Js.trim s = s.

Definition clean_opt (o : option string) : Prop :=
  forall s, o = Some s -> clean_text s.

Definition clean_animal (a : Animal.t) : Prop :=
  clean_text (Animal.name a)
  /\ clean_opt (Animal.species a)
  /\ clean_opt (Animal.description a)
  /\ clean_opt (Animal.sex a).

Definition clean_payload (p : Animals.Payload) : Prop :=
  (forall n, Animals.p_name p = Some n -> clean_text n)
  /\ (forall v, Animals.p_species p = Some v -> clean_opt v)
  /\ (forall v, Animals.p_description p = Some v -> clean_opt v)
  /\ (forall v, Animals.p_sex p = Some v -> clean_opt v).

(** A double above zero. *)
Definition greater_than_zero (w : Js.number) : Prop := PrimFloat.ltb 0 w = true.

Definition clean_feeding (r : FeedingRecord.t) : Prop :=
  In (FeedingRecord.consumed r) ["fully"; "partially"; "refused"]
  /\ clean_opt (FeedingRecord.foodType r)
  /\ clean_opt (FeedingRecord.quantity r)
  /\ clean_opt (FeedingRecord.notes r)
  /\ (forall w, FeedingRecord.weight r = Some w -> greater_than_zero w).

(** A measurement has a value unless its type is "note" in whatever
    letter case. *)
Definition clean_measurement (r : MeasurementLog.t) : Prop :=
  clean_text (MeasurementLog.metricType r)
  /\ clean_opt (MeasurementLog.unit r)
  /\ clean_opt (MeasurementLog.notes r)
  /\ (MeasurementLog.value r = None ->
      Js.toLowerCase (MeasurementLog.metricType r) = "note").

Definition clean_reminder (r : Reminder.t) : Prop :=
  clean_text (Reminder.title r)
  /\ clean_opt (Reminder.notes r)
  /\ clean_opt (Reminder.notificationId r).

Definition clean_reminder_payload (p : Reminders.Payload) : Prop :=
  (forall t, Reminders.p_title p = Some t -> clean_text t)
  /\ (forall v, Reminders.p_notes p = Some v -> clean_opt v)
  /\ (forall v, Reminders.p_notificationId p = Some v -> clean_opt v).

Definition clean_records (db : Db) : Prop :=
  Forall clean_feeding (feedingRecord db)
  /\ Forall clean_measurement (measurementLog db)
  /\ Forall clean_reminder (reminder db).

(** What one request of user [U] may do to the store: nothing, or one
    statement on rows of [U]. *)
Inductive writes (rt : Runtime) (U : string) (db db' : Db) : Prop :=
| writes_nothing : db' = db -> writes rt U db db'
| writes_insert_animal a x :
    Animal.userId a = U -> clean_animal a ->
    Pg.insert_animal rt a db = inr (x, db') -> writes rt U db db'
| writes_insert_feeding r aid x :
    FeedingRecord.userId r = U ->
    clean_feeding r ->
    FeedingRecord.animalId r = Some (Pg.uuid_in aid) ->
    owns db U aid ->
    Pg.insert_feedingRecord rt r db = inr (x, db') -> writes rt U db db'
| writes_insert_measurement r aid x :
    MeasurementLog.userId r = U ->
    clean_measurement r ->
    MeasurementLog.animalId r = Some (Pg.uuid_in aid) ->
    owns db U aid ->
    Pg.insert_measurementLog rt r db = inr (x, db') -> writes rt U db db'
| writes_insert_reminder r aid x :
    Reminder.userId r = U ->
    clean_reminder r ->
    Reminder.animalId r = Some (Pg.uuid_in aid) ->
    owns db U aid ->
    Pg.insert_reminder rt r db = inr (x, db') -> writes rt U db db'
| writes_update_animal id env p sent rows :
    clean_payload p ->
    Pg.update_animal rt sent (Animals.by_id_user id U) (Animals.set_row env p) db
    = inr (rows, db') -> writes rt U db db'
| writes_update_reminder id p sent rows :
    (forall aid, Reminders.p_animalId p = Some aid -> owns db U aid) ->
    clean_reminder_payload p ->
    Pg.update_reminder rt sent (Reminders.by_id_user id U) (Reminders.set_row p) db
    = inr (rows, db') -> writes rt U db db'
| writes_delete_animal id rows :
    Pg.delete_animal (Animals.by_id_user id U) db = inr (rows, db') ->
    writes rt U db db'
| writes_delete_feeding id rows :
    Pg.delete_feedingRecord (Feedings.by_id_user id U) db = inr (rows, db') ->
    writes rt U db db'
| writes_delete_measurement id rows :
    Pg.delete_measurementLog (Measurements.by_id_user id U) db = inr (rows, db') ->
    writes rt U db db'
| writes_delete_reminder id rows :
    Pg.delete_reminder (Reminders.by_id_user id U) db = inr (rows, db') ->
    writes rt U db db'.

(** The primary key of [animal]. *)
Definition animal_pkey (db : Db) : Prop :=
  forall a b, In a (animal db) -> In b (animal db) -> Animal.id a = Animal.id b -> a = b.

(** A row that references an animal references an animal of its own
    user. *)
Definition with_own_animal {Row} (userId : Row -> string)
    (animalId : Row -> option string) (db : Db) (r : Row) : Prop :=
  forall x, animalId r = Some x ->
            exists a, In a (animal db) /\ Animal.id a = x /\ Animal.userId a = userId r.

Definition owner_consistent (db : Db) : Prop :=
  Forall (with_own_animal FeedingRecord.userId FeedingRecord.animalId db)
         (feedingRecord db)
  /\ Forall (with_own_animal MeasurementLog.userId MeasurementLog.animalId db)
            (measurementLog db)
  /\ Forall (with_own_animal Reminder.userId Reminder.animalId db) (reminder db).

(** The animals, feedings, measurements and reminders of the users other
    than [U] are the same rows, in the same order. *)
Definition others_kept (U : string) (db db' : Db) : Prop :=
  Pg.keep (fun r => Pg.eq (Animal.userId r) U) (animal db')
  = Pg.keep (fun r => Pg.eq (Animal.userId r) U) (animal db)
  /\ Pg.keep (fun r => Pg.eq (FeedingRecord.userId r) U) (feedingRecord db')
     = Pg.keep (fun r => Pg.eq (FeedingRecord.userId r) U) (feedingRecord db)
  /\ Pg.keep (fun r => Pg.eq (MeasurementLog.userId r) U) (measurementLog db')
     = Pg.keep (fun r => Pg.eq (MeasurementLog.userId r) U) (measurementLog db)
  /\ Pg.keep (fun r => Pg.eq (Reminder.userId r) U) (reminder db')
     = Pg.keep (fun r => Pg.eq (Reminder.userId r) U) (reminder db).

(** The four resource tables are as they were. *)
Definition same_records (db db' : Db) : Prop :=
  animal db' = animal db /\ feedingRecord db' = feedingRecord db
  /\ measurementLog db' = measurementLog db /\ reminder db' = reminder db.

(** The order of GET /reminders, [desc(dueDate), desc(createdAt)]:
    reminders without a due date come first, then the later due date;
    among equals, the one created no earlier. *)
Definition due_first (a b : Reminder.t) : Prop :=
  match Reminder.dueDate a, Reminder.dueDate b with
  | None, None => Reminder.createdAt b <= Reminder.createdAt a
  | None, Some _ => True
  | Some _, None => False
  | Some x, Some y => y < x \/ (x = y /\ Reminder.createdAt b <= Reminder.createdAt a)
  end.

(** The order of GET /animals, [asc(name)]: the name of [a] sorts at or
    before the name of [b] under the collation of the database. *)
Definition name_order (rt : Runtime) (a b : Animal.t) : Prop :=
  collate rt (Animal.name a) (Animal.name b) = true.

(** The collation orders these names: any two of them are comparable,
    and the comparison is transitive among them. *)
Definition orders (rt : Runtime) (names : list string) : Prop :=
  (forall a b, In a names -> In b names ->
               collate rt a b = true \/ collate rt b a = true)
  /\ (forall a b c, In a names -> In b names -> In c names ->
                    collate rt a b = true -> collate rt b c = true ->
                    collate rt a c = true).

(* ================================================================= *)
(** ** mobile/lib/api.ts *)

Module Api.

(** [s.replace(/\/$/, "")]: a slash that ends the string is removed. *)
Fixpoint strip_slash (s : string) : string :=
  match s with
  | EmptyString => EmptyString
  | String c EmptyString => if Ascii.eqb c "/" then EmptyString else s
  | String c s' => String c (strip_slash s')
  end.

Definition LOCAL_DEFAULT_BASE_URL : string := "http://localhost:3001".
Definition DEVICE_DEFAULT_BASE_URL : string :=
  "https://reptiai-backend-production.up.railway.app".

(** [configured] is [process.env.EXPO_PUBLIC_API_BASE_URL]; the flags are
    what Expo's constants and the platform say. *)
Definition API_BASE_URL (configured : option string)
    (isStoreClient isStandalone isWeb : bool) : string :=
  let configuredBaseUrl := option_map Js.trim configured in
  strip_slash
    (match configuredBaseUrl with
     | Some c =>
         if Js.truthy c && (0 <? Js.length c) then c
         else if isStoreClient || isStandalone then DEVICE_DEFAULT_BASE_URL
         else if isWeb then LOCAL_DEFAULT_BASE_URL
         else DEVICE_DEFAULT_BASE_URL
     | None =>
         if isStoreClient || isStandalone then DEVICE_DEFAULT_BASE_URL
         else if isWeb then LOCAL_DEFAULT_BASE_URL
         else DEVICE_DEFAULT_BASE_URL
     end).

(** [haystack.includes(needle)] *)
Fixpoint starts_with (needle s : string) : bool :=
  match needle, s with
  | EmptyString, _ => true
  | String a needle', String b s' => Ascii.eqb a b && starts_with needle' s'
  | String _ _, EmptyString => false
  end.

Fixpoint includes (needle s : string) : bool :=
  starts_with needle s
  || match s with
     | String _ s' => includes needle s'
     | EmptyString => false
     end.

(** The [headers] object: its own properties in the order of their
    creation, which is the order of their enumeration for names that are
    not array indices. *)
Definition Headers := list (string * string).

Fixpoint lookup (k : string) (h : Headers) : option string :=
  match h with
  | [] => None
  | (k', v) :: h' => if (k' =? k)%string then Some v else lookup k h'
  end.

Fixpoint replace (k v : string) (h : Headers) : Headers :=
  match h with
  | [] => []
  | (k', v') :: h' => if (k' =? k)%string then (k, v) :: h' else (k', v') :: replace k v h'
  end.

(** [headers[k] = v]: an own property is overwritten where it stands, a
    new one comes last; assigning a string to [__proto__] creates no
    property. *)
Definition assign (k v : string) (h : Headers) : Headers :=
  if (k =? "__proto__")%string then h
  else match lookup k h with
       | Some _ => replace k v h
       | None => h ++ [(k, v)]
       end.

(** Truthiness of a value. *)
Definition truthy (j : json) : bool :=
  match j with
  | JNull => false
  | JBool b => b
  | JNum n => negb (PrimFloat.eqb n 0 || PrimFloat.is_nan n)
  | JStr s => Js.truthy s
  | JArr _ | JObj _ => true
  end.

(** [options]: [headers] holds the entries of the [Headers] instance, of
    the array of pairs or of the plain object, as enumerated. *)
Record ApiRequestOptions := {
  method : option string;
  body : option json;
  headers : option (list (string * string));
  token : option string
}.

(** The [body] handed to [fetch]: [JSON.stringify(options.body)] or
    [options.body] itself. *)
Inductive BodyInit := Stringified (j : json) | AsIs (j : json).

Definition body_truthy (b : option BodyInit) : bool :=
  match b with
  | Some (Stringified _) => true
  | Some (AsIs j) => truthy j
  | None => false
  end.

Record FetchCall := {
  url : string;
  fetch_method : string;
  fetch_headers : Headers;
  fetch_body : option BodyInit
}.

(** What [fetch] and [response.json()] give back. *)
Record Response := {
  ok : bool;
  status : Z;
  statusText : string;
  content_type : option string;   (** [response.headers.get("content-type")] *)
  parsed : option json            (** [response.json()], [None] when it throws *)
}.

Inductive Fetched :=
| Responded (r : Response)
| FetchError (message : string)   (** rejected with an [Error] *)
| FetchRejected.                  (** rejected with another value *)

Record ApiError := { message : string; error_status : Z; data : json }.

Inductive Result := Returned (payload : json) | Threw (e : ApiError).

Definition request (base : string) (path : string) (options : ApiRequestOptions)
  : FetchCall :=
  let h0 : Headers := [("Accept", "application/json")] in
  let h1 :=
    match headers options with
    | Some entries => fold_left (fun h kv => assign (fst kv) (snd kv) h) entries h0
    | None => h0
    end in
  let h2 :=
    match body options with
    | Some _ =>
        assign "Content-Type"
               (match lookup "Content-Type" h1 with
                | Some c => c
                | None => "application/json"
                end) h1
    | None => h1
    end in
  let b :=
    match body options with
    | Some j =>
        match lookup "Content-Type" h2 with
        | Some c => if includes "application/json" c then Some (Stringified j)
                    else Some (AsIs j)
        | None => Some (AsIs j)
        end
    | None => None
    end in
  let h3 :=
    match token options with
    | Some t => if Js.truthy t then assign "Authorization" ("Bearer " ++ t) h2 else h2
    | None => h2
    end in
  {| url := base ++ path;
     fetch_method :=
       match method options with
       | Some m => m
       | None => if body_truthy b then "POST" else "GET"
       end;
     fetch_headers := h3;
     fetch_body := b |}.

(** [String(payload.error ?? "Request failed")]; [String_] converts the
    values that are neither strings nor null. *)
Definition error_text (String_ : json -> string) (e : json) : string :=
  match e with
  | JNull => "Request failed"
  | JStr s => s
  | other => String_ other
  end.

Definition respond (String_ : json -> string) (fetched : Fetched) : Result :=
  match fetched with
  | FetchError m => Threw {| message := m; error_status := 0; data := JNull |}
  | FetchRejected =>
      Threw {| message := "Network request failed"; error_status := 0; data := JNull |}
  | Responded response =>
      let contentType :=
        match content_type response with Some c => c | None => "" end in
      let isJson := includes "application/json" contentType in
      let payload :=
        if isJson then match parsed response with Some j => j | None => JNull end
        else JNull in
      if negb (ok response) then
        let message :=
          match (match payload with
                 | JObj o =>
                     match get "error" o with
                     | Some e => Some (error_text String_ e)
                     | None => None
                     end
                 | _ => None
                 end) with
          | Some m => m
          | None => statusText response
          end in
        Threw {| message := message; error_status := status response; data := payload |}
      else Returned payload
  end.



(** [apiRequest]: the call it makes and what it makes of the outcome. *)
Definition apiRequest (String_ : json -> string) (base path : string)
    (options : ApiRequestOptions) : FetchCall * (Fetched -> Result) :=
  (request base path options, respond String_).

End Api.

(* ================================================================= *)
(** ** mobile/contexts/AuthContext.tsx: signing in and out *)

Module AuthProvider.

(** The provider's state: the user, session and stored item of
    [AuthContext.State], and the [isAuthenticating] and [error] states. *)
Record Provider := {
  auth : AuthContext.State;
  isAuthenticating : bool;
  error : option string
}.

(** What a rejected [apiRequest] throws: an [Error] with its message, or
    some other value. *)
Inductive Thrown := AnError (message : string) | NotAnError.

Inductive Outcome :=
| Resolved (payload : AuthContext.StoredAuthState)
| Rejected (e : Thrown).

Record Credentials := { username : string; password : string }.

(** One call of [apiRequest]. *)
Record Call := {
  endpoint : string;
  http_method : string;
  credentials : option Credentials;
  bearer : option string
}.

(** The state once the promise has settled and, when it rejects, the
    value it rejects with. *)
Record Settled := { state : Provider; rethrown : option Thrown }.

(** A computation awaiting one call: the state while the call is
    pending, the call, and what follows its outcome. *)
Record Pending := {
  while_pending : Provider;
  call : Call;
  settle : Outcome -> Settled
}.

Definition handleAuthentication (endpoint : string) (c : Credentials) (p : Provider)
  : Pending :=
  let p1 := {| auth := auth p; isAuthenticating := true; error := None |} in
  {| while_pending := p1;
     call := {| endpoint := endpoint; http_method := "POST";
                credentials := Some c; bearer := None |};
     settle := fun outcome =>
       match outcome with
       | Resolved payload =>
           {| state :=
                {| auth := AuthContext.applyAuthState
                             (Some (AuthContext.user payload))
                             (Some (AuthContext.session payload)) (auth p1);
                   isAuthenticating := false; error := error p1 |};
              rethrown := None |}
       | Rejected authError =>
           let message :=
             match authError with
             | AnError m => m
             | NotAnError => "Authentication failed"
             end in
           {| state := {| auth := auth p1; isAuthenticating := false;
                          error := Some message |};
              rethrown := Some authError |}
       end |}.

Definition signIn (username password : string) : Provider -> Pending :=
  handleAuthentication "/auth/login" {| username := username; password := password |}.

Definition signUp (username password : string) : Provider -> Pending :=
  handleAuthentication "/auth/register" {| username := username; password := password |}.

(** [signOut]: the state it leaves and the logout call it makes, if any;
    the outcome of that call is ignored. *)
Definition signOut (p : Provider) : Provider * option Call :=
  let token := option_map AuthContext.token (AuthContext.st_session (auth p)) in
  let cleared :=
    AuthContext.persistAuthState None None
      {| AuthContext.st_user := None; AuthContext.st_session := None;
         AuthContext.storage := AuthContext.storage (auth p) |} in
  let p' := {| auth := cleared; isAuthenticating := isAuthenticating p;
               error := error p |} in
  match token with
  | Some t =>
      if negb (Js.truthy t) then (p', None)
      else (p', Some {| endpoint := "/auth/logout"; http_method := "POST";
                        credentials := None; bearer := Some t |})
  | None => (p', None)
  end.

(** The state a new start of the app finds: only the stored item
    survives. *)
Definition restart (p : Provider) : AuthContext.State :=
  {| AuthContext.st_user := None; AuthContext.st_session := None;
     AuthContext.storage := AuthContext.storage (auth p) |}.

End AuthProvider.

(** An error reply names its error in a string under [error]. *)
Definition names_error (r : Reply) : Prop :=
  400 <= code r -> exists m, field "error" (payload r) = Some (JStr m).

(* ================================================================= *)
(** ** Further sample requests *)

Module Scenario.

Definition credentials (username password : string) : option json :=
  Some (JObj [("username", JStr username); ("password", JStr password)]).

Definition register (username password : string) : Request :=
  {| method := POST;
     raw_url := Sample.href ["auth"; "register"] [];
     url := ["auth"; "register"];
     authorization := None;
     params := []; query := JObj []; body := credentials username password |}.

Definition login (username password : string) : Request :=
  {| method := POST;
     raw_url := Sample.href ["auth"; "login"] [];
     url := ["auth"; "login"];
     authorization := None;
     params := []; query := JObj []; body := credentials username password |}.

(** A request that carries only an [Authorization] header. *)
Definition bearing (m : Method) (path : list string) (header : option string) : Request :=
  {| method := m; raw_url := Sample.href path []; url := path;
     authorization := header;
     params := []; query := JObj []; body := None |}.

(** DELETE /animals/:id as Alice for her animal Rex. *)
Definition remove_rex : Request :=
  bearing DELETE ["animals"; Sample.rex_id] (Some "Bearer tok-alice").

(** POST /feedings as Alice for Rex, with padded texts and blank notes. *)
Definition feed_rex : Request :=
  Sample.request POST ["feedings"] "tok-alice" []
    (Some (JObj [("animalId", JStr Sample.rex_id); ("foodType", JStr "  mouse ");
                 ("quantity", JStr " 2"); ("notes", JStr "   ")])).

(** The sample store after Bob's account was deactivated. *)
Definition bob_inactive : User.t :=
  {| User.id := Sample.bob_id; User.username := "bob";
     User.passwordHash := "$2a$12$battery staple"; User.role := "user";
     User.isActive := false; User.createdAt := 2; User.updatedAt := 3 |}.

Definition db_bob_inactive : Db :=
  {| user := [Sample.alice; bob_inactive]; session := session Sample.db;
     animal := animal Sample.db; feedingRecord := feedingRecord Sample.db;
     measurementLog := measurementLog Sample.db; reminder := reminder Sample.db |}.

(** PATCH /animals/:id as Alice for her animal Rex, keeping its name; the
    id is spelled in capital letters. *)
Definition REX_ID := "AAAAAAAA-AAAA-4AAA-8AAA-AAAAAAAAAAAA".

Definition rename_rex_to_rex : Request :=
  {| method := PATCH;
     raw_url := Sample.href ["animals"; REX_ID] [];
     url := ["animals"; REX_ID];
     authorization := Some "Bearer tok-alice";
     params := [("id", JStr REX_ID)]; query := JObj [];
     body := Some (JObj [("name", JStr "Rex")]) |}.

(** The same with the id as it is stored. *)
Definition rename_rex_as_rex : Request :=
  {| method := PATCH;
     raw_url := Sample.href ["animals"; Sample.rex_id] [];
     url := ["animals"; Sample.rex_id];
     authorization := Some "Bearer tok-alice";
     params := [("id", JStr Sample.rex_id)]; query := JObj [];
     body := Some (JObj [("name", JStr "Rex")]) |}.

(** A store in which Alice keeps five animals whose names differ in
    their first letter or only in its case. *)
Definition named (n : nat) (name : string) : Animal.t :=
  {| Animal.id := Sample.nth_id n; Animal.userId := Sample.alice_id;
     Animal.name := name;
     Animal.species := None; Animal.description := None;
     Animal.birthDate := None; Animal.sex := None;
     Animal.createdAt := 10; Animal.updatedAt := 10 |}.

Definition db_names : Db :=
  {| user := user Sample.db; session := session Sample.db;
     animal := [named 0 "Zed"; named 1 "rex"; named 2 "Spike"; named 3 "apollo";
                named 4 "Rex"];
     feedingRecord := []; measurementLog := []; reminder := [] |}.

End Scenario.

(** The store without the sessions whose id is [tok]. *)
Definition without_session (tok : string) (db : Db) : Db :=
  {| user := user db;
     session := Pg.keep (fun s => Pg.eq (Session.id s) tok) (session db);
     animal := animal db; feedingRecord := feedingRecord db;
     measurementLog := measurementLog db; reminder := reminder db |}.

Definition session_gone : Reply :=
  {| code := 401; payload := error_body "Session not found or expired" |}.

(* ================================================================= *)
(** * Proofs *)

Unset Implicit Arguments.

(** ** Reasoning about handlers *)

Section Triples.
Variable I : Db -> Db -> Prop.
Variable P : Reply -> Prop.
Hypothesis I_refl : forall db, I db db.
Hypothesis I_trans : forall a b c, I a b -> I b c -> I a c.

Lemma triple_ret {A} (a : A) : triple I P (ret a).
Proof. intro db; simpl; auto. Qed.

Lemma triple_select {A} (f : Db -> A) : triple I P (select f).
Proof. intro db; simpl; auto. Qed.

Lemma triple_reply {A} c p : P {| code := c; payload := p |} -> triple I P (@reply A c p).
Proof. intros H db; simpl; auto. Qed.

Lemma triple_exec {A} (q : Query A) :
  (forall c p, 500 <= c -> P {| code := c; payload := p |}) ->
  (forall db a db', q db = inr (a, db') -> I db db') ->
  triple I P (exec q).
Proof.
  intros HP Hq db. unfold exec.
  destruct (q db) as [e | [a db']] eqn:E.
  - split; [apply I_refl | apply HP; lia].
  - eapply Hq; eauto.
Qed.

Lemma triple_bind {A B} (m : Handler A) (k : A -> Handler B) :
  triple I P m -> (forall a, triple I P (k a)) -> triple I P (bind m k).
Proof.
  intros Hm Hk db. unfold bind.
  specialize (Hm db). destruct (m db) as [[r | a] db1]; auto.
  specialize (Hk a db1). destruct (k a db1) as [[r | b] db2].
  - destruct Hk; split; eauto.
  - eauto.
Qed.

Lemma triple_run (h : Handler Sent) db :
  triple I P h -> I db (snd (run h db)) /\ P (fst (run h db)).
Proof.
  intros H. specialize (H db). unfold run.
  destruct (h db) as [[r | []] db']. simpl. exact H.
Qed.

End Triples.

Lemma bind_inl {A B} (m : Handler A) (k : A -> Handler B) db r db' :
  m db = (inl r, db') -> bind m k db = (inl r, db').
Proof. intros H; unfold bind; now rewrite H. Qed.

Lemma bind_inr {A B} (m : Handler A) (k : A -> Handler B) db a db' :
  m db = (inr a, db') -> bind m k db = k a db'.
Proof. intros H; unfold bind; now rewrite H. Qed.

Ltac triple_step refl trans :=
  lazymatch goal with
  | |- triple _ _ (bind _ _) => apply (@triple_bind _ _ trans); [ | intro ]
  | |- triple _ _ (ret _) => apply (@triple_ret _ _ refl)
  | |- triple _ _ (select _) => apply (@triple_select _ _ refl)
  | |- triple _ _ (reply _ _) => apply (@triple_reply _ _ refl)
  | |- triple _ _ (exec _) => apply (@triple_exec _ _ refl)
  | |- triple _ _ (match ?x with _ => _ end) => destruct x
  | |- triple _ _ (let _ := _ in _) => cbv zeta
  end.

Ltac unfold_auth :=
  unfold requireAuth, authenticateRequest, getActiveSessionByToken,
    ensureAnimalOwnership, Auth.findUserByUsername, Auth.createSession.

Ltac unfold_routes :=
  unfold Animals.get_animals, Animals.post_animals, Animals.patch_animal,
    Animals.delete_animal, Feedings.post_feedings, Feedings.get_feedings,
    Feedings.delete_feeding, Measurements.post_measurements,
    Measurements.get_measurements, Measurements.delete_measurement,
    Reminders.post_reminders, Reminders.get_reminders, Reminders.patch_reminder,
    Reminders.delete_reminder, Auth.post_register, Auth.post_login, Auth.get_me,
    Auth.post_logout.

Lemma find_route_In routes m path r ps :
  find_route routes m path = Some (r, ps) -> In r routes.
Proof.
  induction routes as [| r0 routes IH]; simpl; [discriminate |].
  destruct (method_eqb (route_method r0) m); [| auto].
  destruct (match_url (route_url r0) path); [| auto].
  intros H; inversion H; auto.
Qed.

(** What holds of every registered handler holds of the server. *)
Lemma serve_triple (I : Db -> Db -> Prop) (P : Reply -> Prop) routes rt env :
  (forall db, I db db) ->
  (forall request, P {| code := 404; payload := route_not_found request |}) ->
  (forall r, In r routes ->
             forall request, triple I P (route_handler r rt env request)) ->
  forall request db,
    I db (snd (serve routes rt env request db))
    /\ P (fst (serve routes rt env request db)).
Proof.
  intros Hrefl Hnf Hall request db. unfold serve.
  destruct (find_route routes (method request) (url request)) as [[r ps] |] eqn:E.
  - apply triple_run. apply Hall. eapply find_route_In; eauto.
  - simpl; auto.
Qed.

Lemma handle_triple (I : Db -> Db -> Prop) (P : Reply -> Prop) rt env :
  (forall db, I db db) ->
  (forall request, P {| code := 404; payload := route_not_found request |}) ->
  (forall r, In r api -> forall request, triple I P (route_handler r rt env request)) ->
  forall request db,
    I db (snd (handle rt env request db)) /\ P (fst (handle rt env request db)).
Proof. apply serve_triple. Qed.

Lemma createServer_api r : In r createServer -> In r api.
Proof. intros H. unfold api. apply in_or_app. now left. Qed.

(* ================================================================= *)
(** ** Lookups in tables *)

Lemma has_app {A} (key : A -> string) k l x :
  Pg.has key k (l ++ [x]) = Pg.has key k l || Pg.eq (key x) k.
Proof.
  unfold Pg.has. rewrite existsb_app. simpl. now rewrite orb_false_r.
Qed.

Lemma has_In {A} (key : A -> string) k l :
  Pg.has key k l = true <-> exists r, In r l /\ key r = k.
Proof.
  unfold Pg.has, Pg.eq. rewrite existsb_exists.
  split; intros [r [Hin He]]; exists r; split; auto.
  - now apply String.eqb_eq.
  - now apply String.eqb_eq.
Qed.

Lemma has_split {A} (key : A -> string) (p : A -> bool) k l :
  Pg.has key k l = Pg.has key k (filter p l) || Pg.has key k (Pg.keep p l).
Proof.
  unfold Pg.has, Pg.keep. induction l as [| a l IH]; simpl; auto.
  rewrite IH. destruct (p a); simpl; destruct (Pg.eq (key a) k); simpl;
    auto using orb_true_r.
Qed.

Lemma has_kept {A} (key : A -> string) (p : A -> bool) k l :
  Pg.has key k l = true -> Pg.has key k (filter p l) = false ->
  Pg.has key k (Pg.keep p l) = true.
Proof.
  intros H1 H2. rewrite (has_split key p) in H1. rewrite H2 in H1. exact H1.
Qed.

Lemma has_by_id {A} (key : A -> string) k l :
  Pg.has key k (filter (fun r => Pg.eq (key r) k) l) = Pg.has key k l.
Proof.
  unfold Pg.has. induction l as [| a l IH]; simpl; auto.
  destruct (Pg.eq (key a) k) eqn:E; simpl; rewrite ?E, IH; auto.
Qed.

Lemma has_map_same {A} (key : A -> string) (f : A -> A) k l :
  (forall r, key (f r) = key r) -> Pg.has key k (map f l) = Pg.has key k l.
Proof.
  intros Hf. unfold Pg.has. induction l as [| a l IH]; simpl; auto.
  now rewrite Hf, IH.
Qed.

Lemma Forall_keep {A} (Q : A -> Prop) (p : A -> bool) l :
  Forall Q l -> Forall Q (Pg.keep p l).
Proof.
  intros H. apply Forall_forall. intros x Hx.
  apply filter_In in Hx. rewrite Forall_forall in H. apply H. tauto.
Qed.

Lemma Forall_kept {A} (Q : A -> Prop) (p : A -> bool) l :
  (forall x, In x l -> p x = false -> Q x) -> Forall Q (Pg.keep p l).
Proof.
  intros H. apply Forall_forall. intros x Hx.
  apply filter_In in Hx. destruct Hx as [Hin Hp].
  apply H; auto. now destruct (p x).
Qed.

Lemma Forall_snoc {A} (Q : A -> Prop) l x :
  Forall Q l -> Q x -> Forall Q (l ++ [x]).
Proof. intros. apply Forall_app. auto. Qed.

Lemma refers_mono {A} (key : A -> string) k l l' :
  (forall x, Pg.has key x l = true -> Pg.has key x l' = true) ->
  Pg.refers key k l = true -> Pg.refers key k l' = true.
Proof. destruct k; simpl; auto. Qed.

(* ================================================================= *)
(** ** Foreign keys are preserved by every statement *)

Lemma keeps_fk_refl db : keeps_fk db db.
Proof. unfold keeps_fk; auto. Qed.

Lemma keeps_fk_trans a b c : keeps_fk a b -> keeps_fk b c -> keeps_fk a c.
Proof. unfold keeps_fk; auto. Qed.

Lemma bound_inr {A} rt ps (q : Query A) db x :
  Pg.bound rt ps q db = inr x -> Pg.first_refused rt ps = None /\ q db = inr x.
Proof.
  unfold Pg.bound. destruct (Pg.first_refused rt ps); [discriminate | auto].
Qed.

Lemma bound_accepted {A} rt ps (q : Query A) db :
  Pg.first_refused rt ps = None -> Pg.bound rt ps q db = q db.
Proof. unfold Pg.bound. now intros ->. Qed.

Lemma bound_inl {A} rt ps (q : Query A) db e :
  Pg.first_refused rt ps = Some e -> Pg.bound rt ps q db = inl e.
Proof. unfold Pg.bound. now intros ->. Qed.

Ltac insert_cases H :=
  try (apply bound_inr in H; destruct H as [_ H]; cbv beta in H);
  repeat match type of H with
         | (if ?c then _ else _) _ = _ => destruct c eqn:?; [discriminate |]
         | (if ?c then _ else _) = _ => destruct c eqn:?; [discriminate |]
         end;
  inversion H; subst; clear H.

Ltac fk_parent_grows :=
  match goal with
  | H : Forall _ ?l |- Forall _ ?l =>
      eapply Forall_impl; [| exact H]; cbv beta; intros ? ?;
      try (eapply refers_mono; [| eassumption]; intros ? ?);
      rewrite has_app; apply orb_true_iff; left; assumption
  end.

Lemma fk_insert_user u db a db' :
  Pg.insert_user u db = inr (a, db') -> keeps_fk db db'.
Proof.
  unfold Pg.insert_user. intros H [H1 H2 H3 H4 H5 H6 H7 H8].
  insert_cases H. constructor; simpl; auto; fk_parent_grows.
Qed.

Lemma fk_insert_session s db a db' :
  Pg.insert_session s db = inr (a, db') -> keeps_fk db db'.
Proof.
  unfold Pg.insert_session. intros H [H1 H2 H3 H4 H5 H6 H7 H8].
  insert_cases H. constructor; simpl; auto.
  apply Forall_snoc; auto. now apply negb_false_iff.
Qed.

Lemma fk_insert_animal rt x db a db' :
  Pg.insert_animal rt x db = inr (a, db') -> keeps_fk db db'.
Proof.
  unfold Pg.insert_animal. intros H [H1 H2 H3 H4 H5 H6 H7 H8].
  insert_cases H. constructor; simpl; auto; try fk_parent_grows.
  apply Forall_snoc; auto. now apply negb_false_iff.
Qed.

Lemma fk_insert_feedingRecord rt x db a db' :
  Pg.insert_feedingRecord rt x db = inr (a, db') -> keeps_fk db db'.
Proof.
  unfold Pg.insert_feedingRecord. intros H [H1 H2 H3 H4 H5 H6 H7 H8].
  insert_cases H. constructor; simpl; auto;
    apply Forall_snoc; auto; now apply negb_false_iff.
Qed.

Lemma fk_insert_measurementLog rt x db a db' :
  Pg.insert_measurementLog rt x db = inr (a, db') -> keeps_fk db db'.
Proof.
  unfold Pg.insert_measurementLog. intros H [H1 H2 H3 H4 H5 H6 H7 H8].
  insert_cases H. constructor; simpl; auto;
    apply Forall_snoc; auto; now apply negb_false_iff.
Qed.

Lemma fk_insert_reminder rt x db a db' :
  Pg.insert_reminder rt x db = inr (a, db') -> keeps_fk db db'.
Proof.
  unfold Pg.insert_reminder. intros H [H1 H2 H3 H4 H5 H6 H7 H8].
  insert_cases H. constructor; simpl; auto;
    apply Forall_snoc; auto; now apply negb_false_iff.
Qed.

Lemma fk_delete_session p db a db' :
  Pg.delete_session p db = inr (a, db') -> keeps_fk db db'.
Proof.
  unfold Pg.delete_session. intros H [H1 H2 H3 H4 H5 H6 H7 H8].
  inversion H; subst. constructor; simpl; auto using Forall_keep.
Qed.

Lemma fk_delete_feedingRecord p db a db' :
  Pg.delete_feedingRecord p db = inr (a, db') -> keeps_fk db db'.
Proof.
  unfold Pg.delete_feedingRecord. intros H [H1 H2 H3 H4 H5 H6 H7 H8].
  inversion H; subst. constructor; simpl; auto using Forall_keep.
Qed.

Lemma fk_delete_measurementLog p db a db' :
  Pg.delete_measurementLog p db = inr (a, db') -> keeps_fk db db'.
Proof.
  unfold Pg.delete_measurementLog. intros H [H1 H2 H3 H4 H5 H6 H7 H8].
  inversion H; subst. constructor; simpl; auto using Forall_keep.
Qed.

Lemma fk_delete_reminder p db a db' :
  Pg.delete_reminder p db = inr (a, db') -> keeps_fk db db'.
Proof.
  unfold Pg.delete_reminder. intros H [H1 H2 H3 H4 H5 H6 H7 H8].
  inversion H; subst. constructor; simpl; auto using Forall_keep.
Qed.

(** A child row that survives a cascade still finds its parent. *)
Lemma refers_kept {A} (key : A -> string) (p : A -> bool) k l :
  Pg.refers key k l = true -> Pg.hits key (filter p l) k = false ->
  Pg.refers key k (Pg.keep p l) = true.
Proof. destruct k; simpl; auto using has_kept. Qed.

Lemma fk_delete_animal p db a db' :
  Pg.delete_animal p db = inr (a, db') -> keeps_fk db db'.
Proof.
  unfold Pg.delete_animal. intros H [H1 H2 H3 H4 H5 H6 H7 H8].
  inversion H; subst. constructor; simpl; auto using Forall_keep.
  - apply Forall_kept. intros x Hin Hp. apply refers_kept; auto.
    rewrite Forall_forall in H4; auto.
  - apply Forall_kept. intros x Hin Hp. apply refers_kept; auto.
    rewrite Forall_forall in H6; auto.
  - apply Forall_kept. intros x Hin Hp. apply refers_kept; auto.
    rewrite Forall_forall in H8; auto.
Qed.

Lemma fk_delete_user p db a db' :
  Pg.delete_user p db = inr (a, db') -> keeps_fk db db'.
Proof.
  unfold Pg.delete_user. intros H [H1 H2 H3 H4 H5 H6 H7 H8].
  inversion H; subst; clear H.
  rewrite Forall_forall in *.
  set (owned := fun uid => Pg.has User.id uid (filter p (user db))).
  constructor; simpl; apply Forall_kept; intros x Hin Hp;
    try (apply orb_false_iff in Hp; destruct Hp as [Hp Hq]);
    try (apply has_kept; now auto);
    apply (refers_kept Animal.id (fun a => owned (Animal.userId a))); auto.
Qed.

Lemma Forall_map_if {A} (Q : A -> Prop) (p : A -> bool) (f : A -> A) l :
  Forall Q l -> (forall x, In x l -> Q x -> Q (f x)) ->
  Forall Q (map (fun r => if p r then f r else r) l).
Proof.
  intros H Hf. rewrite Forall_forall in *. intros y Hy.
  apply in_map_iff in Hy. destruct Hy as [x [<- Hx]].
  destruct (p x); auto.
Qed.

Lemma has_map_if {A} (key : A -> string) (p : A -> bool) (f : A -> A) k l :
  (forall r, key (f r) = key r) ->
  Pg.has key k (map (fun r => if p r then f r else r) l) = Pg.has key k l.
Proof.
  intros Hf. apply has_map_same. intros r. destruct (p r); auto.
Qed.

Lemma fk_update_animal rt sent p set db a db' :
  (forall r, Animal.id (set r) = Animal.id r) ->
  (forall r, Animal.userId (set r) = Animal.userId r) ->
  Pg.update_animal rt sent p set db = inr (a, db') -> keeps_fk db db'.
Proof.
  unfold Pg.update_animal. intros Hid Huid H [H1 H2 H3 H4 H5 H6 H7 H8].
  insert_cases H. constructor; simpl; auto.
  - apply Forall_map_if; auto. intros x _ Hx. now rewrite Huid.
  - eapply Forall_impl; [| exact H4]. intros r. apply refers_mono.
    intros x. now rewrite has_map_if.
  - eapply Forall_impl; [| exact H6]. intros r. apply refers_mono.
    intros x. now rewrite has_map_if.
  - eapply Forall_impl; [| exact H8]. intros r. apply refers_mono.
    intros x. now rewrite has_map_if.
Qed.

Lemma fk_update_reminder rt sent p set db a db' :
  (forall r, Reminder.userId (set r) = Reminder.userId r) ->
  Pg.update_reminder rt sent p set db = inr (a, db') -> keeps_fk db db'.
Proof.
  unfold Pg.update_reminder. intros Huid H [H1 H2 H3 H4 H5 H6 H7 H8].
  apply bound_inr in H. destruct H as [_ H]. cbv beta in H.
  destruct (existsb _ _) eqn:E; [discriminate |].
  inversion H; subst; clear H. constructor; simpl; auto.
  - apply Forall_map_if; auto. intros x _ Hx. now rewrite Huid.
  - rewrite Forall_forall in *. intros y Hy.
    apply in_map_iff in Hy. destruct Hy as [x [<- Hx]].
    destruct (p x) eqn:Hp; auto.
    assert (Hn : negb (Pg.refers Animal.id (Reminder.animalId (set x)) (animal db)) = false).
    { destruct (negb _) eqn:E'; auto.
      rewrite <- E. symmetry. apply existsb_exists. exists x. split; auto.
      apply filter_In; auto. }
    now apply negb_false_iff.
Qed.

Lemma select_where_inr {A} rt ps (f : Db -> A) db a db' :
  Pg.select_where rt ps f db = inr (a, db') ->
  Pg.first_refused rt ps = None /\ a = f db /\ db' = db.
Proof.
  unfold Pg.select_where. intros H. apply bound_inr in H. destruct H as [Hp H].
  inversion H. auto.
Qed.

Lemma fk_select_where {A} rt ps (f : Db -> A) db a db' :
  Pg.select_where rt ps f db = inr (a, db') -> keeps_fk db db'.
Proof.
  intros H. apply select_where_inr in H. destruct H as (_ & _ & ->).
  apply keeps_fk_refl.
Qed.

Create HintDb fk discriminated.
#[local] Hint Resolve fk_insert_user fk_insert_session fk_insert_animal
  fk_insert_feedingRecord fk_insert_measurementLog fk_insert_reminder
  fk_delete_session fk_delete_feedingRecord fk_delete_measurementLog
  fk_delete_reminder fk_delete_animal fk_delete_user fk_select_where : fk.

Ltac fk_exec :=
  intros;
  first [ exact I
        | solve [eauto with fk]
        | solve [eapply fk_update_animal; [| | eassumption]; intros; reflexivity]
        | solve [eapply fk_update_reminder; [| eassumption]; intros; reflexivity] ].

Lemma fk_routes r :
  In r api -> forall rt env request,
  triple keeps_fk (fun _ => True) (route_handler r rt env request).
Proof.
  intros Hin rt env request.
  repeat (destruct Hin as [<- | Hin]); try contradiction; simpl;
    unfold_routes; unfold_auth;
    repeat (triple_step keeps_fk_refl keeps_fk_trans); fk_exec.
Qed.

Lemma handle_keeps_fk rt env request db :
  foreign_keys db -> foreign_keys (snd (handle rt env request db)).
Proof.
  intros H.
  destruct (handle_triple keeps_fk (fun _ => True) rt env keeps_fk_refl (fun _ => I)
              (fun r Hr request => fk_routes r Hr rt env request) request db)
    as [Hk _].
  auto.
Qed.

(* ================================================================= *)
(** ** Authentication *)

Lemma session_join_In tok db s u :
  session_join tok db = Some (s, u) ->
  In s (session db) /\ In u (user db)
  /\ Session.id s = tok /\ Session.userId s = User.id u.
Proof.
  unfold session_join. intros H.
  assert (Hin : In (s, u)
    (flat_map (fun s => map (fun u => (s, u))
                 (filter (fun u => Pg.eq (Session.userId s) (User.id u)) (user db)))
              (filter (fun s => Pg.eq (Session.id s) tok) (session db)))).
  { destruct (flat_map _ _); simpl in H; [discriminate |].
    inversion H; subst. now left. }
  apply in_flat_map in Hin. destruct Hin as [s' [Hs' Hin]].
  apply in_map_iff in Hin. destruct Hin as [u' [Heq Hu']].
  inversion Heq; subst.
  apply filter_In in Hs'. apply filter_In in Hu'.
  destruct Hs' as [Hs1 Hs2]. destruct Hu' as [Hu1 Hu2].
  apply String.eqb_eq in Hs2. apply String.eqb_eq in Hu2. auto.
Qed.

Lemma requireAuth_cases env request db :
  (exists auth, requireAuth env request db = (inr auth, db) /\ authentic env db auth)
  \/ (exists db', requireAuth env request db = (inl unauthorized, db')
                  /\ same_resources db db'
                  /\ (forall s, In s (session db') -> In s (session db))).
Proof.
  unfold requireAuth, authenticateRequest, getActiveSessionByToken, bind, select.
  destruct (extractToken (authorization request)) as [tok |]; simpl.
  2: { right. exists db. unfold same_resources. auto 10. }
  destruct (negb (Js.truthy tok)) eqn:Hmiss; simpl.
  { right. exists db. unfold same_resources. auto 10. }
  destruct (session_join tok db) as [[s u] |] eqn:E; simpl.
  2: { right. exists db. unfold same_resources. auto 10. }
  destruct (Session.expiresAt s <=? now env) eqn:Hexp; simpl.
  { right. eexists. split; [reflexivity |]. unfold same_resources; simpl.
    split; auto 10. intros x Hx. apply filter_In in Hx. tauto. }
  destruct (User.isActive u) eqn:Hact; simpl.
  - left. eexists. split; [reflexivity |].
    apply session_join_In in E. destruct E as (? & ? & ? & ?).
    constructor; simpl; auto. apply Z.leb_gt in Hexp. lia.
  - right. eexists. split; [reflexivity |]. unfold same_resources; simpl.
    split; auto 10. intros x Hx. apply filter_In in Hx. tauto.
Qed.

Lemma requireAuth_inr env request db auth db' :
  requireAuth env request db = (inr auth, db') -> db' = db /\ authentic env db auth.
Proof.
  intros H. destruct (requireAuth_cases env request db) as [[a [E Ha]] | [d [E _]]];
    rewrite E in H; inversion H; subst; auto.
Qed.

(** Running a handler that starts with [requireAuth]. *)
Lemma run_requireAuth env request (k : AuthenticatedContext -> Handler Sent) db :
  (exists auth, requireAuth env request db = (inr auth, db)
                /\ authentic env db auth
                /\ run (bind (requireAuth env request) k) db = run (k auth) db)
  \/ (exists db', run (bind (requireAuth env request) k) db = (unauthorized, db')
                  /\ same_resources db db'
                  /\ (forall s, In s (session db') -> In s (session db))).
Proof.
  destruct (requireAuth_cases env request db) as [[a [E Ha]] | [d [E Hd]]].
  - left. exists a. split; [exact E | split; [exact Ha |]].
    unfold run. now erewrite bind_inr by eassumption.
  - right. exists d. split; auto. unfold run. now erewrite bind_inl by eassumption.
Qed.

Lemma run_authenticated env request (k : AuthenticatedContext -> Handler Sent) db auth :
  requireAuth env request db = (inr auth, db) ->
  run (bind (requireAuth env request) k) db = run (k auth) db.
Proof. intros E. unfold run. now erewrite bind_inr by eassumption. Qed.

Lemma run_bind_inr {A} (m : Handler A) (k : A -> Handler Sent) db a db' :
  m db = (inr a, db') -> run (bind m k) db = run (k a) db'.
Proof. intros E. unfold run. now erewrite bind_inr by eassumption. Qed.

Lemma run_bind_inl {A} (m : Handler A) (k : A -> Handler Sent) db r db' :
  m db = (inl r, db') -> run (bind m k) db = (r, db').
Proof. intros E. unfold run. now erewrite bind_inl by eassumption. Qed.

Lemma run_reply c p db : run (reply c p) db = ({| code := c; payload := p |}, db).
Proof. reflexivity. Qed.

Lemma run_select {A} (f : Db -> A) (k : A -> Handler Sent) db :
  run (bind (select f) k) db = run (k (f db)) db.
Proof. reflexivity. Qed.

(* ================================================================= *)
(** ** Cascading deletes *)

Lemma eq_spec a b : Pg.eq a b = true <-> a = b.
Proof. apply String.eqb_eq. Qed.

Lemma eq_refl_true a : Pg.eq a a = true.
Proof. apply String.eqb_refl. Qed.

Lemma delete_user_cascade uid db :
  foreign_keys db ->
  exists gone db',
    Pg.delete_user (fun u => Pg.eq (User.id u) uid) db = inr (gone, db')
    /\ Forall (fun u => User.id u <> uid) (user db')
    /\ no_user_ref uid db'
    /\ foreign_keys db'.
Proof.
  intros Hfk. do 2 eexists. split; [reflexivity |].
  split; [| split].
  - simpl. apply Forall_kept. intros u _ Hp Heq.
    apply eq_spec in Heq. congruence.
  - destruct Hfk as [H1 H2 H3 H4 H5 H6 H7 H8]. rewrite Forall_forall in *.
    unfold no_user_ref; simpl.
    repeat split; apply Forall_kept; intros x Hin Hp Heq;
      try (apply orb_false_iff in Hp; destruct Hp as [Hp _]);
      rewrite Heq, has_by_id in Hp;
      [ specialize (H1 x Hin) | specialize (H2 x Hin) | specialize (H3 x Hin)
      | specialize (H5 x Hin) | specialize (H7 x Hin) ];
      congruence.
  - eapply fk_delete_user; [reflexivity | exact Hfk].
Qed.

Lemma delete_animal_cascade aid db :
  foreign_keys db ->
  exists gone db',
    Pg.delete_animal (fun a => Pg.eq (Animal.id a) aid) db = inr (gone, db')
    /\ Forall (fun a => Animal.id a <> aid) (animal db')
    /\ no_animal_ref aid db'
    /\ foreign_keys db'.
Proof.
  intros Hfk. do 2 eexists. split; [reflexivity |].
  split; [| split].
  - simpl. apply Forall_kept. intros u _ Hp Heq.
    apply eq_spec in Heq. congruence.
  - destruct Hfk as [H1 H2 H3 H4 H5 H6 H7 H8]. rewrite Forall_forall in *.
    unfold no_animal_ref; simpl.
    repeat split; apply Forall_kept; intros x Hin Hp Heq;
      rewrite Heq in Hp; simpl in Hp; rewrite has_by_id in Hp;
      [ specialize (H4 x Hin) | specialize (H6 x Hin) | specialize (H8 x Hin) ];
      rewrite Heq in *; simpl in *; congruence.
  - eapply fk_delete_animal; [reflexivity | exact Hfk].
Qed.

(** DELETE /animals/:id answering 200 has removed every row that
    referenced the animal. *)
Lemma delete_animal_route_cascade env request db rep db' :
  run (Animals.delete_animal env request) db = (rep, db') ->
  code rep = 200 ->
  exists id,
    Zod.safeParse Animals.animalParamsSchema (Some (JObj (params request)))
      = Zod.success id
    /\ no_animal_ref (Pg.uuid_in id) db'.
Proof.
  unfold Animals.delete_animal. intros Hrun Hcode.
  destruct (run_requireAuth env request
              (fun auth =>
                 match Zod.safeParse Animals.animalParamsSchema
                         (Some (JObj (params request))) with
                 | Zod.success id =>
                     deleted <- exec (Pg.delete_animal
                                        (Animals.by_id_user id (User.id (ctx_user auth)))) ;;
                     match deleted with
                     | [] => reply 404 (error_body "Animal not found")
                     | _ :: _ => reply 200 (JObj [("success", JBool true)])
                     end
                 | Zod.failure _ => reply 400 (error_body "Invalid animal identifier")
                 end) db) as [[auth [E [Ha Hr]]] | [d [Hr _]]];
    rewrite Hr in Hrun.
  2: { inversion Hrun; subst. discriminate. }
  destruct (Zod.safeParse Animals.animalParamsSchema _) as [id | err].
  2: { inversion Hrun; subst; discriminate. }
  exists id. split; auto.
  unfold run, bind, exec, Pg.delete_animal in Hrun.
  set (p := Animals.by_id_user id (User.id (ctx_user auth))) in *.
  destruct (filter p (animal db)) as [| x gone] eqn:Eg;
    simpl in Hrun; inversion Hrun; subst; [discriminate |].
  assert (Hx : Animal.id x = Pg.uuid_in id).
  { assert (Hin : In x (filter p (animal db))) by (rewrite Eg; now left).
    apply filter_In in Hin. destruct Hin as [_ Hp]. unfold p, Animals.by_id_user in Hp.
    apply andb_true_iff in Hp. destruct Hp as [Hp _]. now apply eq_spec. }
  unfold no_animal_ref; simpl.
  repeat split; apply Forall_kept; intros r _ Hp Heq;
    rewrite Heq in Hp; simpl in Hp; rewrite Hx, eq_refl_true in Hp; discriminate.
Qed.

(** C4: deleting a parent cascades.  In a store whose foreign keys all
    reference existing rows, (1) every request handled by the server leaves
    a store with the same property; (2) deleting a user leaves no user with
    that id and no session, animal, feeding_record, measurement_log or
    reminder row referencing it; (3) deleting an animal leaves no
    feeding_record, measurement_log or reminder row referencing it, and so
    does a DELETE /animals/:id answered with 200; the foreign keys hold
    afterwards in each case. *)
Theorem deleting_a_parent_cascades :
  forall (rt : Runtime) (env : Env) (request : Request) (db : Db),
    foreign_keys db ->
    foreign_keys (snd (handle rt env request db))
    /\ (forall uid, exists gone db',
          Pg.delete_user (fun u => Pg.eq (User.id u) uid) db = inr (gone, db')
          /\ Forall (fun u => User.id u <> uid) (user db')
          /\ no_user_ref uid db'
          /\ foreign_keys db')
    /\ (forall aid, exists gone db',
          Pg.delete_animal (fun a => Pg.eq (Animal.id a) aid) db = inr (gone, db')
          /\ Forall (fun a => Animal.id a <> aid) (animal db')
          /\ no_animal_ref aid db'
          /\ foreign_keys db')
    /\ (forall rep db',
          run (Animals.delete_animal env request) db = (rep, db') ->
          code rep = 200 ->
          exists id,
            Zod.safeParse Animals.animalParamsSchema (Some (JObj (params request)))
              = Zod.success id
            /\ no_animal_ref (Pg.uuid_in id) db'
            /\ foreign_keys db').
Proof.
  intros rt env request db Hfk.
  split; [now apply handle_keeps_fk |].
  split; [intros uid; now apply delete_user_cascade |].
  split; [intros aid; now apply delete_animal_cascade |].
  intros rep db' Hrun Hcode.
  destruct (delete_animal_route_cascade env request db rep db' Hrun Hcode) as [id [Hp Hn]].
  exists id. split; [exact Hp | split; [exact Hn |]].
  assert (Hin : In (List.nth 3 registerAnimalRoutes health) api).
  { unfold api. apply in_or_app. right. simpl. auto. }
  pose proof (triple_run keeps_fk (fun _ => True) _ db
                (fk_routes _ Hin rt env request)) as [Hk _].
  simpl in Hk. rewrite Hrun in Hk. apply Hk. exact Hfk.
Qed.

Lemma sample_foreign_keys : foreign_keys Sample.db.
Proof. constructor; repeat constructor. Qed.

Lemma deleting_a_parent_cascades_witness :
  foreign_keys Sample.db
  /\ foreign_keys
       (snd (handle Sample.runtime Sample.env
               (Sample.request DELETE ["animals"; Sample.rex_id] "tok-alice" [] None)
               Sample.db))
  /\ exists gone db',
       Pg.delete_user (fun u => Pg.eq (User.id u) Sample.alice_id) Sample.db
         = inr (gone, db')
       /\ Forall (fun u => User.id u <> Sample.alice_id) (user db')
       /\ no_user_ref Sample.alice_id db'
       /\ foreign_keys db'.
Proof.
  assert (H : foreign_keys Sample.db) by (constructor; repeat constructor).
  destruct (deleting_a_parent_cascades Sample.runtime Sample.env
              (Sample.request DELETE ["animals"; Sample.rex_id] "tok-alice" [] None)
              Sample.db H) as [H1 [H2 _]].
  split; [exact H |]. split; [exact H1 |]. exact (H2 Sample.alice_id).
Defined.

(* ================================================================= *)
(** ** Expired sessions *)

(** Every protected handler starts with [requireAuth]. *)
Lemma protected_requireAuth r :
  In r protected -> forall rt env request,
  exists k, route_handler r rt env request = bind (requireAuth env request) k.
Proof.
  intros Hin rt env request.
  repeat (destruct Hin as [<- | Hin]); try contradiction;
    eexists; reflexivity.
Qed.

Lemma session_join_none_or_row tok db :
  session_join tok db = None
  \/ exists s u, session_join tok db = Some (s, u)
                 /\ In s (session db) /\ In u (user db) /\ Session.id s = tok
                 /\ Session.userId s = User.id u.
Proof.
  destruct (session_join tok db) as [[s u] |] eqn:E; auto.
  right. exists s, u. split; auto. now apply session_join_In.
Qed.

Lemma session_join_found tok db s :
  In s (session db) -> Session.id s = tok ->
  Pg.has User.id (Session.userId s) (user db) = true ->
  session_join tok db <> None.
Proof.
  intros Hin Hid Hu. unfold session_join.
  apply has_In in Hu. destruct Hu as [u [Hu1 Hu2]].
  assert (Hin' : In (s, u)
    (flat_map (fun s => map (fun u => (s, u))
                 (filter (fun u => Pg.eq (Session.userId s) (User.id u)) (user db)))
              (filter (fun s => Pg.eq (Session.id s) tok) (session db)))).
  { apply in_flat_map. exists s. split.
    - apply filter_In. split; auto. now apply eq_spec.
    - apply in_map. apply filter_In. split; auto. apply eq_spec. auto. }
  destruct (flat_map _ _); simpl; [contradiction | discriminate].
Qed.

Lemma expired_token_rejected env tok db s :
  In s (session db) -> Session.id s = tok ->
  (forall s', In s' (session db) -> Session.id s' = tok -> s' = s) ->
  Session.expiresAt s <= now env ->
  exists db1,
    getActiveSessionByToken env tok db = (inr None, db1)
    /\ same_resources db db1
    /\ (forall x, In x (session db1) -> In x (session db))
    /\ (foreign_keys db -> Forall (fun x => Session.id x <> tok) (session db1)).
Proof.
  intros Hin Hid Hpk Hexp.
  unfold getActiveSessionByToken, bind, select.
  destruct (session_join_none_or_row tok db) as [E | [s' [u [E [H1 [H2 [H3 H4]]]]]]];
    rewrite E; simpl.
  - exists db. unfold same_resources. repeat split; auto.
    intros Hfk. exfalso. eapply session_join_found; eauto.
    destruct Hfk as [Hs _]. rewrite Forall_forall in Hs. auto.
  - assert (s' = s) by auto. subst s'.
    apply Z.leb_le in Hexp. rewrite Hexp. simpl.
    eexists. split; [reflexivity |]. unfold same_resources; simpl.
    repeat split; auto.
    + intros x Hx. apply filter_In in Hx. tauto.
    + intros _. apply Forall_kept. intros x _ Hp Heq.
      apply eq_spec in Heq. congruence.
Qed.

Lemma missing_empty : missing (Some "") = true.
Proof. reflexivity. Qed.

Lemma missing_token tok : tok <> "" -> missing (Some tok) = false.
Proof.
  intros H. unfold missing, Js.truthy. destruct (String.eqb_spec tok ""); [contradiction |].
  reflexivity.
Qed.

Lemma same_resources_refl db : same_resources db db.
Proof. unfold same_resources. auto 10. Qed.

(** C2: expired sessions are rejected.  For every route that requires
    authentication and every request carrying a bearer token whose session
    row has [expiresAt <= now], [getActiveSessionByToken] returns null for
    the token, [requireAuth] answers 401 Unauthorized, and so does the
    route; the handler touches no resource: the user, animal,
    feeding_record, measurement_log and reminder tables are unchanged and
    no session is added.  When the token is not the empty string, the
    store is the one [getActiveSessionByToken] leaves, in which the expired
    session row is deleted; the empty token, which [authenticateRequest]
    treats as missing, is answered 401 without a query. *)
Theorem expired_sessions_are_rejected :
  forall (rt : Runtime) (env : Env) (request : Request) (db : Db)
         (r : Route) (tok : string) (s : Session.t),
    In r protected ->
    extractToken (authorization request) = Some tok ->
    In s (session db) ->
    Session.id s = tok ->
    (forall s', In s' (session db) -> Session.id s' = tok -> s' = s) ->
    Session.expiresAt s <= now env ->
    exists db1 db2,
      getActiveSessionByToken env tok db = (inr None, db1)
      /\ (tok <> "" -> db2 = db1)
      /\ (tok = "" -> db2 = db)
      /\ requireAuth env request db = (inl unauthorized, db2)
      /\ run (route_handler r rt env request) db = (unauthorized, db2)
      /\ same_resources db db2
      /\ (forall x, In x (session db2) -> In x (session db))
      /\ (tok <> "" -> foreign_keys db ->
          Forall (fun x => Session.id x <> tok) (session db2)).
Proof.
  intros rt env request db r tok s Hr Htok Hin Hid Hpk Hexp.
  destruct (expired_token_rejected env tok db s Hin Hid Hpk Hexp)
    as [db1 [Hg [Hsame [Hsub Hdel]]]].
  destruct (protected_requireAuth r Hr rt env request) as [k Hk].
  destruct (string_dec tok "") as [He | Hne].
  - exists db1, db.
    assert (Hreq : requireAuth env request db = (inl unauthorized, db)).
    { unfold requireAuth, authenticateRequest. rewrite Htok, He, missing_empty.
      reflexivity. }
    split; [exact Hg |]. split; [contradiction |]. split; [reflexivity |].
    split; [exact Hreq |]. split.
    { rewrite Hk. unfold run. erewrite bind_inl by eassumption. reflexivity. }
    split; [apply same_resources_refl |]. split; [auto | contradiction].
  - exists db1, db1.
    assert (Hreq : requireAuth env request db = (inl unauthorized, db1)).
    { unfold requireAuth, authenticateRequest. rewrite Htok, (missing_token _ Hne).
      unfold bind. rewrite Hg. reflexivity. }
    split; [exact Hg |]. split; [reflexivity |]. split; [contradiction |].
    split; [exact Hreq |]. split.
    { rewrite Hk. unfold run. erewrite bind_inl by eassumption. reflexivity. }
    split; [exact Hsame |]. split; [exact Hsub |]. intros _. exact Hdel.
Qed.

Lemma expired_sessions_are_rejected_witness :
  In (List.nth 1 registerFeedingRoutes health) protected
  /\ extractToken (Some "Bearer tok-stale") = Some "tok-stale"
  /\ In Sample.stale_session (session Sample.db)
  /\ Session.expiresAt Sample.stale_session <= now Sample.env
  /\ exists db1,
       run (Feedings.get_feedings Sample.runtime Sample.env
              (Sample.request GET ["feedings"] "tok-stale"
                 [("animalId", JStr Sample.rex_id)] None)) Sample.db
         = (unauthorized, db1)
       /\ same_resources Sample.db db1
       /\ session db1 = [Sample.alice_session; Sample.bob_session].
Proof.
  assert (H1 : In (List.nth 1 registerFeedingRoutes health) protected)
    by (simpl; auto).
  assert (H2 : extractToken (Some "Bearer tok-stale") = Some "tok-stale")
    by reflexivity.
  assert (H3 : In Sample.stale_session (session Sample.db)) by (simpl; auto).
  assert (H4 : Session.expiresAt Sample.stale_session <= now Sample.env)
    by (simpl; lia).
  assert (H5 : forall s', In s' (session Sample.db) ->
                          Session.id s' = "tok-stale" -> s' = Sample.stale_session).
  { simpl. intros s' [<- | [<- | [<- | []]]]; simpl; intros E;
      try discriminate; reflexivity. }
  destruct (expired_sessions_are_rejected Sample.runtime Sample.env
              (Sample.request GET ["feedings"] "tok-stale"
                 [("animalId", JStr Sample.rex_id)] None)
              Sample.db (List.nth 1 registerFeedingRoutes health)
              "tok-stale" Sample.stale_session H1 H2 H3 eq_refl H5 H4)
    as (db1 & db2 & _ & _ & _ & _ & Hrun & Hsame & _).
  repeat split; auto.
  exists db2. repeat split; auto; try apply Hsame.
  simpl in Hrun. unfold Feedings.get_feedings in Hrun.
  vm_compute in Hrun. inversion Hrun. reflexivity.
Defined.

(* ================================================================= *)
(** ** ORDER BY and LIMIT *)




Section Ordering.
Context {A : Type} (before : A -> A -> bool).
Hypothesis before_total : forall a b, before a b = false -> before b a = true.
Hypothesis before_trans :
  forall a b c, before a b = true -> before b c = true -> before a c = true.

Let R (a b : A) : Prop := before a b = true.

Lemma place_perm x l : Permutation (Pg.place before x l) (x :: l).
Proof.
  induction l as [| y l IH]; simpl; auto.
  destruct (before x y); auto.
  eapply perm_trans; [apply perm_skip, IH | apply perm_swap].
Qed.

Lemma orderBy_perm l : Permutation (Pg.orderBy before l) l.
Proof.
  induction l as [| x l IH]; simpl; auto.
  eapply perm_trans; [apply place_perm | now apply perm_skip].
Qed.

Lemma orderBy_In l x : In x (Pg.orderBy before l) <-> In x l.
Proof.
  split; apply Permutation_in;
    [apply orderBy_perm | apply Permutation_sym, orderBy_perm].
Qed.

Lemma orderBy_length l : List.length (Pg.orderBy before l) = List.length l.
Proof. apply Permutation_length, orderBy_perm. Qed.

Lemma place_sorted x l :
  StronglySorted R l -> StronglySorted R (Pg.place before x l).
Proof.
  induction 1 as [| y l Hs IH Hy]; simpl.
  - repeat constructor.
  - destruct (before x y) eqn:E.
    + constructor; [constructor; auto |].
      constructor; [exact E |].
      eapply Forall_impl; [| exact Hy]. intros z Hz. unfold R in *. eauto.
    + constructor; auto.
      apply Forall_forall. intros z Hz.
      apply (Permutation_in _ (place_perm x l)) in Hz.
      destruct Hz as [<- | Hz].
      * now apply before_total.
      * rewrite Forall_forall in Hy. auto.
Qed.

Lemma orderBy_sorted l : StronglySorted R (Pg.orderBy before l).
Proof.
  induction l as [| x l IH]; simpl; [constructor | now apply place_sorted].
Qed.

(** What LIMIT drops comes after everything it keeps. *)
Lemma sorted_limit n l :
  StronglySorted R l ->
  forall x y, In x (firstn n l) -> In y (skipn n l) -> R x y.
Proof.
  intros Hs. revert n. induction Hs as [| a l Hs IH Ha]; intros n x y Hx Hy.
  - destruct n; simpl in *; contradiction.
  - destruct n; simpl in *; [contradiction |].
    destruct Hx as [<- | Hx].
    + rewrite Forall_forall in Ha. apply Ha.
      rewrite <- (firstn_skipn n l). apply in_or_app. now right.
    + eauto.
Qed.

Lemma limit_sorted n l : StronglySorted R l -> StronglySorted R (Pg.limit n l).
Proof.
  intros Hs. revert n. induction Hs as [| a l Hs IH Ha]; intros n.
  - destruct n; constructor.
  - destruct n; simpl; [constructor |].
    constructor; [apply IH |].
    rewrite Forall_forall in *. intros z Hz. apply Ha.
    rewrite <- (firstn_skipn n l). apply in_or_app. now left.
Qed.

(** The rows of [ORDER BY ... LIMIT n] over [rows]. *)
Lemma order_limit n rows :
  let out := Pg.limit n (Pg.orderBy before rows) in
  List.length out = Nat.min n (List.length rows)
  /\ StronglySorted R out
  /\ (forall r, In r out -> In r rows)
  /\ (forall m, In m rows -> In m out \/ forall r, In r out -> R r m)
  /\ (List.length rows <= n -> forall m, In m rows -> In m out)%nat.
Proof.
  unfold Pg.limit. repeat split.
  - now rewrite length_firstn, orderBy_length.
  - apply limit_sorted, orderBy_sorted.
  - intros r Hr. apply orderBy_In.
    rewrite <- (firstn_skipn n (Pg.orderBy before rows)). apply in_or_app. now left.
  - intros m Hm. apply orderBy_In in Hm.
    rewrite <- (firstn_skipn n (Pg.orderBy before rows)) in Hm.
    apply in_app_or in Hm. destruct Hm as [Hm | Hm]; [now left |].
    right. intros r Hr. eapply sorted_limit; eauto. apply orderBy_sorted.
  - intros Hlen m Hm. rewrite firstn_all2; [now apply orderBy_In |].
    now rewrite orderBy_length.
Qed.



End Ordering.

Lemma StronglySorted_weaken {A} (R S : A -> A -> Prop) l :
  (forall a b, R a b -> S a b) -> StronglySorted R l -> StronglySorted S l.
Proof.
  intros HRS. induction 1 as [| a l Hs IH Ha]; constructor; auto.
  eapply Forall_impl; [| exact Ha]. auto.
Qed.

Lemma desc2_spec {A} (c1 c2 : A -> Z) a b :
  Pg.desc2 c1 c2 a b = true <-> newer_or_same c1 c2 a b.
Proof.
  unfold Pg.desc2, newer_or_same.
  rewrite orb_true_iff, andb_true_iff, Z.ltb_lt, Z.eqb_eq, Z.leb_le. tauto.
Qed.

Lemma desc2_total {A} (c1 c2 : A -> Z) a b :
  Pg.desc2 c1 c2 a b = false -> Pg.desc2 c1 c2 b a = true.
Proof.
  intros H. apply desc2_spec. unfold newer_or_same.
  destruct (Pg.desc2 c1 c2 b a) eqn:E; [apply desc2_spec in E; exact E |].
  unfold Pg.desc2 in *.
  apply orb_false_iff in H, E. destruct H as [H1 H2], E as [E1 E2].
  apply Z.ltb_ge in H1, E1.
  assert (Heq : c1 a = c1 b) by lia.
  rewrite Heq, Z.eqb_refl in *. simpl in *.
  apply Z.leb_gt in H2, E2. lia.
Qed.

Lemma desc2_trans {A} (c1 c2 : A -> Z) a b c :
  Pg.desc2 c1 c2 a b = true -> Pg.desc2 c1 c2 b c = true ->
  Pg.desc2 c1 c2 a c = true.
Proof.
  rewrite !desc2_spec. unfold newer_or_same. lia.
Qed.

(* ================================================================= *)
(** ** Ownership of animals *)

Lemma ensureAnimalOwnership_owned userId animalId db :
  owns db userId animalId ->
  exists x, ensureAnimalOwnership userId animalId db = (inr (Some x), db).
Proof.
  intros [a [Hin [Hid Hu]]]. unfold ensureAnimalOwnership, select.
  destruct (filter _ (animal db)) as [| x l] eqn:E.
  - exfalso.
    assert (Hf : In a (filter
      (fun a => Pg.eq (Animal.id a) (Pg.uuid_in animalId) && Pg.eq (Animal.userId a) userId)
      (animal db))).
    { apply filter_In. split; auto.
      apply andb_true_iff. split; apply eq_spec; auto. }
    rewrite E in Hf. contradiction.
  - simpl. eauto.
Qed.

Lemma ensureAnimalOwnership_not_owned userId animalId db :
  ~ owns db userId animalId ->
  ensureAnimalOwnership userId animalId db = (inr None, db).
Proof.
  intros Hn. unfold ensureAnimalOwnership, select.
  destruct (filter _ (animal db)) as [| x l] eqn:E; [reflexivity |].
  exfalso. apply Hn.
  assert (Hf : In x (filter
    (fun a => Pg.eq (Animal.id a) (Pg.uuid_in animalId) && Pg.eq (Animal.userId a) userId)
    (animal db))) by (rewrite E; now left).
  apply filter_In in Hf. destruct Hf as [Hin Hp].
  apply andb_true_iff in Hp. destruct Hp as [H1 H2].
  apply eq_spec in H1, H2. exists x. auto.
Qed.

Lemma ensureAnimalOwnership_some userId animalId db x db' :
  ensureAnimalOwnership userId animalId db = (inr (Some x), db') ->
  db' = db /\ owns db userId animalId.
Proof.
  unfold ensureAnimalOwnership, select. intros H.
  assert (Hdb : db' = db) by (inversion H; auto). subst db'. split; auto.
  destruct (filter _ (animal db)) as [| y l] eqn:E; [discriminate |].
  assert (Hf : In y (filter
    (fun a => Pg.eq (Animal.id a) (Pg.uuid_in animalId) && Pg.eq (Animal.userId a) userId)
    (animal db))) by (rewrite E; now left).
  apply filter_In in Hf. destruct Hf as [Hin Hp].
  apply andb_true_iff in Hp. destruct Hp as [H1 H2].
  apply eq_spec in H1, H2. exists y. auto.
Qed.

Lemma eq_opt_spec a b : Pg.eq_opt a b = true <-> a = Some b.
Proof.
  destruct a; simpl; [rewrite String.eqb_eq |]; split; congruence.
Qed.



Lemma reminder_matches_spec u a r :
  Reminders.matches u a r = true
  <-> Reminder.userId r = u /\ Reminder.animalId r = Some (Pg.uuid_in a).
Proof.
  unfold Reminders.matches. now rewrite andb_true_iff, eq_spec, eq_opt_spec.
Qed.

(** What the three list handlers do once the request is authenticated
    and its query is valid. *)
Lemma get_feedings_run rt env request db auth animalId :
  requireAuth env request db = (inr auth, db) ->
  Zod.safeParse Feedings.feedingQuerySchema (Some (query request)) = Zod.success animalId ->
  owns db (User.id (ctx_user auth)) animalId ->
  run (Feedings.get_feedings rt env request) db
  = ({| code := 200;
        payload := JArr (map (Feedings.toFeedingResponse rt)
                             (Feedings.list_query (User.id (ctx_user auth)) animalId db)) |},
     db).
Proof.
  intros Ha Hq Ho. unfold Feedings.get_feedings.
  rewrite (run_authenticated _ _ _ _ _ Ha), Hq.
  destruct (ensureAnimalOwnership_owned _ _ _ Ho) as [x Hx].
  unfold run. erewrite bind_inr by eassumption. reflexivity.
Qed.

Lemma get_measurements_run rt env request db auth animalId :
  requireAuth env request db = (inr auth, db) ->
  Zod.safeParse Measurements.measurementQuerySchema (Some (query request))
    = Zod.success animalId ->
  owns db (User.id (ctx_user auth)) animalId ->
  run (Measurements.get_measurements rt env request) db
  = ({| code := 200;
        payload := JArr (map (Measurements.toMeasurementResponse rt)
                             (Measurements.list_query (User.id (ctx_user auth)) animalId db)) |},
     db).
Proof.
  intros Ha Hq Ho. unfold Measurements.get_measurements.
  rewrite (run_authenticated _ _ _ _ _ Ha), Hq.
  destruct (ensureAnimalOwnership_owned _ _ _ Ho) as [x Hx].
  unfold run. erewrite bind_inr by eassumption. reflexivity.
Qed.

Lemma get_reminders_run rt env request db auth animalId :
  requireAuth env request db = (inr auth, db) ->
  Zod.safeParse Reminders.reminderQuerySchema (Some (query request)) = Zod.success animalId ->
  owns db (User.id (ctx_user auth)) animalId ->
  run (Reminders.get_reminders rt env request) db
  = ({| code := 200;
        payload := JArr (map (Reminders.toReminderResponse rt)
                             (Reminders.list_query (User.id (ctx_user auth)) animalId db)) |},
     db).
Proof.
  intros Ha Hq Ho. unfold Reminders.get_reminders.
  rewrite (run_authenticated _ _ _ _ _ Ha), Hq.
  destruct (ensureAnimalOwnership_owned _ _ _ Ho) as [x Hx].
  unfold run. erewrite bind_inr by eassumption. reflexivity.
Qed.

(** The WHERE clauses and the orders of the list queries are the ones
    the statements speak of. *)
Lemma feeding_matches_of u a :
  forall x, Feedings.matches u a x
            = of_user_animal FeedingRecord.userId FeedingRecord.animalId u (Pg.uuid_in a) x.
Proof. reflexivity. Qed.

Lemma measurement_matches_of u a :
  forall x, Measurements.matches u a x
            = of_user_animal MeasurementLog.userId MeasurementLog.animalId u
                (Pg.uuid_in a) x.
Proof. reflexivity. Qed.

Lemma reminder_matches_of u a :
  forall x, Reminders.matches u a x
            = of_user_animal Reminder.userId Reminder.animalId u (Pg.uuid_in a) x.
Proof. reflexivity. Qed.

Lemma of_user_animal_spec {Row} (userId : Row -> string) (animalId : Row -> option string)
    u a x :
  of_user_animal userId animalId u a x = true <-> userId x = u /\ animalId x = Some a.
Proof.
  unfold of_user_animal. rewrite andb_true_iff, String.eqb_eq.
  destruct (animalId x) as [i |]; [rewrite String.eqb_eq |]; split;
    intros [H1 H2]; split; congruence.
Qed.


(** ORDER BY [desc(date), desc(created)] LIMIT [n] over the rows of a
    user and animal. *)
Lemma limit_newest {Row} (userId : Row -> string) (animalId : Row -> option string)
    (date created : Row -> Z) n u a rows :
  let records :=
    Pg.limit n (Pg.orderBy (Pg.desc2 date created)
                  (filter (of_user_animal userId animalId u a) rows)) in
  newest_of userId animalId date created n u a rows records
  /\ List.length records
     = Nat.min n (List.length (filter (of_user_animal userId animalId u a) rows))
  /\ (forall m, In m rows -> userId m = u -> animalId m = Some a ->
                In m records
                \/ forall r, In r records -> newer_or_same date created r m).
Proof.
  intros records.
  destruct (order_limit (Pg.desc2 date created)
              (@desc2_total _ _ _) (@desc2_trans _ _ _) n
              (filter (of_user_animal userId animalId u a) rows))
    as (Hlen & _ & _ & Hout & _).
  split; [| split].
  - exists (Pg.orderBy (Pg.desc2 date created)
              (filter (of_user_animal userId animalId u a) rows)).
    split; [apply orderBy_perm |]. split; [| reflexivity].
    eapply StronglySorted_weaken;
      [| apply (orderBy_sorted (Pg.desc2 date created)
                  (@desc2_total _ _ _) (@desc2_trans _ _ _))].
    intros x y. apply desc2_spec.
  - exact Hlen.
  - intros m Hm Hu Ha.
    destruct (Hout m) as [H | H]; [| now left |].
    + apply filter_In. split; [exact Hm |]. apply of_user_animal_spec. auto.
    + right. intros r Hr. apply desc2_spec. auto.
Qed.

(** C10: list endpoints are bounded and ordered most-recent-first.  For an
    authenticated user and an animal the user owns, GET /measurements and
    GET /feedings answer 200 with the 200 newest rows of that user and
    animal: the first 200 of an arrangement of all the stored rows of the
    user and animal, each once, by recordedAt (feedingDate) descending with
    createdAt descending as tie-break.  So the list holds min(200, number
    of those rows) rows, and a row of the user and animal that is left out
    is no newer than any row returned: beyond 200 it is the oldest rows
    that are omitted. *)
Theorem list_endpoints_bounded_and_ordered :
  forall (rt : Runtime) (env : Env) (request : Request) (db : Db)
         (auth : AuthenticatedContext) (animalId : string),
    requireAuth env request db = (inr auth, db) ->
    Zod.safeParse animalIdShape (Some (query request)) = Zod.success animalId ->
    owns db (User.id (ctx_user auth)) animalId ->
    (exists records,
        run (Measurements.get_measurements rt env request) db
        = ({| code := 200;
              payload := JArr (map (Measurements.toMeasurementResponse rt) records) |}, db)
        /\ newest_of MeasurementLog.userId MeasurementLog.animalId
             MeasurementLog.recordedAt MeasurementLog.createdAt 200
             (User.id (ctx_user auth)) (Pg.uuid_in animalId) (measurementLog db) records
        /\ List.length records
           = Nat.min 200 (List.length
               (filter (of_user_animal MeasurementLog.userId MeasurementLog.animalId
                          (User.id (ctx_user auth)) (Pg.uuid_in animalId))
                       (measurementLog db)))
        /\ (forall m, In m (measurementLog db) ->
              MeasurementLog.userId m = User.id (ctx_user auth) ->
              MeasurementLog.animalId m = Some (Pg.uuid_in animalId) ->
              In m records
              \/ forall r, In r records ->
                   newer_or_same MeasurementLog.recordedAt MeasurementLog.createdAt r m))
    /\ (exists records,
        run (Feedings.get_feedings rt env request) db
        = ({| code := 200;
              payload := JArr (map (Feedings.toFeedingResponse rt) records) |}, db)
        /\ newest_of FeedingRecord.userId FeedingRecord.animalId
             FeedingRecord.feedingDate FeedingRecord.createdAt 200
             (User.id (ctx_user auth)) (Pg.uuid_in animalId) (feedingRecord db) records
        /\ List.length records
           = Nat.min 200 (List.length
               (filter (of_user_animal FeedingRecord.userId FeedingRecord.animalId
                          (User.id (ctx_user auth)) (Pg.uuid_in animalId))
                       (feedingRecord db)))
        /\ (forall m, In m (feedingRecord db) ->
              FeedingRecord.userId m = User.id (ctx_user auth) ->
              FeedingRecord.animalId m = Some (Pg.uuid_in animalId) ->
              In m records
              \/ forall r, In r records ->
                   newer_or_same FeedingRecord.feedingDate FeedingRecord.createdAt r m)).
Proof.
  intros rt env request db auth animalId Ha Hq Ho. split.
  - exists (Measurements.list_query (User.id (ctx_user auth)) animalId db).
    split; [now apply get_measurements_run |].
    unfold Measurements.list_query, Measurements.MEASUREMENT_LIMIT,
      Measurements.newest_first.
    rewrite (filter_ext _ _ (measurement_matches_of (User.id (ctx_user auth)) animalId)).
    apply limit_newest.
  - exists (Feedings.list_query (User.id (ctx_user auth)) animalId db).
    split; [now apply get_feedings_run |].
    unfold Feedings.list_query, Feedings.newest_first.
    rewrite (filter_ext _ _ (feeding_matches_of (User.id (ctx_user auth)) animalId)).
    apply limit_newest.
Qed.

Lemma sample_alice_owns_rex : owns Sample.db Sample.alice_id Sample.rex_id.
Proof. exists Sample.rex. simpl. auto. Qed.

(** Alice has 201 feedings for Rex, dated 0 to 200: the list starts with
    the one dated 200 and ends with the one dated 1. *)
Lemma list_endpoints_bounded_and_ordered_witness :
  requireAuth Sample.env Sample.list_rex Sample.crowded_db
  = (inr Sample.alice_auth, Sample.crowded_db)
  /\ Zod.safeParse animalIdShape (Some (query Sample.list_rex))
     = Zod.success Sample.rex_id
  /\ owns Sample.crowded_db Sample.alice_id Sample.rex_id
  /\ exists records,
       run (Feedings.get_feedings Sample.runtime Sample.env Sample.list_rex)
           Sample.crowded_db
       = ({| code := 200;
             payload := JArr (map (Feedings.toFeedingResponse Sample.runtime) records) |},
          Sample.crowded_db)
       /\ List.length records = 200%nat
       /\ nth_error (map (Feedings.toFeedingResponse Sample.runtime) records) 0
          = Some (Feedings.toFeedingResponse Sample.runtime
                    (Sample.feeding (Sample.nth_id 200) 200))
       /\ nth_error (map (Feedings.toFeedingResponse Sample.runtime) records) 199
          = Some (Feedings.toFeedingResponse Sample.runtime
                    (Sample.feeding (Sample.nth_id 1) 1)).
Proof.
  assert (H1 : requireAuth Sample.env Sample.list_rex Sample.crowded_db
               = (inr Sample.alice_auth, Sample.crowded_db)) by (vm_compute; reflexivity).
  assert (H2 : Zod.safeParse animalIdShape (Some (query Sample.list_rex))
               = Zod.success Sample.rex_id) by reflexivity.
  assert (H3 : owns Sample.crowded_db (User.id (ctx_user Sample.alice_auth))
                 Sample.rex_id).
  { exists Sample.rex. split; [now left |]. split; reflexivity. }
  destruct (list_endpoints_bounded_and_ordered Sample.runtime Sample.env
              Sample.list_rex Sample.crowded_db Sample.alice_auth Sample.rex_id H1 H2 H3)
    as [_ [records (Hrun & _ & Hlen & _)]].
  split; [exact H1 |]. split; [exact H2 |]. split; [exact H3 |].
  exists records. split; [exact Hrun |].
  split; [rewrite Hlen; vm_compute; reflexivity |].
  assert (Hitems :
    map (Feedings.toFeedingResponse Sample.runtime) records
    = match payload (fst (run (Feedings.get_feedings Sample.runtime Sample.env
                                 Sample.list_rex) Sample.crowded_db)) with
      | JArr items => items
      | _ => []
      end) by (rewrite Hrun; reflexivity).
  rewrite Hitems.
  split; vm_compute; reflexivity.
Defined.

(* ================================================================= *)
(** ** Creating and listing records *)





Lemma limit_In {A} n (l : list A) x : In x (Pg.limit n l) -> In x l.
Proof.
  unfold Pg.limit. intros H. rewrite <- (firstn_skipn n l).
  apply in_or_app. now left.
Qed.

Ltac list_cases Hrun :=
  unfold run in Hrun; unfold bind at 1 in Hrun;
  unfold ensureAnimalOwnership at 1, select at 1 in Hrun;
  match type of Hrun with
  | context [option_map Animal.id ?o] => destruct o; simpl in Hrun
  end;
  inversion Hrun; subst; clear Hrun; simpl in *; try discriminate.













(* ================================================================= *)
(** ** Replies never carry the password hash *)

Lemma has_key_nullable {A} k (f : A -> json) o :
  (forall a, has_key k (f a) = false) -> has_key k (nullable f o) = false.
Proof. intros H. destruct o; simpl; auto. Qed.

Lemma has_key_map {A} k (f : A -> json) l :
  (forall a, has_key k (f a) = false) -> has_key k (JArr (map f l)) = false.
Proof.
  intros H. simpl. induction l as [| a l IH]; simpl; auto.
  now rewrite H, IH.
Qed.

Ltac no_key :=
  simpl;
  repeat match goal with
         | |- context [nullable _ ?o] => destruct o; simpl
         end;
  reflexivity.

Lemma animal_response_no_hash rt r :
  has_key "passwordHash" (Animals.toAnimalResponse rt r) = false.
Proof. unfold Animals.toAnimalResponse. no_key. Qed.

Lemma feeding_response_no_hash rt r :
  has_key "passwordHash" (Feedings.toFeedingResponse rt r) = false.
Proof. unfold Feedings.toFeedingResponse. no_key. Qed.

Lemma measurement_response_no_hash rt r :
  has_key "passwordHash" (Measurements.toMeasurementResponse rt r) = false.
Proof. unfold Measurements.toMeasurementResponse. no_key. Qed.

Lemma reminder_response_no_hash rt r :
  has_key "passwordHash" (Reminders.toReminderResponse rt r) = false.
Proof. unfold Reminders.toReminderResponse. no_key. Qed.

Lemma auth_response_no_hash rt u tok exp :
  has_key "passwordHash"
    (Auth.auth_response rt (toPublicUser (user_object rt u)) tok exp) = false.
Proof. reflexivity. Qed.

Lemma any_change_refl db : any_change db db.
Proof. exact I. Qed.

Lemma any_change_trans a b c : any_change a b -> any_change b c -> any_change a c.
Proof. intros; exact I. Qed.

Ltac no_hash_reply :=
  unfold success_without; cbn [code payload]; intros;
  first [ lia
        | reflexivity
        | apply animal_response_no_hash
        | apply feeding_response_no_hash
        | apply measurement_response_no_hash
        | apply reminder_response_no_hash
        | apply auth_response_no_hash
        | apply has_key_map; intro;
          first [ apply animal_response_no_hash | apply feeding_response_no_hash
                | apply measurement_response_no_hash | apply reminder_response_no_hash ]
        | exact I ].

Lemma no_hash_routes r :
  In r api -> forall rt env request,
  triple any_change (success_without "passwordHash") (route_handler r rt env request).
Proof.
  intros Hin rt env request.
  repeat (destruct Hin as [<- | Hin]); try contradiction; simpl;
    unfold_routes; unfold_auth;
    repeat (triple_step any_change_refl any_change_trans); no_hash_reply.
Qed.

Ltac public_user_reply :=
  unfold exposes_public_user; simpl; intros;
  first [ lia | now left | right; eexists; reflexivity | exact I ].

Lemma public_user_routes r :
  In r registerAuthRoutes -> forall rt env request,
  triple any_change (exposes_public_user rt) (route_handler r rt env request).
Proof.
  intros Hin rt env request.
  repeat (destruct Hin as [<- | Hin]); try contradiction; simpl;
    unfold_routes; unfold_auth;
    repeat (triple_step any_change_refl any_change_trans); public_user_reply.
Qed.

Lemma toPublicUser_get (u : obj) :
  get "passwordHash" (toPublicUser u) = None
  /\ forall k, k <> "passwordHash" -> get k (toPublicUser u) = get k u.
Proof.
  unfold toPublicUser. induction u as [| [k' v] u [IH1 IH2]]; simpl; [auto |].
  destruct (String.eqb k' "passwordHash") eqn:E; simpl.
  - split; [exact IH1 |]. intros k Hk. rewrite IH2 by auto.
    apply String.eqb_eq in E. subst k'.
    destruct (String.eqb "passwordHash" k) eqn:E2; [| reflexivity].
    apply String.eqb_eq in E2. congruence.
  - rewrite E. split; [exact IH1 |]. intros k Hk. now rewrite IH2 by auto.
Qed.

(** C9: responses never leak credentials.  No reply with a success status,
    of any endpoint on any input and store, mentions the key
    [passwordHash] at any depth; a successful auth reply exposes as its
    user exactly [toPublicUser] of a user row; and [toPublicUser] removes
    [passwordHash] and keeps every other property of whatever object it is
    given. *)
Theorem responses_never_leak_credentials :
  forall (rt : Runtime) (env : Env) (request : Request) (db : Db)
         (r : Route) (u : obj) (row : User.t),
    success_without "passwordHash" (fst (handle rt env request db))
    /\ (In r registerAuthRoutes ->
        exposes_public_user rt (fst (run (route_handler r rt env request) db)))
    /\ get "passwordHash" (toPublicUser u) = None
    /\ (forall k, k <> "passwordHash" -> get k (toPublicUser u) = get k u)
    /\ toPublicUser (user_object rt row)
       = [("id", JStr (User.id row));
          ("username", JStr (User.username row));
          ("role", JStr (User.role row));
          ("isActive", JBool (User.isActive row));
          ("createdAt", JStr (toISOString rt (User.createdAt row)));
          ("updatedAt", JStr (toISOString rt (User.updatedAt row)))].
Proof.
  intros rt env request db r u row.
  split; [| split; [| split; [| split]]].
  - apply (handle_triple any_change (success_without "passwordHash") rt env
             any_change_refl).
    + intros request0. unfold success_without; simpl; lia.
    + intros r0 Hr0 request0. now apply no_hash_routes.
  - intros Hin.
    apply (triple_run any_change (exposes_public_user rt)).
    now apply public_user_routes.
  - apply toPublicUser_get.
  - apply toPublicUser_get.
  - reflexivity.
Qed.

Lemma responses_never_leak_credentials_witness :
  code (fst (handle Sample.runtime Sample.env Sample.login Sample.db)) = 200
  /\ has_key "passwordHash"
       (payload (fst (handle Sample.runtime Sample.env Sample.login Sample.db))) = false
  /\ field "user" (payload (fst (handle Sample.runtime Sample.env Sample.login Sample.db)))
     = Some (JObj (toPublicUser (user_object Sample.runtime Sample.alice)))
  /\ has_key "passwordHash" (JObj (user_object Sample.runtime Sample.alice)) = true.
Proof.
  destruct (responses_never_leak_credentials Sample.runtime Sample.env Sample.login
              Sample.db health (user_object Sample.runtime Sample.alice) Sample.alice)
    as [H _].
  split; [reflexivity |].
  split; [apply H; vm_compute; reflexivity |].
  split; reflexivity.
Defined.

(* ================================================================= *)
(** ** Restoring the cached session on the mobile client *)

(** C8: local session caching gives offline resilience.  With a cached
    auth state in storage, [restoreSession] (1) removes it without calling
    the server when its session's expiresAt is at or before now; (2)
    otherwise calls /auth/me with the cached token, and then (a) on an
    error with HTTP status 401 or 403 clears user, session and storage,
    (b) on any other error (another status, or no response at all) makes
    the cached user and session the active ones and keeps the storage,
    (c) on success makes the refreshed user and session the active ones
    and stores them. *)
Theorem restoreSession_offline_resilience :
  forall (rt : Runtime) (now : Z) (s : AuthContext.State)
         (parsed : AuthContext.StoredAuthState),
    AuthContext.storage s = Some parsed ->
    (forall t,
        new_Date rt (JStr (AuthContext.expiresAt (AuthContext.session parsed))) = Some t ->
        t <= now ->
        AuthContext.restoreSession rt now s
        = AuthContext.Done
            {| AuthContext.st_user := AuthContext.st_user s;
               AuthContext.st_session := AuthContext.st_session s;
               AuthContext.storage := None |})
    /\ ((forall t,
           new_Date rt (JStr (AuthContext.expiresAt (AuthContext.session parsed))) = Some t ->
           now < t) ->
        exists k,
          AuthContext.restoreSession rt now s
          = AuthContext.Request_auth_me (AuthContext.token (AuthContext.session parsed)) k
          /\ (forall status message,
                status = 401 \/ status = 403 ->
                k (AuthContext.ApiError status message)
                = {| AuthContext.st_user := None; AuthContext.st_session := None;
                     AuthContext.storage := None |})
          /\ (forall status message,
                status <> 401 -> status <> 403 ->
                k (AuthContext.ApiError status message)
                = {| AuthContext.st_user := Some (AuthContext.user parsed);
                     AuthContext.st_session := Some (AuthContext.session parsed);
                     AuthContext.storage := Some parsed |})
          /\ k AuthContext.FetchRejected
             = {| AuthContext.st_user := Some (AuthContext.user parsed);
                  AuthContext.st_session := Some (AuthContext.session parsed);
                  AuthContext.storage := Some parsed |}
          /\ (forall refreshed,
                k (AuthContext.Resolved refreshed)
                = {| AuthContext.st_user := Some (AuthContext.user refreshed);
                     AuthContext.st_session := Some (AuthContext.session refreshed);
                     AuthContext.storage := Some refreshed |})).
Proof.
  intros rt now s parsed Hs. unfold AuthContext.restoreSession. rewrite Hs.
  unfold AuthContext.isSessionExpired. split.
  - intros t Ht Hle. rewrite Ht. apply Z.leb_le in Hle. now rewrite Hle.
  - intros Hfresh.
    assert (Hne : match new_Date rt
                          (JStr (AuthContext.expiresAt (AuthContext.session parsed))) with
                  | Some t => t <=? now
                  | None => false
                  end = false).
    { destruct (new_Date rt _) as [t |] eqn:E; auto.
      apply Z.leb_gt. auto. }
    rewrite Hne. eexists. split; [reflexivity |].
    repeat split.
    + intros status message [-> | ->]; reflexivity.
    + intros status message H1 H3. simpl.
      destruct status as [| p | p]; try reflexivity.
      assert (Hp : p <> 401%positive /\ p <> 403%positive) by (split; congruence).
      destruct Hp as [Hp1 Hp3].
      repeat (destruct p as [p | p |]; try reflexivity; try congruence).
    + destruct refreshed as [u ss]. reflexivity.
Qed.

Lemma restoreSession_offline_resilience_witness :
  AuthContext.storage Sample.app_start = Some Sample.cached
  /\ AuthContext.restoreSession Sample.runtime 2000000 Sample.app_start
     = AuthContext.Done
         {| AuthContext.st_user := None; AuthContext.st_session := None;
            AuthContext.storage := None |}
  /\ exists k,
       AuthContext.restoreSession Sample.runtime 100 Sample.app_start
       = AuthContext.Request_auth_me "tok-alice" k
       /\ k (AuthContext.ApiError 500 "Internal Server Error")
          = {| AuthContext.st_user := Some (AuthContext.user Sample.cached);
               AuthContext.st_session := Some (AuthContext.session Sample.cached);
               AuthContext.storage := Some Sample.cached |}
       /\ k (AuthContext.ApiError 401 "Session not found or expired")
          = {| AuthContext.st_user := None; AuthContext.st_session := None;
               AuthContext.storage := None |}.
Proof.
  split; [reflexivity |]. split.
  - destruct (restoreSession_offline_resilience Sample.runtime 2000000
                Sample.app_start Sample.cached eq_refl) as [H _].
    apply (H 1000000); [reflexivity | lia].
  - destruct (restoreSession_offline_resilience Sample.runtime 100
                Sample.app_start Sample.cached eq_refl) as [_ H].
    destruct H as [k [Hk [H401 [Hother _]]]].
    + intros t Ht. vm_compute in Ht. inversion Ht. lia.
    + exists k. split; [exact Hk |]. split.
      * apply Hother; lia.
      * apply H401. now left.
Defined.

(* ================================================================= *)
(** ** Trimming *)

Lemma trimStart_no_lead s : no_lead (Js.trimStart s).
Proof.
  induction s as [| c s IH]; simpl; auto.
  destruct (Js.is_space c) eqn:E; simpl; auto.
Qed.

Lemma trimStart_id s : no_lead s -> Js.trimStart s = s.
Proof. destruct s as [| c s]; simpl; auto. intros ->. reflexivity. Qed.

Lemma trimEnd_no_lead s : no_lead s -> no_lead (Js.trimEnd s).
Proof.
  destruct s as [| c s]; simpl; auto. intros H.
  destruct (Js.trimEnd s); rewrite ?H; simpl; auto.
Qed.

Lemma trimEnd_idem s : Js.trimEnd (Js.trimEnd s) = Js.trimEnd s.
Proof.
  induction s as [| c s IH]; simpl; auto.
  destruct (Js.trimEnd s) as [| d t] eqn:E.
  - destruct (Js.is_space c) eqn:Ec; simpl; rewrite ?Ec; reflexivity.
  - simpl in *. now rewrite IH.
Qed.

Lemma trim_idem s : Js.trim (Js.trim s) = Js.trim s.
Proof.
  unfold Js.trim.
  rewrite (trimStart_id (Js.trimEnd (Js.trimStart s))).
  - apply trimEnd_idem.
  - apply trimEnd_no_lead, trimStart_no_lead.
Qed.

Lemma truthy_length s : 1 <= Js.length s -> Js.truthy s = true.
Proof.
  destruct s; unfold Js.length, Js.truthy; simpl; [lia | reflexivity].
Qed.

(* ================================================================= *)
(** ** What a successful parse tells *)

Lemma safeParse_success {A} (s : Zod.Schema A) v a :
  Zod.safeParse s v = Zod.success a <-> s v = ([], Some a).
Proof.
  unfold Zod.safeParse. destruct (s v) as [[| i iss] [x |]]; split; intros H;
    inversion H; subst; auto.
Qed.

Lemma safeParse_failure {A} (s : Zod.Schema A) v issues :
  Zod.safeParse s v = Zod.failure issues -> fst (s v) = issues.
Proof.
  unfold Zod.safeParse. destruct (s v) as [[| i iss] [x |]]; intros H;
    inversion H; subst; auto.
Qed.

Lemma ap_valid {A B} (f : Zod.Parsed (A -> B)) (x : Zod.Parsed A) b :
  Zod.ap f x = ([], Some b) ->
  exists g a, f = ([], Some g) /\ x = ([], Some a) /\ b = g a.
Proof.
  unfold Zod.ap. destruct f as [fi [g |]], x as [xi [a |]]; simpl; intros H;
    inversion H; subst.
  apply app_eq_nil in H1. destruct H1 as [-> ->]. eauto.
Qed.

Lemma prop_valid {A} k (s : Zod.Schema A) o a :
  Zod.prop k s o = ([], Some a) -> s (get k o) = ([], Some a).
Proof.
  unfold Zod.prop. destruct (s (get k o)) as [iss v]; simpl. intros H.
  inversion H; subst. destruct iss; [reflexivity | discriminate].
Qed.

Lemma check_valid {A} ok c m (s : Zod.Schema A) v a :
  Zod.check ok c m s v = ([], Some a) -> s v = ([], Some a) /\ ok a = true.
Proof.
  unfold Zod.check. destruct (s v) as [iss [x |]]; simpl.
  - destruct (ok x) eqn:E; intros H; inversion H; subst; auto.
    destruct iss; discriminate.
  - intros H; inversion H.
Qed.

Lemma superRefine_valid {A} r (s : Zod.Schema A) v a :
  Zod.superRefine r s v = ([], Some a) -> s v = ([], Some a) /\ r a = [].
Proof.
  unfold Zod.superRefine. destruct (s v) as [iss [x |]]; simpl; intros H;
    inversion H; subst.
  apply app_eq_nil in H1. destruct H1 as [-> ->]. auto.
Qed.

Lemma optional_valid {A} (s : Zod.Schema A) v o :
  Zod.optional s v = ([], Some o) ->
  (v = None /\ o = None) \/ (exists j a, v = Some j /\ s v = ([], Some a) /\ o = Some a).
Proof.
  unfold Zod.optional, Zod.pmap. destruct v as [j |]; intros H.
  - right. destruct (s (Some j)) as [iss [a |]]; simpl in H; inversion H; subst. eauto.
  - left. inversion H. auto.
Qed.

Lemma trimmed_string_valid v a :
  Zod.trim Zod.string_ v = ([], Some a) ->
  exists raw, v = Some (JStr raw) /\ a = Js.trim raw.
Proof.
  unfold Zod.trim, Zod.string_, Zod.pmap.
  destruct v as [[] |]; simpl; intros H; inversion H; eauto.
Qed.

Ltac split_object H :=
  repeat (apply ap_valid in H; destruct H as (? & ? & H & ? & ?); subst);
  inversion H; subst; clear H; simpl.

(** A valid POST /animals body carries a string name, and the parsed
    name is its trimmed form, which is not empty. *)
Lemma createAnimalSchema_name rt o data :
  Zod.safeParse (Animals.createAnimalSchema rt) (Some (JObj o)) = Zod.success data ->
  exists raw, get "name" o = Some (JStr raw)
              /\ Animals.name data = Js.trim raw
              /\ 1 <= Js.length (Js.trim raw).
Proof.
  intros H. apply safeParse_success in H.
  unfold Animals.createAnimalSchema, Zod.object in H.
  split_object H.
  match goal with
  | H : Zod.prop "name" _ _ = _ |- _ =>
      apply prop_valid in H; unfold Zod.max, Zod.min in H;
      apply check_valid in H; destruct H as [Hc _];
      apply check_valid in Hc; destruct Hc as [Hc Hmin];
      apply trimmed_string_valid in Hc; destruct Hc as [raw [Hg ->]]
  end.
  exists raw. repeat split; auto. now apply Z.leb_le in Hmin.
Qed.

Lemma createAnimalSchema_object rt v data :
  Zod.safeParse (Animals.createAnimalSchema rt) v = Zod.success data ->
  exists o, v = Some (JObj o).
Proof.
  intros H. apply safeParse_success in H.
  unfold Animals.createAnimalSchema, Zod.object in H.
  destruct v as [[] |]; try discriminate. eauto.
Qed.

(** A valid PATCH /animals/:id body has at least one of the schema's
    keys; its name, when present, is a string and is parsed to its
    trimmed form, which is not empty. *)
Lemma updateAnimalSchema_name rt o data :
  Zod.safeParse (Animals.updateAnimalSchema rt) (Some (JObj o)) = Zod.success data ->
  0 < Animals.update_keys data
  /\ (get "name" o = None -> Animals.u_name data = None)
  /\ (forall n, Animals.u_name data = Some n ->
        exists raw, get "name" o = Some (JStr raw) /\ n = Js.trim raw
                    /\ 1 <= Js.length n).
Proof.
  intros H. apply safeParse_success in H.
  unfold Animals.updateAnimalSchema in H.
  apply superRefine_valid in H. destruct H as [H Hkeys].
  split.
  { destruct (0 <? Animals.update_keys data) eqn:E; [| discriminate].
    now apply Z.ltb_lt. }
  clear Hkeys. unfold Zod.object in H.
  split_object H.
  match goal with
  | H : Zod.prop "name" _ _ = _ |- _ =>
      apply prop_valid in H; apply optional_valid in H;
      destruct H as [[Hn ->] | (j & a & Hj & Hopt & ->)]
  end.
  - split; [reflexivity |]. intros n Hn'. discriminate.
  - split; [intros Hn; congruence |].
    intros n Hn. inversion Hn; subst.
    unfold Zod.max, Zod.min in Hopt.
    apply check_valid in Hopt; destruct Hopt as [Hopt _].
    apply check_valid in Hopt; destruct Hopt as [Hopt Hmin].
    apply trimmed_string_valid in Hopt. destruct Hopt as [raw [Hg ->]].
    exists raw. split; [exact Hg |]. split; [reflexivity |].
    now apply Z.leb_le in Hmin.
Qed.

Lemma updateAnimalSchema_object rt v data :
  Zod.safeParse (Animals.updateAnimalSchema rt) v = Zod.success data ->
  exists o, v = Some (JObj o).
Proof.
  intros H. apply safeParse_success in H.
  unfold Animals.updateAnimalSchema in H. apply superRefine_valid in H.
  destruct H as [H _]. unfold Zod.object in H.
  destruct v as [[] |]; try discriminate. eauto.
Qed.

Lemma filter_first {A} (p : A -> bool) l a :
  In a l -> p a = true -> exists x rest, filter p l = x :: rest /\ In x l /\ p x = true.
Proof.
  intros Hin Hp.
  destruct (filter p l) as [| x rest] eqn:E.
  - assert (H : In a (filter p l)) by (apply filter_In; auto).
    rewrite E in H. contradiction.
  - assert (H : In x (filter p l)) by (rewrite E; now left).
    apply filter_In in H. exists x, rest. tauto.
Qed.

Lemma by_user_name_spec u n a :
  Animals.by_user_name u n a = true <-> Animal.userId a = u /\ Animal.name a = n.
Proof.
  unfold Animals.by_user_name. now rewrite andb_true_iff, !eq_spec.
Qed.

Lemma animal_by_id_user_spec id u a :
  Animals.by_id_user id u a = true
  <-> Animal.id a = Pg.uuid_in id /\ Animal.userId a = u.
Proof.
  unfold Animals.by_id_user. now rewrite andb_true_iff, !eq_spec.
Qed.

(* ================================================================= *)
(** ** Duplicate animal names *)

Lemma authentic_user_exists env db auth :
  authentic env db auth -> Pg.has User.id (User.id (ctx_user auth)) (user db) = true.
Proof.
  intros [Hu _ _ _ _]. apply has_In. eauto.
Qed.

Lemma limit1_nonempty {A} (x : A) rest :
  (0 <? Z.of_nat (List.length (Pg.limit 1 (x :: rest)))) = true.
Proof. reflexivity. Qed.

Lemma filter_none {A} (p : A -> bool) l :
  (forall x, In x l -> p x = false) -> filter p l = [].
Proof.
  induction l as [| a l IH]; simpl; auto.
  intros H. rewrite (H a) by auto. auto.
Qed.

Lemma run_exec_inr {A} (q : Query A) (k : A -> Handler Sent) db a db' :
  q db = inr (a, db') -> run (bind (exec q) k) db = run (k a) db'.
Proof. intros E. unfold run, bind, exec. now rewrite E. Qed.

Lemma run_exec_inl {A} (q : Query A) (k : A -> Handler Sent) db e :
  q db = inl e -> run (bind (exec q) k) db = (server_error e, db).
Proof. intros E. unfold run, bind, exec. now rewrite E. Qed.

Lemma select_where_accepted {A} rt ps (f : Db -> A) db :
  Pg.first_refused rt ps = None -> Pg.select_where rt ps f db = inr (f db, db).
Proof. intros H. unfold Pg.select_where. now rewrite bound_accepted. Qed.

Lemma first_refused_text rt s :
  Pg.has_nul s = false -> Pg.first_refused rt [Pg.text s] = None.
Proof. intros H. simpl. now rewrite H. Qed.

Lemma first_refused_cons_none rt p ps :
  Pg.first_refused rt (p :: ps) = None ->
  Pg.first_refused rt [p] = None /\ Pg.first_refused rt ps = None.
Proof. simpl. destruct (Pg.refused rt p); [discriminate | auto]. Qed.

Lemma post_animals_duplicate rt env request db auth data a :
  requireAuth env request db = (inr auth, db) ->
  Zod.safeParse (Animals.createAnimalSchema rt) (body request) = Zod.success data ->
  In a (animal db) ->
  Animal.userId a = User.id (ctx_user auth) ->
  Animal.name a = Js.trim (Animals.name data) ->
  Pg.has_nul (Animal.name a) = false ->
  run (Animals.post_animals rt env request) db = (conflict, db).
Proof.
  intros Ha Hp Hin Hu Hn Hnul. unfold Animals.post_animals.
  rewrite (run_authenticated _ _ _ _ _ Ha), Hp. cbv zeta.
  rewrite Hn in Hnul.
  erewrite run_exec_inr
    by (apply select_where_accepted, first_refused_text; exact Hnul).
  destruct (filter_first
              (Animals.by_user_name (User.id (ctx_user auth))
                 (Animals.name (Animals.sanitizeCreateAnimalPayload data)))
              (animal db) a Hin) as (x & rest & E & _ & _).
  { apply by_user_name_spec. simpl. auto. }
  rewrite E, limit1_nonempty. reflexivity.
Qed.

Lemma patch_animal_duplicate rt env request db auth id data n d :
  requireAuth env request db = (inr auth, db) ->
  Zod.safeParse Animals.animalParamsSchema (Some (JObj (params request))) = Zod.success id ->
  Zod.safeParse (Animals.updateAnimalSchema rt) (body request) = Zod.success data ->
  Animals.u_name data = Some n ->
  1 <= Js.length n ->
  Js.trim n = n ->
  animal_user_name_unique db ->
  canonical_ids db ->
  In d (animal db) ->
  Animal.userId d = User.id (ctx_user auth) ->
  Animal.name d = n ->
  Pg.has_nul (Animal.name d) = false ->
  Animal.id d <> Pg.uuid_in id ->
  run (Animals.patch_animal rt env request) db = (conflict, db).
Proof.
  intros Ha Hid Hp Hname Hlen Htrim Huniq Hcanon Hin Hu Hn Hnul Hdiff.
  unfold Animals.patch_animal.
  rewrite (run_authenticated _ _ _ _ _ Ha), Hid, Hp. cbv zeta.
  assert (Hkeys : (Animals.payload_keys (Animals.sanitizeUpdateAnimalPayload data) =? 0)
                  = false).
  { unfold Animals.payload_keys, Animals.sanitizeUpdateAnimalPayload, count_keys.
    simpl. rewrite Hname. reflexivity. }
  rewrite Hkeys.
  unfold Animals.sanitizeUpdateAnimalPayload at 1. simpl Animals.p_name.
  rewrite Hname. simpl option_map. rewrite Htrim, (truthy_length _ Hlen).
  rewrite Hn in Hnul.
  match goal with
  | |- run (bind ?chk ?k) db = _ => assert (Hchk : chk db = (inl conflict, db))
  end.
  { unfold bind at 1, exec.
    rewrite (select_where_accepted rt _ _ db (first_refused_text rt n Hnul)).
    destruct (filter_first (Animals.by_user_name (User.id (ctx_user auth)) n)
                (animal db) d Hin) as (x & rest & E & Hx & Hpx).
    { apply by_user_name_spec. auto. }
    rewrite E. unfold Pg.limit. cbn [firstn].
    apply by_user_name_spec in Hpx. destruct Hpx as [Hxu Hxn].
    assert (x = d) by (apply Huniq; auto; congruence). subst x.
    assert (Hne : String.eqb (Animal.id d) id = false).
    { apply String.eqb_neq. intros Heq. apply Hdiff.
      unfold canonical_ids in Hcanon. rewrite Forall_forall in Hcanon.
      rewrite <- (Hcanon d Hin). now rewrite Heq. }
    rewrite Hne. reflexivity. }
  now rewrite (run_bind_inl _ _ _ _ _ Hchk).
Qed.

(** POST /animals with a name the user does not have yet. *)
Lemma post_animals_fresh rt env request db auth data :
  requireAuth env request db = (inr auth, db) ->
  Zod.safeParse (Animals.createAnimalSchema rt) (body request) = Zod.success data ->
  (forall a, In a (animal db) -> Animal.userId a = User.id (ctx_user auth) ->
             Animal.name a <> Js.trim (Animals.name data)) ->
  Pg.has Animal.id (uuid env) (animal db) = false ->
  let a := Animals.values env (User.id (ctx_user auth))
             (Animals.sanitizeCreateAnimalPayload data) in
  match Pg.first_refused rt (Pg.animal_values a) with
  | None =>
      run (Animals.post_animals rt env request) db
      = ({| code := 201; payload := Animals.toAnimalResponse rt a |},
         {| user := user db; session := session db; animal := animal db ++ [a];
            feedingRecord := feedingRecord db; measurementLog := measurementLog db;
            reminder := reminder db |})
  | Some e => run (Animals.post_animals rt env request) db = (server_error e, db)
  end.
Proof.
  intros Ha Hp Hfree Hfresh a. unfold Animals.post_animals.
  rewrite (run_authenticated _ _ _ _ _ Ha), Hp. cbv zeta. fold a.
  destruct (requireAuth_inr _ _ _ _ _ Ha) as [_ Hauth].
  assert (Hnone : filter (Animals.by_user_name (User.id (ctx_user auth))
                            (Animals.name (Animals.sanitizeCreateAnimalPayload data)))
                         (animal db) = []).
  { apply filter_none. intros x Hin.
    destruct (Animals.by_user_name _ _ x) eqn:Hpx; [exfalso | reflexivity].
    apply by_user_name_spec in Hpx. destruct Hpx as [Hxu Hxn].
    exact (Hfree x Hin Hxu Hxn). }
  assert (Hno_clash : existsb (Pg.same_user_name a) (animal db) = false).
  { destruct (existsb _ _) eqn:Ec; [exfalso | reflexivity].
    apply existsb_exists in Ec. destruct Ec as [x [Hin Hs]].
    unfold Pg.same_user_name in Hs. apply andb_true_iff in Hs.
    destruct Hs as [H1 H2]. apply eq_spec in H1, H2.
    apply (Hfree x Hin); [now rewrite <- H1 | now rewrite <- H2]. }
  assert (Hname : Pg.animal_values a
                  = Pg.text (Animals.name (Animals.sanitizeCreateAnimalPayload data))
                    :: tl (Pg.animal_values a)) by reflexivity.
  destruct (Pg.first_refused rt (Pg.animal_values a)) as [e |] eqn:Er.
  - rewrite Hname in Er. cbn [Pg.first_refused] in Er.
    destruct (Pg.refused rt
                (Pg.text (Animals.name (Animals.sanitizeCreateAnimalPayload data))))
      as [e0 |] eqn:E0.
    + inversion Er; subst e0.
      apply run_exec_inl. unfold Pg.select_where. apply bound_inl.
      cbn [Pg.first_refused]. now rewrite E0.
    + erewrite run_exec_inr
        by (apply select_where_accepted; cbn [Pg.first_refused]; now rewrite E0).
      rewrite Hnone. unfold Pg.limit.
      cbn [firstn List.length Z.of_nat Z.ltb Z.compare].
      apply run_exec_inl. unfold Pg.insert_animal. apply bound_inl.
      rewrite Hname. cbn [Pg.first_refused]. now rewrite E0.
  - pose proof Er as Er'. rewrite Hname in Er'.
    apply first_refused_cons_none in Er'. destruct Er' as [Hn _].
    erewrite run_exec_inr by (apply select_where_accepted; exact Hn).
    rewrite Hnone. unfold Pg.limit.
    cbn [firstn List.length Z.of_nat Z.ltb Z.compare].
    erewrite run_exec_inr; [reflexivity |].
    unfold Pg.insert_animal. rewrite (bound_accepted _ _ _ _ Er).
    change (Animal.id a) with (uuid env). rewrite Hfresh.
    change (Animal.userId a) with (User.id (ctx_user auth)).
    rewrite (authentic_user_exists _ _ _ Hauth). simpl negb.
    rewrite Hno_clash. reflexivity.
Qed.

(** C5: duplicate names are rejected with 409.  For an authenticated
    user U and a request whose body carries the name [raw]: (1) a valid
    POST /animals whose trimmed name is the name of an animal U owns
    answers 409 and changes nothing; (2) in a store satisfying the unique
    index on (user_id, name), a valid PATCH /animals/:id whose trimmed name
    is the name of an animal of U other than the one addressed answers 409
    and changes nothing; in both, the stored name holds no character of
    code zero, as Postgres stores none.  (3) Uniqueness is per user: a
    valid POST /animals whose trimmed name none of U's animals has is
    answered 201 and the animal is stored, whatever animals other users
    own, when the database accepts the values of the new row; when it
    refuses one, the answer is 500 and nothing is stored. *)
Theorem duplicate_names_are_rejected :
  forall (rt : Runtime) (env : Env) (request : Request) (db : Db)
         (auth : AuthenticatedContext) (o : obj) (raw : string),
    requireAuth env request db = (inr auth, db) ->
    body request = Some (JObj o) ->
    get "name" o = Some (JStr raw) ->
    (forall data a,
        Zod.safeParse (Animals.createAnimalSchema rt) (body request) = Zod.success data ->
        In a (animal db) ->
        Animal.userId a = User.id (ctx_user auth) ->
        Animal.name a = Js.trim raw ->
        Pg.has_nul (Animal.name a) = false ->
        run (Animals.post_animals rt env request) db = (conflict, db))
    /\ (forall id data d,
        Zod.safeParse Animals.animalParamsSchema (Some (JObj (params request)))
          = Zod.success id ->
        Zod.safeParse (Animals.updateAnimalSchema rt) (body request) = Zod.success data ->
        animal_user_name_unique db ->
        canonical_ids db ->
        In d (animal db) ->
        Animal.userId d = User.id (ctx_user auth) ->
        Animal.name d = Js.trim raw ->
        Pg.has_nul (Animal.name d) = false ->
        Animal.id d <> Pg.uuid_in id ->
        run (Animals.patch_animal rt env request) db = (conflict, db))
    /\ (forall data,
        Zod.safeParse (Animals.createAnimalSchema rt) (body request) = Zod.success data ->
        (forall a, In a (animal db) -> Animal.userId a = User.id (ctx_user auth) ->
                   Animal.name a <> Js.trim raw) ->
        Pg.has Animal.id (uuid env) (animal db) = false ->
        let a := Animals.values env (User.id (ctx_user auth))
                   (Animals.sanitizeCreateAnimalPayload data) in
        Animal.name a = Js.trim raw
        /\ (Pg.first_refused rt (Pg.animal_values a) = None ->
            exists db',
              run (Animals.post_animals rt env request) db
              = ({| code := 201; payload := Animals.toAnimalResponse rt a |}, db')
              /\ animal db' = animal db ++ [a]
              /\ Animal.userId a = User.id (ctx_user auth))
        /\ (forall e, Pg.first_refused rt (Pg.animal_values a) = Some e ->
              run (Animals.post_animals rt env request) db = (server_error e, db))).
Proof.
  intros rt env request db auth o raw Ha Hbody Hraw. split; [| split].
  - intros data a Hp Hin Hu Hn Hnul.
    eapply post_animals_duplicate; eauto.
    rewrite Hbody in Hp. apply createAnimalSchema_name in Hp.
    destruct Hp as (raw' & Hg & Hname & _).
    rewrite Hname, trim_idem. congruence.
  - intros id data d Hid Hp Huniq Hcanon Hin Hu Hn Hnul Hdiff.
    pose proof Hp as Hp'. rewrite Hbody in Hp'.
    apply updateAnimalSchema_name in Hp'. destruct Hp' as (_ & Hnone & Hsome).
    destruct (Animals.u_name data) as [n |] eqn:En.
    + destruct (Hsome n eq_refl) as (raw' & Hg & Hn' & Hlen).
      assert (raw' = raw) by congruence. subst raw'.
      eapply patch_animal_duplicate; eauto.
      * subst n. apply trim_idem.
      * congruence.
    + exfalso. pose proof Hp as Hp'. rewrite Hbody in Hp'.
      apply safeParse_success in Hp'.
      unfold Animals.updateAnimalSchema in Hp'. apply superRefine_valid in Hp'.
      destruct Hp' as [Hp' _]. unfold Zod.object in Hp'. split_object Hp'.
      match goal with
      | H : Zod.prop "name" _ _ = _ |- _ =>
          apply prop_valid in H; rewrite Hraw in H; simpl in En
      end.
      match goal with
      | H : Zod.optional _ _ = ([], Some ?x) |- _ =>
          subst x; unfold Zod.optional, Zod.pmap in H;
          destruct (Zod.max _ _ _ _) as [iss [v |]]; simpl in H; inversion H
      end.
  - intros data Hp Hfree Hfresh a.
    pose proof Hp as Hp'. rewrite Hbody in Hp'. apply createAnimalSchema_name in Hp'.
    destruct Hp' as (raw' & Hg & Hname & _).
    assert (raw' = raw) by congruence. subst raw'.
    assert (Hn : Animal.name a = Js.trim raw).
    { unfold a. simpl. rewrite Hname. apply trim_idem. }
    assert (Hfree' : forall x, In x (animal db) ->
                       Animal.userId x = User.id (ctx_user auth) ->
                       Animal.name x <> Js.trim (Animals.name data)).
    { intros x Hin Hu. rewrite Hname, trim_idem. auto. }
    pose proof (post_animals_fresh rt env request db auth data Ha Hp Hfree' Hfresh)
      as Hrun.
    cbv zeta in Hrun. fold a in Hrun.
    split; [exact Hn |]. split.
    + intros Hok. rewrite Hok in Hrun. eexists. split; [exact Hrun |].
      split; reflexivity.
    + intros e He. now rewrite He in Hrun.
Qed.

Lemma sample_unique_names : animal_user_name_unique Sample.db.
Proof.
  intros a b Ha Hb. simpl in Ha, Hb.
  destruct Ha as [<- | [<- | [<- | []]]]; destruct Hb as [<- | [<- | [<- | []]]];
    simpl; intros Hu Hn; try reflexivity; discriminate.
Qed.

Lemma sample_canonical_ids : canonical_ids Sample.db.
Proof. repeat constructor. Qed.

Lemma duplicate_names_are_rejected_witness :
  requireAuth Sample.env (Sample.post_animal "  Rex ") Sample.db
  = (inr Sample.alice_auth, Sample.db)
  /\ run (Animals.post_animals Sample.runtime Sample.env (Sample.post_animal "  Rex "))
         Sample.db
     = (conflict, Sample.db)
  /\ run (Animals.patch_animal Sample.runtime Sample.env (Sample.rename_spike "Rex"))
         Sample.db
     = (conflict, Sample.db)
  /\ In Sample.spike (animal Sample.db)
  /\ (exists a db',
       run (Animals.post_animals Sample.runtime Sample.env (Sample.post_animal "Spike"))
           Sample.db
       = ({| code := 201; payload := Animals.toAnimalResponse Sample.runtime a |}, db')
       /\ animal db' = animal Sample.db ++ [a]
       /\ Animal.userId a = Sample.alice_id
       /\ Animal.name a = "Spike")
  /\ code (fst (run (Animals.post_animals Sample.runtime Sample.env
                       (Sample.post_animal Sample.with_nul)) Sample.db)) = 500.
Proof.
  split; [reflexivity |]. split; [| split; [| split; [| split]]].
  - destruct (duplicate_names_are_rejected Sample.runtime Sample.env
                (Sample.post_animal "  Rex ") Sample.db Sample.alice_auth
                [("name", JStr "  Rex ")] "  Rex " eq_refl eq_refl eq_refl)
      as [H _].
    apply (H {| Animals.name := "Rex"; Animals.species := None;
                Animals.description := None; Animals.birthDate := None;
                Animals.sex := None |} Sample.rex);
      simpl; auto.
  - destruct (duplicate_names_are_rejected Sample.runtime Sample.env
                (Sample.rename_spike "Rex") Sample.db Sample.bob_auth
                [("name", JStr "Rex")] "Rex" eq_refl eq_refl eq_refl)
      as [_ [H _]].
    apply (H Sample.spike_id
             {| Animals.u_name := Some "Rex"; Animals.u_species := None;
                Animals.u_description := None; Animals.u_birthDate := None;
                Animals.u_sex := None |} Sample.bobs_rex);
      try reflexivity.
    + apply sample_unique_names.
    + apply sample_canonical_ids.
    + simpl; auto.
    + discriminate.
  - simpl; auto.
  - destruct (duplicate_names_are_rejected Sample.runtime Sample.env
                (Sample.post_animal "Spike") Sample.db Sample.alice_auth
                [("name", JStr "Spike")] "Spike" eq_refl eq_refl eq_refl)
      as [_ [_ H]].
    destruct (H {| Animals.name := "Spike"; Animals.species := None;
                   Animals.description := None; Animals.birthDate := None;
                   Animals.sex := None |}) as (Hn & Hok & _).
    + reflexivity.
    + simpl. intros a [<- | [<- | [<- | []]]]; simpl; intros Hu Hn; discriminate.
    + reflexivity.
    + destruct (Hok eq_refl) as (db' & Hrun & Htab & Hu).
      eexists. exists db'. split; [exact Hrun |]. split; [exact Htab |].
      split; [exact Hu | exact Hn].
  - destruct (duplicate_names_are_rejected Sample.runtime Sample.env
                (Sample.post_animal Sample.with_nul) Sample.db Sample.alice_auth
                [("name", JStr Sample.with_nul)] Sample.with_nul
                eq_refl eq_refl eq_refl)
      as [_ [_ H]].
    destruct (H {| Animals.name := Sample.with_nul; Animals.species := None;
                   Animals.description := None; Animals.birthDate := None;
                   Animals.sex := None |}) as (_ & _ & Hrefused).
    + reflexivity.
    + simpl. intros a [<- | [<- | [<- | []]]]; simpl; intros Hu Hn; discriminate.
    + reflexivity.
    + rewrite (Hrefused _ eq_refl). reflexivity.
Defined.

(* ================================================================= *)
(** ** Rows that are not there *)

Lemma keep_none {A} (p : A -> bool) l :
  (forall x, In x l -> p x = false) -> Pg.keep p l = l.
Proof.
  unfold Pg.keep. induction l as [| a l IH]; simpl; auto.
  intros H. rewrite (H a) by auto. simpl. f_equal. auto.
Qed.

Lemma map_if_none {A} (p : A -> bool) (f : A -> A) l :
  (forall x, In x l -> p x = false) -> map (fun r => if p r then f r else r) l = l.
Proof.
  induction l as [| a l IH]; simpl; auto.
  intros H. rewrite (H a) by auto. f_equal. auto.
Qed.

Lemma none_owned_false {Row} (id userId : Row -> string) rows i u :
  none_owned id userId rows i u ->
  forall x, In x rows ->
            Pg.eq (id x) (Pg.uuid_in i) && Pg.eq (userId x) u = false.
Proof.
  intros H x Hin. destruct (Pg.eq (id x) (Pg.uuid_in i)) eqn:E1; simpl; auto.
  destruct (Pg.eq (userId x) u) eqn:E2; auto.
  apply eq_spec in E1, E2. exfalso. exact (H x Hin E1 E2).
Qed.

Lemma not_owns_none db u a :
  ~ owns db u a -> none_owned Animal.id Animal.userId (animal db) a u.
Proof.
  intros Hn r Hin Hid Hu. apply Hn. exists r. auto.
Qed.

Lemma db_eta db :
  {| user := user db; session := session db; animal := animal db;
     feedingRecord := feedingRecord db; measurementLog := measurementLog db;
     reminder := reminder db |} = db.
Proof. destruct db; reflexivity. Qed.

Lemma delete_feeding_missing env request db auth id :
  requireAuth env request db = (inr auth, db) ->
  Zod.safeParse Feedings.deleteParamsSchema (Some (JObj (params request))) = Zod.success id ->
  none_owned FeedingRecord.id FeedingRecord.userId (feedingRecord db) id
             (User.id (ctx_user auth)) ->
  run (Feedings.delete_feeding env request) db = (not_found "Feeding record not found", db).
Proof.
  intros Ha Hid Hnone. unfold Feedings.delete_feeding.
  rewrite (run_authenticated _ _ _ _ _ Ha), Hid.
  pose proof (none_owned_false _ _ _ _ _ Hnone) as Hf.
  unfold run, bind, exec, Pg.delete_feedingRecord.
  rewrite (filter_none (Feedings.by_id_user id (User.id (ctx_user auth))) _ Hf).
  rewrite (keep_none (Feedings.by_id_user id (User.id (ctx_user auth))) _ Hf).
  simpl. now rewrite db_eta.
Qed.

Lemma delete_measurement_missing env request db auth id :
  requireAuth env request db = (inr auth, db) ->
  Zod.safeParse Measurements.measurementParamsSchema (Some (JObj (params request)))
    = Zod.success id ->
  none_owned MeasurementLog.id MeasurementLog.userId (measurementLog db) id
             (User.id (ctx_user auth)) ->
  run (Measurements.delete_measurement env request) db
  = (not_found "Measurement not found", db).
Proof.
  intros Ha Hid Hnone. unfold Measurements.delete_measurement.
  rewrite (run_authenticated _ _ _ _ _ Ha), Hid.
  pose proof (none_owned_false _ _ _ _ _ Hnone) as Hf.
  unfold run, bind, exec, Pg.delete_measurementLog.
  rewrite (filter_none (Measurements.by_id_user id (User.id (ctx_user auth))) _ Hf).
  rewrite (keep_none (Measurements.by_id_user id (User.id (ctx_user auth))) _ Hf).
  simpl. now rewrite db_eta.
Qed.

Lemma delete_reminder_missing env request db auth id :
  requireAuth env request db = (inr auth, db) ->
  Zod.safeParse Reminders.reminderParamsSchema (Some (JObj (params request)))
    = Zod.success id ->
  none_owned Reminder.id Reminder.userId (reminder db) id (User.id (ctx_user auth)) ->
  run (Reminders.delete_reminder env request) db = (not_found "Reminder not found", db).
Proof.
  intros Ha Hid Hnone. unfold Reminders.delete_reminder.
  rewrite (run_authenticated _ _ _ _ _ Ha), Hid.
  pose proof (none_owned_false _ _ _ _ _ Hnone) as Hf.
  unfold run, bind, exec, Pg.delete_reminder.
  rewrite (filter_none (Reminders.by_id_user id (User.id (ctx_user auth))) _ Hf).
  rewrite (keep_none (Reminders.by_id_user id (User.id (ctx_user auth))) _ Hf).
  simpl. now rewrite db_eta.
Qed.

Lemma delete_animal_missing env request db auth id :
  requireAuth env request db = (inr auth, db) ->
  Zod.safeParse Animals.animalParamsSchema (Some (JObj (params request))) = Zod.success id ->
  none_owned Animal.id Animal.userId (animal db) id (User.id (ctx_user auth)) ->
  run (Animals.delete_animal env request) db = (not_found "Animal not found", db).
Proof.
  intros Ha Hid Hnone. unfold Animals.delete_animal.
  rewrite (run_authenticated _ _ _ _ _ Ha), Hid.
  pose proof (none_owned_false _ _ _ _ _ Hnone) as Hf.
  unfold run, bind, exec, Pg.delete_animal.
  rewrite (filter_none (Animals.by_id_user id (User.id (ctx_user auth))) _ Hf).
  rewrite (keep_none (Animals.by_id_user id (User.id (ctx_user auth))) _ Hf).
  rewrite !keep_none by (intros; destruct (_ : option string); reflexivity).
  simpl. now rewrite db_eta.
Qed.

Lemma post_feedings_foreign_animal rt env request db auth data :
  requireAuth env request db = (inr auth, db) ->
  Zod.safeParse (Feedings.feedingInputSchema rt) (body request) = Zod.success data ->
  ~ owns db (User.id (ctx_user auth)) (Feedings.animalId data) ->
  run (Feedings.post_feedings rt env request) db = (not_found "Animal not found", db).
Proof.
  intros Ha Hp Hn. unfold Feedings.post_feedings.
  rewrite (run_authenticated _ _ _ _ _ Ha), Hp.
  unfold run. erewrite bind_inr by (apply ensureAnimalOwnership_not_owned; exact Hn).
  reflexivity.
Qed.

Lemma post_measurements_foreign_animal rt env request db auth data :
  requireAuth env request db = (inr auth, db) ->
  Zod.safeParse (Measurements.measurementInputSchema rt) (body request)
    = Zod.success data ->
  ~ owns db (User.id (ctx_user auth)) (Measurements.animalId data) ->
  run (Measurements.post_measurements rt env request) db
  = (not_found "Animal not found", db).
Proof.
  intros Ha Hp Hn. unfold Measurements.post_measurements.
  rewrite (run_authenticated _ _ _ _ _ Ha), Hp.
  unfold run. erewrite bind_inr by (apply ensureAnimalOwnership_not_owned; exact Hn).
  reflexivity.
Qed.

Lemma post_reminders_foreign_animal rt env request db auth data :
  requireAuth env request db = (inr auth, db) ->
  Zod.safeParse (Reminders.createReminderSchema rt) (body request) = Zod.success data ->
  ~ owns db (User.id (ctx_user auth)) (Reminders.animalId data) ->
  run (Reminders.post_reminders rt env request) db = (not_found "Animal not found", db).
Proof.
  intros Ha Hp Hn. unfold Reminders.post_reminders.
  rewrite (run_authenticated _ _ _ _ _ Ha), Hp.
  unfold run. erewrite bind_inr by (apply ensureAnimalOwnership_not_owned; exact Hn).
  reflexivity.
Qed.

Lemma get_feedings_foreign_animal rt env request db auth aid :
  requireAuth env request db = (inr auth, db) ->
  Zod.safeParse Feedings.feedingQuerySchema (Some (query request)) = Zod.success aid ->
  ~ owns db (User.id (ctx_user auth)) aid ->
  run (Feedings.get_feedings rt env request) db = (not_found "Animal not found", db).
Proof.
  intros Ha Hp Hn. unfold Feedings.get_feedings.
  rewrite (run_authenticated _ _ _ _ _ Ha), Hp.
  unfold run. erewrite bind_inr by (apply ensureAnimalOwnership_not_owned; exact Hn).
  reflexivity.
Qed.

Lemma get_measurements_foreign_animal rt env request db auth aid :
  requireAuth env request db = (inr auth, db) ->
  Zod.safeParse Measurements.measurementQuerySchema (Some (query request))
    = Zod.success aid ->
  ~ owns db (User.id (ctx_user auth)) aid ->
  run (Measurements.get_measurements rt env request) db
  = (not_found "Animal not found", db).
Proof.
  intros Ha Hp Hn. unfold Measurements.get_measurements.
  rewrite (run_authenticated _ _ _ _ _ Ha), Hp.
  unfold run. erewrite bind_inr by (apply ensureAnimalOwnership_not_owned; exact Hn).
  reflexivity.
Qed.

Lemma get_reminders_foreign_animal rt env request db auth aid :
  requireAuth env request db = (inr auth, db) ->
  Zod.safeParse Reminders.reminderQuerySchema (Some (query request)) = Zod.success aid ->
  ~ owns db (User.id (ctx_user auth)) aid ->
  run (Reminders.get_reminders rt env request) db = (not_found "Animal not found", db).
Proof.
  intros Ha Hp Hn. unfold Reminders.get_reminders.
  rewrite (run_authenticated _ _ _ _ _ Ha), Hp.
  unfold run. erewrite bind_inr by (apply ensureAnimalOwnership_not_owned; exact Hn).
  reflexivity.
Qed.

Lemma patch_reminder_foreign_animal rt env request db auth id data aid :
  requireAuth env request db = (inr auth, db) ->
  Zod.safeParse Reminders.reminderParamsSchema (Some (JObj (params request)))
    = Zod.success id ->
  Zod.safeParse (Reminders.updateReminderSchema rt) (body request) = Zod.success data ->
  Reminders.u_animalId data = Some aid ->
  ~ owns db (User.id (ctx_user auth)) aid ->
  run (Reminders.patch_reminder rt env request) db = (not_found "Animal not found", db).
Proof.
  intros Ha Hid Hp Haid Hn. unfold Reminders.patch_reminder.
  rewrite (run_authenticated _ _ _ _ _ Ha), Hid, Hp.
  assert (Hkeys : (Reminders.update_keys data =? 0) = false).
  { unfold Reminders.update_keys, count_keys. rewrite Haid.
    destruct (Reminders.u_title data), (Reminders.u_notes data),
      (Reminders.u_isReminder data), (Reminders.u_dueDate data),
      (Reminders.u_isCompleted data), (Reminders.u_notificationId data); reflexivity. }
  rewrite Hkeys, Haid.
  unfold run. unfold bind at 1. unfold bind at 1.
  rewrite (ensureAnimalOwnership_not_owned _ _ _ Hn). reflexivity.
Qed.

Lemma update_reminder_missing rt sent db id u set :
  none_owned Reminder.id Reminder.userId (reminder db) id u ->
  Pg.first_refused rt sent = None ->
  Pg.update_reminder rt sent (Reminders.by_id_user id u) set db = inr ([], db).
Proof.
  intros Hnone Hok. pose proof (none_owned_false _ _ _ _ _ Hnone) as Hf.
  unfold Pg.update_reminder. rewrite (bound_accepted _ _ _ _ Hok).
  rewrite (filter_none (Reminders.by_id_user id u) _ Hf).
  rewrite (map_if_none (Reminders.by_id_user id u) _ _ Hf).
  simpl. now rewrite db_eta.
Qed.

Lemma update_animal_missing rt sent db id u set :
  none_owned Animal.id Animal.userId (animal db) id u ->
  Pg.first_refused rt sent = None ->
  Pg.update_animal rt sent (Animals.by_id_user id u) set db = inr ([], db).
Proof.
  intros Hnone Hok. pose proof (none_owned_false _ _ _ _ _ Hnone) as Hf.
  unfold Pg.update_animal. rewrite (bound_accepted _ _ _ _ Hok).
  rewrite (filter_none (Animals.by_id_user id u) _ Hf).
  rewrite (map_if_none (Animals.by_id_user id u) _ _ Hf).
  simpl. now rewrite db_eta.
Qed.

(** PATCH /reminders/:id addressing no reminder of the user: 404 when the
    database accepts the values sent, the database's refusal otherwise. *)
Lemma patch_reminder_missing rt env request db auth id data :
  requireAuth env request db = (inr auth, db) ->
  Zod.safeParse Reminders.reminderParamsSchema (Some (JObj (params request)))
    = Zod.success id ->
  Zod.safeParse (Reminders.updateReminderSchema rt) (body request) = Zod.success data ->
  0 < Reminders.update_keys data ->
  (forall aid, Reminders.u_animalId data = Some aid ->
               owns db (User.id (ctx_user auth)) aid) ->
  none_owned Reminder.id Reminder.userId (reminder db) id (User.id (ctx_user auth)) ->
  match Pg.first_refused rt (Reminders.set_values (Reminders.updatePayload env data)) with
  | None =>
      run (Reminders.patch_reminder rt env request) db
      = (not_found "Reminder not found", db)
  | Some e => run (Reminders.patch_reminder rt env request) db = (server_error e, db)
  end.
Proof.
  intros Ha Hid Hp Hk Hown Hnone. unfold Reminders.patch_reminder.
  rewrite (run_authenticated _ _ _ _ _ Ha), Hid, Hp.
  assert (Hkeys : (Reminders.update_keys data =? 0) = false)
    by (apply Z.eqb_neq; lia).
  rewrite Hkeys.
  assert (Hcheck :
    (match Reminders.u_animalId data with
     | Some a =>
         ownedAnimal <- ensureAnimalOwnership (User.id (ctx_user auth)) a ;;
         match ownedAnimal with
         | None => reply 404 (error_body "Animal not found")
         | Some _ => ret tt
         end
     | None => ret tt
     end) db = (inr tt, db)).
  { destruct (Reminders.u_animalId data) as [aid |]; [| reflexivity].
    destruct (ensureAnimalOwnership_owned _ _ _ (Hown aid eq_refl)) as [x Hx].
    unfold bind. rewrite Hx. reflexivity. }
  rewrite (run_bind_inr _ _ _ _ _ Hcheck).
  destruct (Pg.first_refused rt _) as [e |] eqn:Er.
  - apply run_exec_inl. unfold Pg.update_reminder. now apply bound_inl.
  - erewrite run_exec_inr by (apply update_reminder_missing; eassumption).
    reflexivity.
Qed.

Lemma payload_keys_positive rt v data :
  Zod.safeParse (Animals.updateAnimalSchema rt) v = Zod.success data ->
  (Animals.payload_keys (Animals.sanitizeUpdateAnimalPayload data) =? 0) = false.
Proof.
  intros Hp. destruct (updateAnimalSchema_object _ _ _ Hp) as [o Ho]. rewrite Ho in Hp.
  apply updateAnimalSchema_name in Hp. destruct Hp as [Hk _].
  apply Z.eqb_neq.
  assert (Animals.payload_keys (Animals.sanitizeUpdateAnimalPayload data)
          = Animals.update_keys data).
  { unfold Animals.payload_keys, Animals.update_keys,
      Animals.sanitizeUpdateAnimalPayload. simpl.
    destruct (Animals.u_name data), (Animals.u_species data),
      (Animals.u_description data), (Animals.u_birthDate data),
      (Animals.u_sex data); reflexivity. }
  lia.
Qed.

(** PATCH /animals/:id addressing no animal of the user, the body renaming
    to the name of an animal the user owns: the name check answers 409
    before the update runs. *)
Lemma patch_animal_missing_conflict rt env request db auth id data n d :
  requireAuth env request db = (inr auth, db) ->
  Zod.safeParse Animals.animalParamsSchema (Some (JObj (params request))) = Zod.success id ->
  Zod.safeParse (Animals.updateAnimalSchema rt) (body request) = Zod.success data ->
  none_owned Animal.id Animal.userId (animal db) id (User.id (ctx_user auth)) ->
  canonical_ids db ->
  Animals.u_name data = Some n ->
  In d (animal db) ->
  Animal.userId d = User.id (ctx_user auth) ->
  Animal.name d = Js.trim n ->
  Pg.has_nul (Animal.name d) = false ->
  run (Animals.patch_animal rt env request) db = (conflict, db).
Proof.
  intros Ha Hid Hp Hnone Hcanon Hname Hin Hu Hn Hnul.
  pose proof (payload_keys_positive _ _ _ Hp) as Hkeys.
  assert (Hlen : 1 <= Js.length (Js.trim n)).
  { destruct (updateAnimalSchema_object _ _ _ Hp) as [o Ho]. pose proof Hp as Hp'.
    rewrite Ho in Hp'. apply updateAnimalSchema_name in Hp'.
    destruct Hp' as (_ & _ & Hsome).
    destruct (Hsome n Hname) as (raw & _ & Hraw & Hl).
    rewrite Hraw, trim_idem. now rewrite <- Hraw. }
  unfold Animals.patch_animal.
  rewrite (run_authenticated _ _ _ _ _ Ha), Hid, Hp. cbv zeta. rewrite Hkeys.
  unfold Animals.sanitizeUpdateAnimalPayload at 1. cbn [Animals.p_name].
  rewrite Hname. cbn [option_map]. rewrite (truthy_length _ Hlen).
  rewrite Hn in Hnul.
  match goal with
  | |- run (bind ?chk ?k) db = _ => assert (Hchk : chk db = (inl conflict, db))
  end.
  { unfold bind at 1, exec.
    rewrite (select_where_accepted rt _ _ db (first_refused_text rt _ Hnul)).
    destruct (filter_first (Animals.by_user_name (User.id (ctx_user auth)) (Js.trim n))
                (animal db) d Hin) as (x & rest & E & Hx & Hpx).
    { apply by_user_name_spec. auto. }
    rewrite E. unfold Pg.limit. cbn [firstn].
    apply by_user_name_spec in Hpx. destruct Hpx as [Hxu Hxn].
    assert (Hne : String.eqb (Animal.id x) id = false).
    { apply String.eqb_neq. intros Heq. apply (Hnone x Hx); [| exact Hxu].
      unfold canonical_ids in Hcanon. rewrite Forall_forall in Hcanon.
      rewrite <- (Hcanon x Hx). now rewrite Heq. }
    rewrite Hne. reflexivity. }
  now rewrite (run_bind_inl _ _ _ _ _ Hchk).
Qed.

(** PATCH /animals/:id addressing no animal of the user, the body naming
    no animal the user owns: 404 when the database accepts the values
    sent, the database's refusal otherwise. *)
Lemma patch_animal_missing rt env request db auth id data :
  requireAuth env request db = (inr auth, db) ->
  Zod.safeParse Animals.animalParamsSchema (Some (JObj (params request))) = Zod.success id ->
  Zod.safeParse (Animals.updateAnimalSchema rt) (body request) = Zod.success data ->
  none_owned Animal.id Animal.userId (animal db) id (User.id (ctx_user auth)) ->
  (forall n a, Animals.u_name data = Some n -> In a (animal db) ->
               Animal.userId a = User.id (ctx_user auth) ->
               Animal.name a <> Js.trim n) ->
  match Pg.first_refused rt
          (Animals.set_values env (Animals.sanitizeUpdateAnimalPayload data)) with
  | None =>
      run (Animals.patch_animal rt env request) db = (not_found "Animal not found", db)
  | Some e => run (Animals.patch_animal rt env request) db = (server_error e, db)
  end.
Proof.
  intros Ha Hid Hp Hnone Hfree.
  pose proof (payload_keys_positive _ _ _ Hp) as Hkeys.
  unfold Animals.patch_animal.
  rewrite (run_authenticated _ _ _ _ _ Ha), Hid, Hp. cbv zeta. rewrite Hkeys.
  set (updates := Animals.sanitizeUpdateAnimalPayload data).
  assert (Hupd : forall sent,
    match Pg.first_refused rt sent with
    | None =>
        run (updated <- exec (Pg.update_animal rt sent
                                (Animals.by_id_user id (User.id (ctx_user auth)))
                                (Animals.set_row env updates)) ;;
             match updated with
             | [] => reply 404 (error_body "Animal not found")
             | u :: _ => reply 200 (Animals.toAnimalResponse rt u)
             end) db
        = (not_found "Animal not found", db)
    | Some e =>
        run (updated <- exec (Pg.update_animal rt sent
                                (Animals.by_id_user id (User.id (ctx_user auth)))
                                (Animals.set_row env updates)) ;;
             match updated with
             | [] => reply 404 (error_body "Animal not found")
             | u :: _ => reply 200 (Animals.toAnimalResponse rt u)
             end) db
        = (server_error e, db)
    end).
  { intros sent. destruct (Pg.first_refused rt sent) as [e |] eqn:Er.
    - apply run_exec_inl. unfold Pg.update_animal. now apply bound_inl.
    - erewrite run_exec_inr by (apply update_animal_missing; eassumption).
      reflexivity. }
  specialize (Hupd (Animals.set_values env updates)).
  destruct (Animals.p_name updates) as [m |] eqn:Em.
  - assert (Hm : exists n, Animals.u_name data = Some n /\ m = Js.trim n).
    { unfold updates, Animals.sanitizeUpdateAnimalPayload in Em. simpl in Em.
      destruct (Animals.u_name data) as [n |]; [| discriminate].
      inversion Em. eauto. }
    destruct Hm as (n & Hname & ->).
    assert (Hsent : Animals.set_values env updates
                    = Pg.text (Js.trim n) :: tl (Animals.set_values env updates)).
    { unfold Animals.set_values. rewrite Em. reflexivity. }
    assert (Hempty : filter (Animals.by_user_name (User.id (ctx_user auth)) (Js.trim n))
                            (animal db) = []).
    { apply filter_none. intros x Hin.
      destruct (Animals.by_user_name _ _ x) eqn:Hpx; [exfalso | reflexivity].
      apply by_user_name_spec in Hpx. destruct Hpx as [Hxu Hxn].
      exact (Hfree n x Hname Hin Hxu Hxn). }
    destruct (Js.truthy (Js.trim n)).
    + destruct (Pg.refused rt (Pg.text (Js.trim n))) as [e0 |] eqn:E0.
      * rewrite Hsent. cbn [Pg.first_refused]. rewrite E0.
        match goal with
        | |- run (bind ?chk ?k) db = _ =>
            assert (Hchk : chk db = (inl (server_error e0), db))
        end.
        { unfold bind at 1, exec. unfold Pg.select_where.
          rewrite (bound_inl rt _ _ db e0); [reflexivity |].
          cbn [Pg.first_refused]. now rewrite E0. }
        now rewrite (run_bind_inl _ _ _ _ _ Hchk).
      * match goal with
        | |- context [run (bind ?chk ?k) db] =>
            assert (Hchk : chk db = (inr tt, db))
        end.
        { unfold bind at 1, exec.
          rewrite select_where_accepted
            by (cbn [Pg.first_refused]; now rewrite E0).
          rewrite Hempty. reflexivity. }
        rewrite (run_bind_inr _ _ _ _ _ Hchk). exact Hupd.
    + rewrite (run_bind_inr _ _ _ _ _ (eq_refl : ret tt db = (inr tt, db))).
      exact Hupd.
  - rewrite (run_bind_inr _ _ _ _ _ (eq_refl : ret tt db = (inr tt, db))).
    exact Hupd.
Qed.

(** C3 (amended): not-found and ownership mismatches return 404.  For an
    authenticated user U and a request that passes validation: (1) DELETE
    /measurements/:id, /reminders/:id, /feedings/:id and /animals/:id
    addressing an id under which U has no row answer 404 and change
    nothing; (2) PATCH /reminders/:id addressing an id under which U has
    no reminder changes nothing and answers 404 when the database accepts
    the values of the body, and the 500 of the database's refusal when it
    does not; (3) PATCH /animals/:id addressing an id under which U has no
    animal changes nothing; it answers 409 when the body renames to the
    name of one of U's animals, and otherwise 404 when the database
    accepts the values of the body and the 500 of its refusal when it does
    not; (4) POST /feedings, /measurements, /reminders, GET /feedings,
    /measurements, /reminders and PATCH /reminders/:id naming an animalId
    that U does not own answer 404 and change nothing. *)
Theorem missing_resources_answer_404 :
  forall (rt : Runtime) (env : Env) (request : Request) (db : Db)
         (auth : AuthenticatedContext),
    requireAuth env request db = (inr auth, db) ->
    (forall id,
        Zod.safeParse idShape (Some (JObj (params request))) = Zod.success id ->
        (none_owned MeasurementLog.id MeasurementLog.userId (measurementLog db) id
                    (User.id (ctx_user auth)) ->
         run (Measurements.delete_measurement env request) db
         = (not_found "Measurement not found", db))
        /\ (none_owned Reminder.id Reminder.userId (reminder db) id
                       (User.id (ctx_user auth)) ->
            run (Reminders.delete_reminder env request) db
            = (not_found "Reminder not found", db))
        /\ (none_owned FeedingRecord.id FeedingRecord.userId (feedingRecord db) id
                       (User.id (ctx_user auth)) ->
            run (Feedings.delete_feeding env request) db
            = (not_found "Feeding record not found", db))
        /\ (none_owned Animal.id Animal.userId (animal db) id
                       (User.id (ctx_user auth)) ->
            run (Animals.delete_animal env request) db
            = (not_found "Animal not found", db))
        /\ (forall data,
              Zod.safeParse (Reminders.updateReminderSchema rt) (body request)
                = Zod.success data ->
              0 < Reminders.update_keys data ->
              (forall aid, Reminders.u_animalId data = Some aid ->
                           owns db (User.id (ctx_user auth)) aid) ->
              none_owned Reminder.id Reminder.userId (reminder db) id
                         (User.id (ctx_user auth)) ->
              (Pg.first_refused rt (Reminders.set_values (Reminders.updatePayload env data))
               = None ->
               run (Reminders.patch_reminder rt env request) db
               = (not_found "Reminder not found", db))
              /\ (forall e,
                    Pg.first_refused rt
                      (Reminders.set_values (Reminders.updatePayload env data)) = Some e ->
                    run (Reminders.patch_reminder rt env request) db
                    = (server_error e, db)))
        /\ (forall data aid,
              Zod.safeParse (Reminders.updateReminderSchema rt) (body request)
                = Zod.success data ->
              Reminders.u_animalId data = Some aid ->
              ~ owns db (User.id (ctx_user auth)) aid ->
              run (Reminders.patch_reminder rt env request) db
              = (not_found "Animal not found", db))
        /\ (forall data,
              Zod.safeParse (Animals.updateAnimalSchema rt) (body request)
                = Zod.success data ->
              none_owned Animal.id Animal.userId (animal db) id
                         (User.id (ctx_user auth)) ->
              (forall n d,
                  canonical_ids db ->
                  Animals.u_name data = Some n ->
                  In d (animal db) ->
                  Animal.userId d = User.id (ctx_user auth) ->
                  Animal.name d = Js.trim n ->
                  Pg.has_nul (Animal.name d) = false ->
                  run (Animals.patch_animal rt env request) db = (conflict, db))
              /\ ((forall n a, Animals.u_name data = Some n -> In a (animal db) ->
                               Animal.userId a = User.id (ctx_user auth) ->
                               Animal.name a <> Js.trim n) ->
                  (Pg.first_refused rt
                     (Animals.set_values env (Animals.sanitizeUpdateAnimalPayload data))
                   = None ->
                   run (Animals.patch_animal rt env request) db
                   = (not_found "Animal not found", db))
                  /\ (forall e,
                        Pg.first_refused rt
                          (Animals.set_values env
                             (Animals.sanitizeUpdateAnimalPayload data)) = Some e ->
                        run (Animals.patch_animal rt env request) db
                        = (server_error e, db)))))
    /\ (forall data,
          Zod.safeParse (Feedings.feedingInputSchema rt) (body request) = Zod.success data ->
          ~ owns db (User.id (ctx_user auth)) (Feedings.animalId data) ->
          run (Feedings.post_feedings rt env request) db
          = (not_found "Animal not found", db))
    /\ (forall data,
          Zod.safeParse (Measurements.measurementInputSchema rt) (body request)
            = Zod.success data ->
          ~ owns db (User.id (ctx_user auth)) (Measurements.animalId data) ->
          run (Measurements.post_measurements rt env request) db
          = (not_found "Animal not found", db))
    /\ (forall data,
          Zod.safeParse (Reminders.createReminderSchema rt) (body request)
            = Zod.success data ->
          ~ owns db (User.id (ctx_user auth)) (Reminders.animalId data) ->
          run (Reminders.post_reminders rt env request) db
          = (not_found "Animal not found", db))
    /\ (forall aid,
          Zod.safeParse animalIdShape (Some (query request)) = Zod.success aid ->
          ~ owns db (User.id (ctx_user auth)) aid ->
          run (Feedings.get_feedings rt env request) db
          = (not_found "Animal not found", db)
          /\ run (Measurements.get_measurements rt env request) db
             = (not_found "Animal not found", db)
          /\ run (Reminders.get_reminders rt env request) db
             = (not_found "Animal not found", db)).
Proof.
  intros rt env request db auth Ha.
  split; [| split; [| split; [| split]]].
  - intros id Hid. split; [| split; [| split; [| split; [| split; [| split]]]]].
    + intros. now apply (delete_measurement_missing env request db auth id).
    + intros. now apply (delete_reminder_missing env request db auth id).
    + intros. now apply (delete_feeding_missing env request db auth id).
    + intros. now apply (delete_animal_missing env request db auth id).
    + intros data Hp Hk Hown Hnone.
      pose proof (patch_reminder_missing rt env request db auth id data
                    Ha Hid Hp Hk Hown Hnone) as H.
      split.
      * intros Hok. now rewrite Hok in H.
      * intros e He. now rewrite He in H.
    + intros. now apply (patch_reminder_foreign_animal rt env request db auth id data aid).
    + intros data Hp Hnone. split.
      * intros n d Hcanon Hname Hin Hu Hn Hnul.
        now apply (patch_animal_missing_conflict rt env request db auth id data n d).
      * intros Hfree.
        pose proof (patch_animal_missing rt env request db auth id data
                      Ha Hid Hp Hnone Hfree) as H.
        split.
        -- intros Hok. now rewrite Hok in H.
        -- intros e He. now rewrite He in H.
  - intros. now apply (post_feedings_foreign_animal rt env request db auth data).
  - intros. now apply (post_measurements_foreign_animal rt env request db auth data).
  - intros. now apply (post_reminders_foreign_animal rt env request db auth data).
  - intros aid Hq Hn. repeat split.
    + now apply (get_feedings_foreign_animal rt env request db auth aid).
    + now apply (get_measurements_foreign_animal rt env request db auth aid).
    + now apply (get_reminders_foreign_animal rt env request db auth aid).
Qed.

Lemma sample_alice_has_no_other :
  none_owned Animal.id Animal.userId (animal Sample.db) Sample.other_id Sample.alice_id.
Proof. intros r [<- | [<- | [<- | []]]] Hid; discriminate. Qed.

Lemma missing_resources_answer_404_witness :
  requireAuth Sample.env Sample.delete_missing Sample.db
  = (inr Sample.alice_auth, Sample.db)
  /\ Zod.safeParse idShape (Some (JObj (params Sample.delete_missing)))
     = Zod.success Sample.other_id
  /\ none_owned MeasurementLog.id MeasurementLog.userId (measurementLog Sample.db)
                Sample.other_id Sample.alice_id
  /\ run (Measurements.delete_measurement Sample.env Sample.delete_missing) Sample.db
     = (not_found "Measurement not found", Sample.db)
  /\ ~ owns Sample.db Sample.bob_id Sample.rex_id
  /\ run (Feedings.get_feedings Sample.runtime Sample.env Sample.bob_lists_rex) Sample.db
     = (not_found "Animal not found", Sample.db)
  /\ run (Animals.patch_animal Sample.runtime Sample.env (Sample.rename_missing_to "Rex"))
         Sample.db
     = (conflict, Sample.db)
  /\ run (Animals.patch_animal Sample.runtime Sample.env (Sample.rename_missing_to "Nova"))
         Sample.db
     = (not_found "Animal not found", Sample.db)
  /\ code (fst (run (Animals.patch_animal Sample.runtime Sample.env
                       (Sample.rename_missing_to Sample.with_nul)) Sample.db)) = 500.
Proof.
  assert (Hnone : none_owned MeasurementLog.id MeasurementLog.userId
                    (measurementLog Sample.db) Sample.other_id Sample.alice_id).
  { intros r [<- | []] Hid. discriminate. }
  assert (Hforeign : ~ owns Sample.db Sample.bob_id Sample.rex_id).
  { intros [a [[<- | [<- | [<- | []]]] [Hid Hu]]]; discriminate. }
  split; [reflexivity |]. split; [reflexivity |]. split; [exact Hnone |].
  split; [| split; [exact Hforeign | split; [| split; [| split]]]].
  - destruct (missing_resources_answer_404 Sample.runtime Sample.env
                Sample.delete_missing Sample.db Sample.alice_auth eq_refl) as [H _].
    destruct (H Sample.other_id eq_refl) as [H1 _]. exact (H1 Hnone).
  - destruct (missing_resources_answer_404 Sample.runtime Sample.env
                Sample.bob_lists_rex Sample.db Sample.bob_auth eq_refl)
      as (_ & _ & _ & _ & H).
    destruct (H Sample.rex_id eq_refl Hforeign) as [H1 _]. exact H1.
  - destruct (missing_resources_answer_404 Sample.runtime Sample.env
                (Sample.rename_missing_to "Rex") Sample.db Sample.alice_auth eq_refl)
      as [H _].
    destruct (H Sample.other_id eq_refl) as (_ & _ & _ & _ & _ & _ & H7).
    destruct (H7 {| Animals.u_name := Some "Rex"; Animals.u_species := None;
                    Animals.u_description := None; Animals.u_birthDate := None;
                    Animals.u_sex := None |} eq_refl sample_alice_has_no_other)
      as [Hconflict _].
    apply (Hconflict "Rex" Sample.rex); try reflexivity.
    + apply sample_canonical_ids.
    + simpl; auto.
  - destruct (missing_resources_answer_404 Sample.runtime Sample.env
                (Sample.rename_missing_to "Nova") Sample.db Sample.alice_auth eq_refl)
      as [H _].
    destruct (H Sample.other_id eq_refl) as (_ & _ & _ & _ & _ & _ & H7).
    destruct (H7 {| Animals.u_name := Some "Nova"; Animals.u_species := None;
                    Animals.u_description := None; Animals.u_birthDate := None;
                    Animals.u_sex := None |} eq_refl sample_alice_has_no_other)
      as [_ Hmissing].
    destruct Hmissing as [H404 _].
    + intros n a Hname [<- | [<- | [<- | []]]] Hu; inversion Hname; subst;
        discriminate.
    + apply H404. reflexivity.
  - destruct (missing_resources_answer_404 Sample.runtime Sample.env
                (Sample.rename_missing_to Sample.with_nul) Sample.db Sample.alice_auth
                eq_refl)
      as [H _].
    destruct (H Sample.other_id eq_refl) as (_ & _ & _ & _ & _ & _ & H7).
    destruct (H7 {| Animals.u_name := Some Sample.with_nul; Animals.u_species := None;
                    Animals.u_description := None; Animals.u_birthDate := None;
                    Animals.u_sex := None |} eq_refl sample_alice_has_no_other)
      as [_ Hmissing].
    destruct Hmissing as [_ H500].
    + intros n a Hname [<- | [<- | [<- | []]]] Hu; inversion Hname; subst;
        discriminate.
    + rewrite (H500 _ eq_refl). reflexivity.
Defined.

(** C3 as stated fails: Alice patches /animals/:id with an id under which
    no animal exists at all, naming her own animal Rex; the request is
    valid and authenticated, and the answer is 409, not 404. *)
Lemma renaming_a_missing_animal_conflicts :
  requireAuth Sample.env Sample.rename_missing Sample.db
  = (inr Sample.alice_auth, Sample.db)
  /\ Zod.safeParse Animals.animalParamsSchema (Some (JObj (params Sample.rename_missing)))
     = Zod.success Sample.other_id
  /\ Zod.safeParse (Animals.updateAnimalSchema Sample.runtime) (body Sample.rename_missing)
     = Zod.success {| Animals.u_name := Some "Rex"; Animals.u_species := None;
                      Animals.u_description := None; Animals.u_birthDate := None;
                      Animals.u_sex := None |}
  /\ Forall (fun a => Animal.id a <> Pg.uuid_in Sample.other_id) (animal Sample.db)
  /\ run (Animals.patch_animal Sample.runtime Sample.env Sample.rename_missing) Sample.db
     = ({| code := 409;
           payload := error_body "An animal with this name already exists" |},
        Sample.db).
Proof.
  split; [reflexivity |]. split; [reflexivity |]. split; [reflexivity |].
  split; [| reflexivity].
  repeat constructor; discriminate.
Qed.

(* ================================================================= *)
(** ** Validation failures *)

Lemma push_field_get k m acc :
  exists msgs, get k (map (fun km => (fst km, JArr (snd km))) (Zod.push_field k m acc))
               = Some (JArr msgs) /\ In m msgs.
Proof.
  induction acc as [| [k' ms] acc IH]; simpl.
  - rewrite String.eqb_refl. exists [m]. simpl; auto.
  - destruct (String.eqb k' k) eqn:E; simpl; rewrite E.
    + exists (ms ++ [m]). split; auto. apply in_or_app. right. now left.
    + exact IH.
Qed.

Lemma push_field_keeps k m k' m' acc :
  (exists msgs, get k (map (fun km => (fst km, JArr (snd km))) acc) = Some (JArr msgs)
                /\ In m msgs) ->
  exists msgs, get k (map (fun km => (fst km, JArr (snd km))) (Zod.push_field k' m' acc))
               = Some (JArr msgs) /\ In m msgs.
Proof.
  induction acc as [| [k0 ms] acc IH]; simpl.
  - intros [msgs [H _]]. discriminate.
  - intros [msgs [H Hin]].
    destruct (String.eqb k0 k') eqn:E; simpl.
    + destruct (String.eqb k0 k) eqn:E2.
      * inversion H; subst. eexists. split; [reflexivity |].
        apply in_or_app. now left.
      * exists msgs. auto.
    + destruct (String.eqb k0 k) eqn:E2.
      * exists msgs. auto.
      * apply IH. eauto.
Qed.

Lemma fieldErrors_names rt issues acc i k rest :
  Zod.path i = k :: rest ->
  In i issues
  \/ In (Zod.render rt i)
        (match get k (map (fun km => (fst km, JArr (snd km))) acc) with
         | Some (JArr msgs) => msgs
         | _ => []
         end) ->
  exists msgs,
    get k (map (fun km => (fst km, JArr (snd km)))
               (fold_left (fun acc i => match Zod.path i with
                                        | k :: _ => Zod.push_field k (Zod.render rt i) acc
                                        | [] => acc
                                        end) issues acc))
    = Some (JArr msgs)
    /\ In (Zod.render rt i) msgs.
Proof.
  intros Hpath. revert acc. induction issues as [| j issues IH]; intros acc H; simpl.
  - destruct H as [[] | H].
    destruct (get k _) as [[] |]; try contradiction. eauto.
  - apply IH. destruct H as [[-> | Hin] | H].
    + right. rewrite Hpath.
      destruct (push_field_get k (Zod.render rt i) acc) as [msgs [Hg Hm]].
      now rewrite Hg.
    + now left.
    + right. destruct (Zod.path j) as [| k' r']; auto.
      destruct (get k (map _ acc)) as [[] |] eqn:Eg; try contradiction.
      destruct (push_field_keeps k (Zod.render rt i) k' (Zod.render rt j) acc)
        as [msgs [Hg Hm]]; [eauto |].
      now rewrite Hg.
Qed.

(** Every issue is named by the flattened error. *)
Lemma flatten_names rt issues i :
  In i issues -> named_in rt (Zod.flatten rt issues) i.
Proof.
  intros Hin. unfold named_in.
  destruct (Zod.path i) as [| k rest] eqn:Hp.
  - eexists. split; [reflexivity |]. unfold Zod.formErrors.
    apply in_map, filter_In. split; auto. now rewrite Hp.
  - destruct (fieldErrors_names rt issues [] i k rest Hp (or_introl Hin))
      as [msgs [Hg Hm]].
    eexists. exists msgs. split; [reflexivity |]. split; auto.
Qed.

Lemma sound_valid {A} (a : A) : sound (Zod.valid a).
Proof. unfold sound; simpl; discriminate. Qed.

Lemma sound_aborted {A} c : sound (@Zod.aborted A c).
Proof. unfold sound; simpl; discriminate. Qed.

Lemma sound_pmap {A B} (f : A -> B) p : sound p -> sound (Zod.pmap f p).
Proof.
  unfold sound, Zod.pmap. destruct p as [iss [a |]]; simpl; auto. discriminate.
Qed.

Lemma sound_string v : sound (Zod.string_ v).
Proof. destruct v as [[] |]; unfold sound; simpl; discriminate. Qed.

Lemma sound_boolean v : sound (Zod.boolean v).
Proof. destruct v as [[] |]; unfold sound; simpl; discriminate. Qed.

Lemma sound_number v : sound (Zod.number v).
Proof.
  destruct v as [[] |]; unfold sound, Zod.number; simpl; try discriminate.
  destruct (PrimFloat.is_nan _); simpl; discriminate.
Qed.

Lemma sound_coerce_date rt v : sound (Zod.coerce_date rt v).
Proof.
  unfold Zod.coerce_date. destruct v as [j |]; [destruct (new_Date rt j) |];
    unfold sound; simpl; discriminate.
Qed.

Lemma sound_enum values v : sound (Zod.enum values v).
Proof.
  unfold Zod.enum. destruct v as [[] |]; try (unfold sound; simpl; discriminate).
  destruct (existsb _ _); unfold sound; simpl; discriminate.
Qed.

Lemma sound_check {A} ok c m (s : Zod.Schema A) v :
  sound (s v) -> sound (Zod.check ok c m s v).
Proof.
  unfold Zod.check, sound. destruct (s v) as [iss [a |]]; simpl; auto.
  destruct (ok a); simpl; discriminate.
Qed.

Lemma sound_trim (s : Zod.Schema string) v : sound (s v) -> sound (Zod.trim s v).
Proof. apply sound_pmap. Qed.

Lemma sound_optional {A} (s : Zod.Schema A) v :
  sound (s v) -> sound (Zod.optional s v).
Proof.
  unfold Zod.optional. destruct v; [apply sound_pmap | intros _; apply sound_valid].
Qed.

Lemma sound_nullable {A} (s : Zod.Schema A) v :
  sound (s v) -> sound (Zod.nullable s v).
Proof.
  unfold Zod.nullable.
  destruct v as [[] |]; try apply sound_pmap. intros _; apply sound_valid.
Qed.

Lemma sound_prop {A} k (s : Zod.Schema A) o :
  sound (s (get k o)) -> sound (Zod.prop k s o).
Proof.
  unfold Zod.prop, sound. destruct (s (get k o)) as [iss v]; simpl.
  intros H Hv. specialize (H Hv). destruct iss; simpl; congruence.
Qed.

Lemma sound_ap {A B} (f : Zod.Parsed (A -> B)) x :
  sound f -> sound x -> sound (Zod.ap f x).
Proof.
  unfold Zod.ap, sound. destruct f as [fi [g |]], x as [xi [a |]]; simpl;
    intros Hf Hx H; try discriminate.
  - specialize (Hx eq_refl). intros E. apply app_eq_nil in E. tauto.
  - specialize (Hf eq_refl). intros E. apply app_eq_nil in E. tauto.
  - specialize (Hf eq_refl). intros E. apply app_eq_nil in E. tauto.
Qed.

Lemma sound_object {A} (shape : obj -> Zod.Parsed A) v :
  (forall o, sound (shape o)) -> sound (Zod.object shape v).
Proof.
  intros H. unfold Zod.object. destruct v as [[] |]; auto; apply sound_aborted.
Qed.

Lemma sound_superRefine {A} r (s : Zod.Schema A) v :
  sound (s v) -> sound (Zod.superRefine r s v).
Proof.
  unfold Zod.superRefine, sound. destruct (s v) as [iss [a |]]; simpl; auto.
  discriminate.
Qed.

Ltac sound_schema :=
  repeat first
    [ apply sound_superRefine | apply sound_object; intro | apply sound_ap
    | apply sound_prop | apply sound_optional | apply sound_nullable
    | apply sound_check | apply sound_trim | apply sound_string
    | apply sound_boolean | apply sound_number | apply sound_coerce_date
    | apply sound_enum | apply sound_valid ].

(** A failed [safeParse] of a sound schema reports at least one issue. *)
Lemma failure_has_issue {A} (s : Zod.Schema A) v issues :
  sound (s v) -> Zod.safeParse s v = Zod.failure issues -> issues <> [].
Proof.
  unfold Zod.safeParse, sound. destruct (s v) as [[| i iss] [a |]]; simpl;
    intros Hs H; inversion H; subst; auto; discriminate.
Qed.

Lemma schemas_sound rt v :
  sound (Animals.createAnimalSchema rt v)
  /\ sound (Animals.updateAnimalSchema rt v)
  /\ sound (Feedings.feedingInputSchema rt v)
  /\ sound (Measurements.measurementInputSchema rt v)
  /\ sound (Reminders.createReminderSchema rt v)
  /\ sound (Reminders.updateReminderSchema rt v)
  /\ sound (Auth.credentialsSchema v)
  /\ sound (idShape v)
  /\ sound (animalIdShape v).
Proof.
  unfold Animals.createAnimalSchema, Animals.updateAnimalSchema,
    Feedings.feedingInputSchema, Measurements.measurementInputSchema,
    Reminders.createReminderSchema, Reminders.updateReminderSchema,
    Auth.credentialsSchema, idShape, animalIdShape,
    Zod.min, Zod.max, Zod.uuid_, Zod.regex, Zod.positive, Zod.finite.
  repeat split; sound_schema.
Qed.

Ltac reject_body Ha :=
  unfold rejects_body; intros issues Hf; split;
  [ eapply failure_has_issue; [| exact Hf];
    match goal with rt : Runtime |- _ => apply (schemas_sound rt) end
  | unfold_routes;
    try rewrite (run_authenticated _ _ _ _ _ Ha);
    repeat match goal with
           | H : Zod.safeParse _ _ = _ |- _ => rewrite H
           end;
    reflexivity ].

Ltac reject_plain Ha :=
  unfold_routes;
  try rewrite (run_authenticated _ _ _ _ _ Ha);
  repeat match goal with
         | H : Zod.safeParse _ _ = _ |- _ => rewrite H
         end;
  reflexivity.

Ltac reject_open :=
  unfold rejects_body; intros issues Hf; split;
  [ eapply failure_has_issue; [| exact Hf];
    match goal with rt : Runtime |- _ => apply (schemas_sound rt) end
  | unfold_routes; rewrite Hf; reflexivity ].

(** C6 (amended): validation errors return 400.  (1) POST /auth/register
    and POST /auth/login need no authentication: whatever the request's
    credentials, a body that fails the credentials schema is answered 400
    with an error message and, under [details], the flattened zod error.
    For an authenticated request: (2) a body that fails the route's zod
    schema is answered 400 in the same way; the flattened error holds at
    least one issue and names every issue under its failing field, with
    the message the schema gives or else the one zod's error map gives
    for the issue; (3) path parameters or a query string that fail their
    schema, and a PATCH /reminders/:id body without any updatable field,
    are answered 400 with an error message only, without [details]; in
    every case the store is left as it was. *)
Theorem validation_errors_return_400 :
  forall (rt : Runtime) (env : Env) (request : Request) (db : Db),
    (rejects_body rt Auth.credentialsSchema
       (Auth.post_register rt env request) request db "Invalid credentials payload"
     /\ rejects_body rt Auth.credentialsSchema
          (Auth.post_login rt env request) request db "Invalid credentials payload")
    /\ (forall auth : AuthenticatedContext,
          requireAuth env request db = (inr auth, db) ->
          (rejects_body rt (Animals.createAnimalSchema rt)
             (Animals.post_animals rt env request) request db "Invalid animal payload"
           /\ rejects_body rt (Feedings.feedingInputSchema rt)
                (Feedings.post_feedings rt env request) request db
                "Invalid feeding payload"
           /\ rejects_body rt (Measurements.measurementInputSchema rt)
                (Measurements.post_measurements rt env request) request db
                "Invalid measurement payload"
           /\ rejects_body rt (Reminders.createReminderSchema rt)
                (Reminders.post_reminders rt env request) request db
                "Invalid reminder payload"
           /\ (forall id,
                 Zod.safeParse idShape (Some (JObj (params request))) = Zod.success id ->
                 rejects_body rt (Animals.updateAnimalSchema rt)
                   (Animals.patch_animal rt env request) request db
                   "Invalid animal update payload"
                 /\ rejects_body rt (Reminders.updateReminderSchema rt)
                      (Reminders.patch_reminder rt env request) request db
                      "Invalid reminder update payload"
                 /\ (forall data,
                       Zod.safeParse (Reminders.updateReminderSchema rt) (body request)
                         = Zod.success data ->
                       Reminders.update_keys data = 0 ->
                       run (Reminders.patch_reminder rt env request) db
                       = (bad_request "No fields provided to update", db))))
          /\ (forall issues,
                Zod.safeParse idShape (Some (JObj (params request)))
                  = Zod.failure issues ->
                issues <> []
                /\ run (Animals.patch_animal rt env request) db
                   = (bad_request "Invalid animal identifier", db)
                /\ run (Animals.delete_animal env request) db
                   = (bad_request "Invalid animal identifier", db)
                /\ run (Feedings.delete_feeding env request) db
                   = (bad_request "Invalid feeding identifier", db)
                /\ run (Measurements.delete_measurement env request) db
                   = (bad_request "Invalid measurement identifier", db)
                /\ run (Reminders.patch_reminder rt env request) db
                   = (bad_request "Invalid reminder identifier", db)
                /\ run (Reminders.delete_reminder env request) db
                   = (bad_request "Invalid reminder identifier", db))
          /\ (forall issues,
                Zod.safeParse animalIdShape (Some (query request))
                  = Zod.failure issues ->
                issues <> []
                /\ run (Feedings.get_feedings rt env request) db
                   = (bad_request "Invalid feedings query parameters", db)
                /\ run (Measurements.get_measurements rt env request) db
                   = (bad_request "Invalid measurements query parameters", db)
                /\ run (Reminders.get_reminders rt env request) db
                   = (bad_request "Invalid reminders query parameters", db)))
    /\ (forall message issues,
          code (invalid rt message issues) = 400
          /\ field "details" (payload (invalid rt message issues))
             = Some (Zod.flatten rt issues)
          /\ forall i, In i issues -> named_in rt (Zod.flatten rt issues) i)
    /\ (forall message,
          code (bad_request message) = 400
          /\ field "details" (payload (bad_request message)) = None).
Proof.
  intros rt env request db.
  split; [| split; [| split]].
  - split; reject_open.
  - intros auth Ha. split; [| split].
    + split; [reject_body Ha |]. split; [reject_body Ha |].
      split; [reject_body Ha |]. split; [reject_body Ha |].
      intros id Hid.
      change idShape with Animals.animalParamsSchema in Hid.
      split; [reject_body Ha |].
      change Animals.animalParamsSchema with Reminders.reminderParamsSchema in Hid.
      split; [reject_body Ha |].
      intros data Hp Hk. unfold Reminders.patch_reminder.
      rewrite (run_authenticated _ _ _ _ _ Ha), Hid, Hp, Hk. reflexivity.
    + intros issues Hf. split.
      { eapply failure_has_issue; [| exact Hf]; apply (schemas_sound rt). }
      repeat split; unfold_routes;
        rewrite (run_authenticated _ _ _ _ _ Ha);
        change Animals.animalParamsSchema with idShape;
        change Feedings.deleteParamsSchema with idShape;
        change Measurements.measurementParamsSchema with idShape;
        change Reminders.reminderParamsSchema with idShape;
        rewrite Hf; reflexivity.
    + intros issues Hf. split.
      { eapply failure_has_issue; [| exact Hf]; apply (schemas_sound rt). }
      repeat split; unfold_routes;
        rewrite (run_authenticated _ _ _ _ _ Ha);
        change Feedings.feedingQuerySchema with animalIdShape;
        change Measurements.measurementQuerySchema with animalIdShape;
        change Reminders.reminderQuerySchema with animalIdShape;
        rewrite Hf; reflexivity.
  - intros message issues. split; [reflexivity |]. split; [reflexivity |].
    intros i Hi. now apply flatten_names.
  - intros message. split; reflexivity.
Qed.

Lemma validation_errors_return_400_witness :
  authorization Sample.register_short = None
  /\ run (Auth.post_register Sample.runtime Sample.env Sample.register_short) Sample.db
     = ({| code := 400;
           payload :=
             JObj [("error", JStr "Invalid credentials payload");
                   ("details",
                    JObj [("formErrors", JArr []);
                          ("fieldErrors",
                           JObj [("username",
                                  JArr [JStr "Username must be at least 3 characters long"]);
                                 ("password", JArr [JStr "Required"])])])] |},
        Sample.db)
  /\ requireAuth Sample.env (Sample.post_animal "   ") Sample.db
     = (inr Sample.alice_auth, Sample.db)
  /\ (exists issues,
        Zod.safeParse (Animals.createAnimalSchema Sample.runtime)
          (body (Sample.post_animal "   ")) = Zod.failure issues
        /\ issues <> []
        /\ run (Animals.post_animals Sample.runtime Sample.env (Sample.post_animal "   "))
               Sample.db
           = (invalid Sample.runtime "Invalid animal payload" issues, Sample.db)
        /\ forall i, In i issues ->
                     named_in Sample.runtime (Zod.flatten Sample.runtime issues) i)
  /\ run (Measurements.delete_measurement Sample.env Sample.delete_nope) Sample.db
     = (bad_request "Invalid measurement identifier", Sample.db).
Proof.
  split; [reflexivity |]. split; [| split; [reflexivity |]; split].
  - destruct (validation_errors_return_400 Sample.runtime Sample.env
                Sample.register_short Sample.db) as ([H _] & _).
    destruct (H _ eq_refl) as [_ H2]. rewrite H2. reflexivity.
  - destruct (validation_errors_return_400 Sample.runtime Sample.env
                (Sample.post_animal "   ") Sample.db) as (_ & Ha & Hd & _).
    destruct (Ha Sample.alice_auth eq_refl) as ([H _] & _).
    eexists. split; [reflexivity |].
    destruct (H _ eq_refl) as [H1 H2]. split; [exact H1 |]. split; [exact H2 |].
    apply (Hd "Invalid animal payload").
  - destruct (validation_errors_return_400 Sample.runtime Sample.env
                Sample.delete_nope Sample.db) as (_ & Ha & _).
    destruct (Ha Sample.alice_auth eq_refl) as (_ & H & _).
    destruct (H _ eq_refl) as (_ & _ & _ & _ & H4 & _). exact H4.
Defined.

(** C6 as stated fails: an authenticated DELETE /measurements/nope fails
    the params schema and is answered 400 with an error message but no
    [details]; so is a PATCH /reminders/:id whose body is the empty
    object. *)
Lemma invalid_identifier_reply_has_no_details :
  requireAuth Sample.env Sample.delete_nope Sample.db
  = (inr Sample.alice_auth, Sample.db)
  /\ Zod.safeParse Measurements.measurementParamsSchema
       (Some (JObj (params Sample.delete_nope)))
     = Zod.failure [{| Zod.code := ZodIssueCode.invalid_string ZodIssueCode.uuid;
                       Zod.path := ["id"]; Zod.message := None |}]
  /\ run (Measurements.delete_measurement Sample.env Sample.delete_nope) Sample.db
     = ({| code := 400;
           payload := JObj [("error", JStr "Invalid measurement identifier")] |},
        Sample.db)
  /\ field "details"
       (payload (fst (run (Measurements.delete_measurement Sample.env Sample.delete_nope)
                          Sample.db))) = None
  /\ run (Reminders.patch_reminder Sample.runtime Sample.env Sample.patch_nothing)
         Sample.db
     = ({| code := 400;
           payload := JObj [("error", JStr "No fields provided to update")] |},
        Sample.db).
Proof. repeat split; reflexivity. Qed.

(* ================================================================= *)
(** ** Lifecycle of the entities *)











Lemma unless_refused_cases rt sent h db (P : Prop) :
  match Pg.first_refused rt sent with
  | None => P
  | Some e => run h db = (server_error e, db)
  end ->
  unless_refused rt sent h db P.
Proof.
  intros H. split.
  - intros E. now rewrite E in H.
  - intros e E. now rewrite E in H.
Qed.

Lemma not_in_keep {A} (p : A -> bool) l r : p r = true -> ~ In r (Pg.keep p l).
Proof.
  intros Hp Hin. apply filter_In in Hin. destruct Hin as [_ H].
  rewrite Hp in H. discriminate.
Qed.





Lemma in_map_if {A} (p : A -> bool) (f : A -> A) l r :
  In r l -> p r = true -> In (f r) (map (fun x => if p x then f x else x) l).
Proof.
  intros Hin Hp. apply in_map_iff. exists r. rewrite Hp. auto.
Qed.


Lemma update_keys_payload_keys data :
  Animals.payload_keys (Animals.sanitizeUpdateAnimalPayload data)
  = Animals.update_keys data.
Proof.
  unfold Animals.payload_keys, Animals.update_keys,
    Animals.sanitizeUpdateAnimalPayload. simpl.
  destruct (Animals.u_name data), (Animals.u_species data),
    (Animals.u_description data), (Animals.u_birthDate data),
    (Animals.u_sex data); reflexivity.
Qed.

Lemma patch_animal_owned rt env request db auth id data r :
  requireAuth env request db = (inr auth, db) ->
  Zod.safeParse Animals.animalParamsSchema (Some (JObj (params request))) = Zod.success id ->
  Zod.safeParse (Animals.updateAnimalSchema rt) (body request) = Zod.success data ->
  animal_user_name_unique db ->
  canonical_ids db ->
  In r (animal db) ->
  Animal.id r = id ->
  Animal.userId r = User.id (ctx_user auth) ->
  (forall n q, Animals.u_name data = Some n -> In q (animal db) ->
               Animal.userId q = User.id (ctx_user auth) ->
               Animal.name q = Js.trim n -> q = r) ->
  let updates := Animals.sanitizeUpdateAnimalPayload data in
  match Pg.first_refused rt (Animals.set_values env updates) with
  | None =>
      updated animal (Animals.by_id_user id (User.id (ctx_user auth)))
        (Animals.set_row env updates) (Animals.toAnimalResponse rt) r
        (Animals.patch_animal rt env request) db
  | Some e => run (Animals.patch_animal rt env request) db = (server_error e, db)
  end.
Proof.
  intros Ha Hid Hp Huniq Hcanon Hin Hr Hu Hfree updates.
  assert (Hkeys : (Animals.payload_keys updates =? 0) = false)
    by exact (payload_keys_positive _ _ _ Hp).
  assert (Hcid : Pg.uuid_in id = id).
  { unfold canonical_ids in Hcanon. rewrite Forall_forall in Hcanon.
    rewrite <- Hr. now apply Hcanon. }
  unfold updated, Animals.patch_animal.
  rewrite (run_authenticated _ _ _ _ _ Ha), Hid, Hp. cbv zeta.
  fold updates. rewrite Hkeys.
  set (p := Animals.by_id_user id (User.id (ctx_user auth))).
  set (f := Animals.set_row env updates).
  (* the name check passes when its SELECT runs: the animal it finds is
     the one addressed *)
  assert (Hdup : forall m, Animals.p_name updates = Some m ->
    match Pg.limit 1 (filter (Animals.by_user_name (User.id (ctx_user auth)) m)
                             (animal db)) with
    | d :: _ =>
        if negb (String.eqb (Animal.id d) id)
        then reply 409 (error_body "An animal with this name already exists")
        else ret tt
    | [] => ret tt
    end = ret tt).
  { intros m Em.
    unfold updates, Animals.sanitizeUpdateAnimalPayload in Em. cbn [Animals.p_name] in Em.
    destruct (Animals.u_name data) as [n |] eqn:En; [| discriminate].
    cbn [option_map] in Em. inversion Em; subst m.
    destruct (Pg.limit 1 (filter (Animals.by_user_name (User.id (ctx_user auth))
                                    (Js.trim n)) (animal db))) as [| d rest] eqn:El;
      [reflexivity |].
    assert (Hd : In d (Pg.limit 1 (filter (Animals.by_user_name (User.id (ctx_user auth))
                                             (Js.trim n)) (animal db))))
      by (rewrite El; now left).
    apply limit_In in Hd. apply filter_In in Hd. destruct Hd as [Hd Hpd].
    apply by_user_name_spec in Hpd. destruct Hpd as [Hdu Hdn].
    assert (d = r) by (apply (Hfree n d); auto). subst d.
    rewrite Hr, String.eqb_refl. reflexivity. }
  (* what the name check does, by what the database says of the name *)
  assert (Hname : forall m, Animals.p_name updates = Some m ->
    Animals.set_values env updates = Pg.text m :: tl (Animals.set_values env updates)).
  { intros m Em. unfold Animals.set_values. rewrite Em. reflexivity. }
  assert (Hpr : p r = true).
  { unfold p. apply animal_by_id_user_spec. split; [congruence | exact Hu]. }
  destruct (filter_first p _ _ Hin Hpr) as (x & rest & E & Hx & Hpx).
  assert (Hclash :
    existsb (fun r1 => existsb (fun q => negb (Pg.eq (Animal.id q) (Animal.id r1))
                                         && Pg.same_user_name (f r1) q) (animal db))
            (filter p (animal db)) = false).
  { destruct (existsb _ _) eqn:Ex; [| reflexivity]. exfalso.
    apply existsb_exists in Ex. destruct Ex as [y [Hy Hq]].
    apply filter_In in Hy. destruct Hy as [Hy Hpy].
    apply animal_by_id_user_spec in Hpy. destruct Hpy as [Hyid Hyu].
    apply existsb_exists in Hq. destruct Hq as [q [Hq Hc]].
    apply andb_true_iff in Hc. destruct Hc as [Hne Hsame].
    apply negb_true_iff in Hne. unfold Pg.same_user_name in Hsame.
    apply andb_true_iff in Hsame. destruct Hsame as [Hsu Hsn].
    apply eq_spec in Hsu. apply eq_spec in Hsn.
    unfold f, Animals.set_row in Hsu, Hsn. cbn [Animal.userId Animal.name] in Hsu, Hsn.
    assert (Heq : Animal.id q = Animal.id y).
    { unfold updates, Animals.sanitizeUpdateAnimalPayload in Hsn.
      cbn [Animals.p_name] in Hsn.
      destruct (Animals.u_name data) as [n |] eqn:En; cbn [option_map Animals.or_keep] in Hsn.
      - assert (q = r) by (apply (Hfree n q); auto; congruence). subst q. congruence.
      - assert (y = q) by (apply Huniq; auto). now subst q. }
    apply eq_spec in Heq. congruence. }
  assert (Hupdate : forall e,
    Pg.first_refused rt (Animals.set_values env updates) = Some e ->
    run (updated <- exec (Pg.update_animal rt (Animals.set_values env updates) p f) ;;
         match updated with
         | [] => reply 404 (error_body "Animal not found")
         | u :: _ => reply 200 (Animals.toAnimalResponse rt u)
         end) db = (server_error e, db)).
  { intros e He. apply run_exec_inl. unfold Pg.update_animal. now apply bound_inl. }
  destruct (Pg.first_refused rt (Animals.set_values env updates)) as [e |] eqn:Er.
  - (* a value is refused *)
    destruct (Animals.p_name updates) as [m |] eqn:Em.
    + destruct (Js.truthy m).
      * destruct (Pg.refused rt (Pg.text m)) as [e0 |] eqn:E0.
        -- assert (e0 = e).
           { rewrite (Hname m eq_refl) in Er. cbn [Pg.first_refused] in Er.
             rewrite E0 in Er. congruence. }
           subst e0.
           match goal with
           | |- run (bind ?chk ?k) db = _ =>
               assert (Hchk : chk db = (inl (server_error e), db))
           end.
           { unfold bind at 1, exec. unfold Pg.select_where.
             rewrite (bound_inl rt _ _ db e); [reflexivity |].
             cbn [Pg.first_refused]. now rewrite E0. }
           now rewrite (run_bind_inl _ _ _ _ _ Hchk).
        -- match goal with
           | |- run (bind ?chk ?k) db = _ => assert (Hchk : chk db = (inr tt, db))
           end.
           { unfold bind at 1, exec.
             rewrite select_where_accepted
               by (cbn [Pg.first_refused]; now rewrite E0).
             rewrite (Hdup m eq_refl). reflexivity. }
           rewrite (run_bind_inr _ _ _ _ _ Hchk). now apply Hupdate.
      * rewrite (run_bind_inr _ _ _ _ _ (eq_refl : ret tt db = (inr tt, db))).
        now apply Hupdate.
    + rewrite (run_bind_inr _ _ _ _ _ (eq_refl : ret tt db = (inr tt, db))).
      now apply Hupdate.
  - (* every value is accepted *)
    match goal with
    | |- context [run (bind ?chk ?k) db] => assert (Hchk : chk db = (inr tt, db))
    end.
    { destruct (Animals.p_name updates) as [m |] eqn:Em; [| reflexivity].
      destruct (Js.truthy m); [| reflexivity].
      pose proof Er as Er'. rewrite (Hname m eq_refl) in Er'.
      apply first_refused_cons_none in Er'. destruct Er' as [Hm _].
      unfold bind at 1, exec. rewrite (select_where_accepted _ _ _ _ Hm).
      rewrite (Hdup m eq_refl). reflexivity. }
    rewrite (run_bind_inr _ _ _ _ _ Hchk).
    unfold run, bind, exec, Pg.update_animal. rewrite (bound_accepted _ _ _ _ Er).
    fold p. fold f.
    rewrite Hclash, E. simpl.
    exists x. eexists. split; [exact Hx |]. split; [exact Hpx |].
    split; [reflexivity |]. split; [reflexivity |].
    now apply in_map_if.
Qed.

Lemma feedingInputSchema_consumed rt v data :
  Zod.safeParse (Feedings.feedingInputSchema rt) v = Zod.success data ->
  existsb (String.eqb match Feedings.consumed data with Some c => c | None => "fully" end)
          ["fully"; "partially"; "refused"] = true.
Proof.
  intros H. apply safeParse_success in H.
  unfold Feedings.feedingInputSchema, Zod.object in H.
  destruct v as [[| | | | | o] |]; try discriminate.
  split_object H.
  match goal with
  | H : Zod.prop "consumed" _ _ = _ |- _ =>
      apply prop_valid in H; apply optional_valid in H;
      destruct H as [[_ ->] | (j & a & _ & He & ->)]; [reflexivity |]
  end.
  unfold Zod.enum in He.
  destruct (get "consumed" o) as [[| | | s | |] |]; try discriminate.
  destruct (existsb (String.eqb s) ["fully"; "partially"; "refused"]) eqn:E;
    [| discriminate].
  inversion He; subst. exact E.
Qed.








(* ================================================================= *)
(** * Further properties of the code *)

(** ** Strings *)

Lemma split_free sep s : free_of sep s = true -> Js.split sep s = [s].
Proof.
  induction s as [| c s IH]; simpl; [reflexivity |].
  intros H. apply andb_true_iff in H. destruct H as [Hc Hs].
  apply negb_true_iff in Hc. rewrite Hc, (IH Hs). reflexivity.
Qed.

Lemma split_at sep a b :
  free_of sep a = true ->
  Js.split sep (a ++ String sep b)%string = a :: Js.split sep b.
Proof.
  induction a as [| c a IH]; simpl.
  - intros _. now rewrite Ascii.eqb_refl.
  - intros H. apply andb_true_iff in H. destruct H as [Hc Ha].
    apply negb_true_iff in Hc. rewrite Hc, (IH Ha). reflexivity.
Qed.

Lemma lower_char_space c : Js.is_space (Js.lower_char c) = Js.is_space c.
Proof.
  destruct c as [[] [] [] [] [] [] [] []]; reflexivity.
Qed.

Lemma lower_char_blank c : Js.lower_char c = " "%char -> c = " "%char.
Proof.
  destruct c as [[] [] [] [] [] [] [] []]; simpl; intros H;
    try reflexivity; discriminate.
Qed.

Lemma no_space_free s : no_space s = true -> free_of " " s = true.
Proof.
  unfold no_space, free_of. induction s as [| c s IH]; simpl; [reflexivity |].
  intros H. apply andb_true_iff in H. destruct H as [Hc Hs].
  rewrite (IH Hs), andb_true_r.
  destruct (Ascii.eqb c " ") eqn:E; [| reflexivity].
  apply Ascii.eqb_eq in E. subst c. discriminate.
Qed.

Lemma toLowerCase_free s t :
  Js.toLowerCase s = t -> free_of " " t = true -> free_of " " s = true.
Proof.
  revert t. unfold free_of.
  induction s as [| c s IH]; simpl; intros t Ht Hfree; [reflexivity |].
  subst t. simpl in Hfree. apply andb_true_iff in Hfree. destruct Hfree as [Hc Hs].
  rewrite (IH _ eq_refl Hs), andb_true_r.
  destruct (Ascii.eqb c " ") eqn:E; [| reflexivity].
  apply Ascii.eqb_eq in E. subst c. discriminate.
Qed.

Lemma trimEnd_no_space s : no_space s = true -> Js.trimEnd s = s.
Proof.
  unfold no_space. induction s as [| c s IH]; simpl; [reflexivity |].
  intros H. apply andb_true_iff in H. destruct H as [Hc Hs].
  rewrite (IH Hs). apply negb_true_iff in Hc. rewrite Hc.
  destruct s; reflexivity.
Qed.

Lemma trim_no_space s : no_space s = true -> Js.trim s = s.
Proof.
  intros H. unfold Js.trim.
  assert (Hs : Js.trimStart s = s).
  { destruct s as [| c s]; [reflexivity |].
    unfold no_space in H. simpl in H. apply andb_true_iff in H.
    destruct H as [Hc _]. apply negb_true_iff in Hc. simpl. now rewrite Hc. }
  rewrite Hs. now apply trimEnd_no_space.
Qed.

Lemma truthy_app a b : a <> "" -> Js.truthy (a ++ b)%string = true.
Proof. destruct a; [congruence | reflexivity]. Qed.

Lemma truthy_nonempty s : s <> "" -> Js.truthy s = true.
Proof. destruct s; [congruence | reflexivity]. Qed.

(* ================================================================= *)
(** ** auth/session.ts: the bearer token of a request *)

Lemma extractToken_bearer scheme t rest :
  Js.toLowerCase scheme = "bearer" -> t <> "" -> no_space t = true ->
  extractToken (Some (scheme ++ " " ++ t)%string) = Some t
  /\ extractToken (Some (scheme ++ " " ++ t ++ " " ++ rest)%string) = Some t.
Proof.
  intros Hs Ht Hns.
  assert (Hfree : free_of " " scheme = true)
    by (apply (toLowerCase_free scheme "bearer" Hs); reflexivity).
  assert (Hsch : scheme <> "") by (intros ->; discriminate).
  assert (Htf : free_of " " t = true) by now apply no_space_free.
  split; unfold extractToken.
  - rewrite (truthy_app scheme _ Hsch). simpl negb. cbv iota.
    change (scheme ++ " " ++ t)%string with (scheme ++ String " " t)%string.
    rewrite (split_at " " scheme t Hfree), (split_free " " t Htf).
    rewrite Hs, (truthy_nonempty t Ht), (trim_no_space t Hns). reflexivity.
  - rewrite (truthy_app scheme _ Hsch). simpl negb. cbv iota.
    change (scheme ++ " " ++ t ++ " " ++ rest)%string
      with (scheme ++ String " " (t ++ String " " rest))%string.
    rewrite (split_at " " scheme _ Hfree), (split_at " " t rest Htf).
    rewrite Hs, (truthy_nonempty t Ht), (trim_no_space t Hns). reflexivity.
Qed.

(** X1: [extractToken] reads back the token of a bearer header.  For a
    scheme that is "bearer" in whatever letter case and a token that is
    not empty and holds no white space, the header "<scheme> <token>"
    yields exactly the token, also when more text follows after a further
    blank. *)
Theorem extractToken_reads_bearer_header :
  forall scheme t,
    Js.toLowerCase scheme = "bearer" ->
    t <> "" ->
    no_space t = true ->
    extractToken (Some (scheme ++ " " ++ t)%string) = Some t
    /\ forall rest, extractToken (Some (scheme ++ " " ++ t ++ " " ++ rest)%string) = Some t.
Proof.
  intros scheme t Hs Ht Hns. split.
  - exact (proj1 (extractToken_bearer scheme t "" Hs Ht Hns)).
  - intros rest. exact (proj2 (extractToken_bearer scheme t rest Hs Ht Hns)).
Qed.

Lemma extractToken_reads_bearer_header_witness :
  extractToken (Some ("BEARER" ++ " " ++ "tok-alice")%string) = Some "tok-alice".
Proof.
  apply (extractToken_reads_bearer_header "BEARER" "tok-alice");
    [reflexivity | discriminate | reflexivity].
Defined.

(** X2: what [extractToken] refuses.  No header, an empty header, a
    header without a blank (a bare token or a bare scheme) and a header
    whose scheme is not "bearer" yield no token; and a token that is
    returned never starts or ends with white space. *)
Theorem extractToken_refuses_other_headers :
  extractToken None = None
  /\ extractToken (Some "") = None
  /\ (forall h, free_of " " h = true -> extractToken (Some h) = None)
  /\ (forall scheme rest,
        free_of " " scheme = true ->
        Js.toLowerCase scheme <> "bearer" ->
        extractToken (Some (scheme ++ " " ++ rest)%string) = None)
  /\ (forall h t, extractToken h = Some t -> Js.trim t = t).
Proof.
  split; [reflexivity |]. split; [reflexivity |].
  split; [| split].
  - intros h Hh. unfold extractToken.
    destruct (Js.truthy h); [| reflexivity]. simpl.
    now rewrite (split_free " " h Hh).
  - intros scheme rest Hfree Hs. unfold extractToken.
    destruct (Js.truthy (scheme ++ " " ++ rest)%string); [| reflexivity]. simpl negb. cbv iota.
    change (scheme ++ " " ++ rest)%string with (scheme ++ String " " rest)%string.
    rewrite (split_at " " scheme rest Hfree).
    destruct (Js.split " " rest) as [| value ws]; [reflexivity |].
    apply String.eqb_neq in Hs. rewrite Hs. reflexivity.
  - intros h t H. unfold extractToken in H.
    destruct h as [h |]; [| discriminate].
    destruct (negb (Js.truthy h)); [discriminate |].
    destruct (Js.split " " h) as [| scheme [| value ws]]; try discriminate.
    destruct (negb (Js.toLowerCase scheme =? "bearer")%string || negb (Js.truthy value));
      [discriminate |].
    inversion H. apply trim_idem.
Qed.

Lemma extractToken_refuses_other_headers_witness :
  extractToken (Some "Bearer") = None
  /\ extractToken (Some "Basic YWxpY2U6c2VjcmV0") = None.
Proof.
  destruct extractToken_refuses_other_headers as (_ & _ & Hone & Hscheme & _).
  split.
  - apply Hone. reflexivity.
  - apply (Hscheme "Basic" "YWxpY2U6c2VjcmV0"); [reflexivity | discriminate].
Defined.

(* ================================================================= *)
(** ** auth/index.ts: user names *)

Lemma lower_char_idem c : Js.lower_char (Js.lower_char c) = Js.lower_char c.
Proof.
  destruct c as [[] [] [] [] [] [] [] []]; reflexivity.
Qed.

Lemma toLowerCase_idem s : Js.toLowerCase (Js.toLowerCase s) = Js.toLowerCase s.
Proof.
  induction s as [| c s IH]; simpl; [reflexivity |].
  now rewrite lower_char_idem, IH.
Qed.

Lemma trimStart_toLowerCase s :
  Js.trimStart (Js.toLowerCase s) = Js.toLowerCase (Js.trimStart s).
Proof.
  induction s as [| c s IH]; simpl; [reflexivity |].
  rewrite lower_char_space. destruct (Js.is_space c); [exact IH | reflexivity].
Qed.

Lemma trimEnd_toLowerCase s :
  Js.trimEnd (Js.toLowerCase s) = Js.toLowerCase (Js.trimEnd s).
Proof.
  induction s as [| c s IH]; simpl; [reflexivity |].
  rewrite IH, lower_char_space.
  destruct (Js.trimEnd s); simpl; [destruct (Js.is_space c) |]; reflexivity.
Qed.

Lemma trim_toLowerCase s : Js.trim (Js.toLowerCase s) = Js.toLowerCase (Js.trim s).
Proof.
  unfold Js.trim. now rewrite trimStart_toLowerCase, trimEnd_toLowerCase.
Qed.

Lemma toLowerCase_length s :
  String.length (Js.toLowerCase s) = String.length s.
Proof. induction s as [| c s IH]; simpl; congruence. Qed.

Lemma all_chars_impl (p q : ascii -> bool) s :
  (forall c, p c = true -> q c = true) ->
  Js.all_chars p s = true -> Js.all_chars q s = true.
Proof.
  intros Hpq. induction s as [| c s IH]; simpl; [reflexivity |].
  intros H. apply andb_true_iff in H. destruct H as [Hc Hs].
  now rewrite (Hpq c Hc), (IH Hs).
Qed.

Lemma all_chars_toLowerCase (p : ascii -> bool) s :
  (forall c, p c = true -> p (Js.lower_char c) = true) ->
  Js.all_chars p s = true -> Js.all_chars p (Js.toLowerCase s) = true.
Proof.
  intros Hp. induction s as [| c s IH]; simpl; [reflexivity |].
  intros H. apply andb_true_iff in H. destruct H as [Hc Hs].
  now rewrite (Hp c Hc), (IH Hs).
Qed.

Lemma username_pattern_no_space u :
  Auth.username_pattern u = true -> no_space u = true.
Proof.
  unfold Auth.username_pattern, no_space. intros H.
  apply andb_true_iff in H. destruct H as [_ H].
  eapply all_chars_impl; [| exact H].
  intros c. destruct c as [[] [] [] [] [] [] [] []]; simpl; intros Hc;
    try reflexivity; discriminate.
Qed.

Lemma normalizeUsername_idem s :
  normalizeUsername (normalizeUsername s) = normalizeUsername s.
Proof.
  unfold normalizeUsername.
  now rewrite trim_toLowerCase, trim_idem, toLowerCase_idem.
Qed.

Lemma normalizeUsername_valid u :
  Auth.username_pattern u = true ->
  normalizeUsername u = Js.toLowerCase u
  /\ Auth.username_pattern (normalizeUsername u) = true
  /\ Js.length (normalizeUsername u) = Js.length u.
Proof.
  intros Hu. unfold normalizeUsername.
  rewrite (trim_no_space u (username_pattern_no_space u Hu)).
  split; [reflexivity |]. split.
  - unfold Auth.username_pattern in *.
    apply andb_true_iff in Hu. destruct Hu as [Hne Hall].
    apply andb_true_iff. split.
    + destruct u; [discriminate | reflexivity].
    + apply all_chars_toLowerCase; [| exact Hall].
      intros c. destruct c as [[] [] [] [] [] [] [] []]; simpl; intros Hc;
        try reflexivity; discriminate.
  - unfold Js.length. now rewrite toLowerCase_length.
Qed.

(** X3: [normalizeUsername] yields a canonical name.  Normalizing twice
    is normalizing once; and a name that passes the credentials pattern
    is only lower-cased: the result has the same length and still passes
    the pattern. *)
Theorem normalizeUsername_is_canonical :
  (forall s, normalizeUsername (normalizeUsername s) = normalizeUsername s)
  /\ (forall u, Auth.username_pattern u = true ->
                normalizeUsername u = Js.toLowerCase u
                /\ Auth.username_pattern (normalizeUsername u) = true
                /\ Js.length (normalizeUsername u) = Js.length u).
Proof.
  split; [exact normalizeUsername_idem | exact normalizeUsername_valid].
Qed.

Lemma normalizeUsername_is_canonical_witness :
  Auth.username_pattern "Alice_01" = true
  /\ normalizeUsername "Alice_01" = "alice_01".
Proof.
  split; [reflexivity |].
  destruct normalizeUsername_is_canonical as (_ & Hvalid).
  destruct (Hvalid "Alice_01" eq_refl) as (Hlow & _).
  rewrite Hlow. reflexivity.
Defined.

(* ================================================================= *)
(** ** routes/auth.ts: registration, login, logout *)

Lemma has_false_filter {A} (key : A -> string) k l :
  Pg.has key k l = false -> filter (fun r => Pg.eq (key r) k) l = [].
Proof.
  intros H. apply filter_none. intros x Hx.
  destruct (Pg.eq (key x) k) eqn:E; [| reflexivity].
  assert (Pg.has key k l = true) by (apply has_In; exists x; split; auto; now apply eq_spec).
  congruence.
Qed.

Lemma filter_unique {A} (p : A -> bool) l x :
  In x l -> p x = true -> (forall y, In y l -> p y = true -> y = x) ->
  hd_error (filter p l) = Some x.
Proof.
  intros Hin Hp Huniq.
  destruct (filter_first p l x Hin Hp) as (y & rest & E & Hy & Hpy).
  rewrite E. simpl. f_equal. now apply Huniq.
Qed.

Lemma findUserByUsername_none n db :
  Pg.has User.username n (user db) = false ->
  Auth.findUserByUsername n db = (inr None, db).
Proof.
  intros H. unfold Auth.findUserByUsername, select.
  now rewrite (has_false_filter User.username n (user db) H).
Qed.

Lemma findUserByUsername_some n db u :
  user_username_unique db -> In u (user db) -> User.username u = n ->
  Auth.findUserByUsername n db = (inr (Some u), db).
Proof.
  intros Huniq Hin Hn. unfold Auth.findUserByUsername, select.
  rewrite (filter_unique (fun u => Pg.eq (User.username u) n) (user db) u); auto.
  - now apply eq_spec.
  - intros y Hy Hpy. apply eq_spec in Hpy. apply Huniq; auto. congruence.
Qed.

(** What valid credentials look like. *)
Lemma credentialsSchema_valid v data :
  Zod.safeParse Auth.credentialsSchema v = Zod.success data ->
  Auth.username_pattern (Auth.username data) = true
  /\ 3 <= Js.length (Auth.username data) <= 32
  /\ 8 <= Js.length (Auth.password data) <= 72.
Proof.
  intros H. apply safeParse_success in H.
  unfold Auth.credentialsSchema, Zod.object in H.
  destruct v as [[| | | | | o] |]; try discriminate.
  split_object H.
  repeat match goal with
  | H : Zod.prop _ _ _ = _ |- _ =>
      apply prop_valid in H; unfold Zod.regex, Zod.max, Zod.min in H
  end.
  repeat match goal with
  | H : Zod.check _ _ _ _ _ = _ |- _ =>
      apply check_valid in H; let H1 := fresh "Hc" in destruct H as [H H1]
  end.
  repeat match goal with
  | H : (_ <=? _) = true |- _ => apply Z.leb_le in H
  end.
  auto.
Qed.

Lemma createSession_run rt env userId db :
  Pg.has Session.id (token env) (session db) = false ->
  Pg.has User.id userId (user db) = true ->
  Auth.createSession rt env userId db
  = (inr (token env, now env + SESSION_TTL_HOURS rt * 3600000),
     with_session (issued_session rt env userId) db).
Proof.
  intros Hfresh Hu.
  unfold Auth.createSession, generateSessionToken, bind, exec, Pg.insert_session, ret.
  cbn [Session.id Session.userId]. rewrite Hfresh, Hu. simpl.
  unfold with_session, issued_session.
  replace (now env + SESSION_TTL_HOURS rt * 60 * 60 * 1000)
    with (now env + SESSION_TTL_HOURS rt * 3600000) by lia.
  reflexivity.
Qed.

Lemma post_register_run :
  forall rt env request db data,
    Zod.safeParse Auth.credentialsSchema (body request) = Zod.success data ->
    Pg.has User.username (normalizeUsername (Auth.username data)) (user db) = false ->
    Pg.has User.id (uuid env) (user db) = false ->
    Pg.has Session.id (token env) (session db) = false ->
    let u := registered_user rt env data in
    let s := issued_session rt env (uuid env) in
    run (Auth.post_register rt env request) db
    = ({| code := 201; payload := signed_in rt u s |}, with_session s (with_user u db))
    /\ User.username u = Js.toLowerCase (Auth.username data)
    /\ Auth.username_pattern (User.username u) = true.
Proof.
  intros rt env request db data Hp Hfree Hid Htok u s.
  destruct (credentialsSchema_valid _ _ Hp) as (Hpat & _ & _).
  destruct (normalizeUsername_valid _ Hpat) as (Hlow & Hpat' & _).
  split; [| split; [exact Hlow | exact Hpat']].
  unfold Auth.post_register. rewrite Hp. cbv zeta.
  rewrite (run_bind_inr _ _ _ _ _ (findUserByUsername_none _ _ Hfree)).
  assert (Hins : exec (Pg.insert_user u) db = (inr u, with_user u db)).
  { unfold exec, Pg.insert_user. cbn [User.id User.username u registered_user].
    fold (normalizeUsername (Auth.username data)). now rewrite Hid, Hfree. }
  unfold hashPassword. fold (normalizeUsername (Auth.username data)).
  change {| User.id := uuid env;
            User.username := normalizeUsername (Auth.username data);
            User.passwordHash := bcrypt_hash rt (Auth.password data) (salt env);
            User.role := "user"; User.isActive := true;
            User.createdAt := db_now env; User.updatedAt := db_now env |} with u.
  rewrite (run_bind_inr _ _ _ _ _ Hins).
  assert (Hses : Auth.createSession rt env (User.id u) (with_user u db)
                 = (inr (token env, now env + SESSION_TTL_HOURS rt * 3600000),
                    with_session s (with_user u db))).
  { apply createSession_run; [exact Htok |].
    simpl. rewrite has_app. cbn [User.id u registered_user].
    now rewrite eq_refl_true, orb_true_r. }
  rewrite (run_bind_inr _ _ _ _ _ Hses). reflexivity.
Qed.

(** X4: registration.  Valid credentials whose normalized user name no
    user has are answered 201: the user is stored under the lower-cased
    name, with role "user" and active, together with a session that
    expires SESSION_TTL_HOURS hours after the request; the reply carries
    the public user and that session's token and expiry.  The stored name
    still passes the credentials pattern. *)
Theorem registration_creates_user_and_session :
  forall rt env request db data,
    Zod.safeParse Auth.credentialsSchema (body request) = Zod.success data ->
    Pg.has User.username (normalizeUsername (Auth.username data)) (user db) = false ->
    Pg.has User.id (uuid env) (user db) = false ->
    Pg.has Session.id (token env) (session db) = false ->
    let u := registered_user rt env data in
    let s := issued_session rt env (uuid env) in
    run (Auth.post_register rt env request) db
    = ({| code := 201; payload := signed_in rt u s |}, with_session s (with_user u db))
    /\ User.username u = Js.toLowerCase (Auth.username data)
    /\ Auth.username_pattern (User.username u) = true.
Proof.
  intros rt env request db data Hp Hfree Hid Htok.
  exact (post_register_run rt env request db data Hp Hfree Hid Htok).
Qed.

Lemma registration_creates_user_and_session_witness :
  run (Auth.post_register Sample.runtime Sample.env
         (Scenario.register "Carol" "open sesame")) Sample.db
  = ({| code := 201;
        payload := signed_in Sample.runtime
                     (registered_user Sample.runtime Sample.env
                        {| Auth.username := "Carol"; Auth.password := "open sesame" |})
                     (issued_session Sample.runtime Sample.env Sample.fresh_id) |},
     with_session (issued_session Sample.runtime Sample.env Sample.fresh_id)
       (with_user (registered_user Sample.runtime Sample.env
                     {| Auth.username := "Carol"; Auth.password := "open sesame" |})
          Sample.db)).
Proof.
  apply (registration_creates_user_and_session Sample.runtime Sample.env
           (Scenario.register "Carol" "open sesame") Sample.db
           {| Auth.username := "Carol"; Auth.password := "open sesame" |});
    reflexivity.
Defined.

(** X5: user names are unique whatever the letter case.  Valid
    credentials whose normalized user name some user already has are
    answered 409 and nothing is stored. *)
Theorem registration_rejects_taken_username :
  forall rt env request db data u,
    Zod.safeParse Auth.credentialsSchema (body request) = Zod.success data ->
    In u (user db) ->
    User.username u = Js.toLowerCase (Auth.username data) ->
    run (Auth.post_register rt env request) db
    = ({| code := 409; payload := error_body "Username is already taken" |}, db).
Proof.
  intros rt env request db data u Hp Hin Hname.
  destruct (credentialsSchema_valid _ _ Hp) as (Hpat & _ & _).
  destruct (normalizeUsername_valid _ Hpat) as (Hlow & _ & _).
  unfold Auth.post_register. rewrite Hp. cbv zeta.
  unfold Auth.findUserByUsername. rewrite run_select.
  destruct (filter_first (fun x => Pg.eq (User.username x)
                                         (normalizeUsername (Auth.username data)))
              (user db) u Hin) as (x & rest & E & _ & _).
  { apply eq_spec. congruence. }
  rewrite E. reflexivity.
Qed.

Lemma registration_rejects_taken_username_witness :
  run (Auth.post_register Sample.runtime Sample.env
         (Scenario.register "ALICE" "open sesame")) Sample.db
  = ({| code := 409; payload := error_body "Username is already taken" |}, Sample.db).
Proof.
  apply (registration_rejects_taken_username Sample.runtime Sample.env
           (Scenario.register "ALICE" "open sesame") Sample.db
           {| Auth.username := "ALICE"; Auth.password := "open sesame" |} Sample.alice);
    [reflexivity | now left | reflexivity].
Defined.

(** X6: how a login fails.  With valid credentials: an unknown user name
    and a wrong password are answered by the same 401 reply; an inactive
    account is answered 403 before its password is looked at, so whatever
    the password; in all three cases nothing is stored, in particular no
    session. *)
Theorem login_failures :
  forall rt env request db data,
    Zod.safeParse Auth.credentialsSchema (body request) = Zod.success data ->
    (Pg.has User.username (Js.toLowerCase (Auth.username data)) (user db) = false ->
     run (Auth.post_login rt env request) db = (invalid_login, db))
    /\ (forall u,
          user_username_unique db -> In u (user db) ->
          User.username u = Js.toLowerCase (Auth.username data) ->
          (User.isActive u = false ->
           run (Auth.post_login rt env request) db
           = ({| code := 403;
                 payload := error_body "Account is inactive. Contact an administrator." |},
              db))
          /\ (User.isActive u = true ->
              bcrypt_compare rt (Auth.password data) (User.passwordHash u) = false ->
              run (Auth.post_login rt env request) db = (invalid_login, db))).
Proof.
  intros rt env request db data Hp.
  destruct (credentialsSchema_valid _ _ Hp) as (Hpat & _ & _).
  destruct (normalizeUsername_valid _ Hpat) as (Hlow & _ & _).
  unfold Auth.post_login. rewrite Hp. cbv zeta. rewrite Hlow.
  split.
  - intros Hnone.
    now rewrite (run_bind_inr _ _ _ _ _ (findUserByUsername_none _ _ Hnone)).
  - intros u Huniq Hin Hname.
    rewrite (run_bind_inr _ _ _ _ _ (findUserByUsername_some _ _ u Huniq Hin Hname)).
    split.
    + intros Hact. rewrite Hact. reflexivity.
    + intros Hact Hpw. rewrite Hact. unfold verifyPassword. rewrite Hpw. reflexivity.
Qed.

Lemma sample_usernames_unique : user_username_unique Sample.db.
Proof.
  intros a b Ha Hb. simpl in Ha, Hb.
  destruct Ha as [<- | [<- | []]], Hb as [<- | [<- | []]];
    (reflexivity || (simpl; discriminate)).
Qed.

Lemma login_failures_witness :
  run (Auth.post_login Sample.runtime Sample.env (Scenario.login "nobody" "open sesame"))
      Sample.db = (invalid_login, Sample.db)
  /\ run (Auth.post_login Sample.runtime Sample.env (Scenario.login "Alice" "wrong horse"))
         Sample.db = (invalid_login, Sample.db).
Proof.
  split.
  - apply (login_failures Sample.runtime Sample.env
             (Scenario.login "nobody" "open sesame") Sample.db
             {| Auth.username := "nobody"; Auth.password := "open sesame" |} eq_refl).
    reflexivity.
  - destruct (login_failures Sample.runtime Sample.env
                (Scenario.login "Alice" "wrong horse") Sample.db
                {| Auth.username := "Alice"; Auth.password := "wrong horse" |} eq_refl)
      as [_ H].
    destruct (H Sample.alice sample_usernames_unique (or_introl eq_refl) eq_refl)
      as [_ Hwrong].
    apply Hwrong; reflexivity.
Defined.

Lemma post_login_run rt env request db data u :
  Zod.safeParse Auth.credentialsSchema (body request) = Zod.success data ->
  Auth.findUserByUsername (Js.toLowerCase (Auth.username data)) db = (inr (Some u), db) ->
  Pg.has User.id (User.id u) (user db) = true ->
  User.isActive u = true ->
  bcrypt_compare rt (Auth.password data) (User.passwordHash u) = true ->
  Pg.has Session.id (token env) (session db) = false ->
  run (Auth.post_login rt env request) db
  = ({| code := 200; payload := signed_in rt u (issued_session rt env (User.id u)) |},
     with_session (issued_session rt env (User.id u)) db).
Proof.
  intros Hp Hfind Hu Hact Hpw Htok.
  destruct (credentialsSchema_valid _ _ Hp) as (Hpat & _ & _).
  destruct (normalizeUsername_valid _ Hpat) as (Hlow & _ & _).
  unfold Auth.post_login. rewrite Hp. cbv zeta. rewrite Hlow.
  rewrite (run_bind_inr _ _ _ _ _ Hfind).
  rewrite Hact. unfold verifyPassword. rewrite Hpw. cbn [negb].
  rewrite (run_bind_inr _ _ _ _ _ (createSession_run rt env (User.id u) db Htok Hu)).
  reflexivity.
Qed.

(** X7: a login.  Valid credentials naming, in whatever letter case, an
    active user whose stored hash matches the password are answered 200
    with the public user and a new session, which is stored and expires
    SESSION_TTL_HOURS hours after the request; nothing else changes. *)
Theorem login_issues_session :
  forall rt env request db data u,
    Zod.safeParse Auth.credentialsSchema (body request) = Zod.success data ->
    user_username_unique db ->
    In u (user db) ->
    User.username u = Js.toLowerCase (Auth.username data) ->
    User.isActive u = true ->
    bcrypt_compare rt (Auth.password data) (User.passwordHash u) = true ->
    Pg.has Session.id (token env) (session db) = false ->
    let s := issued_session rt env (User.id u) in
    run (Auth.post_login rt env request) db
    = ({| code := 200; payload := signed_in rt u s |}, with_session s db).
Proof.
  intros rt env request db data u Hp Huniq Hin Hname Hact Hpw Htok s.
  apply (post_login_run rt env request db data u); auto.
  - now apply findUserByUsername_some.
  - apply has_In. eauto.
Qed.

Lemma login_issues_session_witness :
  run (Auth.post_login Sample.runtime Sample.env (Scenario.login "Alice" "correct horse"))
      Sample.db
  = ({| code := 200;
        payload := signed_in Sample.runtime Sample.alice
                     (issued_session Sample.runtime Sample.env Sample.alice_id) |},
     with_session (issued_session Sample.runtime Sample.env Sample.alice_id) Sample.db).
Proof.
  apply (login_issues_session Sample.runtime Sample.env
           (Scenario.login "Alice" "correct horse") Sample.db
           {| Auth.username := "Alice"; Auth.password := "correct horse" |}
           Sample.alice eq_refl sample_usernames_unique);
    [now left | | | |]; reflexivity.
Defined.

(** X8: registration and login round trip.  After a successful
    registration, a login with the same password and the same user name
    in whatever letter case is answered 200 for the user just created,
    provided bcrypt accepts the password against the hash it produced. *)
Theorem registered_user_can_log_in :
  forall rt env request db data env2 request2 data2,
    Zod.safeParse Auth.credentialsSchema (body request) = Zod.success data ->
    Pg.has User.username (normalizeUsername (Auth.username data)) (user db) = false ->
    Pg.has User.id (uuid env) (user db) = false ->
    Pg.has Session.id (token env) (session db) = false ->
    Zod.safeParse Auth.credentialsSchema (body request2) = Zod.success data2 ->
    Js.toLowerCase (Auth.username data2) = Js.toLowerCase (Auth.username data) ->
    Auth.password data2 = Auth.password data ->
    bcrypt_compare rt (Auth.password data)
      (bcrypt_hash rt (Auth.password data) (salt env)) = true ->
    Pg.has Session.id (token env2) (session db) = false ->
    token env2 <> token env ->
    let u := registered_user rt env data in
    let db1 := snd (run (Auth.post_register rt env request) db) in
    fst (run (Auth.post_register rt env request) db)
    = {| code := 201; payload := signed_in rt u (issued_session rt env (uuid env)) |}
    /\ run (Auth.post_login rt env2 request2) db1
       = ({| code := 200; payload := signed_in rt u (issued_session rt env2 (uuid env)) |},
          with_session (issued_session rt env2 (uuid env)) db1).
Proof.
  intros rt env request db data env2 request2 data2
         Hp Hfree Hid Htok Hp2 Hname Hpw Hbcrypt Htok2 Hdiff u db1.
  pose proof (post_register_run rt env request db data Hp Hfree Hid Htok) as [Hrun _].
  unfold db1. rewrite Hrun. cbn [fst snd]. split; [reflexivity |].
  destruct (credentialsSchema_valid _ _ Hp) as (Hpat & _ & _).
  destruct (normalizeUsername_valid _ Hpat) as (Hlow & _ & _).
  apply (post_login_run rt env2 request2 _ data2 u Hp2).
  - unfold Auth.findUserByUsername, select. cbn [user with_session with_user].
    rewrite filter_app, Hname, <- Hlow.
    rewrite (has_false_filter User.username _ (user db) Hfree).
    cbn [filter app u registered_user User.username].
    fold (normalizeUsername (Auth.username data)). now rewrite eq_refl_true.
  - cbn [user with_session with_user]. rewrite has_app.
    now rewrite eq_refl_true, orb_true_r.
  - reflexivity.
  - cbn [u registered_user User.passwordHash]. now rewrite Hpw.
  - cbn [session with_session with_user]. rewrite has_app, Htok2.
    cbn [issued_session Session.id orb].
    destruct (Pg.eq (token env) (token env2)) eqn:E; [| reflexivity].
    apply eq_spec in E. congruence.
Qed.

Lemma registered_user_can_log_in_witness :
  run (Auth.post_login Sample.runtime
         {| now := 200; db_now := 200; db_now_session := 201; uuid := Sample.other_id;
            token := "tok-next"; salt := "pepper" |}
         (Scenario.login "CAROL" "open sesame"))
      (snd (run (Auth.post_register Sample.runtime Sample.env
                   (Scenario.register "Carol" "open sesame")) Sample.db))
  = ({| code := 200;
        payload := signed_in Sample.runtime
                     (registered_user Sample.runtime Sample.env
                        {| Auth.username := "Carol"; Auth.password := "open sesame" |})
                     {| Session.id := "tok-next"; Session.userId := Sample.fresh_id;
                        Session.expiresAt := 200 + 24 * 3600000;
                        Session.createdAt := 201 |} |},
     with_session {| Session.id := "tok-next"; Session.userId := Sample.fresh_id;
                     Session.expiresAt := 200 + 24 * 3600000;
                     Session.createdAt := 201 |}
       (snd (run (Auth.post_register Sample.runtime Sample.env
                    (Scenario.register "Carol" "open sesame")) Sample.db))).
Proof.
  apply (registered_user_can_log_in Sample.runtime Sample.env
           (Scenario.register "Carol" "open sesame") Sample.db
           {| Auth.username := "Carol"; Auth.password := "open sesame" |}
           {| now := 200; db_now := 200; db_now_session := 201; uuid := Sample.other_id;
              token := "tok-next"; salt := "pepper" |}
           (Scenario.login "CAROL" "open sesame")
           {| Auth.username := "CAROL"; Auth.password := "open sesame" |});
    (reflexivity || discriminate).
Defined.

(* ================================================================= *)
(** ** auth/session.ts: live, inactive and closed sessions *)

(** The theorems of this section speak of tokens that are not empty.
    For a header whose value is white space other than a blank, such as
    "Bearer" followed by a blank and a tab, [extractToken] yields the empty
    string; [authenticateRequest], GET /auth/me and POST /auth/logout test
    the token with [!token] and treat the empty one as missing, without a
    query. *)

Lemma session_join_unique tok db s u :
  session_pkey db -> user_pkey db ->
  In s (session db) -> Session.id s = tok ->
  In u (user db) -> Session.userId s = User.id u ->
  session_join tok db = Some (s, u).
Proof.
  intros Hsp Hup Hs Hid Hu Hown. unfold session_join.
  destruct (filter_first (fun x => Pg.eq (Session.id x) tok) (session db) s Hs)
    as (x & rest & E & Hx & Hpx); [now apply eq_spec |].
  apply eq_spec in Hpx.
  assert (x = s) by (apply Hsp; auto; congruence). subst x.
  rewrite E. cbn [flat_map].
  destruct (filter_first (fun y => Pg.eq (Session.userId s) (User.id y)) (user db) u Hu)
    as (y & rest' & E' & Hy & Hpy); [now apply eq_spec |].
  apply eq_spec in Hpy.
  assert (y = u) by (apply Hup; auto; congruence). subst y.
  rewrite E'. reflexivity.
Qed.

(** X9: a live session is accepted, and is not renewed.  A request whose
    bearer token is not empty and is the id of a stored session that has
    not expired and belongs to an active user passes [requireAuth] as that
    user, and GET /auth/me answers 200 with the public user, the token and
    the expiry as stored; the store is untouched, so using a session does
    not extend it. *)
Theorem live_session_is_accepted :
  forall rt env request db tok s u,
    extractToken (authorization request) = Some tok ->
    tok <> "" ->
    session_pkey db -> user_pkey db ->
    In s (session db) -> Session.id s = tok ->
    In u (user db) -> Session.userId s = User.id u ->
    now env < Session.expiresAt s ->
    User.isActive u = true ->
    requireAuth env request db = (inr {| ctx_session := s; ctx_user := u |}, db)
    /\ run (Auth.get_me rt env request) db
       = ({| code := 200; payload := signed_in rt u s |}, db).
Proof.
  intros rt env request db tok s u Htok Hne Hsp Hup Hs Hid Hu Hown Hlive Hact.
  pose proof (session_join_unique tok db s u Hsp Hup Hs Hid Hu Hown) as Hj.
  assert (Hexp : (Session.expiresAt s <=? now env) = false) by (apply Z.leb_gt; lia).
  assert (Hg : getActiveSessionByToken env tok db
               = (inr (Some {| ctx_session := s; ctx_user := u |}), db)).
  { unfold getActiveSessionByToken, bind, select. rewrite Hj, Hexp, Hact. reflexivity. }
  split.
  - unfold requireAuth, authenticateRequest, bind.
    rewrite Htok, (missing_token _ Hne), Hg. reflexivity.
  - unfold Auth.get_me. rewrite Htok, (missing_token _ Hne).
    rewrite (run_bind_inr _ _ _ _ _ Hg). reflexivity.
Qed.

Lemma sample_session_pkey : session_pkey Sample.db.
Proof.
  intros a b Ha Hb. simpl in Ha, Hb.
  destruct Ha as [<- | [<- | [<- | []]]], Hb as [<- | [<- | [<- | []]]];
    (reflexivity || (simpl; discriminate)).
Qed.

Lemma sample_user_pkey : user_pkey Sample.db.
Proof.
  intros a b Ha Hb. simpl in Ha, Hb.
  destruct Ha as [<- | [<- | []]], Hb as [<- | [<- | []]];
    (reflexivity || (simpl; discriminate)).
Qed.

Lemma live_session_is_accepted_witness :
  run (Auth.get_me Sample.runtime Sample.env
         (Scenario.bearing GET ["auth"; "me"] (Some "Bearer tok-alice"))) Sample.db
  = ({| code := 200;
        payload := signed_in Sample.runtime Sample.alice Sample.alice_session |},
     Sample.db).
Proof.
  apply (live_session_is_accepted Sample.runtime Sample.env
           (Scenario.bearing GET ["auth"; "me"] (Some "Bearer tok-alice")) Sample.db
           "tok-alice" Sample.alice_session Sample.alice eq_refl);
    [discriminate | exact sample_session_pkey | exact sample_user_pkey
     | now left | reflexivity | now left | reflexivity | reflexivity | reflexivity].
Defined.

Lemma filter_keep {A} (p : A -> bool) l : filter p (Pg.keep p l) = [].
Proof.
  apply filter_none. intros x Hx. unfold Pg.keep in Hx.
  apply filter_In in Hx. destruct Hx as [_ H]. now apply negb_true_iff in H.
Qed.

Lemma session_join_closed tok db : session_join tok (without_session tok db) = None.
Proof.
  unfold session_join, without_session. cbn [session user].
  now rewrite filter_keep.
Qed.

Lemma closed_session_rejected rt env request db tok :
  tok <> "" ->
  extractToken (authorization request) = Some tok ->
  requireAuth env request (without_session tok db)
  = (inl unauthorized, without_session tok db)
  /\ run (Auth.get_me rt env request) (without_session tok db)
     = (session_gone, without_session tok db).
Proof.
  intros Hne Htok.
  assert (Hg : getActiveSessionByToken env tok (without_session tok db)
               = (inr None, without_session tok db)).
  { unfold getActiveSessionByToken, bind, select.
    now rewrite session_join_closed. }
  split.
  - unfold requireAuth, authenticateRequest, bind.
    rewrite Htok, (missing_token _ Hne), Hg. reflexivity.
  - unfold Auth.get_me. rewrite Htok, (missing_token _ Hne).
    rewrite (run_bind_inr _ _ _ _ _ Hg). reflexivity.
Qed.

(** X10: the session of a deactivated user is closed.  A request whose
    bearer token is not empty and is the id of a stored session of a user
    who is not active is answered 401 by every protected route and by GET
    /auth/me, whether or not the session has expired, and the session row
    is deleted; nothing else changes. *)
Theorem inactive_user_session_is_closed :
  forall rt env request db r tok s u,
    In r protected ->
    extractToken (authorization request) = Some tok ->
    tok <> "" ->
    session_pkey db -> user_pkey db ->
    In s (session db) -> Session.id s = tok ->
    In u (user db) -> Session.userId s = User.id u ->
    User.isActive u = false ->
    requireAuth env request db = (inl unauthorized, without_session tok db)
    /\ run (route_handler r rt env request) db = (unauthorized, without_session tok db)
    /\ run (Auth.get_me rt env request) db = (session_gone, without_session tok db)
    /\ ~ In s (session (without_session tok db)).
Proof.
  intros rt env request db r tok s u Hr Htok Hne Hsp Hup Hs Hid Hu Hown Hact.
  pose proof (session_join_unique tok db s u Hsp Hup Hs Hid Hu Hown) as Hj.
  assert (Hg : getActiveSessionByToken env tok db = (inr None, without_session tok db)).
  { unfold getActiveSessionByToken, bind, select, exec, Pg.delete_session, ret.
    rewrite Hj, Hact, orb_true_r. reflexivity. }
  assert (Hreq : requireAuth env request db = (inl unauthorized, without_session tok db)).
  { unfold requireAuth, authenticateRequest, bind.
    rewrite Htok, (missing_token _ Hne), Hg. reflexivity. }
  split; [exact Hreq |]. split; [| split].
  - destruct (protected_requireAuth r Hr rt env request) as [k Hk].
    rewrite Hk. now apply run_bind_inl.
  - unfold Auth.get_me. rewrite Htok, (missing_token _ Hne).
    rewrite (run_bind_inr _ _ _ _ _ Hg). reflexivity.
  - cbn [session without_session]. apply not_in_keep. now apply eq_spec.
Qed.

(** X11: logout.  POST /auth/logout always answers success.  Without a
    bearer token it changes nothing; with a token that is not empty it
    deletes the session of that id and nothing else, without checking
    that the session exists or is live; afterwards the token is refused
    by [requireAuth] and by GET /auth/me, while every other session is
    kept. *)
Theorem logout_closes_session :
  forall rt env request db,
    fst (run (Auth.post_logout env request) db) = deleted
    /\ (extractToken (authorization request) = None ->
        snd (run (Auth.post_logout env request) db) = db)
    /\ (forall tok,
          extractToken (authorization request) = Some tok ->
          tok <> "" ->
          snd (run (Auth.post_logout env request) db) = without_session tok db
          /\ (forall env2 request2,
                extractToken (authorization request2) = Some tok ->
                requireAuth env2 request2 (without_session tok db)
                = (inl unauthorized, without_session tok db)
                /\ run (Auth.get_me rt env2 request2) (without_session tok db)
                   = (session_gone, without_session tok db))
          /\ (forall s, In s (session db) -> Session.id s <> tok ->
                        In s (session (without_session tok db)))).
Proof.
  intros rt env request db. unfold Auth.post_logout.
  destruct (extractToken (authorization request)) as [tok |] eqn:Htok.
  - split; [destruct (missing (Some tok)); reflexivity |]. split; [discriminate |].
    intros tok' Heq Hne. inversion Heq; subst tok'. rewrite (missing_token _ Hne).
    split; [reflexivity |]. split.
    + intros env2 request2 H2. now apply closed_session_rejected.
    + intros s Hs Hother. cbn [session without_session]. unfold Pg.keep.
      apply filter_In. split; [exact Hs |].
      apply negb_true_iff. destruct (Pg.eq (Session.id s) tok) eqn:E; [| reflexivity].
      apply eq_spec in E. contradiction.
  - split; [reflexivity |]. split; [reflexivity | discriminate].
Qed.

Lemma logout_closes_session_witness :
  snd (run (Auth.post_logout Sample.env
              (Scenario.bearing POST ["auth"; "logout"] (Some "Bearer tok-alice")))
         Sample.db)
  = without_session "tok-alice" Sample.db
  /\ In Sample.bob_session (session (without_session "tok-alice" Sample.db)).
Proof.
  destruct (logout_closes_session Sample.runtime Sample.env
              (Scenario.bearing POST ["auth"; "logout"] (Some "Bearer tok-alice"))
              Sample.db) as (_ & _ & Hout).
  destruct (Hout "tok-alice" eq_refl) as (Hdb & _ & Hkept); [discriminate |].
  split; [exact Hdb |].
  apply Hkept; [simpl; tauto | discriminate].
Defined.

Lemma inactive_user_session_is_closed_witness :
  requireAuth Sample.env (Scenario.bearing GET ["animals"] (Some "Bearer tok-bob"))
    Scenario.db_bob_inactive
  = (inl unauthorized, without_session "tok-bob" Scenario.db_bob_inactive)
  /\ ~ In Sample.bob_session (session (without_session "tok-bob" Scenario.db_bob_inactive)).
Proof.
  assert (Hs : session_pkey Scenario.db_bob_inactive) by exact sample_session_pkey.
  assert (Hu : user_pkey Scenario.db_bob_inactive).
  { intros a b Ha Hb. simpl in Ha, Hb.
    destruct Ha as [<- | [<- | []]], Hb as [<- | [<- | []]];
      (reflexivity || (simpl; discriminate)). }
  destruct (inactive_user_session_is_closed Sample.runtime Sample.env
              (Scenario.bearing GET ["animals"] (Some "Bearer tok-bob"))
              Scenario.db_bob_inactive (List.nth 0 registerAnimalRoutes health)
              "tok-bob" Sample.bob_session Scenario.bob_inactive)
    as (H1 & _ & _ & H4);
    [ simpl; tauto | reflexivity | discriminate | exact Hs | exact Hu
    | simpl; tauto | reflexivity | simpl; tauto | reflexivity | reflexivity | ].
  split; [exact H1 | exact H4].
Defined.

(* ================================================================= *)
(** ** routes/animals.ts: what is stored is sanitized *)

Lemma trim_clean raw : 1 <= Js.length (Js.trim raw) -> clean_text (Js.trim raw).
Proof.
  intros H. split; [| apply trim_idem].
  intros E. rewrite E in H. unfold Js.length in H. simpl in H. lia.
Qed.

Lemma sanitizeOptionalString_clean v : clean_opt (Animals.sanitizeOptionalString v).
Proof.
  intros s Hs. unfold Animals.sanitizeOptionalString in Hs.
  destruct v as [raw |]; [| discriminate]. cbv zeta in Hs.
  destruct (0 <? Js.length (Js.trim raw)) eqn:E; [| discriminate].
  inversion Hs; subst s. apply trim_clean. apply Z.ltb_lt in E. lia.
Qed.

Lemma sanitizeCreateAnimalPayload_clean rt v data :
  Zod.safeParse (Animals.createAnimalSchema rt) v = Zod.success data ->
  clean_text (Animals.name (Animals.sanitizeCreateAnimalPayload data))
  /\ clean_opt (Animals.species (Animals.sanitizeCreateAnimalPayload data))
  /\ clean_opt (Animals.description (Animals.sanitizeCreateAnimalPayload data))
  /\ clean_opt (Animals.sex (Animals.sanitizeCreateAnimalPayload data)).
Proof.
  intros Hp. destruct (createAnimalSchema_object _ _ _ Hp) as [o ->].
  destruct (createAnimalSchema_name _ _ _ Hp) as (raw & _ & Hn & Hlen).
  cbn [Animals.sanitizeCreateAnimalPayload Animals.name Animals.species
       Animals.description Animals.sex].
  split; [| split; [| split]]; try apply sanitizeOptionalString_clean.
  rewrite Hn, trim_idem. now apply trim_clean.
Qed.

Lemma sanitizeUpdateAnimalPayload_clean rt v data :
  Zod.safeParse (Animals.updateAnimalSchema rt) v = Zod.success data ->
  clean_payload (Animals.sanitizeUpdateAnimalPayload data).
Proof.
  intros Hp. destruct (updateAnimalSchema_object _ _ _ Hp) as [o ->].
  destruct (updateAnimalSchema_name _ _ _ Hp) as (_ & _ & Hname).
  unfold clean_payload.
  cbn [Animals.sanitizeUpdateAnimalPayload Animals.p_name Animals.p_species
       Animals.p_description Animals.p_sex].
  split; [| split; [| split]].
  - intros n Hn. destruct (Animals.u_name data) as [n0 |]; [| discriminate].
    inversion Hn; subst n. destruct (Hname n0 eq_refl) as (raw & _ & -> & Hlen).
    rewrite trim_idem. now apply trim_clean.
  - intros v Hv. destruct (Animals.u_species data) as [raw |]; [| discriminate].
    cbn [option_map] in Hv. injection Hv as Hv. rewrite <- Hv.
    exact (sanitizeOptionalString_clean (Some raw)).
  - intros v Hv. destruct (Animals.u_description data) as [raw |]; [| discriminate].
    cbn [option_map] in Hv. injection Hv as Hv. rewrite <- Hv.
    exact (sanitizeOptionalString_clean (Some raw)).
  - intros v Hv. destruct (Animals.u_sex data) as [raw |]; [| discriminate].
    cbn [option_map] in Hv. injection Hv as Hv. rewrite <- Hv.
    exact (sanitizeOptionalString_clean raw).
Qed.

(* ================================================================= *)
(** ** What valid feedings, measurements and reminders look like *)

Lemma text_valid lo hi m1 m2 v a :
  Zod.max hi m2 (Zod.min lo m1 (Zod.trim Zod.string_)) v = ([], Some a) ->
  Js.trim a = a /\ lo <= Js.length a <= hi.
Proof.
  unfold Zod.max, Zod.min. intros H.
  apply check_valid in H. destruct H as [H Hmax].
  apply check_valid in H. destruct H as [H Hmin].
  apply trimmed_string_valid in H. destruct H as [raw [_ ->]].
  apply Z.leb_le in Hmax, Hmin. split; [apply trim_idem | lia].
Qed.

Lemma text_clean lo hi m1 m2 v a :
  1 <= lo ->
  Zod.max hi m2 (Zod.min lo m1 (Zod.trim Zod.string_)) v = ([], Some a) ->
  clean_text a.
Proof.
  intros Hlo H. apply text_valid in H. destruct H as [Ht Hlen].
  split; [| exact Ht]. intros ->. unfold Js.length in Hlen. simpl in Hlen. lia.
Qed.

Lemma short_text_valid hi m v a :
  Zod.max hi m (Zod.trim Zod.string_) v = ([], Some a) -> Js.trim a = a.
Proof.
  unfold Zod.max. intros H. apply check_valid in H. destruct H as [H _].
  apply trimmed_string_valid in H. destruct H as [raw [_ ->]]. apply trim_idem.
Qed.

Lemma optional_text_valid hi m v o :
  Zod.optional (Zod.max hi m (Zod.trim Zod.string_)) v = ([], Some o) ->
  forall a, o = Some a -> Js.trim a = a.
Proof.
  intros H a ->. apply optional_valid in H.
  destruct H as [[_ H] | (j & b & _ & H & Hb)]; [discriminate |].
  inversion Hb; subst b. now apply short_text_valid in H.
Qed.

Lemma nullable_valid {A} (s : Zod.Schema A) v o :
  Zod.nullable s v = ([], Some o) ->
  o = None \/ exists a, s v = ([], Some a) /\ o = Some a.
Proof.
  unfold Zod.nullable, Zod.pmap, Zod.valid.
  destruct v as [[] |]; intros H;
    try (inversion H; now left);
    (right; destruct (s _) as [iss [a |]]; simpl in H; inversion H; subst; eauto).
Qed.

Lemma nonEmptyOrNull_clean v :
  (forall a, v = Some a -> Js.trim a = a) -> clean_opt (nonEmptyOrNull v).
Proof.
  intros Ht s Hs. unfold nonEmptyOrNull in Hs.
  destruct v as [a |]; [| discriminate].
  destruct (Js.truthy a && (0 <? Js.length a)) eqn:E; [| discriminate].
  inversion Hs; subst s. split; [| now apply Ht].
  intros ->. discriminate.
Qed.

Lemma number_valid v n : Zod.number v = ([], Some n) -> PrimFloat.is_nan n = false.
Proof.
  unfold Zod.number. destruct v as [[| | m | | |] |]; try discriminate.
  destruct (PrimFloat.is_nan m) eqn:E; [discriminate |].
  intros H. inversion H; subst. exact E.
Qed.

(** Among the doubles, what is a number and not [<= 0] is above zero. *)
Lemma above_zero w :
  PrimFloat.is_nan w = false -> PrimFloat.leb w 0 = false -> PrimFloat.ltb 0 w = true.
Proof.
  unfold PrimFloat.is_nan. rewrite eqb_spec, leb_spec, ltb_spec.
  replace (Prim2SF 0) with (S754_zero false) by reflexivity.
  destruct (Prim2SF w) as [s | s | | s m e]; try destruct s; simpl;
    intros; try reflexivity; discriminate.
Qed.

Lemma feedingInputSchema_valid rt v data :
  Zod.safeParse (Feedings.feedingInputSchema rt) v = Zod.success data ->
  clean_text (Feedings.foodType data)
  /\ clean_text (Feedings.quantity data)
  /\ (forall a, Feedings.notes data = Some a -> Js.trim a = a)
  /\ (forall w, Feedings.weight data = Some w -> greater_than_zero w).
Proof.
  intros H. apply safeParse_success in H.
  unfold Feedings.feedingInputSchema, Zod.object in H.
  destruct v as [[| | | | | o] |]; try discriminate.
  split_object H.
  repeat match goal with
         | H : Zod.prop _ _ _ = _ |- _ => apply prop_valid in H
         end.
  split; [| split; [| split]].
  - match goal with
    | H : Zod.max 255 (Some "Food type must be 255 characters or less") _ _ = _ |- _ =>
        apply text_clean in H; [exact H | lia]
    end.
  - match goal with
    | H : Zod.max 255 (Some "Quantity must be 255 characters or less") _ _ = _ |- _ =>
        apply text_clean in H; [exact H | lia]
    end.
  - match goal with
    | H : Zod.optional (Zod.max 1000 _ _) _ = _ |- _ =>
        exact (optional_text_valid _ _ _ _ H)
    end.
  - intros w Hw.
    match goal with
    | H : Zod.optional (Zod.positive Zod.number) _ = _ |- _ =>
        apply optional_valid in H;
        destruct H as [[_ Hnone] | (j & b & _ & Hpos & Hb)]; [congruence |]
    end.
    rewrite Hb in Hw. inversion Hw; subst b.
    unfold Zod.positive in Hpos. apply check_valid in Hpos.
    destruct Hpos as [Hnum Hpos].
    apply negb_true_iff in Hpos. apply number_valid in Hnum.
    now apply above_zero.
Qed.

Lemma clean_text_trim s : clean_text s -> clean_text (Js.trim s).
Proof. intros [Hne Ht]. now rewrite Ht. Qed.

Lemma existsb_eqb_In s l : existsb (String.eqb s) l = true -> In s l.
Proof.
  intros H. apply existsb_exists in H. destruct H as [x [Hx He]].
  apply String.eqb_eq in He. now subst.
Qed.

Lemma new_feeding_clean rt v data r :
  Zod.safeParse (Feedings.feedingInputSchema rt) v = Zod.success data ->
  FeedingRecord.consumed r
  = match Feedings.consumed data with Some c => c | None => "fully" end ->
  FeedingRecord.foodType r = Some (Js.trim (Feedings.foodType data)) ->
  FeedingRecord.quantity r = Some (Js.trim (Feedings.quantity data)) ->
  FeedingRecord.notes r = nonEmptyOrNull (Feedings.notes data) ->
  FeedingRecord.weight r = Feedings.weight data ->
  clean_feeding r.
Proof.
  intros Hp Hc Hf Hq Hn Hw.
  destruct (feedingInputSchema_valid _ _ _ Hp) as (Vf & Vq & Vn & Vw).
  pose proof (feedingInputSchema_consumed _ _ _ Hp) as Vc.
  unfold clean_feeding. rewrite Hc, Hf, Hq, Hn, Hw.
  split; [now apply existsb_eqb_In |].
  split; [intros s Hs; inversion Hs; now apply clean_text_trim |].
  split; [intros s Hs; inversion Hs; now apply clean_text_trim |].
  split; [now apply nonEmptyOrNull_clean | exact Vw].
Qed.

Lemma measurementInputSchema_valid rt v data :
  Zod.safeParse (Measurements.measurementInputSchema rt) v = Zod.success data ->
  clean_text (Measurements.metricType data)
  /\ (forall a, Measurements.unit data = Some a -> Js.trim a = a)
  /\ (forall a, Measurements.notes data = Some a -> Js.trim a = a)
  /\ (Measurements.value data = None ->
      Js.toLowerCase (Measurements.metricType data) = "note").
Proof.
  intros H. apply safeParse_success in H.
  unfold Measurements.measurementInputSchema in H.
  apply superRefine_valid in H. destruct H as [H Hval].
  unfold Zod.object in H.
  destruct v as [[| | | | | o] |]; try discriminate.
  assert (Hnote : Measurements.value data = None ->
                  Js.toLowerCase (Measurements.metricType data) = "note").
  { intros Hv. rewrite Hv in Hval. simpl in Hval. rewrite andb_true_r in Hval.
    destruct (Js.toLowerCase (Measurements.metricType data) =? "note")%string eqn:E;
      [now apply String.eqb_eq in E | discriminate]. }
  clear Hval. revert Hnote.
  split_object H. intros Hnote.
  repeat match goal with
         | H : Zod.prop _ _ _ = _ |- _ => apply prop_valid in H
         end.
  split; [| split; [| split; [| exact Hnote]]].
  - match goal with
    | H : Zod.max 64 _ _ _ = _ |- _ => apply text_clean in H; [exact H | lia]
    end.
  - match goal with
    | H : Zod.optional (Zod.max 32 _ _) _ = _ |- _ =>
        exact (optional_text_valid _ _ _ _ H)
    end.
  - match goal with
    | H : Zod.optional (Zod.max 1000 _ _) _ = _ |- _ =>
        exact (optional_text_valid _ _ _ _ H)
    end.
Qed.

Lemma createReminderSchema_valid rt v data :
  Zod.safeParse (Reminders.createReminderSchema rt) v = Zod.success data ->
  clean_text (Reminders.title data)
  /\ (forall a, Reminders.notes data = Some a -> Js.trim a = a)
  /\ (forall a, Reminders.notificationId data = Some a -> Js.trim a = a).
Proof.
  intros H. apply safeParse_success in H.
  unfold Reminders.createReminderSchema, Zod.object in H.
  destruct v as [[| | | | | o] |]; try discriminate.
  split_object H.
  repeat match goal with
         | H : Zod.prop _ _ _ = _ |- _ => apply prop_valid in H
         end.
  split; [| split].
  - match goal with
    | H : Zod.max 255 _ (Zod.min _ _ _) _ = _ |- _ =>
        apply text_clean in H; [exact H | lia]
    end.
  - match goal with
    | H : Zod.optional (Zod.max 2000 _ _) _ = _ |- _ =>
        exact (optional_text_valid _ _ _ _ H)
    end.
  - match goal with
    | H : Zod.optional (Zod.max 255 _ _) _ = _ |- _ =>
        exact (optional_text_valid _ _ _ _ H)
    end.
Qed.

Lemma updateReminderSchema_valid rt v data :
  Zod.safeParse (Reminders.updateReminderSchema rt) v = Zod.success data ->
  (forall t, Reminders.u_title data = Some t -> clean_text t)
  /\ (forall a, Reminders.u_notes data = Some a -> Js.trim a = a)
  /\ (forall a, Reminders.u_notificationId data = Some (Some a) -> Js.trim a = a).
Proof.
  intros H. apply safeParse_success in H.
  unfold Reminders.updateReminderSchema, Zod.object in H.
  destruct v as [[| | | | | o] |]; try discriminate.
  split_object H.
  repeat match goal with
         | H : Zod.prop _ _ _ = _ |- _ => apply prop_valid in H
         end.
  split; [| split].
  - intros t Ht.
    match goal with
    | H : Zod.optional (Zod.max 255 _ (Zod.min _ _ _)) _ = _ |- _ =>
        apply optional_valid in H;
        destruct H as [[_ Hnone] | (j & b & _ & Htxt & Hb)]; [congruence |]
    end.
    rewrite Hb in Ht. inversion Ht; subst b.
    apply text_clean in Htxt; [exact Htxt | lia].
  - match goal with
    | H : Zod.optional (Zod.max 2000 _ _) _ = _ |- _ =>
        exact (optional_text_valid _ _ _ _ H)
    end.
  - intros a Ha.
    match goal with
    | H : Zod.optional (Zod.nullable _) (get "notificationId" o) = _ |- _ =>
        apply optional_valid in H;
        destruct H as [[_ Hnone] | (j & b & _ & Hnul & Hb)]; [congruence |]
    end.
    rewrite Hb in Ha. inversion Ha; subst b.
    apply nullable_valid in Hnul. destruct Hnul as [Hn | (c & Hc & Hn)]; [discriminate |].
    inversion Hn; subst c. now apply short_text_valid in Hc.
Qed.

Lemma updatePayload_clean rt env v data :
  Zod.safeParse (Reminders.updateReminderSchema rt) v = Zod.success data ->
  clean_reminder_payload (Reminders.updatePayload env data).
Proof.
  intros Hp. destruct (updateReminderSchema_valid _ _ _ Hp) as (Vt & Vn & Vi).
  unfold clean_reminder_payload, Reminders.updatePayload.
  cbn [Reminders.p_title Reminders.p_notes Reminders.p_notificationId].
  split; [exact Vt | split].
  - intros o Ho. destruct (Reminders.u_notes data) as [n |]; [| discriminate].
    cbn [option_map] in Ho. injection Ho as Ho. rewrite <- Ho.
    apply (nonEmptyOrNull_clean (Some n)).
    intros a Ha. inversion Ha; subst a. now apply Vn.
  - intros o Ho. destruct (Reminders.u_notificationId data) as [n |]; [| discriminate].
    cbn [option_map] in Ho. injection Ho as Ho. rewrite <- Ho.
    apply (nonEmptyOrNull_clean n). intros a Ha. subst n. now apply Vi.
Qed.

(* ================================================================= *)
(** ** What a request writes *)

Lemma exec_inl {A} (q : Query A) db e :
  q db = inl e ->
  exists rep, exec q db = (inl rep, db).
Proof. intros E. unfold exec. rewrite E. eauto. Qed.

Lemma exec_inr {A} (q : Query A) db a db' :
  q db = inr (a, db') -> exec q db = (inr a, db').
Proof. intros E. unfold exec. now rewrite E. Qed.

(** Running [exec q] and then [k]: the statement fails and nothing is
    written, or it succeeds and [k] goes on in the new store. *)
Lemma run_exec {A} (q : Query A) (k : A -> Handler Sent) db :
  (exists e rep, q db = inl e /\ run (bind (exec q) k) db = (rep, db))
  \/ (exists a db', q db = inr (a, db') /\ run (bind (exec q) k) db = run (k a) db').
Proof.
  destruct (q db) as [e | [a db']] eqn:E.
  - left. destruct (exec_inl q db e E) as [rep Hrep].
    exists e, rep. split; [reflexivity |]. now apply run_bind_inl.
  - right. exists a, db'. split; [reflexivity |].
    apply run_bind_inr. now apply exec_inr.
Qed.

Lemma run_owned userId animalId (k : option string -> Handler Sent) db :
  (run (bind (ensureAnimalOwnership userId animalId) k) db = run (k None) db)
  \/ (exists x, owns db userId animalId
                /\ run (bind (ensureAnimalOwnership userId animalId) k) db
                   = run (k (Some x)) db).
Proof.
  destruct (ensureAnimalOwnership userId animalId db) as [[rep | [x |]] db1] eqn:E.
  - unfold ensureAnimalOwnership, select in E. discriminate.
  - right. exists x. destruct (ensureAnimalOwnership_some _ _ _ _ _ E) as [-> Ho].
    split; [exact Ho |]. now apply run_bind_inr.
  - left. assert (db1 = db) by (unfold ensureAnimalOwnership, select in E; now inversion E).
    subst db1. now apply run_bind_inr.
Qed.

Ltac nothing_written := apply writes_nothing; reflexivity.

(** A handler that only reads. *)
Lemma reads_cases {A} (m : Handler A) db :
  snd (m db) = db ->
  (exists rep, m db = (inl rep, db)) \/ (exists a, m db = (inr a, db)).
Proof.
  destruct (m db) as [[rep | a] db1]; simpl; intros ->; eauto.
Qed.

Lemma post_animals_writes rt env request db auth :
  requireAuth env request db = (inr auth, db) ->
  writes rt (User.id (ctx_user auth)) db (snd (run (Animals.post_animals rt env request) db)).
Proof.
  intros Ha. unfold Animals.post_animals.
  rewrite (run_authenticated _ _ _ _ _ Ha).
  destruct (Zod.safeParse _ _) as [data | err] eqn:Hp; [| nothing_written].
  cbv zeta.
  match goal with
  | |- context [run (bind (exec ?q) ?k) db] =>
      destruct (run_exec q k db) as [(e & rep & _ & ->) | (found & db0 & E0 & ->)]
  end; [nothing_written |].
  apply select_where_inr in E0. destruct E0 as (_ & _ & ->).
  destruct (0 <? _); [nothing_written |].
  match goal with
  | |- context [run (bind (exec ?q) ?k) db] =>
      destruct (run_exec q k db) as [(e & rep & _ & ->) | (a & db' & E & ->)]
  end; [nothing_written |].
  rewrite run_reply. cbn [snd].
  eapply writes_insert_animal; [| | exact E]; [reflexivity |].
  exact (sanitizeCreateAnimalPayload_clean _ _ _ Hp).
Qed.

Ltac exec_cases E :=
  match goal with
  | |- context [run (bind (exec ?q) ?k) ?db] =>
      let a := fresh "res" in
      let db' := fresh "db'" in
      destruct (run_exec q k db) as [(? & ? & _ & ->) | (a & db' & E & ->)];
      [nothing_written |]
  end.

Ltac owned_cases Ho :=
  match goal with
  | |- context [run (bind (ensureAnimalOwnership ?u ?a) ?k) ?db] =>
      destruct (run_owned u a k db) as [-> | (? & Ho & ->)]; [nothing_written |]
  end.

Ltac sent := destruct_all_replies
with destruct_all_replies :=
  repeat match goal with
         | |- context [match ?x with [] => _ | _ :: _ => _ end] => destruct x
         end;
  rewrite ?run_reply; cbn [snd].

Lemma patch_animal_writes rt env request db auth :
  requireAuth env request db = (inr auth, db) ->
  writes rt (User.id (ctx_user auth)) db (snd (run (Animals.patch_animal rt env request) db)).
Proof.
  intros Ha. unfold Animals.patch_animal.
  rewrite (run_authenticated _ _ _ _ _ Ha).
  destruct (Zod.safeParse Animals.animalParamsSchema _) as [id | err]; [| nothing_written].
  destruct (Zod.safeParse _ _) as [data | err] eqn:Hp; [| nothing_written].
  pose proof (sanitizeUpdateAnimalPayload_clean _ _ _ Hp) as Hclean.
  cbv zeta. destruct (_ =? 0); [nothing_written |].
  match goal with
  | |- context [run (bind ?chk ?k) db] =>
      destruct (reads_cases chk db) as [[rep Hc] | [[] Hc]]
  end.
  - destruct (Animals.p_name _) as [n |]; [| reflexivity].
    destruct (Js.truthy n); [| reflexivity].
    unfold bind, exec, Pg.select_where, Pg.bound.
    destruct (Pg.first_refused rt _); [reflexivity |].
    destruct (Pg.limit 1 _) as [| d l]; [reflexivity |].
    destruct (negb _); reflexivity.
  - rewrite (run_bind_inl _ _ _ _ _ Hc). nothing_written.
  - rewrite (run_bind_inr _ _ _ _ _ Hc).
    exec_cases E. sent; (eapply writes_update_animal; [exact Hclean | exact E]).
Qed.

Lemma delete_animal_writes rt env request db auth :
  requireAuth env request db = (inr auth, db) ->
  writes rt (User.id (ctx_user auth)) db (snd (run (Animals.delete_animal env request) db)).
Proof.
  intros Ha. unfold Animals.delete_animal.
  rewrite (run_authenticated _ _ _ _ _ Ha).
  destruct (Zod.safeParse _ _) as [id | err]; [| nothing_written].
  exec_cases E. sent; eapply writes_delete_animal; exact E.
Qed.

Lemma get_animals_writes rt env request db auth :
  requireAuth env request db = (inr auth, db) ->
  writes rt (User.id (ctx_user auth)) db (snd (run (Animals.get_animals rt env request) db)).
Proof.
  intros Ha. unfold Animals.get_animals.
  rewrite (run_authenticated _ _ _ _ _ Ha). nothing_written.
Qed.

Lemma post_feedings_writes rt env request db auth :
  requireAuth env request db = (inr auth, db) ->
  writes rt (User.id (ctx_user auth)) db (snd (run (Feedings.post_feedings rt env request) db)).
Proof.
  intros Ha. unfold Feedings.post_feedings.
  rewrite (run_authenticated _ _ _ _ _ Ha).
  destruct (Zod.safeParse _ _) as [data | err] eqn:Hp; [| nothing_written].
  owned_cases Ho. cbv zeta. exec_cases E. rewrite run_reply. cbn [snd].
  eapply writes_insert_feeding; [| | | exact Ho | exact E]; try reflexivity.
  apply (new_feeding_clean _ _ _ _ Hp); reflexivity.
Qed.

Lemma get_feedings_writes rt env request db auth :
  requireAuth env request db = (inr auth, db) ->
  writes rt (User.id (ctx_user auth)) db (snd (run (Feedings.get_feedings rt env request) db)).
Proof.
  intros Ha. unfold Feedings.get_feedings.
  rewrite (run_authenticated _ _ _ _ _ Ha).
  destruct (Zod.safeParse _ _) as [aid | err]; [| nothing_written].
  owned_cases Ho. nothing_written.
Qed.

Lemma delete_feeding_writes rt env request db auth :
  requireAuth env request db = (inr auth, db) ->
  writes rt (User.id (ctx_user auth)) db (snd (run (Feedings.delete_feeding env request) db)).
Proof.
  intros Ha. unfold Feedings.delete_feeding.
  rewrite (run_authenticated _ _ _ _ _ Ha).
  destruct (Zod.safeParse _ _) as [id | err]; [| nothing_written].
  exec_cases E. sent; eapply writes_delete_feeding; exact E.
Qed.

Lemma post_measurements_writes rt env request db auth :
  requireAuth env request db = (inr auth, db) ->
  writes rt (User.id (ctx_user auth)) db
    (snd (run (Measurements.post_measurements rt env request) db)).
Proof.
  intros Ha. unfold Measurements.post_measurements.
  rewrite (run_authenticated _ _ _ _ _ Ha).
  destruct (Zod.safeParse _ _) as [data | err] eqn:Hp; [| nothing_written].
  owned_cases Ho. exec_cases E. rewrite run_reply. cbn [snd].
  eapply writes_insert_measurement; [| | | exact Ho | exact E]; try reflexivity.
  destruct (measurementInputSchema_valid _ _ _ Hp) as (Vt & Vu & Vn & Vv).
  unfold clean_measurement.
  cbn [MeasurementLog.metricType MeasurementLog.unit MeasurementLog.notes
       MeasurementLog.value].
  split; [exact Vt |]. split; [now apply nonEmptyOrNull_clean |].
  split; [now apply nonEmptyOrNull_clean | exact Vv].
Qed.

Lemma get_measurements_writes rt env request db auth :
  requireAuth env request db = (inr auth, db) ->
  writes rt (User.id (ctx_user auth)) db
    (snd (run (Measurements.get_measurements rt env request) db)).
Proof.
  intros Ha. unfold Measurements.get_measurements.
  rewrite (run_authenticated _ _ _ _ _ Ha).
  destruct (Zod.safeParse _ _) as [aid | err]; [| nothing_written].
  owned_cases Ho. nothing_written.
Qed.

Lemma delete_measurement_writes rt env request db auth :
  requireAuth env request db = (inr auth, db) ->
  writes rt (User.id (ctx_user auth)) db
    (snd (run (Measurements.delete_measurement env request) db)).
Proof.
  intros Ha. unfold Measurements.delete_measurement.
  rewrite (run_authenticated _ _ _ _ _ Ha).
  destruct (Zod.safeParse _ _) as [id | err]; [| nothing_written].
  exec_cases E. sent; eapply writes_delete_measurement; exact E.
Qed.

Lemma post_reminders_writes rt env request db auth :
  requireAuth env request db = (inr auth, db) ->
  writes rt (User.id (ctx_user auth)) db (snd (run (Reminders.post_reminders rt env request) db)).
Proof.
  intros Ha. unfold Reminders.post_reminders.
  rewrite (run_authenticated _ _ _ _ _ Ha).
  destruct (Zod.safeParse _ _) as [data | err] eqn:Hp; [| nothing_written].
  owned_cases Ho. cbv zeta. exec_cases E. rewrite run_reply. cbn [snd].
  eapply writes_insert_reminder; [| | | exact Ho | exact E]; try reflexivity.
  destruct (createReminderSchema_valid _ _ _ Hp) as (Vt & Vn & Vi).
  unfold clean_reminder.
  cbn [Reminder.title Reminder.notes Reminder.notificationId].
  split; [exact Vt |]. split; now apply nonEmptyOrNull_clean.
Qed.

Lemma get_reminders_writes rt env request db auth :
  requireAuth env request db = (inr auth, db) ->
  writes rt (User.id (ctx_user auth)) db (snd (run (Reminders.get_reminders rt env request) db)).
Proof.
  intros Ha. unfold Reminders.get_reminders.
  rewrite (run_authenticated _ _ _ _ _ Ha).
  destruct (Zod.safeParse _ _) as [aid | err]; [| nothing_written].
  owned_cases Ho. nothing_written.
Qed.

Lemma patch_reminder_writes rt env request db auth :
  requireAuth env request db = (inr auth, db) ->
  writes rt (User.id (ctx_user auth)) db (snd (run (Reminders.patch_reminder rt env request) db)).
Proof.
  intros Ha. unfold Reminders.patch_reminder.
  rewrite (run_authenticated _ _ _ _ _ Ha).
  destruct (Zod.safeParse Reminders.reminderParamsSchema _) as [id | err];
    [| nothing_written].
  destruct (Zod.safeParse _ _) as [data | err] eqn:Hp; [| nothing_written].
  pose proof (updatePayload_clean _ env _ _ Hp) as Hclean.
  destruct (_ =? 0); [nothing_written |].
  match goal with
  | |- context [run (bind ?chk ?k) db] =>
      assert (Hchk : (exists rep, chk db = (inl rep, db))
                     \/ (chk db = (inr tt, db)
                         /\ forall aid, Reminders.u_animalId data = Some aid ->
                                        owns db (User.id (ctx_user auth)) aid))
  end.
  { destruct (Reminders.u_animalId data) as [a |]; [| right; split;
                                                       [reflexivity | discriminate]].
    unfold bind.
    destruct (ensureAnimalOwnership (User.id (ctx_user auth)) a db)
      as [[rep | [x |]] db1] eqn:E.
    - unfold ensureAnimalOwnership, select in E. discriminate.
    - destruct (ensureAnimalOwnership_some _ _ _ _ _ E) as [-> Ho].
      right. split; [reflexivity |]. intros aid Haid. now inversion Haid; subst.
    - left. assert (db1 = db)
        by (unfold ensureAnimalOwnership, select in E; now inversion E).
      subst db1. eexists. reflexivity. }
  destruct Hchk as [[rep Hc] | [Hc Hown]].
  - rewrite (run_bind_inl _ _ _ _ _ Hc). nothing_written.
  - rewrite (run_bind_inr _ _ _ _ _ Hc).
    exec_cases E.
    sent;
      (eapply writes_update_reminder with (p := Reminders.updatePayload env data);
       [exact Hown | exact Hclean | exact E]).
Qed.

Lemma delete_reminder_writes rt env request db auth :
  requireAuth env request db = (inr auth, db) ->
  writes rt (User.id (ctx_user auth)) db (snd (run (Reminders.delete_reminder env request) db)).
Proof.
  intros Ha. unfold Reminders.delete_reminder.
  rewrite (run_authenticated _ _ _ _ _ Ha).
  destruct (Zod.safeParse _ _) as [id | err]; [| nothing_written].
  exec_cases E. sent; eapply writes_delete_reminder; exact E.
Qed.

(** Every protected route, for an authenticated request of user U, does
    nothing to the store or runs one statement on rows of U. *)
Lemma protected_writes r rt env request db auth :
  In r protected ->
  requireAuth env request db = (inr auth, db) ->
  writes rt (User.id (ctx_user auth)) db (snd (run (route_handler r rt env request) db)).
Proof.
  intros Hin Ha.
  repeat (destruct Hin as [<- | Hin]); try contradiction; cbn [route_handler].
  - now apply post_feedings_writes.
  - now apply get_feedings_writes.
  - now apply delete_feeding_writes.
  - now apply post_measurements_writes.
  - now apply get_measurements_writes.
  - now apply delete_measurement_writes.
  - now apply post_reminders_writes.
  - now apply get_reminders_writes.
  - now apply patch_reminder_writes.
  - now apply delete_reminder_writes.
  - now apply get_animals_writes.
  - now apply post_animals_writes.
  - now apply patch_animal_writes.
  - now apply delete_animal_writes.
Qed.

(* ================================================================= *)
(** ** Rows of other users *)

Lemma keep_snoc {A} (p : A -> bool) l x : p x = true -> Pg.keep p (l ++ [x]) = Pg.keep p l.
Proof.
  intros Hp. unfold Pg.keep. rewrite filter_app. simpl. rewrite Hp. simpl.
  apply app_nil_r.
Qed.

Lemma keep_keep {A} (p q : A -> bool) l :
  (forall r, In r l -> q r = true -> p r = true) ->
  Pg.keep p (Pg.keep q l) = Pg.keep p l.
Proof.
  unfold Pg.keep. induction l as [| a l IH]; simpl; [reflexivity |].
  intros H. destruct (q a) eqn:Hq; simpl.
  - rewrite (H a (or_introl eq_refl) Hq). simpl. apply IH. auto.
  - destruct (p a); simpl; [| f_equal]; apply IH; auto.
Qed.

Lemma keep_map_if {A} (p q : A -> bool) (set : A -> A) l :
  (forall r, q r = true -> p r = true) ->
  (forall r, q r = true -> p (set r) = true) ->
  Pg.keep p (map (fun r => if q r then set r else r) l) = Pg.keep p l.
Proof.
  intros H1 H2. unfold Pg.keep. induction l as [| a l IH]; simpl; [reflexivity |].
  destruct (q a) eqn:Hq.
  - rewrite (H1 a Hq), (H2 a Hq). simpl. exact IH.
  - destruct (p a); simpl; [| f_equal]; exact IH.
Qed.

Lemma others_kept_refl U db : others_kept U db db.
Proof. repeat split. Qed.

Lemma same_records_others U db db' : same_records db db' -> others_kept U db db'.
Proof. intros (H1 & H2 & H3 & H4). unfold others_kept. now rewrite H1, H2, H3, H4. Qed.

Lemma hits_owner {Row} (userId : Row -> string) (animalId : Row -> option string)
    db U id r :
  animal_pkey db ->
  with_own_animal userId animalId db r ->
  Pg.hits Animal.id (filter (Animals.by_id_user id U) (animal db)) (animalId r) = true ->
  Pg.eq (userId r) U = true.
Proof.
  intros Hpk Hown Hhit. unfold Pg.hits in Hhit.
  destruct (animalId r) as [x |] eqn:Ex; [| discriminate].
  apply has_In in Hhit. destruct Hhit as [g [Hg Hid]].
  apply filter_In in Hg. destruct Hg as [Hg Hp].
  apply animal_by_id_user_spec in Hp. destruct Hp as [_ Hu].
  destruct (Hown x Ex) as [a [Ha [Haid Hau]]].
  assert (a = g) by (apply Hpk; auto; congruence). subst a.
  apply eq_spec. congruence.
Qed.

Lemma by_id_user_owner_f id U r :
  Feedings.by_id_user id U r = true -> Pg.eq (FeedingRecord.userId r) U = true.
Proof. unfold Feedings.by_id_user. intros H. apply andb_true_iff in H. tauto. Qed.

Lemma by_id_user_owner_m id U r :
  Measurements.by_id_user id U r = true -> Pg.eq (MeasurementLog.userId r) U = true.
Proof. unfold Measurements.by_id_user. intros H. apply andb_true_iff in H. tauto. Qed.

Lemma by_id_user_owner_r id U r :
  Reminders.by_id_user id U r = true -> Pg.eq (Reminder.userId r) U = true.
Proof. unfold Reminders.by_id_user. intros H. apply andb_true_iff in H. tauto. Qed.

Lemma by_id_user_owner_a id U r :
  Animals.by_id_user id U r = true -> Pg.eq (Animal.userId r) U = true.
Proof. unfold Animals.by_id_user. intros H. apply andb_true_iff in H. tauto. Qed.

Lemma writes_others_kept rt U db db' :
  writes rt U db db' -> animal_pkey db -> owner_consistent db -> others_kept U db db'.
Proof.
  intros Hw Hpk (Hf & Hm & Hr).
  destruct Hw as [-> | a x Hu _ E | r aid x Hu _ _ _ E | r aid x Hu _ _ _ E
                 | r aid x Hu _ _ _ E | id env p vals rows _ E | id p vals rows _ _ E
                 | id rows E | id rows E | id rows E | id rows E].
  - apply others_kept_refl.
  - unfold Pg.insert_animal in E. insert_cases E.
    unfold others_kept. cbn [animal feedingRecord measurementLog reminder].
    rewrite keep_snoc by (now apply eq_spec). auto.
  - unfold Pg.insert_feedingRecord in E. insert_cases E.
    unfold others_kept. cbn [animal feedingRecord measurementLog reminder].
    rewrite keep_snoc by (now apply eq_spec). auto.
  - unfold Pg.insert_measurementLog in E. insert_cases E.
    unfold others_kept. cbn [animal feedingRecord measurementLog reminder].
    rewrite keep_snoc by (now apply eq_spec). auto.
  - unfold Pg.insert_reminder in E. insert_cases E.
    unfold others_kept. cbn [animal feedingRecord measurementLog reminder].
    rewrite keep_snoc by (now apply eq_spec). auto.
  - unfold Pg.update_animal in E. insert_cases E.
    unfold others_kept. cbn [animal feedingRecord measurementLog reminder].
    rewrite keep_map_if; auto; intros r Hp; now apply by_id_user_owner_a in Hp.
  - unfold Pg.update_reminder in E. insert_cases E.
    unfold others_kept. cbn [animal feedingRecord measurementLog reminder].
    rewrite keep_map_if; auto; intros r Hp; now apply by_id_user_owner_r in Hp.
  - unfold Pg.delete_animal in E. inversion E; subst; clear E.
   
    unfold others_kept. cbn [animal feedingRecord measurementLog reminder].
    rewrite !keep_keep; auto.
    + intros r Hin Hhit. rewrite Forall_forall in Hr.
      exact (hits_owner _ _ db U id r Hpk (Hr r Hin) Hhit).
    + intros r Hin Hhit. rewrite Forall_forall in Hm.
      exact (hits_owner _ _ db U id r Hpk (Hm r Hin) Hhit).
    + intros r Hin Hhit. rewrite Forall_forall in Hf.
      exact (hits_owner _ _ db U id r Hpk (Hf r Hin) Hhit).
    + intros r _ Hp. now apply by_id_user_owner_a in Hp.
  - unfold Pg.delete_feedingRecord in E. inversion E; subst; clear E.
   
    unfold others_kept. cbn [animal feedingRecord measurementLog reminder].
    rewrite keep_keep; auto.
    intros r _ Hp. now apply by_id_user_owner_f in Hp.
  - unfold Pg.delete_measurementLog in E. inversion E; subst; clear E.
   
    unfold others_kept. cbn [animal feedingRecord measurementLog reminder].
    rewrite keep_keep; auto.
    intros r _ Hp. now apply by_id_user_owner_m in Hp.
  - unfold Pg.delete_reminder in E. inversion E; subst; clear E.
   
    unfold others_kept. cbn [animal feedingRecord measurementLog reminder].
    rewrite keep_keep; auto.
    intros r _ Hp. now apply by_id_user_owner_r in Hp.
Qed.

(* ================================================================= *)
(** ** Rows and the owner of their animal *)

Lemma with_own_animal_mono {Row} (userId : Row -> string)
    (animalId : Row -> option string) db db' r :
  (forall a, In a (animal db) ->
             exists a', In a' (animal db') /\ Animal.id a' = Animal.id a
                        /\ Animal.userId a' = Animal.userId a) ->
  with_own_animal userId animalId db r -> with_own_animal userId animalId db' r.
Proof.
  intros Hmono Hr x Hx. destruct (Hr x Hx) as [a [Ha [Hid Hu]]].
  destruct (Hmono a Ha) as [a' [Ha' [Hid' Hu']]].
  exists a'. repeat split; congruence.
Qed.

Lemma owner_consistent_animals db db' :
  (forall a, In a (animal db) ->
             exists a', In a' (animal db') /\ Animal.id a' = Animal.id a
                        /\ Animal.userId a' = Animal.userId a) ->
  feedingRecord db' = feedingRecord db ->
  measurementLog db' = measurementLog db ->
  reminder db' = reminder db ->
  owner_consistent db -> owner_consistent db'.
Proof.
  intros Hmono Hf Hm Hr (H1 & H2 & H3). unfold owner_consistent.
  rewrite Hf, Hm, Hr.
  repeat split; (eapply Forall_impl; [| eassumption]); intros r;
    now apply with_own_animal_mono.
Qed.

Lemma with_own_animal_same {Row} (userId : Row -> string)
    (animalId : Row -> option string) db db' r :
  animal db' = animal db ->
  with_own_animal userId animalId db r -> with_own_animal userId animalId db' r.
Proof.
  intros E. apply with_own_animal_mono. rewrite E. eauto.
Qed.

Lemma Forall_own_same {Row} (userId : Row -> string)
    (animalId : Row -> option string) db db' l :
  animal db' = animal db ->
  Forall (with_own_animal userId animalId db) l ->
  Forall (with_own_animal userId animalId db') l.
Proof.
  intros E. apply Forall_impl. intros r. now apply with_own_animal_same.
Qed.

Lemma own_animal_of_owner {Row} (userId : Row -> string)
    (animalId : Row -> option string) db r aid :
  owns db (userId r) aid -> animalId r = Some (Pg.uuid_in aid) ->
  with_own_animal userId animalId db r.
Proof.
  intros [a [Ha [Hid Hu]]] Hr x Hx. rewrite Hr in Hx. inversion Hx; subst x. eauto.
Qed.

Lemma Forall_keep_sub {A} (P : A -> Prop) p l : Forall P l -> Forall P (Pg.keep p l).
Proof.
  rewrite !Forall_forall. intros H x Hx. apply H.
  unfold Pg.keep in Hx. apply filter_In in Hx. tauto.
Qed.

Lemma own_animal_survives {Row} (userId : Row -> string)
    (animalId : Row -> option string) db db' p l :
  animal db' = Pg.keep p (animal db) ->
  Forall (with_own_animal userId animalId db) l ->
  Forall (with_own_animal userId animalId db')
         (Pg.keep (fun r => Pg.hits Animal.id (filter p (animal db)) (animalId r)) l).
Proof.
  intros E. rewrite !Forall_forall. intros H r Hr.
  unfold Pg.keep in Hr. apply filter_In in Hr. destruct Hr as [Hin Hhit].
  apply negb_true_iff in Hhit.
  intros x Hx. destruct (H r Hin x Hx) as [a [Ha [Hid Hu]]].
  exists a. split; [| auto]. rewrite E. unfold Pg.keep. apply filter_In.
  split; [exact Ha |]. apply negb_true_iff.
  destruct (p a) eqn:Hp; [| reflexivity]. exfalso.
  rewrite Hx in Hhit. simpl in Hhit.
  assert (Pg.has Animal.id x (filter p (animal db)) = true).
  { apply has_In. exists a. split; [| exact Hid]. apply filter_In. auto. }
  congruence.
Qed.

Lemma writes_owner_consistent rt U db db' :
  writes rt U db db' -> owner_consistent db -> owner_consistent db'.
Proof.
  intros Hw Hoc. pose proof Hoc as (Hf & Hm & Hr).
  destruct Hw as [-> | a x Hu _ E | r aid x Hu _ Hid Ho E | r aid x Hu _ Hid Ho E
                 | r aid x Hu _ Hid Ho E | id env p vals rows _ E | id p vals rows Hown _ E
                 | id rows E | id rows E | id rows E | id rows E].
  - exact Hoc.
  - unfold Pg.insert_animal in E. insert_cases E.
    apply (owner_consistent_animals db); auto. cbn [animal].
    intros a0 Ha0. exists a0. split; [apply in_or_app; now left | auto].
  - unfold Pg.insert_feedingRecord in E. insert_cases E.
    unfold owner_consistent. cbn [feedingRecord measurementLog reminder].
    split; [| split]; try (eapply Forall_own_same; [| eassumption]; reflexivity).
    apply Forall_app. split.
    + eapply Forall_own_same; [| eassumption]; reflexivity.
    + constructor; [| constructor].
      eapply with_own_animal_same; [reflexivity |].
      eapply own_animal_of_owner; [exact Ho | exact Hid].
  - unfold Pg.insert_measurementLog in E. insert_cases E.
    unfold owner_consistent. cbn [feedingRecord measurementLog reminder].
    split; [| split]; try (eapply Forall_own_same; [| eassumption]; reflexivity).
    apply Forall_app. split.
    + eapply Forall_own_same; [| eassumption]; reflexivity.
    + constructor; [| constructor].
      eapply with_own_animal_same; [reflexivity |].
      eapply own_animal_of_owner; [exact Ho | exact Hid].
  - unfold Pg.insert_reminder in E. insert_cases E.
    unfold owner_consistent. cbn [feedingRecord measurementLog reminder].
    split; [| split]; try (eapply Forall_own_same; [| eassumption]; reflexivity).
    apply Forall_app. split.
    + eapply Forall_own_same; [| eassumption]; reflexivity.
    + constructor; [| constructor].
      eapply with_own_animal_same; [reflexivity |].
      eapply own_animal_of_owner; [exact Ho | exact Hid].
  - unfold Pg.update_animal in E. insert_cases E.
    apply (owner_consistent_animals db); auto. cbn [animal].
    intros a0 Ha0.
    exists (if Animals.by_id_user id U a0 then Animals.set_row env p a0 else a0).
    split.
    + apply in_map_iff. exists a0. auto.
    + destruct (Animals.by_id_user id U a0); auto.
  - unfold Pg.update_reminder in E. insert_cases E.
    unfold owner_consistent. cbn [feedingRecord measurementLog reminder].
    split; [| split]; try (eapply Forall_own_same; [| eassumption]; reflexivity).
    apply Forall_forall. intros r Hin. apply in_map_iff in Hin.
    destruct Hin as [r0 [Hr0 Hin]]. rewrite Forall_forall in Hr.
    specialize (Hr r0 Hin).
    eapply with_own_animal_same; [reflexivity |].
    destruct (Reminders.by_id_user id U r0) eqn:Hp; [| now subst r].
    subst r. apply by_id_user_owner_r in Hp. apply eq_spec in Hp.
    intros x Hx. cbn [Reminders.set_row Reminder.animalId Reminder.userId] in *.
    destruct (Reminders.p_animalId p) as [aid |] eqn:Ea.
    + inversion Hx; subst x. destruct (Hown aid eq_refl) as [a [Ha [Hid Hu]]].
      exists a. repeat split; auto. congruence.
    + exact (Hr x Hx).
  - unfold Pg.delete_animal in E. inversion E; subst; clear E.
    unfold owner_consistent. cbn [feedingRecord measurementLog reminder].
    split; [| split]; apply own_animal_survives; auto.
  - unfold Pg.delete_feedingRecord in E. inversion E; subst; clear E.
    unfold owner_consistent. cbn [feedingRecord measurementLog reminder].
    split; [| split]; try (eapply Forall_own_same; [| eassumption]; reflexivity).
    apply Forall_keep_sub. eapply Forall_own_same; [| eassumption]; reflexivity.
  - unfold Pg.delete_measurementLog in E. inversion E; subst; clear E.
    unfold owner_consistent. cbn [feedingRecord measurementLog reminder].
    split; [| split]; try (eapply Forall_own_same; [| eassumption]; reflexivity).
    apply Forall_keep_sub. eapply Forall_own_same; [| eassumption]; reflexivity.
  - unfold Pg.delete_reminder in E. inversion E; subst; clear E.
    unfold owner_consistent. cbn [feedingRecord measurementLog reminder].
    split; [| split]; try (eapply Forall_own_same; [| eassumption]; reflexivity).
    apply Forall_keep_sub. eapply Forall_own_same; [| eassumption]; reflexivity.
Qed.

(* ================================================================= *)
(** ** The server and the rows of other users *)

Lemma same_records_refl db : same_records db db.
Proof. repeat split. Qed.

Lemma same_records_trans a b c :
  same_records a b -> same_records b c -> same_records a c.
Proof.
  intros (H1 & H2 & H3 & H4) (K1 & K2 & K3 & K4). unfold same_records.
  repeat split; congruence.
Qed.

Ltac same_records_op :=
  intros;
  match goal with
  | H : _ = inr _ |- _ =>
      unfold Pg.insert_user, Pg.insert_session, Pg.delete_session in H;
      insert_cases H
  end;
  repeat split.

(** The health and auth routes leave the resource tables alone. *)
Lemma open_routes_same_records r :
  In r (health :: registerAuthRoutes) -> forall rt env request,
  triple same_records (fun _ => True) (route_handler r rt env request).
Proof.
  intros Hin rt env request.
  repeat (destruct Hin as [<- | Hin]); try contradiction; simpl;
    unfold_routes; unfold_auth;
    repeat (triple_step same_records_refl same_records_trans);
    first [ exact I | intros; exact I | same_records_op ].
Qed.

Lemma api_routes r :
  In r api -> In r (health :: registerAuthRoutes) \/ In r protected.
Proof.
  unfold api, createServer, protected. intros H.
  apply in_app_or in H. destruct H as [[<- | H] | H].
  - left. now left.
  - apply in_app_or in H. destruct H as [H | H]; [left; now right |].
    right. apply in_app_or in H. destruct H as [H | H]; [apply in_or_app; now left |].
    apply in_or_app. right. apply in_app_or in H.
    destruct H as [H | H]; apply in_or_app; [now left | right].
    apply in_or_app. now left.
  - right. do 3 (apply in_or_app; right). exact H.
Qed.

Lemma same_records_owner_consistent db db' :
  same_records db db' -> owner_consistent db -> owner_consistent db'.
Proof.
  intros (Ha & Hf & Hm & Hr). apply owner_consistent_animals; auto.
  rewrite Ha. eauto.
Qed.

(** What one request does to the resource tables: when it passes
    [requireAuth] as user U, nothing or one statement on rows of U;
    otherwise nothing. *)
Lemma handle_writes rt env request db :
  (exists auth, requireAuth env request db = (inr auth, db)
                /\ (writes rt (User.id (ctx_user auth)) db (snd (handle rt env request db))
                    \/ same_records db (snd (handle rt env request db))))
  \/ ((forall auth, requireAuth env request db <> (inr auth, db))
      /\ same_records db (snd (handle rt env request db))).
Proof.
  assert (Hopen : forall r ps, In r (health :: registerAuthRoutes) ->
            same_records db
              (snd (run (route_handler r rt env
                           {| method := method request;
                              raw_url := raw_url request;
                              url := url request;
                              authorization := authorization request; params := ps;
                              query := query request; body := body request |}) db))).
  { intros r ps Hr.
    destruct (triple_run same_records (fun _ => True) _ db
                (open_routes_same_records r Hr rt env
                   {| method := method request;
                      raw_url := raw_url request;
                      url := url request;
                      authorization := authorization request; params := ps;
                      query := query request; body := body request |})) as [H _].
    exact H. }
  unfold handle, serve.
  destruct (requireAuth_cases env request db) as [[auth [Ha Hauth]] | [db1 [Hu [Hs _]]]].
  - left. exists auth. split; [exact Ha |].
    destruct (find_route api (method request) (url request)) as [[r ps] |] eqn:E;
      [| right; apply same_records_refl].
    apply find_route_In in E. destruct (api_routes r E) as [Hr | Hr].
    + right. now apply Hopen.
    + left. apply protected_writes; [exact Hr | exact Ha].
  - right. split.
    { intros auth Ha. rewrite Hu in Ha. discriminate. }
    destruct (find_route api (method request) (url request)) as [[r ps] |] eqn:E;
      [| apply same_records_refl].
    apply find_route_In in E. destruct (api_routes r E) as [Hr | Hr].
    + now apply Hopen.
    + destruct (protected_requireAuth r Hr rt env
                  {| method := method request;
                     raw_url := raw_url request;
                     url := url request;
                     authorization := authorization request; params := ps;
                     query := query request; body := body request |}) as [k Hk].
      rewrite Hk.
      change (requireAuth env _) with (requireAuth env request).
      rewrite (run_bind_inl _ _ _ _ _ Hu). cbn [snd].
      destruct Hs as (_ & H2 & H3 & H4 & H5). repeat split; auto.
Qed.

(** X12: a request never touches the rows of other users.  In a store
    where every feeding, measurement and reminder that names an animal
    names an animal of its own user, whatever request the server handles:
    if the request is authenticated as user U, the animals, feedings,
    measurements and reminders of every other user are after the request
    exactly as before; if it is not authenticated, all four tables are
    as before. *)
Theorem requests_leave_rows_of_other_users :
  forall rt env request db,
    animal_pkey db ->
    owner_consistent db ->
    (forall auth,
        requireAuth env request db = (inr auth, db) ->
        others_kept (User.id (ctx_user auth)) db (snd (handle rt env request db)))
    /\ ((forall auth, requireAuth env request db <> (inr auth, db)) ->
        same_records db (snd (handle rt env request db))).
Proof.
  intros rt env request db Hpk Hoc.
  destruct (handle_writes rt env request db) as [[auth [Ha Hw]] | [Hno Hs]].
  - split.
    + intros auth' Ha'. rewrite Ha in Ha'. inversion Ha'; subst auth'.
      destruct Hw as [Hw | Hs].
      * now apply (writes_others_kept rt).
      * now apply same_records_others.
    + intros Hno. exfalso. exact (Hno auth Ha).
  - split; [| auto].
    intros auth Ha. exfalso. exact (Hno auth Ha).
Qed.

(** X13: rows stay with the owner of their animal.  If every feeding,
    measurement and reminder that names an animal names an animal of its
    own user, this still holds after whatever request the server
    handles. *)
Theorem requests_keep_rows_with_animal_owner :
  forall rt env request db,
    owner_consistent db -> owner_consistent (snd (handle rt env request db)).
Proof.
  intros rt env request db Hoc.
  destruct (handle_writes rt env request db) as [[auth [Ha [Hw | Hs]]] | [_ Hs]].
  - exact (writes_owner_consistent _ _ _ _ Hw Hoc).
  - exact (same_records_owner_consistent _ _ Hs Hoc).
  - exact (same_records_owner_consistent _ _ Hs Hoc).
Qed.

Lemma sample_animal_pkey : animal_pkey Sample.db.
Proof.
  intros a b Ha Hb. simpl in Ha, Hb.
  destruct Ha as [<- | [<- | [<- | []]]], Hb as [<- | [<- | [<- | []]]];
    (reflexivity || (simpl; discriminate)).
Qed.

Lemma sample_owner_consistent : owner_consistent Sample.db.
Proof.
  repeat split; (constructor; [| constructor]); intros x Hx; inversion Hx; subst x;
    exists Sample.rex; (split; [now left | split; reflexivity]).
Qed.

Lemma requests_leave_rows_of_other_users_witness :
  requireAuth Sample.env Scenario.remove_rex Sample.db = (inr Sample.alice_auth, Sample.db)
  /\ others_kept Sample.alice_id Sample.db
       (snd (handle Sample.runtime Sample.env Scenario.remove_rex Sample.db)).
Proof.
  split; [reflexivity |].
  destruct (requests_leave_rows_of_other_users Sample.runtime Sample.env
              Scenario.remove_rex Sample.db sample_animal_pkey sample_owner_consistent)
    as [H _].
  exact (H Sample.alice_auth eq_refl).
Defined.

Lemma requests_keep_rows_with_animal_owner_witness :
  owner_consistent (snd (handle Sample.runtime Sample.env Scenario.remove_rex Sample.db)).
Proof.
  exact (requests_keep_rows_with_animal_owner Sample.runtime Sample.env
           Scenario.remove_rex Sample.db sample_owner_consistent).
Defined.

(* ================================================================= *)
(** ** The lists without a limit *)

Lemma newest_first_spec a b : Reminders.newest_first a b = true <-> due_first a b.
Proof.
  unfold Reminders.newest_first, Pg.desc_null2, Pg.desc_nulls, due_first.
  destruct (Reminder.dueDate a) as [x |], (Reminder.dueDate b) as [y |];
    try (rewrite Z.leb_le; tauto); try tauto.
  - destruct (y ?= x) eqn:E.
    + apply Z.compare_eq in E. rewrite Z.leb_le. split; [intros; right; lia |].
      intros [H | [_ H]]; lia.
    + apply Z.compare_lt_iff in E. split; [intros; now left | reflexivity].
    + apply Z.compare_gt_iff in E. split; [discriminate | intros [H | [H _]]; lia].
  - split; [discriminate | contradiction].
Qed.

Lemma newest_first_total a b :
  Reminders.newest_first a b = false -> Reminders.newest_first b a = true.
Proof.
  intros H. apply newest_first_spec.
  assert (Hn : ~ due_first a b).
  { intros Hd. apply newest_first_spec in Hd. congruence. }
  unfold due_first in *.
  destruct (Reminder.dueDate a) as [x |], (Reminder.dueDate b) as [y |];
    try tauto; lia.
Qed.

Lemma newest_first_trans a b c :
  Reminders.newest_first a b = true -> Reminders.newest_first b c = true ->
  Reminders.newest_first a c = true.
Proof.
  rewrite !newest_first_spec. unfold due_first.
  destruct (Reminder.dueDate a) as [x |], (Reminder.dueDate b) as [y |],
    (Reminder.dueDate c) as [z |]; try tauto; lia.
Qed.

(** X14: GET /reminders lists everything, ordered by due date.  For an
    authenticated user and an animal of the user the reply is 200 with
    every reminder of that user and animal, each once, whatever their
    number: there is no limit.  Reminders without a due date come first,
    then those with the later due date, and among equals the one created
    no earlier.  The store is not changed. *)
Theorem reminders_are_listed_in_full :
  forall rt env request db auth animalId,
    requireAuth env request db = (inr auth, db) ->
    Zod.safeParse animalIdShape (Some (query request)) = Zod.success animalId ->
    owns db (User.id (ctx_user auth)) animalId ->
    exists records,
      run (Reminders.get_reminders rt env request) db
      = ({| code := 200; payload := JArr (map (Reminders.toReminderResponse rt) records) |},
         db)
      /\ Permutation records
           (filter (Reminders.matches (User.id (ctx_user auth)) animalId) (reminder db))
      /\ StronglySorted due_first records
      /\ (forall r, In r records <->
                    In r (reminder db)
                    /\ Reminder.userId r = User.id (ctx_user auth)
                    /\ Reminder.animalId r = Some (Pg.uuid_in animalId)).
Proof.
  intros rt env request db auth animalId Ha Hq Ho.
  exists (Reminders.list_query (User.id (ctx_user auth)) animalId db).
  split; [now apply get_reminders_run |].
  unfold Reminders.list_query. split; [apply orderBy_perm |]. split.
  - eapply StronglySorted_weaken;
      [| apply (orderBy_sorted Reminders.newest_first
                  newest_first_total newest_first_trans)].
    intros a b H. now apply newest_first_spec.
  - intros r. rewrite orderBy_In, filter_In, reminder_matches_spec. tauto.
Qed.

(** An order that is total and transitive among the rows at hand sorts
    them. *)
Section OrderingAmong.
Context {A : Type} (before : A -> A -> bool) (rows : list A).
Hypothesis total_among :
  forall a b, In a rows -> In b rows -> before a b = false -> before b a = true.
Hypothesis trans_among :
  forall a b c, In a rows -> In b rows -> In c rows ->
                before a b = true -> before b c = true -> before a c = true.

Lemma place_sorted_among x l :
  In x rows -> incl l rows ->
  StronglySorted (fun a b => before a b = true) l ->
  StronglySorted (fun a b => before a b = true) (Pg.place before x l).
Proof.
  intros Hx Hl Hs. induction Hs as [| y l Hs IH Hy]; simpl.
  - repeat constructor.
  - assert (Hyr : In y rows) by (apply Hl; now left).
    assert (Hlr : incl l rows) by (intros z Hz; apply Hl; now right).
    destruct (before x y) eqn:E.
    + constructor; [constructor; auto |].
      constructor; [exact E |].
      rewrite Forall_forall in *. intros z Hz.
      apply (trans_among x y z); auto.
    + constructor; [now apply IH |].
      apply Forall_forall. intros z Hz.
      apply (Permutation_in _ (place_perm before x l)) in Hz.
      destruct Hz as [<- | Hz].
      * now apply total_among.
      * rewrite Forall_forall in Hy. auto.
Qed.

Lemma orderBy_sorted_among l :
  incl l rows -> StronglySorted (fun a b => before a b = true) (Pg.orderBy before l).
Proof.
  induction l as [| x l IH]; simpl; intros Hl; [constructor |].
  apply place_sorted_among.
  - apply Hl. now left.
  - intros z Hz. apply Hl. apply (Permutation_in _ (orderBy_perm before l)) in Hz.
    now right.
  - apply IH. intros z Hz. apply Hl. now right.
Qed.

End OrderingAmong.

(** X15: GET /animals lists the user's animals by name.  For an
    authenticated user the reply is 200 with every animal of that user,
    each once and no animal of another user, whatever their number, and
    the store is not changed.  The animals come in ascending order of
    their names under the collation of the database, as far as that
    orders the names at hand: any two of them are comparable, and the
    comparison is transitive among them. *)
Theorem animals_are_listed_by_name :
  forall rt env request db auth,
    requireAuth env request db = (inr auth, db) ->
    exists records,
      run (Animals.get_animals rt env request) db
      = ({| code := 200; payload := JArr (map (Animals.toAnimalResponse rt) records) |}, db)
      /\ Permutation records
           (filter (fun a => Pg.eq (Animal.userId a) (User.id (ctx_user auth))) (animal db))
      /\ (orders rt (map Animal.name records) ->
          StronglySorted (name_order rt) records)
      /\ (forall a, In a records <->
                    In a (animal db) /\ Animal.userId a = User.id (ctx_user auth)).
Proof.
  intros rt env request db auth Ha.
  eexists. split; [| split; [apply orderBy_perm | split]].
  - unfold Animals.get_animals. rewrite (run_authenticated _ _ _ _ _ Ha).
    rewrite run_select. reflexivity.
  - intros [Htotal Htrans].
    set (mine := filter (fun a => Pg.eq (Animal.userId a) (User.id (ctx_user auth)))
                        (animal db)) in *.
    assert (Hname : forall a, In a mine ->
              In (Animal.name a) (map Animal.name (Pg.orderBy (Animals.by_name rt) mine))).
    { intros a Hin. apply in_map. now apply orderBy_In. }
    apply (orderBy_sorted_among (Animals.by_name rt) mine).
    + intros a b Hin_a Hin_b Hab. unfold Animals.by_name in *.
      destruct (Htotal _ _ (Hname a Hin_a) (Hname b Hin_b)); congruence.
    + intros a b c Hin_a Hin_b Hin_c. unfold Animals.by_name.
      apply Htrans; auto.
    + apply incl_refl.
  - intros a. rewrite orderBy_In, filter_In, eq_spec. tauto.
Qed.

Lemma animals_are_listed_by_name_witness :
  run (Animals.get_animals Sample.runtime Sample.env
         (Scenario.bearing GET ["animals"] (Some "Bearer tok-alice"))) Scenario.db_names
  = ({| code := 200;
        payload :=
          JArr (map (Animals.toAnimalResponse Sample.runtime)
                  [Scenario.named 3 "apollo"; Scenario.named 1 "rex";
                   Scenario.named 4 "Rex"; Scenario.named 2 "Spike";
                   Scenario.named 0 "Zed"]) |},
     Scenario.db_names)
  /\ exists records,
       run (Animals.get_animals Sample.runtime Sample.env
              (Scenario.bearing GET ["animals"] (Some "Bearer tok-alice")))
           Scenario.db_names
       = ({| code := 200;
             payload := JArr (map (Animals.toAnimalResponse Sample.runtime) records) |},
          Scenario.db_names)
       /\ Permutation records (animal Scenario.db_names)
       /\ StronglySorted (name_order Sample.runtime) records.
Proof.
  split; [reflexivity |].
  destruct (animals_are_listed_by_name Sample.runtime Sample.env
              (Scenario.bearing GET ["animals"] (Some "Bearer tok-alice"))
              Scenario.db_names Sample.alice_auth eq_refl)
    as (records & Hrun & Hperm & Hsort & _).
  exists records. split; [exact Hrun |]. split; [exact Hperm |].
  apply Hsort.
  assert (Hnames : forall n, In n (map Animal.name records) ->
                             In n ["Zed"; "rex"; "Spike"; "apollo"; "Rex"]).
  { intros n Hn. apply in_map_iff in Hn. destruct Hn as (a & <- & Ha).
    apply (Permutation_in _ Hperm) in Ha.
    apply (in_map Animal.name) in Ha. exact Ha. }
  split.
  - intros a b Ha Hb. apply Hnames in Ha, Hb. simpl in Ha, Hb.
    repeat (destruct Ha as [<- | Ha]; [| try contradiction]);
      repeat (destruct Hb as [<- | Hb]; [| try contradiction]);
      vm_compute; auto.
  - intros a b c Ha Hb Hc. apply Hnames in Ha, Hb, Hc. simpl in Ha, Hb, Hc.
    repeat (destruct Ha as [<- | Ha]; [| try contradiction]);
      repeat (destruct Hb as [<- | Hb]; [| try contradiction]);
      repeat (destruct Hc as [<- | Hc]; [| try contradiction]);
      vm_compute; auto; discriminate.
Defined.

Lemma reminders_are_listed_in_full_witness :
  exists records,
    run (Reminders.get_reminders Sample.runtime Sample.env
           (Sample.request GET ["reminders"] "tok-alice"
              [("animalId", JStr Sample.rex_id)] None)) Sample.db
    = ({| code := 200;
          payload := JArr (map (Reminders.toReminderResponse Sample.runtime) records) |},
       Sample.db)
    /\ Permutation records [Sample.task Sample.task_id].
Proof.
  destruct (reminders_are_listed_in_full Sample.runtime Sample.env
              (Sample.request GET ["reminders"] "tok-alice"
                 [("animalId", JStr Sample.rex_id)] None) Sample.db
              Sample.alice_auth Sample.rex_id eq_refl eq_refl sample_alice_owns_rex)
    as (records & Hrun & Hperm & _).
  exists records. split; [exact Hrun | exact Hperm].
Defined.

(* ================================================================= *)
(** ** Stored animals are sanitized *)

Lemma set_row_clean env p r :
  clean_payload p -> clean_animal r -> clean_animal (Animals.set_row env p r).
Proof.
  intros (Pn & Ps & Pd & Px) (Hn & Hs & Hd & Hx).
  unfold clean_animal, Animals.set_row, Animals.or_keep.
  cbn [Animal.name Animal.species Animal.description Animal.sex].
  split; [| split; [| split]].
  - destruct (Animals.p_name p); auto.
  - destruct (Animals.p_species p); auto.
  - destruct (Animals.p_description p); auto.
  - destruct (Animals.p_sex p); auto.
Qed.

Lemma writes_clean_animals rt U db db' :
  writes rt U db db' -> Forall clean_animal (animal db) -> Forall clean_animal (animal db').
Proof.
  intros Hw Hc.
  destruct Hw as [-> | a x Hu Ha E | r aid x Hu _ Hid Ho E | r aid x Hu _ Hid Ho E
                 | r aid x Hu _ Hid Ho E | id env p vals rows Hp E | id p vals rows Hown _ E
                 | id rows E | id rows E | id rows E | id rows E].
  - exact Hc.
  - unfold Pg.insert_animal in E. insert_cases E. cbn [animal].
    apply Forall_app. split; [exact Hc | constructor; [exact Ha | constructor]].
  - unfold Pg.insert_feedingRecord in E. insert_cases E. exact Hc.
  - unfold Pg.insert_measurementLog in E. insert_cases E. exact Hc.
  - unfold Pg.insert_reminder in E. insert_cases E. exact Hc.
  - unfold Pg.update_animal in E. insert_cases E. cbn [animal].
    apply Forall_forall. intros a Ha. apply in_map_iff in Ha.
    destruct Ha as [a0 [<- Hin]]. rewrite Forall_forall in Hc.
    destruct (Animals.by_id_user id U a0); [apply set_row_clean |]; auto.
  - unfold Pg.update_reminder in E. insert_cases E. exact Hc.
  - unfold Pg.delete_animal in E. inversion E; subst; clear E. cbn [animal].
    now apply Forall_keep_sub.
  - unfold Pg.delete_feedingRecord in E. inversion E; subst; clear E. exact Hc.
  - unfold Pg.delete_measurementLog in E. inversion E; subst; clear E. exact Hc.
  - unfold Pg.delete_reminder in E. inversion E; subst; clear E. exact Hc.
Qed.

(** X16: what is stored about an animal is sanitized.  If the name of
    every stored animal is not empty and has no white space around it,
    and its species, description and sex are each absent or such a text,
    then the same holds after whatever request the server handles: POST
    and PATCH /animals store trimmed texts and store a blank optional text
    as absent. *)
Theorem requests_keep_animals_sanitized :
  forall rt env request db,
    Forall clean_animal (animal db) ->
    Forall clean_animal (animal (snd (handle rt env request db))).
Proof.
  intros rt env request db Hc.
  destruct (handle_writes rt env request db)
    as [[auth [Ha [Hw | (Hs & _)]]] | [_ (Hs & _)]].
  - exact (writes_clean_animals _ _ _ _ Hw Hc).
  - now rewrite Hs.
  - now rewrite Hs.
Qed.

(* ================================================================= *)
(** ** Stored feedings, measurements and reminders are sanitized *)

Lemma reminder_set_row_clean p r :
  clean_reminder_payload p -> clean_reminder r -> clean_reminder (Reminders.set_row p r).
Proof.
  intros (Pt & Pn & Pi) (Ht & Hn & Hi).
  unfold clean_reminder, Reminders.set_row, Reminders.or_keep.
  cbn [Reminder.title Reminder.notes Reminder.notificationId].
  split; [| split].
  - destruct (Reminders.p_title p); auto.
  - destruct (Reminders.p_notes p); auto.
  - destruct (Reminders.p_notificationId p); auto.
Qed.

Lemma writes_clean_records rt U db db' :
  writes rt U db db' -> clean_records db -> clean_records db'.
Proof.
  intros Hw Hc. pose proof Hc as (Hf & Hm & Hr).
  destruct Hw as [-> | a x Hu Ha E | r aid x Hu Hcl Hid Ho E | r aid x Hu Hcl Hid Ho E
                 | r aid x Hu Hcl Hid Ho E | id env p vals rows Hp E | id p vals rows Hown Hp E
                 | id rows E | id rows E | id rows E | id rows E].
  - exact Hc.
  - unfold Pg.insert_animal in E. insert_cases E. exact Hc.
  - unfold Pg.insert_feedingRecord in E. insert_cases E.
    split; [| split]; auto. cbn [feedingRecord].
    apply Forall_app. split; [exact Hf | constructor; [exact Hcl | constructor]].
  - unfold Pg.insert_measurementLog in E. insert_cases E.
    split; [| split]; auto. cbn [measurementLog].
    apply Forall_app. split; [exact Hm | constructor; [exact Hcl | constructor]].
  - unfold Pg.insert_reminder in E. insert_cases E.
    split; [| split]; auto. cbn [reminder].
    apply Forall_app. split; [exact Hr | constructor; [exact Hcl | constructor]].
  - unfold Pg.update_animal in E. insert_cases E. exact Hc.
  - unfold Pg.update_reminder in E. insert_cases E.
    split; [| split]; auto. cbn [reminder].
    apply Forall_forall. intros r Hin. apply in_map_iff in Hin.
    destruct Hin as [r0 [<- Hin]]. rewrite Forall_forall in Hr.
    destruct (Reminders.by_id_user id U r0); [apply reminder_set_row_clean |]; auto.
  - unfold Pg.delete_animal in E. inversion E; subst; clear E.
    split; [| split]; cbn [feedingRecord measurementLog reminder];
      now apply Forall_keep_sub.
  - unfold Pg.delete_feedingRecord in E. inversion E; subst; clear E.
    split; [| split]; auto. cbn [feedingRecord]. now apply Forall_keep_sub.
  - unfold Pg.delete_measurementLog in E. inversion E; subst; clear E.
    split; [| split]; auto. cbn [measurementLog]. now apply Forall_keep_sub.
  - unfold Pg.delete_reminder in E. inversion E; subst; clear E.
    split; [| split]; auto. cbn [reminder]. now apply Forall_keep_sub.
Qed.

(** X17: what is stored about feedings, measurements and reminders is
    sanitized.  Suppose that of every stored row the texts are each
    absent or not empty and without white space around them (a food type,
    quantity, notes, unit, notification id; the metric type and the title,
    which are never absent), that a feeding's consumed state is one of
    fully, partially and refused and its weight, when present, is
    positive, and that a measurement without a value has the type "note"
    in whatever letter case.  Then the same holds after whatever request
    the server handles. *)
Theorem requests_keep_records_sanitized :
  forall rt env request db,
    clean_records db -> clean_records (snd (handle rt env request db)).
Proof.
  intros rt env request db Hc.
  destruct (handle_writes rt env request db)
    as [[auth [Ha [Hw | (_ & Hf & Hm & Hr)]]] | [_ (_ & Hf & Hm & Hr)]].
  - exact (writes_clean_records _ _ _ _ Hw Hc).
  - unfold clean_records. now rewrite Hf, Hm, Hr.
  - unfold clean_records. now rewrite Hf, Hm, Hr.
Qed.

Ltac clean_sample :=
  repeat match goal with
         | |- _ /\ _ => split
         | |- Forall _ _ => constructor
         | |- clean_opt _ => let s := fresh in let H := fresh in
                             intros s H; inversion H; subst
         | |- clean_text _ => split; [discriminate | reflexivity]
         | |- forall _, _ = _ -> _ => let s := fresh in let H := fresh in
                                      intros s H; try discriminate
         | |- _ = None -> _ => let H := fresh in intros H; try discriminate
         end.

Lemma sample_clean_animals : Forall clean_animal (animal Sample.db).
Proof. unfold clean_animal. simpl. clean_sample. Qed.

Lemma sample_clean_records : clean_records Sample.db.
Proof.
  unfold clean_records, clean_feeding, clean_measurement, clean_reminder. simpl.
  clean_sample. now left.
Qed.

Lemma requests_keep_animals_sanitized_witness :
  map Animal.name
      (animal (snd (handle Sample.runtime Sample.env (Sample.post_animal "  Iggy  ")
                      Sample.db)))
  = ["Rex"; "Rex"; "Spike"; "Iggy"]
  /\ Forall clean_animal
       (animal (snd (handle Sample.runtime Sample.env (Sample.post_animal "  Iggy  ")
                       Sample.db))).
Proof.
  split; [reflexivity |].
  exact (requests_keep_animals_sanitized Sample.runtime Sample.env
           (Sample.post_animal "  Iggy  ") Sample.db sample_clean_animals).
Defined.

Lemma requests_keep_records_sanitized_witness :
  map (fun r => (FeedingRecord.foodType r, FeedingRecord.quantity r, FeedingRecord.notes r))
      (feedingRecord (snd (handle Sample.runtime Sample.env Scenario.feed_rex Sample.db)))
  = [(Some "cricket", Some "3", None); (Some "mouse", Some "2", None)]
  /\ clean_records (snd (handle Sample.runtime Sample.env Scenario.feed_rex Sample.db)).
Proof.
  split; [reflexivity |].
  exact (requests_keep_records_sanitized Sample.runtime Sample.env
           Scenario.feed_rex Sample.db sample_clean_records).
Defined.

(* ================================================================= *)
(** ** Signing in and out on the mobile client *)

(** X18: what a sign-in or sign-up leaves behind.  While the call is
    pending [isAuthenticating] is set and the previous error is cleared.
    When the call fails, the user, the session and the stored item are as
    they were, so a failed attempt does not end an active session; the
    error shown is the message of the thrown [Error]; the failure is
    thrown again to the caller.  When it succeeds, the user and session of
    the reply become the active ones and are stored, and at the next start
    of the app [restoreSession] finds them: unless the stored expiry date
    has passed it asks /auth/me with the stored token, and when that call
    fails for another reason than a 401 or 403 answer, so also without any
    network, the user is signed in again with the stored user and
    session. *)
Theorem sign_in_outcomes :
  forall rt endpoint c p payload now t,
    let pending := AuthProvider.handleAuthentication endpoint c p in
    let settled := AuthProvider.settle pending (AuthProvider.Resolved payload) in
    new_Date rt (JStr (AuthContext.expiresAt (AuthContext.session payload))) = Some t ->
    now < t ->
    AuthProvider.while_pending pending
    = {| AuthProvider.auth := AuthProvider.auth p;
         AuthProvider.isAuthenticating := true; AuthProvider.error := None |}
    /\ (forall m,
          AuthProvider.settle pending (AuthProvider.Rejected (AuthProvider.AnError m))
          = {| AuthProvider.state :=
                 {| AuthProvider.auth := AuthProvider.auth p;
                    AuthProvider.isAuthenticating := false;
                    AuthProvider.error := Some m |};
               AuthProvider.rethrown := Some (AuthProvider.AnError m) |})
    /\ AuthProvider.state settled
       = {| AuthProvider.auth :=
              {| AuthContext.st_user := Some (AuthContext.user payload);
                 AuthContext.st_session := Some (AuthContext.session payload);
                 AuthContext.storage := Some payload |};
            AuthProvider.isAuthenticating := false; AuthProvider.error := None |}
    /\ AuthProvider.rethrown settled = None
    /\ exists k,
         AuthContext.restoreSession rt now (AuthProvider.restart (AuthProvider.state settled))
         = AuthContext.Request_auth_me (AuthContext.token (AuthContext.session payload)) k
         /\ (forall o, (forall refreshed, o <> AuthContext.Resolved refreshed) ->
                       AuthContext.error_status o <> Some 401 ->
                       AuthContext.error_status o <> Some 403 ->
                       k o = {| AuthContext.st_user := Some (AuthContext.user payload);
                                AuthContext.st_session := Some (AuthContext.session payload);
                                AuthContext.storage := Some payload |}).
Proof.
  intros rt endpoint c p payload now t pending settled Hdate Hlive.
  split; [reflexivity |]. split; [reflexivity |].
  assert (Hstate : AuthProvider.state settled
    = {| AuthProvider.auth :=
           {| AuthContext.st_user := Some (AuthContext.user payload);
              AuthContext.st_session := Some (AuthContext.session payload);
              AuthContext.storage := Some payload |};
         AuthProvider.isAuthenticating := false; AuthProvider.error := None |}).
  { destruct payload as [u s]. reflexivity. }
  split; [exact Hstate |]. split; [reflexivity |].
  rewrite Hstate. unfold AuthProvider.restart, AuthContext.restoreSession.
  cbn [AuthProvider.auth AuthContext.storage AuthContext.session].
  unfold AuthContext.isSessionExpired. rewrite Hdate.
  assert (Hle : (t <=? now) = false) by (apply Z.leb_gt; lia). rewrite Hle.
  eexists. split; [reflexivity |].
  intros o Hres H401 H403.
  destruct o as [refreshed | status message |].
  - exfalso. now apply (Hres refreshed).
  - cbn [AuthContext.error_status] in *.
    destruct status as [| q | q]; try reflexivity.
    assert (Hq : q <> 401%positive /\ q <> 403%positive) by (split; congruence).
    destruct Hq as [Hq1 Hq3].
    repeat (destruct q as [q | q |]; try reflexivity; try congruence).
  - reflexivity.
Qed.

Lemma sign_in_outcomes_witness :
  exists k,
    AuthContext.restoreSession Sample.runtime 100
      (AuthProvider.restart
         (AuthProvider.state
            (AuthProvider.settle
               (AuthProvider.signIn "alice" "correct horse"
                  {| AuthProvider.auth :=
                       {| AuthContext.st_user := None; AuthContext.st_session := None;
                          AuthContext.storage := None |};
                     AuthProvider.isAuthenticating := false;
                     AuthProvider.error := Some "Invalid username or password" |})
               (AuthProvider.Resolved Sample.cached))))
    = AuthContext.Request_auth_me "tok-alice" k
    /\ k AuthContext.FetchRejected
       = {| AuthContext.st_user := Some (AuthContext.user Sample.cached);
            AuthContext.st_session := Some (AuthContext.session Sample.cached);
            AuthContext.storage := Some Sample.cached |}.
Proof.
  destruct (sign_in_outcomes Sample.runtime "/auth/login"
              {| AuthProvider.username := "alice";
                 AuthProvider.password := "correct horse" |}
              {| AuthProvider.auth :=
                   {| AuthContext.st_user := None; AuthContext.st_session := None;
                      AuthContext.storage := None |};
                 AuthProvider.isAuthenticating := false;
                 AuthProvider.error := Some "Invalid username or password" |}
              Sample.cached 100 1000000 eq_refl)
    as (_ & _ & _ & _ & k & Hk & Hoff); [lia |].
  exists k. split; [exact Hk |].
  apply Hoff; [discriminate | discriminate | discriminate].
Defined.

(** X19: signing out is local and final.  [signOut] clears the user, the
    session and the stored item whatever becomes of the logout call, whose
    outcome is ignored; it calls /auth/logout with the session's token
    only when there was a session with a token that is not empty; and at
    the next start of the app [restoreSession] finds nothing and asks for
    nothing. *)
Theorem sign_out_is_local_and_final :
  forall rt now p,
    let after := fst (AuthProvider.signOut p) in
    AuthProvider.auth after
    = {| AuthContext.st_user := None; AuthContext.st_session := None;
         AuthContext.storage := None |}
    /\ AuthProvider.error after = AuthProvider.error p
    /\ AuthProvider.isAuthenticating after = AuthProvider.isAuthenticating p
    /\ (forall call, snd (AuthProvider.signOut p) = Some call <->
          exists s, AuthContext.st_session (AuthProvider.auth p) = Some s
                    /\ AuthContext.token s <> ""
                    /\ call = {| AuthProvider.endpoint := "/auth/logout";
                                 AuthProvider.http_method := "POST";
                                 AuthProvider.credentials := None;
                                 AuthProvider.bearer := Some (AuthContext.token s) |})
    /\ AuthContext.restoreSession rt now (AuthProvider.restart after)
       = AuthContext.Done {| AuthContext.st_user := None; AuthContext.st_session := None;
                             AuthContext.storage := None |}.
Proof.
  intros rt now p after. unfold after, AuthProvider.signOut.
  destruct (AuthContext.st_session (AuthProvider.auth p)) as [s |] eqn:Es;
    cbn [option_map].
  - destruct (Js.truthy (AuthContext.token s)) eqn:Et; cbn [negb fst snd].
    + split; [reflexivity |]. split; [reflexivity |]. split; [reflexivity |].
      split; [| reflexivity].
      intros call. split.
      * intros H. inversion H; subst call. exists s. split; [reflexivity |].
        split; [| reflexivity]. intros E. rewrite E in Et. discriminate.
      * intros (s' & Hs' & _ & ->). inversion Hs'; subst s'. reflexivity.
    + split; [reflexivity |]. split; [reflexivity |]. split; [reflexivity |].
      split; [| reflexivity].
      intros call. split; [discriminate |].
      intros (s' & Hs' & Hne & _). inversion Hs'; subst s'.
      exfalso. apply Hne. unfold Js.truthy in Et. apply negb_false_iff in Et.
      now apply String.eqb_eq in Et.
  - cbn [fst snd]. split; [reflexivity |]. split; [reflexivity |].
    split; [reflexivity |]. split; [| reflexivity].
    intros call. split; [discriminate |]. intros (s' & Hs' & _). discriminate.
Qed.

Lemma sign_out_is_local_and_final_witness :
  snd (AuthProvider.signOut
         {| AuthProvider.auth :=
              {| AuthContext.st_user := Some (AuthContext.user Sample.cached);
                 AuthContext.st_session := Some (AuthContext.session Sample.cached);
                 AuthContext.storage := Some Sample.cached |};
            AuthProvider.isAuthenticating := false;
            AuthProvider.error := None |})
  = Some {| AuthProvider.endpoint := "/auth/logout";
            AuthProvider.http_method := "POST";
            AuthProvider.credentials := None;
            AuthProvider.bearer := Some "tok-alice" |}.
Proof.
  destruct (sign_out_is_local_and_final Sample.runtime 100
              {| AuthProvider.auth :=
                   {| AuthContext.st_user := Some (AuthContext.user Sample.cached);
                      AuthContext.st_session := Some (AuthContext.session Sample.cached);
                      AuthContext.storage := Some Sample.cached |};
                 AuthProvider.isAuthenticating := false;
                 AuthProvider.error := None |})
    as (_ & _ & _ & Hcall & _).
  apply Hcall. exists (AuthContext.session Sample.cached).
  split; [reflexivity |]. split; [discriminate | reflexivity].
Defined.

(* ================================================================= *)
(** ** The client's requests *)















Lemma triple_exec_500 (I : Db -> Db -> Prop) (P : Reply -> Prop) {A} (q : Query A) :
  (forall db, I db db) ->
  (forall e, P (server_error e)) ->
  (forall db a db', q db = inr (a, db') -> I db db') ->
  triple I P (exec q).
Proof.
  intros Hrefl HP Hq db. unfold exec.
  destruct (q db) as [e | [a db']] eqn:E.
  - split; [apply Hrefl | apply HP].
  - eapply Hq; eauto.
Qed.

Ltac error_step :=
  lazymatch goal with
  | |- triple _ _ (bind _ _) => apply (@triple_bind _ _ any_change_trans); [ | intro ]
  | |- triple _ _ (ret _) => apply (@triple_ret _ _ any_change_refl)
  | |- triple _ _ (select _) => apply (@triple_select _ _ any_change_refl)
  | |- triple _ _ (reply _ _) => apply (@triple_reply _ _ any_change_refl)
  | |- triple _ _ (exec _) =>
      apply (@triple_exec_500 _ _ _ _ any_change_refl);
      [ intro; intros _; eexists; reflexivity | intros; exact I ]
  | |- triple _ _ (match ?x with _ => _ end) => destruct x
  | |- triple _ _ (let _ := _ in _) => cbv zeta
  end.

Ltac names_error_reply :=
  unfold names_error; cbn [code payload]; intros;
  first [ lia | eexists; reflexivity ].

Lemma names_error_routes r :
  In r api -> forall rt env request,
  triple any_change names_error (route_handler r rt env request).
Proof.
  intros Hin rt env request.
  repeat (destruct Hin as [<- | Hin]); try contradiction; simpl;
    unfold_routes; unfold_auth;
    repeat error_step; names_error_reply.
Qed.

(** X21: every error of the server reaches the client with its
    message.  Whatever request the server handles, a reply with a status
    of 400 or more names its error in a string under [error]; and when
    that reply arrives as a JSON response that is not ok, [apiRequest]
    throws an [ApiError] with that string as message, the reply's status
    and the reply's body as data. *)
Theorem server_errors_reach_the_client :
  forall rt env request db String_ response contentType,
    let rep := fst (handle rt env request db) in
    400 <= code rep ->
    Api.ok response = false ->
    Api.status response = code rep ->
    Api.content_type response = Some contentType ->
    Api.includes "application/json" contentType = true ->
    Api.parsed response = Some (payload rep) ->
    exists m,
      field "error" (payload rep) = Some (JStr m)
      /\ Api.respond String_ (Api.Responded response)
         = Api.Threw {| Api.message := m; Api.error_status := code rep;
                        Api.data := payload rep |}.
Proof.
  intros rt env request db String_ response contentType rep Hcode Hok Hst Hct Hjson Hp.
  destruct (handle_triple any_change names_error rt env any_change_refl
              (fun _ _ => ex_intro _ "Not Found" eq_refl)
              (fun r Hr request => names_error_routes r Hr rt env request) request db)
    as [_ Hn].
  fold rep in Hn. destruct (Hn Hcode) as [m Hm].
  exists m. split; [exact Hm |].
  unfold Api.respond. rewrite Hok, Hct, Hjson, Hp, Hst. cbn [negb].
  destruct (payload rep) as [| | | | | o]; try discriminate.
  cbn [field] in Hm. rewrite Hm. reflexivity.
Qed.

Lemma server_errors_reach_the_client_witness :
  Api.respond (fun _ => "")
    (Api.Responded
       {| Api.ok := false; Api.status := 401; Api.statusText := "Unauthorized";
          Api.content_type := Some "application/json; charset=utf-8";
          Api.parsed :=
            Some (payload (fst (handle Sample.runtime Sample.env
                                  (Scenario.bearing GET ["animals"] None) Sample.db))) |})
  = Api.Threw {| Api.message := "Unauthorized"; Api.error_status := 401;
                 Api.data := JObj [("error", JStr "Unauthorized")] |}.
Proof.
  destruct (server_errors_reach_the_client Sample.runtime Sample.env
              (Scenario.bearing GET ["animals"] None) Sample.db (fun _ => "")
              {| Api.ok := false; Api.status := 401; Api.statusText := "Unauthorized";
                 Api.content_type := Some "application/json; charset=utf-8";
                 Api.parsed :=
                   Some (payload (fst (handle Sample.runtime Sample.env
                                         (Scenario.bearing GET ["animals"] None)
                                         Sample.db))) |}
              "application/json; charset=utf-8")
    as (m & Hm & Hr);
    [ simpl; lia | reflexivity | reflexivity | reflexivity | reflexivity | reflexivity | ].
  rewrite Hr. simpl in Hm. inversion Hm. reflexivity.
Defined.

(* ================================================================= *)
(** ** The base URL of the client *)

Lemma strip_slash_snoc u : Api.strip_slash (u ++ "/")%string = u.
Proof.
  induction u as [| c u IH]; [reflexivity |].
  change (String c u ++ "/")%string with (String c (u ++ "/")%string).
  cbn [Api.strip_slash]. rewrite IH.
  destruct u; reflexivity.
Qed.

(** X22: the base URL.  A configured URL that is not blank is used in
    every environment, without the white space around it and without a
    slash at its end, so that writing the URL with or without a final
    slash makes no difference; with no or a blank configuration, a web
    build that is neither an Expo store client nor a standalone build
    uses the local default and every other build the deployed backend. *)
Theorem base_url_selection :
  forall isStoreClient isStandalone isWeb,
    (forall s,
        Js.trim s <> "" ->
        Api.API_BASE_URL (Some s) isStoreClient isStandalone isWeb
        = Api.strip_slash (Js.trim s))
    /\ (forall u, Api.strip_slash (u ++ "/")%string = u)
    /\ (forall c,
          c = None \/ (exists s, c = Some s /\ Js.trim s = "") ->
          Api.API_BASE_URL c isStoreClient isStandalone isWeb
          = if isStoreClient || isStandalone then Api.DEVICE_DEFAULT_BASE_URL
            else if isWeb then Api.LOCAL_DEFAULT_BASE_URL
            else Api.DEVICE_DEFAULT_BASE_URL).
Proof.
  intros st sa web. split; [| split].
  - intros s Hs. unfold Api.API_BASE_URL. cbn [option_map].
    rewrite (truthy_nonempty _ Hs).
    assert (Hlen : (0 <? Js.length (Js.trim s)) = true).
    { apply Z.ltb_lt. unfold Js.length. destruct (Js.trim s); [congruence | simpl; lia]. }
    now rewrite Hlen.
  - exact strip_slash_snoc.
  - intros c [-> | [s [-> Hs]]]; unfold Api.API_BASE_URL; cbn [option_map];
      try rewrite Hs; destruct st, sa, web; reflexivity.
Qed.

Lemma base_url_selection_witness :
  Api.API_BASE_URL (Some " https://example.org/ ") false false true
  = "https://example.org"
  /\ Api.API_BASE_URL (Some "   ") false false true = "http://localhost:3001".
Proof.
  destruct (base_url_selection false false true) as (Hset & _ & Hdefault).
  split.
  - rewrite (Hset " https://example.org/ "); [reflexivity | discriminate].
  - rewrite (Hdefault (Some "   ")); [reflexivity |].
    right. exists "   ". split; reflexivity.
Defined.

(* ================================================================= *)
(** ** Deleting twice *)

Lemma none_owned_keep {Row} (id userId : Row -> string) (p : Row -> bool) l i u :
  (forall r, p r = true <-> id r = Pg.uuid_in i /\ userId r = u) ->
  none_owned id userId (Pg.keep p l) i u.
Proof.
  intros Hp r Hr Hid Hu. unfold Pg.keep in Hr. apply filter_In in Hr.
  destruct Hr as [_ Hr]. apply negb_true_iff in Hr.
  assert (p r = true) by (apply Hp; auto). congruence.
Qed.

Lemma feeding_by_id_user_spec id u r :
  Feedings.by_id_user id u r = true
  <-> FeedingRecord.id r = Pg.uuid_in id /\ FeedingRecord.userId r = u.
Proof. unfold Feedings.by_id_user. now rewrite andb_true_iff, !eq_spec. Qed.

Lemma measurement_by_id_user_spec id u r :
  Measurements.by_id_user id u r = true
  <-> MeasurementLog.id r = Pg.uuid_in id /\ MeasurementLog.userId r = u.
Proof. unfold Measurements.by_id_user. now rewrite andb_true_iff, !eq_spec. Qed.

Lemma reminder_by_id_user_spec id u r :
  Reminders.by_id_user id u r = true
  <-> Reminder.id r = Pg.uuid_in id /\ Reminder.userId r = u.
Proof. unfold Reminders.by_id_user. now rewrite andb_true_iff, !eq_spec. Qed.

Lemma delete_feeding_table env request db auth id :
  requireAuth env request db = (inr auth, db) ->
  Zod.safeParse idShape (Some (JObj (params request))) = Zod.success id ->
  feedingRecord (snd (run (Feedings.delete_feeding env request) db))
  = Pg.keep (Feedings.by_id_user id (User.id (ctx_user auth))) (feedingRecord db).
Proof.
  intros Ha Hid. unfold Feedings.delete_feeding.
  change Feedings.deleteParamsSchema with idShape.
  rewrite (run_authenticated _ _ _ _ _ Ha), Hid.
  unfold run, bind, exec, Pg.delete_feedingRecord.
  destruct (filter _ _); reflexivity.
Qed.

Lemma delete_measurement_table env request db auth id :
  requireAuth env request db = (inr auth, db) ->
  Zod.safeParse idShape (Some (JObj (params request))) = Zod.success id ->
  measurementLog (snd (run (Measurements.delete_measurement env request) db))
  = Pg.keep (Measurements.by_id_user id (User.id (ctx_user auth))) (measurementLog db).
Proof.
  intros Ha Hid. unfold Measurements.delete_measurement.
  change Measurements.measurementParamsSchema with idShape.
  rewrite (run_authenticated _ _ _ _ _ Ha), Hid.
  unfold run, bind, exec, Pg.delete_measurementLog.
  destruct (filter _ _); reflexivity.
Qed.

Lemma delete_reminder_table env request db auth id :
  requireAuth env request db = (inr auth, db) ->
  Zod.safeParse idShape (Some (JObj (params request))) = Zod.success id ->
  reminder (snd (run (Reminders.delete_reminder env request) db))
  = Pg.keep (Reminders.by_id_user id (User.id (ctx_user auth))) (reminder db).
Proof.
  intros Ha Hid. unfold Reminders.delete_reminder.
  change Reminders.reminderParamsSchema with idShape.
  rewrite (run_authenticated _ _ _ _ _ Ha), Hid.
  unfold run, bind, exec, Pg.delete_reminder.
  destruct (filter _ _); reflexivity.
Qed.

Lemma delete_animal_table env request db auth id :
  requireAuth env request db = (inr auth, db) ->
  Zod.safeParse idShape (Some (JObj (params request))) = Zod.success id ->
  animal (snd (run (Animals.delete_animal env request) db))
  = Pg.keep (Animals.by_id_user id (User.id (ctx_user auth))) (animal db).
Proof.
  intros Ha Hid. unfold Animals.delete_animal.
  change Animals.animalParamsSchema with idShape.
  rewrite (run_authenticated _ _ _ _ _ Ha), Hid.
  unfold run, bind, exec, Pg.delete_animal. cbv zeta.
  destruct (filter _ _); reflexivity.
Qed.

(** X23: what is deleted stays deleted.  After a DELETE of an id by an
    authenticated user, whatever it answered, a further DELETE of the
    same id by the same user on the same route answers 404 and changes
    nothing: for feedings, measurements, reminders and animals. *)
Theorem deleting_again_answers_404 :
  forall env request db auth id env2 request2 auth2,
    requireAuth env request db = (inr auth, db) ->
    Zod.safeParse idShape (Some (JObj (params request))) = Zod.success id ->
    Zod.safeParse idShape (Some (JObj (params request2))) = Zod.success id ->
    User.id (ctx_user auth2) = User.id (ctx_user auth) ->
    (let db1 := snd (run (Feedings.delete_feeding env request) db) in
     requireAuth env2 request2 db1 = (inr auth2, db1) ->
     run (Feedings.delete_feeding env2 request2) db1
     = (not_found "Feeding record not found", db1))
    /\ (let db1 := snd (run (Measurements.delete_measurement env request) db) in
        requireAuth env2 request2 db1 = (inr auth2, db1) ->
        run (Measurements.delete_measurement env2 request2) db1
        = (not_found "Measurement not found", db1))
    /\ (let db1 := snd (run (Reminders.delete_reminder env request) db) in
        requireAuth env2 request2 db1 = (inr auth2, db1) ->
        run (Reminders.delete_reminder env2 request2) db1
        = (not_found "Reminder not found", db1))
    /\ (let db1 := snd (run (Animals.delete_animal env request) db) in
        requireAuth env2 request2 db1 = (inr auth2, db1) ->
        run (Animals.delete_animal env2 request2) db1
        = (not_found "Animal not found", db1)).
Proof.
  intros env request db auth id env2 request2 auth2 Ha Hid Hid2 Hu.
  split; [| split; [| split]]; intros db1 Ha2.
  - apply (delete_feeding_missing env2 request2 db1 auth2 id Ha2 Hid2).
    unfold db1. rewrite (delete_feeding_table env request db auth id Ha Hid), Hu.
    apply none_owned_keep. intros r. apply feeding_by_id_user_spec.
  - apply (delete_measurement_missing env2 request2 db1 auth2 id Ha2 Hid2).
    unfold db1. rewrite (delete_measurement_table env request db auth id Ha Hid), Hu.
    apply none_owned_keep. intros r. apply measurement_by_id_user_spec.
  - apply (delete_reminder_missing env2 request2 db1 auth2 id Ha2 Hid2).
    unfold db1. rewrite (delete_reminder_table env request db auth id Ha Hid), Hu.
    apply none_owned_keep. intros r. apply reminder_by_id_user_spec.
  - apply (delete_animal_missing env2 request2 db1 auth2 id Ha2 Hid2).
    unfold db1. rewrite (delete_animal_table env request db auth id Ha Hid), Hu.
    apply none_owned_keep. intros r. apply animal_by_id_user_spec.
Qed.

Lemma deleting_again_answers_404_witness :
  run (Feedings.delete_feeding Sample.env Sample.remove_feeding) Sample.db
  = (deleted, snd (run (Feedings.delete_feeding Sample.env Sample.remove_feeding)
                       Sample.db))
  /\ run (Feedings.delete_feeding Sample.env Sample.remove_feeding)
         (snd (run (Feedings.delete_feeding Sample.env Sample.remove_feeding) Sample.db))
     = (not_found "Feeding record not found",
        snd (run (Feedings.delete_feeding Sample.env Sample.remove_feeding) Sample.db)).
Proof.
  split; [reflexivity |].
  destruct (deleting_again_answers_404 Sample.env Sample.remove_feeding Sample.db
              Sample.alice_auth Sample.feeding_id Sample.env Sample.remove_feeding
              Sample.alice_auth eq_refl eq_refl eq_refl eq_refl) as [H _].
  apply H. reflexivity.
Defined.

(* ================================================================= *)
(** ** Renaming an animal to the name it has *)

(** X24: renaming an animal to its own name, and the spelling of the
    id.  In a store whose animal names are unique per user and whose ids
    are in lower case, a PATCH /animals/:id by the owner of the animal
    whose body names the animal's present name is not a conflict when the
    id in the path is the stored id: it answers 200 with the changed row
    when the database accepts the values of the body, and the 500 of its
    refusal, changing nothing, when it does not.  When the path spells the
    same id with capital letters, which the identifier schema accepts and
    the database reads as the same id, the duplicate check compares the
    two spellings as text: the answer is 409 and nothing is changed (the
    stored name holding no character of code zero, as Postgres stores
    none). *)
Theorem renaming_to_own_name :
  forall rt env request db auth id data n r,
    requireAuth env request db = (inr auth, db) ->
    Zod.safeParse Animals.animalParamsSchema (Some (JObj (params request)))
    = Zod.success id ->
    Zod.safeParse (Animals.updateAnimalSchema rt) (body request) = Zod.success data ->
    Animals.u_name data = Some n ->
    animal_user_name_unique db ->
    canonical_ids db ->
    In r (animal db) ->
    Animal.userId r = User.id (ctx_user auth) ->
    Animal.name r = n ->
    Animal.id r = Pg.uuid_in id ->
    (Animal.id r = id ->
     unless_refused rt
       (Animals.set_values env (Animals.sanitizeUpdateAnimalPayload data))
       (Animals.patch_animal rt env request) db
       (updated animal (Animals.by_id_user id (User.id (ctx_user auth)))
          (Animals.set_row env (Animals.sanitizeUpdateAnimalPayload data))
          (Animals.toAnimalResponse rt) r (Animals.patch_animal rt env request) db))
    /\ (Animal.id r <> id ->
        Pg.has_nul (Animal.name r) = false ->
        run (Animals.patch_animal rt env request) db = (conflict, db)).
Proof.
  intros rt env request db auth id data n r Ha Hid Hp Hname Huniq Hcanon Hin Hu Hn Hrid.
  destruct (updateAnimalSchema_object _ _ _ Hp) as [o Ho].
  pose proof Hp as Hp'. rewrite Ho in Hp'.
  destruct (updateAnimalSchema_name _ _ _ Hp') as (Hkeys & _ & Hnm).
  destruct (Hnm n Hname) as (raw & _ & Hraw & Hlen).
  assert (Htrim : Js.trim n = n) by (rewrite Hraw; apply trim_idem).
  split.
  - intros Hsame. apply unless_refused_cases.
    apply (patch_animal_owned rt env request db auth id data r
             Ha Hid Hp Huniq Hcanon Hin Hsame Hu).
    intros n' q Hn' Hq Hqu Hqn. rewrite Hname in Hn'. inversion Hn'; subst n'.
    apply Huniq; auto; congruence.
  - intros Hdiff Hnul. unfold Animals.patch_animal.
    rewrite (run_authenticated _ _ _ _ _ Ha), Hid, Hp. cbv zeta.
    assert (Hk : (Animals.payload_keys (Animals.sanitizeUpdateAnimalPayload data) =? 0)
                 = false).
    { rewrite update_keys_payload_keys. apply Z.eqb_neq. lia. }
    rewrite Hk.
    unfold Animals.sanitizeUpdateAnimalPayload at 1. cbn [Animals.p_name].
    rewrite Hname. cbn [option_map]. rewrite Htrim, (truthy_length _ Hlen).
    rewrite Hn in Hnul.
    match goal with
    | |- context [run (bind ?chk ?k) db] =>
        assert (Hchk : chk db = (inl conflict, db))
    end.
    { unfold bind at 1, exec.
      rewrite (select_where_accepted rt _ _ db (first_refused_text rt n Hnul)).
      destruct (filter_first (Animals.by_user_name (User.id (ctx_user auth)) n)
                  (animal db) r Hin) as (x & rest & E & Hx & Hpx).
      { apply by_user_name_spec. auto. }
      rewrite E. unfold Pg.limit. cbn [firstn].
      apply by_user_name_spec in Hpx. destruct Hpx as [Hxu Hxn].
      assert (x = r) by (apply Huniq; auto; congruence). subst x.
      assert (Hne : String.eqb (Animal.id r) id = false) by now apply String.eqb_neq.
      rewrite Hne. reflexivity. }
    now rewrite (run_bind_inl _ _ _ _ _ Hchk).
Qed.

Lemma renaming_to_own_name_witness :
  In Sample.rex (animal Sample.db)
  /\ Animal.id Sample.rex = Pg.uuid_in Scenario.REX_ID
  /\ run (Animals.patch_animal Sample.runtime Sample.env Scenario.rename_rex_to_rex)
       Sample.db
     = (conflict, Sample.db)
  /\ code (fst (run (Animals.patch_animal Sample.runtime Sample.env
                       Scenario.rename_rex_as_rex) Sample.db)) = 200.
Proof.
  split; [now left |]. split; [reflexivity |]. split.
  - refine (proj2 (renaming_to_own_name Sample.runtime Sample.env
                     Scenario.rename_rex_to_rex Sample.db Sample.alice_auth
                     Scenario.REX_ID _ "Rex" Sample.rex
                     eq_refl eq_refl eq_refl eq_refl
                     sample_unique_names sample_canonical_ids
                     (or_introl eq_refl) eq_refl eq_refl eq_refl) _ _);
      [discriminate | reflexivity].
  - destruct (renaming_to_own_name Sample.runtime Sample.env
                Scenario.rename_rex_as_rex Sample.db Sample.alice_auth
                Sample.rex_id _ "Rex" Sample.rex
                eq_refl eq_refl eq_refl eq_refl
                sample_unique_names sample_canonical_ids
                (or_introl eq_refl) eq_refl eq_refl eq_refl) as [H _].
    destruct (H eq_refl) as [Hok _].
    destruct (Hok eq_refl) as (r0 & db' & _ & _ & Hrun & _).
    rewrite Hrun. reflexivity.
Defined.
